(* ===== verification/_CoqProject ===== *)
-Q . S2P
Prelude.v
GoStd.v
GoUrl.v
GoJson.v
GoTime.v
GoUnmarshal.v
GoBase64.v
Api.v
Externals.v
SpErrors.v
OAuthState.v
Effects.v
Samples.v
TokenStorage.v
SpConfig.v
Factory.v
Lookup.v
AccessTokenMapper.v
BindingTarget.v
Enqueue.v
TokenController.v
BindingController.v
RequestControllers.v
TokenUpload.v
RemoteSecretOAuth.v
OAuthSync.v
OAuthService.v
GoPath.v
ClientFactory.v
StartUp.v
Processes.v
Responses.v
GoRegexp.v
Quay.v
QuayProvider.v
GitHub.v
GitLab.v
HostCredentials.v
Providers.v
System.v
Metrics.v
OtherControllers.v
Wiring.v
Rejections.v
Injection.v
Contracts.v
Schedules.v
Packages.v
Delivery.v
Cluster.v
Convergence.v
