(* ===== verification/Prelude.v ===== *)
(** * Service Provider Integration (SPI) operator: verification development

    ** The program

    The operator lets the users of a Kubernetes cluster give workloads access
    to source repositories and image registries.  A user creates an
    [SPIAccessTokenBinding] for a repository URL; the binding controller finds
    or creates an [SPIAccessToken] for the service provider of that URL; the
    user supplies the token data through the OAuth service, through a labelled
    secret or over HTTP; the token controller keeps the token object's status
    and metadata; when the token is ready, the binding controller has the token
    injected into a secret of the namespace.  The OAuth service (a second
    process) talks to the operator only through the token storage and through
    [SPIAccessTokenDataUpdate] objects, which the operator's watches turn into
    reconciliations and then delete.

    ** How code with effects is modelled

    [Effects]: a program is a tree of calls to its environment (the API server,
    the storages, the service providers, the dependents handler, the sessions,
    the clock).  [exec p tr a] holds when [p] can make the calls of the trace
    [tr] with the answers recorded there and return [a].  Nothing is assumed of
    the answers, so a theorem about every [tr] covers failures, stale reads and
    writers that run in between.  Where a theorem needs the environment to keep
    a contract, the contract is a predicate on the trace ([run_store]) or a
    class with laws, and a concrete instance shows that it can be kept.
    [run_trace] executes a program against a concrete environment; every
    program is a finite tree, so every handler terminates
    ([run_trace_exec]).  [sat] is the program logic for properties of each
    call of a trace.

    ** Files, from the bottom up

    - [Prelude]: results, boolean reflection, list lemmas, tactics.
    - [GoStd], [GoUrl], [GoPath], [GoJson], [GoUnmarshal], [GoTime], [GoBase64],
      [GoRegexp]: the parts of Go's standard library that the code computes with
      (errors and their wrapping, strings, saturating durations, [url.Parse],
      [url.JoinPath], [json.Marshal], [json.Unmarshal] into structs and maps,
      [time.ParseDuration], base64, the regular expressions of the providers).
    - [Api]: api/v1beta1, one record per Go struct, with the validation of
      bindings.  [Externals]: pkg/config and pkg/spi-shared/config data, and
      the class [Externals] of pure third-party functions; all theorems hold
      for every instance.  [Samples]: concrete objects and environments for the
      witnesses.
    - [SpErrors]: pkg/errors.  [OAuthState]: pkg/spi-shared/oauthstate.
    - [TokenStorage]: pkg/spi-shared/tokenstorage and secretstorage, a module
      per implementation ([DefaultTokenStorage], [NotifyingTokenStorage],
      [MemoryTokenStorage], [NotifyingSecretStorage]).
    - [SpConfig]: pkg/spi-shared/config (conversion, defaults, user secrets).
    - [Factory]: Factory.FromRepoUrl of pkg/serviceprovider.  [Lookup]: the
      metadata cache, the filters, GenericLookup with one goroutine per token
      as a pool of programs under any schedule, credentials of remote secrets.
      [AccessTokenMapper]: the layouts of the injected secret.
    - [Quay] (login, scopes and records found out by requests) and
      [QuayProvider] (the cached state, the filter, the access check),
      [GitHub], [GitLab], [HostCredentials]: the packages of
      pkg/serviceprovider that implement the interface for one provider.
      [Providers]: their registration in cmd/operator, composed with the
      factory; the calls of [SpE] that the controllers make are what these
      packages implement.
    - [BindingTarget]: controllers/bindingtarget.
    - [Enqueue]: enqueue.go, the watch functions and the data update
      controller.  [TokenController], [BindingController]: the two main
      controllers.  [RequestControllers]: access checks ([Check]) and file
      content requests ([File]).  [TokenUpload]: the upload secret controller.
      [RemoteSecretOAuth]: OAuth URLs of remote secrets.  [OtherControllers]:
      the clean-up after environments and applications.
    - [OAuthSync], [OAuthService]: the OAuth service; state storage,
      authentication, synchronization strategies and upload in the first,
      router and flow in the second.  [ClientFactory]: oauth/clientfactory; its
      [with_user_clients] puts the factory in place of every request of a
      handler for the client of a user.
    - [StartUp]: reading of the configuration, main of cmd/oauth up to the
      server, and the registration of the operator's controllers.
      [Processes]: main of cmd/operator, and the servers of both processes from
      listening to shutting down.  [Wiring]: SetupWithManager of every
      controller as a table of finalizers and sources, and what an event
      enqueues.
    - [Responses]: oauth/logs.go and the pages of oauth/handlers.go on a model of
      http.ResponseWriter; what is sent for the responses of the handlers of
      [OAuthService].  [Metrics]: the timers and observations of
      pkg/spi-shared/metrics, pkg/serviceprovider/metrics.go and oauth/metrics.go,
      around the functions they observe.
    - [System]: the controllers composed with the factory and the packages of the
      providers.  [with_providers] runs a program that calls the abstract
      interface [SpE] with the methods of the provider that the factory chose;
      [linked] relates the two traces, call by call
      ([with_providers_exec]), so that what is proved of a controller against
      any provider holds of the composition.  [Rejections] composes the token
      controller with the four packages, [Injection] the data getter of the
      injected secrets.
    - [Schedules]: every schedule of a lookup's goroutines as a program.
      [Contracts]: the logic [wp] of programs that run beside others (what their
      calls guarantee, as long as the answers are what they rely on), and the
      controllers and the OAuth service in it.  [Packages]: the packages of the
      providers in it, and the rule that composes ([wp_with_providers]).
      [Delivery]: the handlers of the OAuth service composed with the token storage
      and the clients that cmd/oauth builds for them.  [Convergence]: a reference
      definition of what the binding controller writes and leaves behind in
      surroundings that do not change, each kind of write of the binding being
      carried out or refused; an object that is being deleted goes when it has no
      finalizers left, and controller-runtime's [Finalize] is a parameter with two laws.
      [Cluster]: all of them as threads around one API server that stores the
      tokens and the bindings, with the users.

    A definition has the name of the Go function it translates.  A function
    that the code writes as one long body with early returns ([Reconcile]) is
    cut at those returns into definitions of its own ([Reconcile_live],
    [Reconcile_link], ...), composed in the order of the code.  A Go method
    that changes its receiver returns the changed value; calls on the cluster
    return the object as the server answered it.

    ** What the theorems show

    - Injection into secrets: only a consistent, live, linked binding is
      synchronized ([sync_is_guarded]); a failed synchronization is rolled back
      to the checkpoint taken before it ([sync_is_transactional]); linking
      that fails asks for the deletion of the token that it created
      ([linkToken_cleans_up]).
    - Convergence: one reconciliation of a binding writes exactly the versions of a
      reference definition, on every branch, and after four of them at most a fixed
      point is reached, so that the events of the controller's own writes die out
      ([reconcile_writes_reference], [binding_converges]).
    - The life of objects: tokens, access checks, file requests, upload secrets
      and data updates are deleted exactly when the code means to, and what
      remains is reconciled again at the end of its life.
    - Statuses: every status the token controller writes is consistent
      ([token_reconcile_writes]); in every state that the cluster reaches, however
      all the programs and the users interleave, the status of every token is
      presentable ([tokens_always_presentable]), a binding is only linked to a
      token of its own namespace, it is linked when it is injected, and what is
      injected is the data of the ready token that it is linked to
      ([injections_confined]).
    - Composition: a status that reports access is the answer of the provider of
      the URL, on evidence ([access_is_justified]); a delivered file is the one
      that the provider's API answered, read with credentials of the same
      namespace ([file_delivered_from_provider]); a token that is linked as
      matching is the linked one, or else the first, of those that the provider's
      lookup offered under any schedule
      ([linked_token_offered]); an injected secret holds the token that the
      storage answered, except when Quay cannot be asked about the repository
      ([secret_holds_stored_token]); a token that its provider refuses is retried for
      ever, which exhibits a fault of the code, and becomes Invalid only when GitHub's
      stored access token is empty ([rejected_token_is_retried]).
    - Storages: the default storage refines the one in memory, but for the error of a
      deletion of what is not there ([default_storage_refines_memory]); the notifying
      storages announce exactly the successful writes, and the events of the
      announcement wake the owner, the bindings linked to it and the controller
      that deletes the announcement, and nothing else, whichever controllers
      run ([stored_data_wakes_dependents]).
    - Matching: under every schedule the concurrent lookup returns the tokens
      it should; remote secrets are looked up by their target; the cache
      honours its time to live; the factory builds the provider of the URL.
    - Providers: the factory answers each URL with the provider registered for
      it ([operator_providers]); Quay's cache serves what is within its time to live and
      stamps what it fetches, and credentials are only sent to Quay ([quay_cache_protocol],
      [quay_credentials_stay]); the paging through GitHub's repositories ends
      and sees every page ([github_paging]); an exact match enables what was
      asked for ([github_exact_match]); access checks and downloads answer what
      the provider's responses say ([quay_access_check], [github_access_check],
      [gitlab_download]); scopes and stored states have reference definitions
      they are equal to ([gitlab_scopes], [quay_state_roundtrip]).
    - OAuth: the state survives encoding and veiling; the flow starts only for
      a user with access and ends with a token saved only for a state veiled in
      the same session; saving to a remote secret retries a bounded number of
      times.  [shared_strategy_race] exhibits a race of the code.
    - Delivery: the callback shows success, and the upload answers 204, exactly when
      the data were stored for the token object that was read for that user and
      one announcement was created, whose events wake what depends on the token
      ([callback_delivers], [upload_delivers]).
    - Clients of users: whatever a handler does, each client that acts for a
      user is bound to the workspace the server listed for the namespace with
      the bearer token of that user ([user_clients_confined]); the kinds the
      handlers touch are those the clients know ([mappers_complete]); the
      service listens only when it is completely configured
      ([main_well_started]), and the operator starts its manager only when every
      controller and probe is set up ([operator_started]).
    - Responses: of several responses to one request the first is the one that is
      sent, with the headers set before it ([first_response_counts]); the error
      page shows the parameters of the URL without letting markup through
      ([callback_error_page]).  The metrics observe and change nothing
      ([metrics_transparent]).

    ** Bounds and fuel

    Recursion is structural except for the JSON parser (two units of fuel per
    byte, more never changes the result: [GoJson.parse_value_fuel]), the string
    unquoter and the duration parser (one unit per byte; every step consumes
    one: [unquote_fuel_enough], [GoTime.parse_components_fuel]), and the
    decimal printer (20 digits, enough for 64 bits).  Durations saturate at
    [int64]; token expiries wrap at [uint64]; parsed durations use the binary64
    operations of the standard library where Go does.  The paging of GitHub has
    one unit of fuel per page: [github_paging] shows that it runs out only when
    every one of that many answers names a further page.  In [Cluster] every
    start of a program chooses its fuel and its schedule.

    ** Not modelled

    The dependents handler, secret storages and HTTP round trippers of
    remote-secret (third-party: calls of [DepE] and [SecretStorageE],
    parameters in [Rejections]) and the SDKs of GitHub and GitLab (calls of [GhE]
    and [GlE], with the parts of the answers the code reads); the HTTP server
    and the multiplexer that matches the routes (the table of routes is in
    [StartUp]); the controller manager, its queues and its cache (what an event
    enqueues is in [Wiring]); the registries of Prometheus and the log records;
    the parsing of the command line (go-arg); the static pages; generated deep
    copies, mocks and test environments.  The goroutine of a server and the one
    that waits for the interrupt are separate programs.  Texts of JSON and URL
    syntax errors are abbreviated.

    ** What could be added

    The convergence of the token controller; the queue of a controller with its retries as a transition system over the
    requests of [Wiring], in place of the arbitrary starts of [Cluster], which
    needs a model of controller-runtime; the stored token data, and the objects of
    other kinds than tokens and bindings, in the states of [Cluster]. *)

From Stdlib Require Export Ascii ZArith.
From stdpp Require Export base tactics list strings gmap option.
#[global] Set Default Proof Using "Type".

#[global] Arguments Ascii.eqb : simpl never.
#[global] Arguments String.eqb : simpl never.

(** ** Notation scope of the development *)

Declare Scope spi_scope.
Delimit Scope spi_scope with spi.

(** ** Results of fallible Go functions

    A Go function returning [(T, error)] where exactly one of the two is
    meaningful is a [result]; functions that return a value and an error at
    the same time are given a product type where they are defined. *)

Inductive result (E A : Type) : Type :=
| Ok (a : A)
| Err (e : E).
Arguments Ok {E A} a.
Arguments Err {E A} e.

Definition rbind {E A B} (r : result E A) (f : A -> result E B) : result E B :=
  match r with Ok a => f a | Err e => Err e end.

Definition map_err {E E' A} (f : E -> E') (r : result E A) : result E' A :=
  match r with Ok a => Ok a | Err e => Err (f e) end.

Definition is_ok {E A} (r : result E A) : bool :=
  match r with Ok _ => true | Err _ => false end.

Definition ok_option {E A} (r : result E A) : option A :=
  match r with Ok a => Some a | Err _ => None end.

Notation "'let?' x ':=' r 'in' k" := (rbind r (fun x => k))
  (at level 10, x pattern, r at level 100, k at level 200) : spi_scope.

(** Injectivity without reducing the two sides. *)
Lemma Ok_inj {E A} (a b : A) : @Ok E A a = Ok b -> a = b.
Proof. congruence. Qed.
Lemma Err_inj {E A} (a b : E) : @Err E A a = Err b -> a = b.
Proof. congruence. Qed.
Lemma Some_inj' {A} (a b : A) : Some a = Some b -> a = b.
Proof. congruence. Qed.

(** ** 64-bit integers *)

Definition max_int64 : Z := 9223372036854775807.
Definition min_int64 : Z := -9223372036854775808.
Definition two63 : Z := 9223372036854775808.
Definition two64 : Z := 18446744073709551616.

(** ** Boolean reflection: one rewriting database for the guards of the code *)

Create Rewrite HintDb spi_bool.
#[export] Hint Rewrite andb_true_iff orb_true_iff andb_false_iff orb_false_iff
  negb_true_iff negb_false_iff String.eqb_eq String.eqb_neq
  Z.eqb_eq Z.eqb_neq Z.ltb_lt Z.ltb_ge Z.leb_le Z.leb_gt : spi_bool.

Ltac reflect_bools := autorewrite with spi_bool in *.

(** Case analysis on the scrutinee of the first [match] or [if] found in [H]. *)
Ltac case_match_in H :=
  match type of H with
  | context [match ?x with _ => _ end] => destruct x eqn:?
  end.

(** Close a goal whose hypotheses contain two incompatible outcomes. *)
Ltac outcome :=
  repeat match goal with
  | H : Ok _ = Ok _ |- _ => injection H as H; subst
  | H : Err _ = Err _ |- _ => injection H as H; subst
  | H : Ok _ = Err _ |- _ => discriminate H
  | H : Err _ = Ok _ |- _ => discriminate H
  | H : Some _ = Some _ |- _ => injection H as H; subst
  | H : Some _ = None |- _ => discriminate H
  | H : None = Some _ |- _ => discriminate H
  end.

(** ** Lists *)

(** [find] returns the first element that satisfies a test, as the Go loops
    [for _, x := range xs { if p(x) { return x } }] do. *)
Lemma find_first {A} (p : A -> bool) (l : list A) x :
  List.find p l = Some x ->
  exists l1 l2, l = l1 ++ x :: l2 /\ p x = true /\ forallb (fun y => negb (p y)) l1 = true.
Proof.
  induction l as [|y l IH]; cbn; [done|].
  destruct (p y) eqn:Hy.
  - intros [= ->]. by exists [], l.
  - intros H. destruct (IH H) as (l1 & l2 & -> & Hx & Hl). exists (y :: l1), l2. cbn. by rewrite Hy.
Qed.

Lemma find_none_iff {A} (p : A -> bool) (l : list A) :
  List.find p l = None <-> (forall x, In x l -> p x = false).
Proof.
  induction l as [|y l IH]; cbn; [naive_solver|].
  destruct (p y) eqn:Hy; split.
  - done.
  - intros H. specialize (H y (or_introl eq_refl)). congruence.
  - intros H x [->|Hin]; [done|]. by apply (proj1 IH H).
  - intros H. apply (proj2 IH). naive_solver.
Qed.

(** ** Association of a Go [for range] that appends when a test holds *)
Lemma filter_In_bool {A} (p : A -> bool) (l : list A) x :
  In x (List.filter p l) <-> In x l /\ p x = true.
Proof. apply List.filter_In. Qed.

Lemma Permutation_filter_bool {A} (p : A -> bool) (l l' : list A) :
  Permutation l l' -> Permutation (List.filter p l) (List.filter p l').
Proof.
  induction 1 as [|x l l' _ IH|x y l|l1 l2 l3 _ IH1 _ IH2]; cbn; [done|..].
  - destruct (p x); [by constructor|done].
  - destruct (p x), (p y); solve [constructor | reflexivity].
  - by rewrite IH1.
Qed.

Lemma flat_map_nil {A B} (f : A -> list B) (l : list A) : flat_map f l = [] <-> Forall (fun x => f x = []) l.
Proof.
  induction l as [|x l IH]; cbn; [by split; constructor|].
  rewrite List.Forall_cons_iff, <- IH. split; [apply app_eq_nil|by intros [-> ->]].
Qed.
Lemma app_nil_iff {A} (l l' : list A) : l ++ l' = [] <-> l = [] /\ l' = [].
Proof. split; [apply app_eq_nil|by intros [-> ->]]. Qed.

(** ** Membership tests written as a switch over constants *)
Definition one_of (s : string) (l : list string) : bool := existsb (String.eqb s) l.
Lemma one_of_In s l : one_of s l = true <-> In s l.
Proof.
  unfold one_of. rewrite existsb_exists. split.
  - intros (x & Hx & ->%String.eqb_eq). done.
  - intros H. exists s. by rewrite String.eqb_refl.
Qed.
