(* ===== verification/GoStd.v ===== *)
(** * The parts of the Go standard library the operator computes with

    Errors ([errors], [fmt.Errorf] with [%w]), [strings], [strconv] and the
    saturating [time.Duration] arithmetic.  Files under src/ are modelled by
    the other files; here is only the language's own library. *)

From S2P Require Import Prelude.
Local Open Scope string_scope.

(** ** Errors

    The dynamic types of errors the operator distinguishes.  [ErrorString] is
    an [errors.New] value (a package-level sentinel is identified by its
    text), [WrapError text e] the result of [fmt.Errorf] with one [%w] verb
    for [e], [HttpError] the repository's ServiceProviderHttpError,
    [StatusError] the API machinery's [StatusError], [ValidationErrors] the
    validator's error type, and [ExtError] an error of third-party code, with
    the sentinels that [errors.Is] recognises in it. *)

Inductive status_reason :=
| ReasonNotFound | ReasonForbidden | ReasonUnauthorized | ReasonConflict
| ReasonAlreadyExists | ReasonOther.

#[export] Instance status_reason_eq_dec : EqDecision status_reason.
Proof. solve_decision. Defined.

Inductive goerr : Type :=
| ErrorString (text : string)
| WrapError (text : string) (inner : goerr)
| HttpError (StatusCode : Z) (Response : string)
| StatusError (reason : status_reason) (text : string)
| ValidationErrors (text : string)
| ExtError (text : string) (sentinels : list string).

Abbreviation res := (result goerr).

(** [errors.Is err sentinel] for a sentinel made by [errors.New]. *)
Fixpoint errors_Is (e : goerr) (sentinel : string) : bool :=
  match e with
  | ErrorString t => String.eqb t sentinel
  | WrapError _ inner => errors_Is inner sentinel
  | ExtError _ ss => existsb (String.eqb sentinel) ss
  | _ => false
  end.

(** [errors.As] for the type of [HttpError] *)
Fixpoint errors_As_http (e : goerr) : option (Z * string) :=
  match e with
  | HttpError c r => Some (c, r)
  | WrapError _ inner => errors_As_http inner
  | _ => None
  end.

(** [errors.As] for the type of [ValidationErrors] *)
Fixpoint errors_As_validation (e : goerr) : option goerr :=
  match e with
  | ValidationErrors t => Some (ValidationErrors t)
  | WrapError _ inner => errors_As_validation inner
  | _ => None
  end.

(** [apierrors.ReasonForError], which unwraps with [errors.As] *)
Fixpoint ReasonForError (e : goerr) : option status_reason :=
  match e with
  | StatusError r _ => Some r
  | WrapError _ inner => ReasonForError inner
  | _ => None
  end.

Definition has_reason (r : status_reason) (e : goerr) : bool :=
  bool_decide (ReasonForError e = Some r).
Definition IsNotFound : goerr -> bool := has_reason ReasonNotFound.
Definition IsForbidden : goerr -> bool := has_reason ReasonForbidden.
Definition IsUnauthorized : goerr -> bool := has_reason ReasonUnauthorized.

(** ** Panics

    The outcome of code that may panic (a nil dereference, a failed type
    assertion); [what] says where. *)
Inductive go (A : Type) := Returns (a : A) | Panics (what : string).
Arguments Returns {A} a.
Arguments Panics {A} what.

(** ** strings *)

Fixpoint HasPrefix (s prefix : string) : bool :=
  match prefix, s with
  | EmptyString, _ => true
  | String c p, String d s' => if Ascii.eqb c d then HasPrefix s' p else false
  | String _ _, EmptyString => false
  end.

Fixpoint drop_str (n : nat) (s : string) : string :=
  match n, s with
  | O, _ => s
  | S n', String _ s' => drop_str n' s'
  | S _, EmptyString => EmptyString
  end.

Definition TrimPrefix (s prefix : string) : string :=
  if HasPrefix s prefix then drop_str (String.length prefix) s else s.

(** [strings.TrimSuffix] *)
Fixpoint TrimSuffix (s suffix : string) : string :=
  if String.eqb s suffix then EmptyString
  else match s with
       | EmptyString => EmptyString
       | String c s' => String c (TrimSuffix s' suffix)
       end.

(** [strings.Index], with [None] for -1 *)
Fixpoint Index (s sub : string) : option nat :=
  if HasPrefix s sub then Some O
  else match s with
       | EmptyString => None
       | String _ s' => option_map S (Index s' sub)
       end.

Definition Contains (s sub : string) : bool :=
  match Index s sub with Some _ => true | None => false end.

(** [strings.Cut] at the first occurrence of one byte *)
Fixpoint cut_char (c : ascii) (s : string) : option (string * string) :=
  match s with
  | EmptyString => None
  | String d s' =>
      if Ascii.eqb c d then Some (EmptyString, s')
      else option_map (fun '(a, b) => (String d a, b)) (cut_char c s')
  end.

(** [strings.Cut] at the last occurrence of one byte ([strings.LastIndex]) *)
Fixpoint cut_last_char (c : ascii) (s : string) : option (string * string) :=
  match s with
  | EmptyString => None
  | String d s' =>
      match cut_last_char c s' with
      | Some (a, b) => Some (String d a, b)
      | None => if Ascii.eqb c d then Some (EmptyString, s') else None
      end
  end.

(** [strings.Split] with a one-byte separator *)
Fixpoint Split (s : string) (sep : ascii) : list string :=
  match s with
  | EmptyString => [EmptyString]
  | String c s' =>
      if Ascii.eqb c sep then EmptyString :: Split s' sep
      else match Split s' sep with
           | [] => [String c EmptyString]
           | x :: xs => String c x :: xs
           end
  end.

(** [strings.Join] *)
Fixpoint Join (xs : list string) (sep : string) : string :=
  match xs with
  | [] => EmptyString
  | [x] => x
  | x :: rest => x +:+ sep +:+ Join rest sep
  end.

Definition is_digit (c : ascii) : bool :=
  let n := N_of_ascii c in (48 <=? n)%N && (n <=? 57)%N.

(** ** strconv: [FormatUint n 10] and [%d] of an integer *)

Definition digit_char (d : Z) : ascii := ascii_of_N (Z.to_N (48 + d)).

Fixpoint format_digits (fuel : nat) (n : Z) (acc : string) : string :=
  match fuel with
  | O => acc
  | S f =>
      let acc' := String (digit_char (n mod 10)) acc in
      if n <? 10 then acc' else format_digits f (n / 10) acc'
  end%Z.

(** An unsigned 64-bit integer has at most 20 decimal digits. *)
Definition FormatUint (n : Z) : string := format_digits 20 n EmptyString.

Definition FormatInt (n : Z) : string :=
  if (n <? 0)%Z then "-" +:+ FormatUint (- n) else FormatUint n.

(** ** Error texts *)

Section error_text.
(** [http_text] is the [Error] method of ServiceProviderHttpError, which
  pkg/errors defines (see SpErrors.v). *)
Context (http_text : Z -> string -> string).
Definition error_text_with (e : goerr) : string :=
match e with
| ErrorString t => t
| WrapError t _ => t
| HttpError c r => http_text c r
| StatusError _ t => t
| ValidationErrors t => t
| ExtError t _ => t
end.
End error_text.

(** ** time

    Instants are nanoseconds since the Unix epoch, durations are [int64]
    nanoseconds; [Time.Sub], [time.Since] and [time.Until] saturate. *)

Definition Second : Z := 1000000000.
Definition Millisecond : Z := 1000000.
Definition Minute : Z := 60 * Second.
Definition Hour : Z := 60 * Minute.

Definition time_Sub (t u : Z) : Z := Z.max min_int64 (Z.min max_int64 (t - u)).
Definition time_Since (now t : Z) : Z := time_Sub now t.
Definition time_Until (now t : Z) : Z := time_Sub t now.
(** [Time.Unix], the whole seconds since the epoch *)
Definition Unix (t : Z) : Z := (t / Second)%Z.

(** ** Lemmas *)

(** [String.append] is opaque for [simpl]; these are its equations. *)
Lemma str_app_cons c (a b : string) : String c a +:+ b = String c (a +:+ b).
Proof. done. Qed.
Lemma str_app_nil_l (b : string) : "" +:+ b = b.
Proof. done. Qed.

Lemma str_app_nil_r (s : string) : s +:+ "" = s.
Proof. induction s as [|c s IH]; [done|]. by rewrite str_app_cons, IH. Qed.

Lemma str_app_assoc (a b c : string) : (a +:+ b) +:+ c = a +:+ (b +:+ c).
Proof. induction a as [|x a IH]; [done|]. by rewrite !str_app_cons, IH. Qed.

Lemma str_app_inj_l (a b c : string) : a +:+ b = a +:+ c -> b = c.
Proof. induction a as [|x a IH]; [done|]. rewrite !str_app_cons. intros [=]. auto. Qed.

Lemma str_length_app (a b : string) : String.length (a +:+ b) = String.length a + String.length b.
Proof. induction a as [|c a IH]; [done|]. rewrite str_app_cons. cbn. by rewrite IH. Qed.

Create Rewrite HintDb spi_str.
#[export] Hint Rewrite str_app_cons str_app_nil_l str_app_nil_r str_app_assoc
  Ascii.eqb_refl String.eqb_refl : spi_str.

Lemma HasPrefix_app p s : HasPrefix (p +:+ s) p = true.
Proof.
  induction p as [|c p IH]; [by destruct s|].
  rewrite str_app_cons. cbn. by rewrite Ascii.eqb_refl.
Qed.

Lemma drop_str_app p s : drop_str (String.length p) (p +:+ s) = s.
Proof. induction p as [|c p IH]; [by destruct s|]. by rewrite str_app_cons. Qed.

Lemma TrimPrefix_app p s : TrimPrefix (p +:+ s) p = s.
Proof. unfold TrimPrefix. by rewrite HasPrefix_app, drop_str_app. Qed.

Lemma HasPrefix_spec s p : HasPrefix s p = true <-> exists t, s = p +:+ t.
Proof.
  split.
  - revert s. induction p as [|c p IH]; intros s; [by exists s|].
    destruct s as [|d s]; cbn; [done|].
    destruct (Ascii.eqb_spec c d) as [->|]; [|done].
    intros H. destruct (IH _ H) as [t ->]. by exists t.
  - intros [t ->]. apply HasPrefix_app.
Qed.

Lemma cut_char_Some c s a b : cut_char c s = Some (a, b) -> s = a +:+ String c b.
Proof.
  revert a b. induction s as [|d s IH]; cbn; [done|]. intros a b.
  destruct (Ascii.eqb_spec c d) as [->|].
  - by intros [= <- <-].
  - destruct (cut_char c s) as [[a' b']|]; cbn; [|done].
    intros [= <- <-]. rewrite str_app_cons. by rewrite (IH a' b').
Qed.

Lemma time_Sub_bounds t u : (min_int64 <= time_Sub t u <= max_int64)%Z.
Proof. unfold time_Sub, min_int64, max_int64. lia. Qed.

Lemma time_Sub_exact t u :
  (min_int64 <= t - u <= max_int64)%Z -> time_Sub t u = (t - u)%Z.
Proof. unfold time_Sub. lia. Qed.

(** [errors.Is] and the two [errors.As] see through any number of wrappers. *)
Lemma errors_Is_wrap t e s : errors_Is (WrapError t e) s = errors_Is e s.
Proof. done. Qed.
Lemma As_http_wrap t e : errors_As_http (WrapError t e) = errors_As_http e.
Proof. done. Qed.
Lemma IsNotFound_wrap t e : IsNotFound (WrapError t e) = IsNotFound e.
Proof. done. Qed.
#[export] Hint Rewrite errors_Is_wrap As_http_wrap IsNotFound_wrap : spi_bool.

(** ** Strings without a separator *)

Fixpoint lacks (c : ascii) (s : string) : bool :=
  match s with EmptyString => true | String d s' => negb (Ascii.eqb d c) && lacks c s' end.

Lemma lacks_app c a b : lacks c (a +:+ b) = lacks c a && lacks c b.
Proof. induction a as [|d a IH]; cbn; [by rewrite str_app_nil_l|]. rewrite str_app_cons. cbn. by rewrite IH, andb_assoc. Qed.

Lemma Split_first sep a b : lacks sep a = true -> Split (a +:+ String sep b) sep = a :: Split b sep.
Proof.
  induction a as [|c a IH]; cbn; [by rewrite str_app_nil_l; cbn; rewrite Ascii.eqb_refl|].
  rewrite str_app_cons. cbn. destruct (Ascii.eqb c sep); [done|]. intros H. by rewrite IH.
Qed.
Lemma Split_only sep a : lacks sep a = true -> Split a sep = [a].
Proof. induction a as [|c a IH]; cbn; [done|]. destruct (Ascii.eqb c sep); [done|]. intros H. by rewrite IH. Qed.

Lemma Split_joined sep vs : vs <> [] -> Forall (fun v => lacks sep v = true) vs ->
  Split (Join vs (String sep EmptyString)) sep = vs.
Proof.
  intros Hne Hvs. induction Hvs as [|n [|n' vs] Hn Hvs IH]; [done|by apply Split_only|].
  cbn [Join]. rewrite str_app_cons, str_app_nil_l, Split_first by done. f_equal. by apply IH.
Qed.

(** The first occurrence of a separator text *)
Lemma Index_first c a sub b : lacks c a = true ->
  Index (a +:+ String c sub +:+ b) (String c sub) = Some (String.length a).
Proof.
  induction a as [|d a IH]; cbn [lacks String.length].
  - intros _. rewrite str_app_nil_l. pose proof (HasPrefix_app (String c sub) b) as H.
    rewrite str_app_cons in *. cbn [Index]. by rewrite H.
  - intros [Hd%negb_true_iff Ha]%andb_true_iff. rewrite str_app_cons. cbn [Index HasPrefix].
    assert (Ascii.eqb c d = false) as -> by by rewrite Ascii.eqb_sym. by rewrite IH.
Qed.

Lemma Index_None c a b sub : lacks c a = true -> Index b (String c sub) = None ->
  Index (a +:+ b) (String c sub) = None.
Proof.
  induction a as [|d a IH]; cbn [lacks]; [by rewrite str_app_nil_l|].
  intros [Hd%negb_true_iff Ha]%andb_true_iff Hb. rewrite str_app_cons. cbn [Index HasPrefix].
  assert (Ascii.eqb c d = false) as -> by by rewrite Ascii.eqb_sym. by rewrite IH.
Qed.
