(* ===== verification/GoUrl.v ===== *)
(** * net/url: the parser the operator runs on repository URLs

    [Parse] follows the standard library's [url.Parse] (with
    [viaRequest = false]): fragment, scheme, query, opaque part, authority
    with userinfo and host validation, and percent-decoding per component.
    The error texts are those of the library; [strconv.Quote] of the URL in
    them is written as the URL between quotes. *)

From S2P Require Import Prelude GoStd.
Local Open Scope string_scope.
Local Open Scope spi_scope.

(** The fields of [url.URL] that the operator reads. *)
Record URL := mkURL {
  Scheme : string; Opaque : string; Host : string; Path : string;
  RawQuery : string; Fragment : string }.

Definition between (lo hi n : N) : bool := (lo <=? n)%N && (n <=? hi)%N.
Definition is_alpha (c : ascii) : bool :=
  let n := N_of_ascii c in between 97 122 n || between 65 90 n.
Definition is_alnum (c : ascii) : bool := is_alpha c || is_digit c.
Definition char_in (c : ascii) (s : string) : bool :=
  match cut_char c s with Some _ => true | None => false end.

Definition dquote : ascii := ascii_of_N 34.
Definition ch_colon : ascii := ":".
Definition ch_slash : ascii := "/".
Definition ch_at : ascii := "@".
Definition ch_hash : ascii := "#".
Definition ch_quest : ascii := "?".
Definition ch_percent : ascii := "%".

Definition lower_char (c : ascii) : ascii :=
  let n := N_of_ascii c in if between 65 90 n then ascii_of_N (n + 32) else c.
Fixpoint ToLower (s : string) : string :=
  match s with
  | EmptyString => EmptyString
  | String c s' => String (lower_char c) (ToLower s')
  end.

Definition is_ctl (c : ascii) : bool :=
  let n := N_of_ascii c in (n <? 32)%N || (n =? 127)%N.
Fixpoint any_char (p : ascii -> bool) (s : string) : bool :=
  match s with EmptyString => false | String c s' => p c || any_char p s' end.

(** [getScheme]: the scheme and the rest; [first] holds at index 0. *)
Fixpoint getScheme_from (first : bool) (whole s : string) : res (string * string) :=
  match s with
  | EmptyString => Ok (EmptyString, whole)
  | String c s' =>
      if is_alpha c then
        match getScheme_from false whole s' with
        | Ok (sch, rest) =>
            (* no scheme was found further on: the whole string is the rest *)
            if String.eqb sch EmptyString then Ok (EmptyString, whole)
            else Ok (String c sch, rest)
        | Err e => Err e
        end
      else if is_digit c || char_in c "+-." then
        if first then Ok (EmptyString, whole)
        else match getScheme_from false whole s' with
             | Ok (sch, rest) =>
                 if String.eqb sch EmptyString then Ok (EmptyString, whole)
                 else Ok (String c sch, rest)
             | Err e => Err e
             end
      else if Ascii.eqb c ch_colon then
        if first then Err (ErrorString "missing protocol scheme")
        else Ok (String ch_colon EmptyString, s')
      else Ok (EmptyString, whole)
  end.

(** Inside the recursion a found scheme carries its colon, so that an empty
    scheme means that none was found; the colon is dropped here. *)
Definition getScheme (s : string) : res (string * string) :=
  match getScheme_from true s s with
  | Ok (sch, rest) => Ok (TrimSuffix sch ":", rest)
  | Err e => Err e
  end.

Inductive encoding := encodePath | encodeHost | encodeZone | encodeUserPassword | encodeFragment.

Definition hex_val (c : ascii) : option N :=
  let n := N_of_ascii c in
  if between 48 57 n then Some (n - 48)%N
  else if between 97 102 n then Some (n - 87)%N
  else if between 65 70 n then Some (n - 55)%N
  else None.

(** [shouldEscape] for the two host encodings *)
Definition shouldEscape_host (c : ascii) : bool :=
  negb (is_alnum c || char_in c "!$&'()*+,;=:[]<>" || Ascii.eqb c dquote || char_in c "-_.~").

Definition is_host_mode (m : encoding) : bool :=
  match m with encodeHost | encodeZone => true | _ => false end.

Definition EscapeError (s : string) : goerr :=
  ErrorString ("invalid URL escape " +:+ String dquote s +:+ String dquote EmptyString).
Definition InvalidHostError (c : ascii) : goerr :=
  ErrorString ("invalid character " +:+ String dquote (String c (String dquote EmptyString)) +:+ " in host name").

Fixpoint unescape (m : encoding) (s : string) : res string :=
  match s with
  | EmptyString => Ok EmptyString
  | String c rest =>
      if Ascii.eqb c ch_percent then
        match rest with
        | String h1 (String h2 rest') =>
            match hex_val h1, hex_val h2 with
            | Some a, Some b =>
                let v := ascii_of_N (a * 16 + b) in
                let is25 := Ascii.eqb h1 "2" && Ascii.eqb h2 "5" in
                let esc := String c (String h1 (String h2 EmptyString)) in
                if match m with
                   | encodeHost => (a <? 8)%N && negb is25
                   | encodeZone => negb is25 && negb (Ascii.eqb v " ") && shouldEscape_host v
                   | _ => false
                   end
                then Err (EscapeError esc)
                else match unescape m rest' with Ok t => Ok (String v t) | Err e => Err e end
            | _, _ => Err (EscapeError (String c (String h1 (String h2 EmptyString))))
            end
        | _ => Err (EscapeError s)
        end
      else if is_host_mode m && (N_of_ascii c <? 128)%N && shouldEscape_host c then
        Err (InvalidHostError c)
      else match unescape m rest with Ok t => Ok (String c t) | Err e => Err e end
  end.

(** [validOptionalPort]: empty, or a colon followed by digits only *)
Definition validOptionalPort (port : string) : bool :=
  match port with
  | EmptyString => true
  | String c s => Ascii.eqb c ch_colon && negb (any_char (fun d => negb (is_digit d)) s)
  end.

Definition invalid_port (p : string) : goerr :=
  ErrorString ("invalid port " +:+ String dquote p +:+ String dquote (" after host")).

Definition parseHost (host : string) : res string :=
  if HasPrefix host "[" then
    match cut_last_char "]" host with
    | None => Err (ErrorString "missing ']' in host")
    | Some (before, colonPort) =>
        if negb (validOptionalPort colonPort) then Err (invalid_port colonPort)
        else match Index before "%25" with
             | Some z =>
                 let? host1 := unescape encodeHost (String.substring 0 z before) in
                 let? host2 := unescape encodeZone (drop_str z before) in
                 let? host3 := unescape encodeHost (String "]" colonPort) in
                 Ok (host1 +:+ host2 +:+ host3)
             | None => unescape encodeHost host
             end
    end
  else match cut_last_char ch_colon host with
       | Some (_, p) =>
           if negb (validOptionalPort (String ch_colon p))
           then Err (invalid_port (String ch_colon p))
           else unescape encodeHost host
       | None => unescape encodeHost host
       end.

(** [validUserinfo] *)
Definition validUserinfo (s : string) : bool :=
  negb (any_char (fun c => negb (is_alnum c || char_in c "-._:~!$&'()*+,;=%@")) s).

Definition parseAuthority (authority : string) : res string :=
  match cut_last_char ch_at authority with
  | None => parseHost authority
  | Some (userinfo, h) =>
      let? host := parseHost h in
      if negb (validUserinfo userinfo) then Err (ErrorString "net/url: invalid userinfo")
      else match cut_char ch_colon userinfo with
           | None => let? _ := unescape encodeUserPassword userinfo in Ok host
           | Some (u, p) =>
               let? _ := unescape encodeUserPassword u in
               let? _ := unescape encodeUserPassword p in
               Ok host
           end
  end.

(** [strings.Cut] returning the whole string when the separator is absent *)
Definition Cut (c : ascii) (s : string) : string * string :=
  match cut_char c s with Some p => p | None => (s, EmptyString) end.

(** The unexported [parse] with [viaRequest = false]. *)
Definition parse (rawURL : string) : res URL :=
  if any_char is_ctl rawURL then
    Err (ErrorString "net/url: invalid control character in URL")
  else if String.eqb rawURL "*" then Ok (mkURL "" "" "" "*" "" "")
  else
    let? (sch, rest0) := getScheme rawURL in
    let scheme := ToLower sch in
    (* a lone trailing question mark only sets ForceQuery; cutting at it
       leaves the same rest and an empty query *)
    let '(rest, query) := Cut ch_quest rest0 in
    if negb (HasPrefix rest "/") && negb (String.eqb scheme "") then
      Ok (mkURL scheme rest "" "" query "")
    else if negb (HasPrefix rest "/") && Contains (fst (Cut ch_slash rest)) ":" then
      Err (ErrorString "first path segment in URL cannot contain colon")
    else if (negb (String.eqb scheme "") || negb (HasPrefix rest "///")) && HasPrefix rest "//" then
      let after := drop_str 2 rest in
      let '(authority, p) :=
        match cut_char ch_slash after with
        | Some (a, b) => (a, String ch_slash b)
        | None => (after, EmptyString)
        end in
      let? host := parseAuthority authority in
      let? path := unescape encodePath p in
      Ok (mkURL scheme "" host path query "")
    else
      let? path := unescape encodePath rest in
      Ok (mkURL scheme "" "" path query "").

(** [*url.Error] *)
Definition url_error (u : string) (e : goerr) : goerr :=
  WrapError ("parse " +:+ String dquote u +:+ String dquote (": " +:+ error_text_with (fun _ r => r) e)) e.

Definition set_fragment (f : string) (u : URL) : URL :=
  mkURL (Scheme u) (Opaque u) (Host u) (Path u) (RawQuery u) f.

(** [url.Parse] *)
Definition Parse (rawURL : string) : res URL :=
  let '(u, frag) := Cut ch_hash rawURL in
  match parse u with
  | Err e => Err (url_error u e)
  | Ok url =>
      if String.eqb frag "" then Ok url
      else match unescape encodeFragment frag with
           | Ok f => Ok (set_fragment f url)
           | Err e => Err (url_error rawURL e)
           end
  end.

Definition parsed_host (s : string) : option string :=
  match Parse s with Ok u => Some (Host u) | Err _ => None end.

Example parse_full : Parse "https://quay.io:443/a/b%20c?x=1#fr" =
  Ok (mkURL "https" "" "quay.io:443" "/a/b c" "x=1" "fr").
Proof. reflexivity. Qed.
Example parse_schemeless : Parse "quay.io/repo" = Ok (mkURL "" "" "" "quay.io/repo" "" "").
Proof. reflexivity. Qed.
Example parse_opaque : Parse "quay.io:foo/bar" = Ok (mkURL "quay.io" "foo/bar" "" "" "" "").
Proof. reflexivity. Qed.
Example parse_user : parsed_host "HTTPS://u:p@host/x" = Some "host".
Proof. reflexivity. Qed.
Example parse_bad_port : parsed_host "https://host:8a/x" = None.
Proof. reflexivity. Qed.
Example parse_bad_escape : parsed_host "https://ho%41st/" = None.
Proof. reflexivity. Qed.
Example parse_no_scheme_colon : parsed_host "a_b:c/d" = None.
Proof. reflexivity. Qed.
Example parse_empty_scheme : parsed_host "://x" = None.
Proof. reflexivity. Qed.

(** [url.QueryEscape] *)
Definition hex_upper (n : N) : ascii := ascii_of_N (if (n <? 10)%N then 48 + n else 55 + n).
Fixpoint QueryEscape (s : string) : string :=
  match s with
  | EmptyString => EmptyString
  | String c s' =>
      if is_alnum c || char_in c "-_.~" then String c (QueryEscape s')
      else if Ascii.eqb c " " then String "+" (QueryEscape s')
      else String "%" (String (hex_upper (N_of_ascii c / 16)) (String (hex_upper (N_of_ascii c mod 16)) (QueryEscape s')))
  end.

(** [url.QueryUnescape]: an error's text is left out *)
Fixpoint QueryUnescape (s : string) : option string :=
  match s with
  | EmptyString => Some EmptyString
  | String c rest =>
      if Ascii.eqb c ch_percent then
        match rest with
        | String h1 (String h2 rest') =>
            match hex_val h1, hex_val h2 with
            | Some a, Some b => option_map (String (ascii_of_N (a * 16 + b))) (QueryUnescape rest')
            | _, _ => None
            end
        | _ => None
        end
      else option_map (String (if Ascii.eqb c "+" then " " else c)%char) (QueryUnescape rest)
  end.

Lemma hex_val_upper n : (n < 16)%N -> hex_val (hex_upper n) = Some n.
Proof. intros H. destruct n as [|p]; [reflexivity|]. do 4 (destruct p as [p|p|]; try reflexivity); lia. Qed.

Lemma unreserved_plain c : is_alnum c || char_in c "-_.~" = true ->
  Ascii.eqb c ch_percent = false /\ Ascii.eqb c "+" = false /\ Ascii.eqb c "&" = false /\ Ascii.eqb c "=" = false.
Proof.
  destruct c as [b0 b1 b2 b3 b4 b5 b6 b7].
  destruct b0, b1, b2, b3, b4, b5, b6, b7; cbn; (discriminate || by repeat split).
Qed.

(** What is escaped is read back. *)
Lemma QueryUnescape_QueryEscape s : QueryUnescape (QueryEscape s) = Some s.
Proof.
  induction s as [|c s IH]; [done|]. cbn [QueryEscape].
  destruct (is_alnum c || char_in c "-_.~") eqn:E.
  - apply unreserved_plain in E as (E1 & E2 & _). cbn [QueryUnescape]. by rewrite E1, E2, IH.
  - destruct (Ascii.eqb_spec c " ") as [->|_]; [cbn; by rewrite IH|].
    cbn [QueryUnescape]. change (Ascii.eqb "%" ch_percent) with true. cbv iota.
    assert (N_of_ascii c < 256)%N by apply N_ascii_bounded.
    rewrite !hex_val_upper by (try apply N.mod_lt; try apply N.Div0.div_lt_upper_bound; lia).
    rewrite IH. cbn. do 2 f_equal. rewrite <- (ascii_N_embedding c) at 3. f_equal.
    rewrite (N.div_mod (N_of_ascii c) 16) at 3 by done. lia.
Qed.

Lemma hex_upper_plain n : (n < 16)%N -> Ascii.eqb (hex_upper n) "&" = false /\ Ascii.eqb (hex_upper n) "=" = false.
Proof. intros H. destruct n as [|p]; [done|]. do 4 (destruct p as [p|p|]; try done); lia. Qed.

(** The separators of a query are escaped. *)
Lemma QueryEscape_lacks s : lacks "&" (QueryEscape s) = true /\ lacks "=" (QueryEscape s) = true.
Proof.
  induction s as [|c s [IH1 IH2]]; [done|]. cbn [QueryEscape].
  destruct (is_alnum c || char_in c "-_.~") eqn:E.
  - apply unreserved_plain in E as (_ & _ & E1 & E2). cbn [lacks]. by rewrite E1, E2, IH1, IH2.
  - destruct (Ascii.eqb c " "); [cbn; by rewrite IH1, IH2|].
    assert (N_of_ascii c < 256)%N by apply N_ascii_bounded.
    destruct (hex_upper_plain (N_of_ascii c / 16)) as [H1 H2]; [apply N.Div0.div_lt_upper_bound; lia|].
    destruct (hex_upper_plain (N_of_ascii c mod 16)) as [H3 H4]; [by apply N.mod_lt|].
    cbn [lacks]. by rewrite H1, H2, H3, H4, IH1, IH2.
Qed.
