(* ===== verification/GoJson.v ===== *)
(** * encoding/json: string literals, documents and their parser

    [json_string] is what [json.Marshal] writes for a Go string (HTML escapes
    included, invalid UTF-8 replaced), [unquote] what [json.Unmarshal] reads,
    [parse_json] the scanner of a whole document into a syntax tree with the
    library's nesting limit.  The parser runs on fuel; [parse_json] takes two
    units per byte, which [parse_value_fuel] shows enough. *)

From S2P Require Import Prelude GoStd GoUrl.
Local Open Scope string_scope.
Local Open Scope list_scope.

(** ** UTF-8 *)

Definition cont (c : ascii) : bool := between 128 191 (N_of_ascii c).

(** The size of the rune that starts with the byte [c >= 128] followed by
    [s]; 0 when the bytes are not valid UTF-8 ([utf8.DecodeRune]). *)
Definition rune_len (c : ascii) (s : string) : nat :=
  let n := N_of_ascii c in
  match s with
  | String c2 s2 =>
      let m := N_of_ascii c2 in
      if between 194 223 n then if cont c2 then 2 else 0
      else match s2 with
           | String c3 s3 =>
               if between 224 239 n then
                 if between (if (n =? 224)%N then 160 else 128) (if (n =? 237)%N then 159 else 191) m
                    && cont c3 then 3 else 0
               else match s3 with
                    | String c4 _ =>
                        if between 240 244 n then
                          if between (if (n =? 240)%N then 144 else 128) (if (n =? 244)%N then 143 else 191) m
                             && cont c3 && cont c4 then 4 else 0
                        else 0
                    | EmptyString => 0
                    end
           | EmptyString => 0
           end
  | EmptyString => 0
  end.

(** [utf8.EncodeRune] *)
Definition chr (n : N) : ascii := ascii_of_N n.
Definition encode_rune (r : N) : string :=
  if (r <? 128)%N then String (chr r) EmptyString
  else if (r <? 2048)%N then String (chr (192 + r / 64)) (String (chr (128 + r mod 64)) EmptyString)
  else if (r <? 65536)%N then
    String (chr (224 + r / 4096)) (String (chr (128 + (r / 64) mod 64)) (String (chr (128 + r mod 64)) EmptyString))
  else String (chr (240 + r / 262144)) (String (chr (128 + (r / 4096) mod 64))
         (String (chr (128 + (r / 64) mod 64)) (String (chr (128 + r mod 64)) EmptyString))).
Definition replacement : string := encode_rune 65533.

(** [strings.ToValidUTF8] with U+FFFD for every invalid byte *)
Fixpoint to_valid_utf8 (s : string) : string :=
  match s with
  | EmptyString => EmptyString
  | String c s1 =>
      if (N_of_ascii c <? 128)%N then String c (to_valid_utf8 s1)
      else match rune_len c s1, s1 with
           | 2, String c2 s2 => String c (String c2 (to_valid_utf8 s2))
           | 3, String c2 (String c3 s3) => String c (String c2 (String c3 (to_valid_utf8 s3)))
           | 4, String c2 (String c3 (String c4 s4)) =>
               String c (String c2 (String c3 (String c4 (to_valid_utf8 s4))))
           | _, _ => replacement +:+ to_valid_utf8 s1
           end
  end.

(** ** Writing string literals *)

Definition backslash : ascii := chr 92.
Definition hex_digit (n : N) : ascii :=
  if (n <? 10)%N then chr (48 + n) else chr (87 + n).

Definition json_escape (c : ascii) : string :=
  let n := N_of_ascii c in
  if (n =? 34)%N || (n =? 92)%N then String backslash (String c EmptyString)
  else if (n =? 10)%N then String backslash "n"
  else if (n =? 13)%N then String backslash "r"
  else if (n =? 9)%N then String backslash "t"
  else if (n <? 32)%N || (n =? 60)%N || (n =? 62)%N || (n =? 38)%N then
    String backslash ("u00" +:+ String (hex_digit (n / 16)) (String (hex_digit (n mod 16)) EmptyString))
  else String c EmptyString.

(** U+2028 and U+2029 are escaped: bytes E2 80 A8 and E2 80 A9. *)
Definition is_line_separator (c c2 c3 : ascii) : bool :=
  (N_of_ascii c =? 226)%N && (N_of_ascii c2 =? 128)%N && between 168 169 (N_of_ascii c3).

Fixpoint json_body (s : string) : string :=
  match s with
  | EmptyString => EmptyString
  | String c s1 =>
      if (N_of_ascii c <? 128)%N then json_escape c +:+ json_body s1
      else match rune_len c s1, s1 with
           | 2, String c2 s2 => String c (String c2 (json_body s2))
           | 3, String c2 (String c3 s3) =>
               if is_line_separator c c2 c3
               then String backslash ("u202" +:+ String (hex_digit (N_of_ascii c3 mod 16)) (json_body s3))
               else String c (String c2 (String c3 (json_body s3)))
           | 4, String c2 (String c3 (String c4 s4)) =>
               String c (String c2 (String c3 (String c4 (json_body s4))))
           | _, _ => String backslash ("ufffd" +:+ json_body s1)
           end
  end.

Definition json_string (s : string) : string := String dquote (json_body s +:+ String dquote EmptyString).

(** ** Reading string literals *)

Definition hex_value (c : ascii) : option N :=
  let n := N_of_ascii c in
  if between 48 57 n then Some (n - 48)%N
  else if between 97 102 n then Some (n - 87)%N
  else if between 65 70 n then Some (n - 55)%N
  else None.
Definition hex4 (a b c d : ascii) : option N :=
  match hex_value a, hex_value b, hex_value c, hex_value d with
  | Some a, Some b, Some c, Some d => Some (((a * 16 + b) * 16 + c) * 16 + d)%N
  | _, _, _, _ => None
  end.

Definition prepend (p : string) (r : option (string * string)) : option (string * string) :=
  match r with Some (v, rest) => Some (p +:+ v, rest) | None => None end.

Definition simple_escape (e : ascii) : option ascii :=
  let n := N_of_ascii e in
  if (n =? 34)%N || (n =? 92)%N || (n =? 47)%N then Some e
  else if (n =? 98)%N then Some (chr 8)
  else if (n =? 102)%N then Some (chr 12)
  else if (n =? 110)%N then Some (chr 10)
  else if (n =? 114)%N then Some (chr 13)
  else if (n =? 116)%N then Some (chr 9)
  else None.

(** One step in a literal: [TokEnd rest] after the closing quote,
    [TokPiece p rest] when the input starts with a character or an escape for
    the bytes [p]; [None] is a syntax error.  A surrogate that is not followed
    by its other half is replaced by U+FFFD. *)
Inductive token := TokEnd (rest : string) | TokPiece (p rest : string).

Definition surrogate_token (r : N) (s3 : string) : token :=
  match s3 with
  | String b (String u (String g1 (String g2 (String g3 (String g4 s4))))) =>
      match (if Ascii.eqb b backslash && Ascii.eqb u "u" then hex4 g1 g2 g3 g4 else None) with
      | Some r2 =>
          if between 55296 56319 r && between 56320 57343 r2
          then TokPiece (encode_rune ((r - 55296) * 1024 + (r2 - 56320) + 65536)) s4
          else TokPiece replacement s3
      | None => TokPiece replacement s3
      end
  | _ => TokPiece replacement s3
  end.

Definition escape_token (s1 : string) : option token :=
  match s1 with
  | EmptyString => None
  | String e s2 =>
      match simple_escape e with
      | Some x => Some (TokPiece (String x EmptyString) s2)
      | None =>
          if Ascii.eqb e "u" then
            match s2 with
            | String h1 (String h2 (String h3 (String h4 s3))) =>
                match hex4 h1 h2 h3 h4 with
                | None => None
                | Some r =>
                    if between 55296 57343 r then Some (surrogate_token r s3)
                    else Some (TokPiece (encode_rune r) s3)
                end
            | _ => None
            end
          else None
      end
  end.

Definition rune_token (c : ascii) (s1 : string) : token :=
  match rune_len c s1, s1 with
  | 2, String c2 s2 => TokPiece (String c (String c2 EmptyString)) s2
  | 3, String c2 (String c3 s3) => TokPiece (String c (String c2 (String c3 EmptyString))) s3
  | 4, String c2 (String c3 (String c4 s4)) =>
      TokPiece (String c (String c2 (String c3 (String c4 EmptyString)))) s4
  | _, _ => TokPiece replacement s1
  end.

Definition next_token (s : string) : option token :=
  match s with
  | EmptyString => None
  | String c s1 =>
      if Ascii.eqb c dquote then Some (TokEnd s1)
      else if Ascii.eqb c backslash then escape_token s1
      else if (N_of_ascii c <? 32)%N then None
      else if (N_of_ascii c <? 128)%N then Some (TokPiece (String c EmptyString) s1)
      else Some (rune_token c s1)
  end.

Fixpoint unquote_fuel (fuel : nat) (s : string) : option (string * string) :=
  match fuel with
  | O => None
  | S f =>
      match next_token s with
      | None => None
      | Some (TokEnd rest) => Some (EmptyString, rest)
      | Some (TokPiece p rest) => prepend p (unquote_fuel f rest)
      end
  end.

(** The literal after its opening quote: the string and what follows the
    closing quote; every token is at least one byte of the input. *)
Definition unquote (s : string) : option (string * string) := unquote_fuel (String.length s) s.

(** ** Documents *)

Inductive json :=
| JNull
| JBool (b : bool)
| JNumber (text : string)
| JString (s : string)
| JArray (items : list json)
| JObject (members : list (string * json)).

Definition is_ws (c : ascii) : bool :=
  let n := N_of_ascii c in (n =? 32)%N || (n =? 9)%N || (n =? 10)%N || (n =? 13)%N.
Fixpoint skip_ws (s : string) : string :=
  match s with
  | EmptyString => EmptyString
  | String c s' => if is_ws c then skip_ws s' else s
  end.

(** The longest run of digits and the rest *)
Fixpoint digits (s : string) : string * string :=
  match s with
  | EmptyString => (EmptyString, EmptyString)
  | String c s' =>
      if is_digit c then let '(d, r) := digits s' in (String c d, r) else (EmptyString, s)
  end.

(** A number literal: optional minus, an integer part without leading zeros,
    optional fraction, optional exponent *)
Definition number_int (s : string) : option (string * string) :=
  match s with
  | String c s' =>
      if Ascii.eqb c "0" then Some ("0", s')
      else match digits s with
           | (EmptyString, _) => None
           | (d, r) => Some (d, r)
           end
  | EmptyString => None
  end.
Definition number_frac (s : string) : option (string * string) :=
  match s with
  | String "." s' =>
      match digits s' with
      | (EmptyString, _) => None
      | (d, r) => Some (String "." d, r)
      end
  | _ => Some (EmptyString, s)
  end.
Definition number_exp (s : string) : option (string * string) :=
  match s with
  | String c s' =>
      if Ascii.eqb c "e" || Ascii.eqb c "E" then
        let '(sign, s'') := match s' with
                            | String "+" t => ("+", t)
                            | String "-" t => ("-", t)
                            | _ => ("", s')
                            end in
        match digits s'' with
        | (EmptyString, _) => None
        | (d, r) => Some (String c (sign +:+ d), r)
        end
      else Some (EmptyString, s)
  | EmptyString => Some (EmptyString, s)
  end.
Definition parse_number (s : string) : option (json * string) :=
  let '(sign, s0) := match s with String "-" t => ("-", t) | _ => ("", s) end in
  match number_int s0 with
  | None => None
  | Some (i, s1) =>
      match number_frac s1 with
      | None => None
      | Some (f, s2) =>
          match number_exp s2 with
          | None => None
          | Some (e, s3) => Some (JNumber (sign +:+ i +:+ f +:+ e), s3)
          end
      end
  end.

Definition expect (c : ascii) (s : string) : option string :=
  match skip_ws s with
  | String d s' => if Ascii.eqb d c then Some s' else None
  | EmptyString => None
  end.

Definition maxNestingDepth : N := 10000.
Definition ch_lbrace : ascii := "{".
Definition ch_rbrace : ascii := "}".
Definition ch_lbracket : ascii := "[".
Definition ch_rbracket : ascii := "]".
Definition ch_comma : ascii := ",".

Fixpoint parse_value (fuel : nat) (depth : N) (s : string) : option (json * string) :=
  match fuel with
  | O => None
  | S f =>
      match skip_ws s with
      | EmptyString => None
      | String c s1 =>
          if Ascii.eqb c dquote then
            match unquote s1 with Some (v, r) => Some (JString v, r) | None => None end
          else if Ascii.eqb c ch_lbrace then
            if (depth <? maxNestingDepth)%N then
              match expect ch_rbrace s1 with
              | Some r => Some (JObject [], r)
              | None =>
                  match parse_members f (depth + 1) s1 with
                  | Some (ms, r) => Some (JObject ms, r)
                  | None => None
                  end
              end
            else None
          else if Ascii.eqb c ch_lbracket then
            if (depth <? maxNestingDepth)%N then
              match expect ch_rbracket s1 with
              | Some r => Some (JArray [], r)
              | None =>
                  match parse_elements f (depth + 1) s1 with
                  | Some (vs, r) => Some (JArray vs, r)
                  | None => None
                  end
              end
            else None
          else if HasPrefix (String c s1) "null" then Some (JNull, drop_str 4 (String c s1))
          else if HasPrefix (String c s1) "true" then Some (JBool true, drop_str 4 (String c s1))
          else if HasPrefix (String c s1) "false" then Some (JBool false, drop_str 5 (String c s1))
          else parse_number (String c s1)
      end
  end
(** The members after an opening brace or a comma, with the closing brace *)
with parse_members (fuel : nat) (depth : N) (s : string) : option (list (string * json) * string) :=
  match fuel with
  | O => None
  | S f =>
      match expect dquote s with
      | None => None
      | Some s1 =>
          match unquote s1 with
          | None => None
          | Some (key, s2) =>
              match expect ch_colon s2 with
              | None => None
              | Some s3 =>
                  match parse_value f depth s3 with
                  | None => None
                  | Some (v, s4) =>
                      match expect ch_comma s4 with
                      | Some s5 =>
                          match parse_members f depth s5 with
                          | Some (ms, r) => Some ((key, v) :: ms, r)
                          | None => None
                          end
                      | None =>
                          match expect ch_rbrace s4 with
                          | Some r => Some ([(key, v)], r)
                          | None => None
                          end
                      end
                  end
              end
          end
      end
  end
with parse_elements (fuel : nat) (depth : N) (s : string) : option (list json * string) :=
  match fuel with
  | O => None
  | S f =>
      match parse_value f depth s with
      | None => None
      | Some (v, s1) =>
          match expect ch_comma s1 with
          | Some s2 =>
              match parse_elements f depth s2 with
              | Some (vs, r) => Some (v :: vs, r)
              | None => None
              end
          | None =>
              match expect ch_rbracket s1 with
              | Some r => Some ([v], r)
              | None => None
              end
          end
      end
  end.

(** The scan of a whole document: [None] is a syntax error. *)
Definition parse_json (s : string) : option json :=
  match parse_value (2 * String.length s + 2) 0 s with
  | Some (v, rest) => if String.eqb (skip_ws rest) EmptyString then Some v else None
  | None => None
  end.

(** ** Lemmas *)

Lemma high_not c d : (N_of_ascii c <? 128)%N = false -> (N_of_ascii d <? 128)%N = true -> Ascii.eqb c d = false.
Proof. intros Hc Hd. apply Ascii.eqb_neq. intros ->. congruence. Qed.

Definition token_rest (t : token) : string := match t with TokEnd r | TokPiece _ r => r end.

Lemma surrogate_token_rest r s : String.length (token_rest (surrogate_token r s)) <= String.length s.
Proof. unfold surrogate_token. repeat case_match; cbn; lia. Qed.

Lemma next_token_length s t : next_token s = Some t -> String.length (token_rest t) < String.length s.
Proof.
  destruct s as [|c s]; [done|]. unfold next_token, escape_token, rune_token. intros H.
  repeat case_match; simplify_eq; cbn; try lia.
  match goal with |- context [surrogate_token ?r ?s] => pose proof (surrogate_token_rest r s) end. lia.
Qed.

Lemma unquote_fuel_enough f1 : forall f2 s,
  String.length s <= f1 -> String.length s <= f2 -> unquote_fuel f1 s = unquote_fuel f2 s.
Proof.
  induction f1 as [|f1 IH]; intros [|f2] [|c s] H1 H2; cbn [String.length] in *; try lia; try done.
  cbn [unquote_fuel]. destruct (next_token (String c s)) as [[r|p r]|] eqn:E; [done| |done].
  apply next_token_length in E. cbn in E. by rewrite (IH f2) by lia.
Qed.

(** The equation of [unquote] *)
Lemma unquote_eq s : unquote s =
  match next_token s with
  | None => None
  | Some (TokEnd rest) => Some (EmptyString, rest)
  | Some (TokPiece p rest) => prepend p (unquote rest)
  end.
Proof.
  unfold unquote. destruct s as [|c s]; [done|]. cbn [String.length unquote_fuel].
  destruct (next_token (String c s)) as [[r|p r]|] eqn:E; [done| |done].
  apply next_token_length in E. cbn in E. by rewrite (unquote_fuel_enough _ (String.length r)) by lia.
Qed.

Lemma unquote_piece s p r : next_token s = Some (TokPiece p r) -> unquote s = prepend p (unquote r).
Proof. intros H. by rewrite unquote_eq, H. Qed.

Lemma next_token_high c s1 : (N_of_ascii c <? 128)%N = false ->
  next_token (String c s1) = Some (rune_token c s1).
Proof.
  intros Hc. unfold next_token.
  rewrite (high_not _ dquote Hc) by done. rewrite (high_not _ backslash Hc) by done.
  rewrite Hc. assert ((N_of_ascii c <? 32)%N = false) as -> by (apply N.ltb_ge in Hc; apply N.ltb_ge; lia).
  reflexivity.
Qed.

Lemma next_token_escape c t : (N_of_ascii c <? 128)%N = true ->
  next_token (json_escape c +:+ t) = Some (TokPiece (String c EmptyString) t).
Proof.
  destruct c as [[] [] [] [] [] [] [] []]; intros H; try discriminate H; reflexivity.
Qed.

Lemma hex_digit_value n : (n < 16)%N -> hex_value (hex_digit n) = Some n.
Proof.
  intros H. unfold hex_digit, hex_value, chr, between. destruct (N.ltb_spec n 10).
  - rewrite N_ascii_embedding by lia. replace (_ && _) with true.
    + f_equal. lia.
    + symmetry. apply andb_true_iff. rewrite !N.leb_le. lia.
  - rewrite N_ascii_embedding by lia. replace (_ && (87 + n <=? 57)%N) with false.
    + replace (_ && _) with true; [f_equal; lia|]. symmetry. apply andb_true_iff. rewrite !N.leb_le. lia.
    + symmetry. apply andb_false_iff. rewrite !N.leb_gt. lia.
Qed.

(** The size of a rune depends only on its bytes. *)
Lemma rune_len_2 c c2 s t : rune_len c (String c2 s) = 2 -> rune_len c (String c2 t) = 2.
Proof.
  unfold rune_len. destruct (between 194 223 (N_of_ascii c)); [done|].
  destruct s as [|c3 [|c4 s]]; cbn; repeat (case_match; try done).
Qed.
Lemma rune_len_3 c c2 c3 s t : rune_len c (String c2 (String c3 s)) = 3 -> rune_len c (String c2 (String c3 t)) = 3.
Proof.
  unfold rune_len. destruct (between 194 223 (N_of_ascii c)); [by case_match|].
  destruct (between 224 239 (N_of_ascii c)); [done|].
  destruct s as [|c4 s]; [done|]. by repeat (case_match; try done).
Qed.
Lemma rune_len_4 c c2 c3 c4 s t :
  rune_len c (String c2 (String c3 (String c4 s))) = 4 -> rune_len c (String c2 (String c3 (String c4 t))) = 4.
Proof.
  unfold rune_len. destruct (between 194 223 (N_of_ascii c)); [by case_match|].
  destruct (between 224 239 (N_of_ascii c)); [by case_match|]. done.
Qed.

(** A rune of size [n] has its bytes. *)
Lemma rune_len_cases c s :
  rune_len c s = 0 \/
  (rune_len c s = 2 /\ exists c2 t, s = String c2 t) \/
  (rune_len c s = 3 /\ exists c2 c3 t, s = String c2 (String c3 t)) \/
  (rune_len c s = 4 /\ exists c2 c3 c4 t, s = String c2 (String c3 (String c4 t))).
Proof. unfold rune_len. destruct s as [|c2 [|c3 [|c4 s]]]; repeat case_match; naive_solver. Qed.

Lemma line_separator_bytes c c2 c3 : is_line_separator c c2 c3 = true ->
  encode_rune (8224 + N_of_ascii c3 mod 16) = String c (String c2 (String c3 EmptyString)) /\
  (N_of_ascii c3 mod 16 < 16)%N /\ between 55296 57343 (8224 + N_of_ascii c3 mod 16) = false.
Proof.
  unfold is_line_separator. intros [[Hc Hc2]%andb_true_iff Hc3]%andb_true_iff.
  apply N.eqb_eq in Hc, Hc2. apply andb_true_iff in Hc3 as [H1 H2].
  apply N.leb_le in H1, H2.
  rewrite <- (ascii_N_embedding c), <- (ascii_N_embedding c2), <- (ascii_N_embedding c3), Hc, Hc2.
  assert (N_of_ascii c3 = 168 \/ N_of_ascii c3 = 169)%N as [->| ->] by lia; by vm_compute.
Qed.

Lemma next_token_u h1 h2 h3 h4 r t :
  hex4 h1 h2 h3 h4 = Some r -> between 55296 57343 r = false ->
  next_token (String backslash (String "u" (String h1 (String h2 (String h3 (String h4 t)))))) =
  Some (TokPiece (encode_rune r) t).
Proof.
  intros H Hs. change (escape_token (String "u" (String h1 (String h2 (String h3 (String h4 t))))) =
    Some (TokPiece (encode_rune r) t)).
  unfold escape_token. change (simple_escape "u") with (@None ascii). change (Ascii.eqb "u" "u") with true.
  cbv beta iota. rewrite H. cbv beta iota. by rewrite Hs.
Qed.

(** Reading back what was written, up to the replacement of invalid UTF-8 *)
Lemma unquote_json_body s rest :
  unquote (json_body s +:+ String dquote rest) = Some (to_valid_utf8 s, rest).
Proof.
  remember (String.length s) as n eqn:Hn. assert (String.length s <= n) as Hle by lia. clear Hn.
  revert s Hle. induction n as [|n IH]; intros [|c s] Hle; cbn in Hle; try lia; try done.
  cbn [json_body to_valid_utf8]. destruct (N_of_ascii c <? 128)%N eqn:Hc.
  { rewrite str_app_assoc, (unquote_piece _ _ _ (next_token_escape c _ Hc)), IH by lia. done. }
  destruct (rune_len_cases c s) as [H|[(H & c2 & t & ->)|[(H & c2 & c3 & t & ->)|(H & c2 & c3 & c4 & t & ->)]]];
    rewrite H; cbn in Hle.
  - rewrite !str_app_cons, !str_app_nil_l.
    rewrite (unquote_piece _ _ _ (next_token_u "f"%char "f"%char "f"%char "d"%char 65533 _ eq_refl eq_refl)), IH by lia. done.
  - rewrite !str_app_cons, unquote_eq, next_token_high by done.
    unfold rune_token. rewrite (rune_len_2 _ _ _ _ H), IH by lia. done.
  - destruct (is_line_separator c c2 c3) eqn:Hl.
    + destruct (line_separator_bytes _ _ _ Hl) as (He & Hlt & Hs).
      rewrite !str_app_cons, !str_app_nil_l.
      erewrite unquote_piece; [|eapply next_token_u; [|exact Hs]].
      * rewrite He, IH by lia. done.
      * unfold hex4. rewrite hex_digit_value by done. done.
    + rewrite !str_app_cons, unquote_eq, next_token_high by done.
      unfold rune_token. rewrite (rune_len_3 _ _ _ _ _ H), IH by lia. done.
  - rewrite !str_app_cons, unquote_eq, next_token_high by done.
    unfold rune_token. rewrite (rune_len_4 _ _ _ _ _ _ H), IH by lia. done.
Qed.

(** ** Fuel *)

Lemma skip_ws_length s : String.length (skip_ws s) <= String.length s.
Proof. induction s as [|c s IH]; cbn; [done|]. destruct (is_ws c); cbn; lia. Qed.

Lemma expect_length c s r : expect c s = Some r -> String.length r < String.length s.
Proof.
  unfold expect. pose proof (skip_ws_length s) as H. destruct (skip_ws s) as [|d t]; [done|].
  destruct (Ascii.eqb d c); [|done]. intros [= ->]. cbn in H. lia.
Qed.

Lemma prepend_Some p o v r : prepend p o = Some (v, r) -> exists w, o = Some (w, r).
Proof. destruct o as [[w r']|]; cbn; [|done]. intros [= <- <-]. by exists w. Qed.

Lemma unquote_length s v r : unquote s = Some (v, r) -> String.length r < String.length s.
Proof.
  remember (String.length s) as n eqn:Hn. assert (String.length s <= n) as Hle by lia.
  rewrite Hn. clear Hn. revert s v r Hle. induction n as [|n IH]; intros s v r Hle H; [destruct s; [done|cbn in Hle; lia]|].
  rewrite unquote_eq in H. destruct (next_token s) as [[t|p t]|] eqn:E; [|..|done];
    apply next_token_length in E; cbn in E.
  - by injection H as _ <-.
  - apply prepend_Some in H as [w H]. apply IH in H; lia.
Qed.

Lemma digits_length s : String.length (digits s).2 <= String.length s.
Proof. induction s as [|c s IH]; cbn; [done|]. destruct (is_digit c); [|done]. destruct (digits s). cbn in *. lia. Qed.

Lemma number_int_length s d r : number_int s = Some (d, r) -> String.length r < String.length s.
Proof.
  destruct s as [|c s]; [done|]. unfold number_int. destruct (Ascii.eqb c "0"); [intros [= _ <-]; cbn; lia|].
  cbn [digits]. destruct (is_digit c); [|done].
  pose proof (digits_length s). destruct (digits s) as [d' r']. cbn in *. intros [= _ <-]. lia.
Qed.

Lemma number_frac_length s d r : number_frac s = Some (d, r) -> String.length r <= String.length s.
Proof.
  unfold number_frac. intros H. repeat case_match; simplify_eq; cbn; try lia.
  match goal with E : digits ?s = _ |- _ => pose proof (digits_length s) as Hd; rewrite E in Hd end.
  cbn in Hd. lia.
Qed.

Lemma number_exp_length s d r : number_exp s = Some (d, r) -> String.length r <= String.length s.
Proof.
  destruct s as [|c s]; [by intros [= _ <-]|]. unfold number_exp.
  destruct (_ || _); [|by intros [= _ <-]].
  assert (exists sign t, match s with String "+" t => ("+", t) | String "-" t => ("-", t) | _ => ("", s) end = (sign, t)
    /\ String.length t <= String.length s) as (sign & t & -> & Ht).
  { repeat case_match; subst; eexists _, _; (split; [done|]); cbn; lia. }
  pose proof (digits_length t). destruct (digits t) as [[|] r']; [done|].
  intros [= _ <-]. cbn in *. lia.
Qed.

Lemma parse_number_length s v r : parse_number s = Some (v, r) -> String.length r < String.length s.
Proof.
  unfold parse_number.
  assert (exists sign t, match s with String "-" t => ("-", t) | _ => ("", s) end = (sign, t)
    /\ String.length t <= String.length s) as (sign & t & -> & Ht).
  { repeat case_match; subst; eexists _, _; (split; [done|]); cbn; lia. }
  destruct (number_int t) as [[i s1]|] eqn:E1; [|done].
  destruct (number_frac s1) as [[f s2]|] eqn:E2; [|done].
  destruct (number_exp s2) as [[e s3]|] eqn:E3; [|done]. intros [= _ <-].
  apply number_int_length in E1. apply number_frac_length in E2. apply number_exp_length in E3. lia.
Qed.


Lemma HasPrefix_drop_length s p : HasPrefix s p = true -> p <> EmptyString ->
  String.length (drop_str (String.length p) s) < String.length s.
Proof.
  intros [t ->]%HasPrefix_spec Hp. rewrite drop_str_app. destruct p; [done|].
  rewrite str_length_app. cbn. lia.
Qed.

(** Every part of the parser consumes input. *)
Lemma parse_shrinks fuel :
  (forall d s v r, parse_value fuel d s = Some (v, r) -> String.length r < String.length s) /\
  (forall d s v r, parse_members fuel d s = Some (v, r) -> String.length r < String.length s) /\
  (forall d s v r, parse_elements fuel d s = Some (v, r) -> String.length r < String.length s).
Proof.
  induction fuel as [|f (IHv & IHm & IHe)]; [done|]. repeat split; intros d s v r H; cbn in H.
  - pose proof (skip_ws_length s) as Hs. destruct (skip_ws s) as [|c s1]; [done|].
    repeat match type of H with
    | context [match ?x with _ => _ end] => destruct x eqn:?; try discriminate H
    end;
    repeat match goal with
    | E : unquote _ = _ |- _ => apply unquote_length in E
    | E : expect _ _ = Some _ |- _ => apply expect_length in E
    | E : parse_members _ _ _ = _ |- _ => apply IHm in E
    | E : parse_elements _ _ _ = _ |- _ => apply IHe in E
    | E : HasPrefix _ _ = true |- _ => apply HasPrefix_drop_length in E; [|done]
    | E : parse_number _ = _ |- _ => apply parse_number_length in E
    end; simplify_eq; cbn [String.length] in *; lia.
  - repeat case_match; simplify_eq;
    repeat match goal with
    | E : unquote _ = _ |- _ => apply unquote_length in E
    | E : expect _ _ = Some _ |- _ => apply expect_length in E
    | E : parse_members _ _ _ = _ |- _ => apply IHm in E
    | E : parse_value _ _ _ = _ |- _ => apply IHv in E
    end; lia.
  - repeat case_match; simplify_eq;
    repeat match goal with
    | E : expect _ _ = Some _ |- _ => apply expect_length in E
    | E : parse_elements _ _ _ = _ |- _ => apply IHe in E
    | E : parse_value _ _ _ = _ |- _ => apply IHv in E
    end; lia.
Qed.

(** Two units of fuel per byte give the result of any larger fuel. *)
Lemma parse_fuel_enough f1 : forall f2 s d,
  (2 * String.length s + 1 <= f1 -> 2 * String.length s + 1 <= f2 ->
   parse_value f1 d s = parse_value f2 d s) /\
  (2 * String.length s + 2 <= f1 -> 2 * String.length s + 2 <= f2 ->
   parse_members f1 d s = parse_members f2 d s /\ parse_elements f1 d s = parse_elements f2 d s).
Proof.
  induction f1 as [|f1 IH]; intros f2 s d; [lia|].
  assert (forall f2 s d, 2 * String.length s + 1 <= f1 -> 2 * String.length s + 1 <= f2 ->
    parse_value f1 d s = parse_value f2 d s) as IHv by (intros; by apply IH).
  assert (forall f2 s d, 2 * String.length s + 2 <= f1 -> 2 * String.length s + 2 <= f2 ->
    parse_members f1 d s = parse_members f2 d s) as IHm by (intros; by apply IH).
  assert (forall f2 s d, 2 * String.length s + 2 <= f1 -> 2 * String.length s + 2 <= f2 ->
    parse_elements f1 d s = parse_elements f2 d s) as IHe by (intros; by apply IH).
  clear IH. split; [|intros H1 H2; split; revert H1 H2]; destruct f2 as [|f2]; try lia.
  - intros H1 H2. cbn [parse_value parse_members parse_elements]. pose proof (skip_ws_length s) as Hs. destruct (skip_ws s) as [|c s1]; [done|].
    cbn in Hs. rewrite (IHm f2 s1), (IHe f2 s1) by lia. done.
  - intros H1 H2. cbn [parse_value parse_members parse_elements]. destruct (expect dquote s) as [s1|] eqn:E1; [|done]. apply expect_length in E1.
    destruct (unquote s1) as [[key s2]|] eqn:E2; [|done]. apply unquote_length in E2.
    destruct (expect ch_colon s2) as [s3|] eqn:E3; [|done]. apply expect_length in E3.
    rewrite (IHv f2 s3) by lia. destruct (parse_value f2 d s3) as [[v s4]|] eqn:E4; [|done].
    apply parse_shrinks in E4. destruct (expect ch_comma s4) as [s5|] eqn:E5; [|done].
    apply expect_length in E5. by rewrite (IHm f2 s5) by lia.
  - intros H1 H2. cbn [parse_value parse_members parse_elements]. rewrite (IHv f2 s) by lia. destruct (parse_value f2 d s) as [[v s1]|] eqn:E1; [|done].
    apply parse_shrinks in E1. destruct (expect ch_comma s1) as [s2|] eqn:E2; [|done].
    apply expect_length in E2. by rewrite (IHe f2 s2) by lia.
Qed.

Lemma parse_value_fuel s d fuel : 2 * String.length s + 2 <= fuel ->
  parse_value fuel d s = parse_value (2 * String.length s + 2) d s.
Proof. intros. apply parse_fuel_enough; lia. Qed.

(** ** Writing documents ([json.Marshal] of structs, slices and strings) *)

Fixpoint print_members (ms : list (string * string)) : string :=
  match ms with
  | [] => String ch_rbrace EmptyString
  | [(k, text)] => json_string k +:+ String ch_colon (text +:+ String ch_rbrace EmptyString)
  | (k, text) :: rest => json_string k +:+ String ch_colon (text +:+ String ch_comma (print_members rest))
  end.
(** A struct: the names and the printed values of its fields in order *)
Definition print_object (ms : list (string * string)) : string := String ch_lbrace (print_members ms).

Fixpoint print_elements (items : list string) : string :=
  match items with
  | [] => String ch_rbracket EmptyString
  | [text] => text +:+ String ch_rbracket EmptyString
  | text :: rest => text +:+ String ch_comma (print_elements rest)
  end.
Definition print_array (items : list string) : string := String ch_lbracket (print_elements items).

(** A number literal ends where [rest] begins. *)
Definition ends_number (rest : string) : bool :=
  match rest with
  | EmptyString => true
  | String c _ => negb (is_digit c || Ascii.eqb c "." || Ascii.eqb c "e" || Ascii.eqb c "E")
  end.
(** [text] is read as [v] wherever a value occurs in a document. *)
Definition reads_as (text : string) (v : json) (depth : N) : Prop :=
  forall fuel rest, ends_number rest = true -> 2 * String.length (text +:+ rest) + 1 <= fuel ->
  parse_value fuel depth (text +:+ rest) = Some (v, rest).

Lemma expect_here c s : is_ws c = false -> expect c (String c s) = Some s.
Proof. intros H. unfold expect. cbn. rewrite H. by rewrite Ascii.eqb_refl. Qed.
Lemma expect_other c d s : is_ws d = false -> Ascii.eqb d c = false -> expect c (String d s) = None.
Proof. intros H1 H2. unfold expect. cbn. by rewrite H1, H2. Qed.

Lemma json_string_app s rest : json_string s +:+ rest = String dquote (json_body s +:+ String dquote rest).
Proof. unfold json_string. by rewrite str_app_cons, str_app_assoc, str_app_cons, str_app_nil_l. Qed.

Lemma json_string_reads s d : reads_as (json_string s) (JString (to_valid_utf8 s)) d.
Proof.
  intros [|fuel] rest _ H; [lia|]. rewrite json_string_app.
  cbn [parse_value skip_ws is_ws]. change (is_ws dquote) with false. cbv beta iota.
  rewrite Ascii.eqb_refl, unquote_json_body. done.
Qed.

Lemma null_reads d : reads_as "null" JNull d.
Proof. 
  intros [|fuel] rest _ H; [lia|]. pose proof (HasPrefix_app "null" rest) as Hp.
  rewrite !str_app_cons, str_app_nil_l in *. cbn [parse_value skip_ws]. change (is_ws "n") with false.
  change (Ascii.eqb "n" dquote) with false. change (Ascii.eqb "n" ch_lbrace) with false.
  change (Ascii.eqb "n" ch_lbracket) with false. cbv beta iota. rewrite Hp. done.
 Qed.

Lemma text_app_length a c b : String.length b < String.length (a +:+ String c b).
Proof. rewrite str_length_app. cbn. lia. Qed.

Lemma print_elements_read (items : list (string * json)) d :
  items <> [] -> Forall (fun x => reads_as x.1 x.2 d) items ->
  forall fuel rest, 2 * String.length (print_elements (map fst items) +:+ rest) + 2 <= fuel ->
  parse_elements fuel d (print_elements (map fst items) +:+ rest) = Some (map snd items, rest).
Proof.
  intros Hne Hall. induction Hall as [|[text v] items Hx Hitems IH]; [done|]. cbn [fst snd] in Hx.
  intros [|fuel] rest Hf; [lia|]. cbn [parse_elements].
  destruct items as [|i items].
  - cbn [map print_elements fst snd] in *. rewrite str_app_assoc, str_app_cons, str_app_nil_l in *.
    rewrite Hx by (done || lia). rewrite expect_other, expect_here by done. done.
  - cbn [map print_elements fst snd] in *. rewrite str_app_assoc, str_app_cons in *.
    rewrite Hx by (done || lia). rewrite expect_here by done. rewrite IH; [done|done|].
    revert Hf. rewrite str_length_app. cbn. lia.
Qed.

Lemma print_array_reads (items : list (string * json)) d :
  (d < maxNestingDepth)%N ->
  Forall (fun x => reads_as x.1 x.2 (d + 1)%N /\ exists c t, x.1 = String c t /\ is_ws c = false /\ Ascii.eqb c ch_rbracket = false) items ->
  reads_as (print_array (map fst items)) (JArray (map snd items)) d.
Proof.
  intros Hd Hall [|fuel] rest _ Hf; [lia|]. unfold print_array in *. rewrite str_app_cons in *. cbn in Hf.
  cbn [parse_value skip_ws]. change (is_ws ch_lbracket) with false. cbv beta iota.
  change (Ascii.eqb ch_lbracket dquote) with false. change (Ascii.eqb ch_lbracket ch_lbrace) with false.
  rewrite Ascii.eqb_refl. apply N.ltb_lt in Hd as ->. cbv beta iota.
  destruct items as [|i items]; [done|].
  rewrite print_elements_read; [|done|by eapply List.Forall_impl; [|exact Hall]; cbn; naive_solver|lia].
  apply List.Forall_inv in Hall as [_ (c & t & Hc & Hw & Hb)].
  destruct i as [text v]. cbn [fst] in Hc. subst text. cbn [map fst print_elements].
  destruct items; cbn [map]; rewrite !str_app_cons, expect_other by done; done.
Qed.

Lemma print_members_read (ms : list (string * string * json)) d :
  ms <> [] -> Forall (fun x => reads_as x.1.2 x.2 d) ms ->
  forall fuel rest, 2 * String.length (print_members (map fst ms) +:+ rest) + 2 <= fuel ->
  parse_members fuel d (print_members (map fst ms) +:+ rest) =
    Some (map (fun x => (to_valid_utf8 x.1.1, x.2)) ms, rest).
Proof.
  intros Hne Hall. induction Hall as [|[[k text] v] ms Hx Hms IH]; [done|]. cbn [fst snd] in Hx.
  intros [|fuel] rest Hf; [lia|]. cbn [parse_members].
  destruct ms as [|i ms]; cbn [map print_members fst snd] in *;
    rewrite str_app_assoc, str_app_cons, str_app_assoc, str_app_cons in *;
    rewrite json_string_app in *; revert Hf; cbn [String.length];
    rewrite !str_length_app; cbn [String.length]; rewrite str_length_app; cbn [String.length]; intros Hf;
    rewrite expect_here, unquote_json_body, expect_here by done;
    rewrite Hx by (done || (rewrite str_length_app; cbn [String.length]; lia)).
  - rewrite expect_other, expect_here by done. done.
  - rewrite expect_here by done. rewrite IH; [done|done|lia].
Qed.

Lemma print_object_reads (ms : list (string * string * json)) d :
  ms <> [] -> (d < maxNestingDepth)%N -> Forall (fun x => reads_as x.1.2 x.2 (d + 1)%N) ms ->
  reads_as (print_object (map fst ms)) (JObject (map (fun x => (to_valid_utf8 x.1.1, x.2)) ms)) d.
Proof.
  intros Hne Hd Hall [|fuel] rest _ Hf; [lia|]. unfold print_object in *. rewrite str_app_cons in *. cbn in Hf.
  cbn [parse_value skip_ws]. change (is_ws ch_lbrace) with false. cbv beta iota.
  change (Ascii.eqb ch_lbrace dquote) with false. rewrite Ascii.eqb_refl. apply N.ltb_lt in Hd as ->. cbv beta iota.
  rewrite print_members_read; [|done|done|lia].
  destruct ms as [|[[k text] v] ms]; [done|]. cbn [map fst print_members].
  destruct ms; cbn [map]; rewrite !str_app_assoc, json_string_app, expect_other by done; done.
Qed.

Lemma reads_as_parse_json text v : reads_as text v 0 -> parse_json text = Some v.
Proof.
  intros H. unfold parse_json. specialize (H (2 * String.length text + 2) EmptyString).
  rewrite str_app_nil_r in H. rewrite H by (done || lia). done.
Qed.
