(* ===== verification/GoTime.v ===== *)
(** * Durations: time.ParseDuration and Duration.Seconds

    The comparison of durations by their seconds, and the standard library's
    duration parser, used by the binding controller on the user-supplied
    [spec.lifetime].  Integer parts are [uint64] arithmetic
    with the library's overflow tests; the fraction is the library's float64
    product, computed with the IEEE-754 binary64 operations of [SpecFloat]. *)

From S2P Require Import Prelude GoStd.
From Stdlib Require Import SpecFloat.
Local Open Scope string_scope.
Local Open Scope spi_scope.

(** ** binary64 *)

Definition f64_of_Z (z : Z) : spec_float :=
  binary_normalize 53 1024 z 0 false.
Definition f64_mul := SFmul 53 1024.
Definition f64_div := SFdiv 53 1024.
(** [uint64(f)] for a non-negative finite [f]: truncation *)
Definition f64_trunc (f : spec_float) : Z :=
  match f with
  | S754_finite false m e =>
      if (0 <=? e)%Z then Z.pos m * 2 ^ e else Z.pos m / 2 ^ (- e)
  | _ => 0
  end%Z.

(** [Duration.Seconds]: whole seconds and the rest, each converted and then
    added; [seconds_gt d1 d2] is [d1.Seconds() > d2.Seconds()].  Durations that
    differ by less than the precision of binary64 compare as equal. *)
Definition Seconds (d : Z) : spec_float :=
  SFadd 53 1024 (f64_of_Z (Z.quot d Second)) (f64_div (f64_of_Z (Z.rem d Second)) (f64_of_Z Second)).
Definition seconds_gt (d1 d2 : Z) : bool := SFltb (Seconds d2) (Seconds d1).

Example seconds_1 : seconds_gt (2 * Hour + 1) (2 * Hour) = true.
Proof. vm_compute. reflexivity. Qed.
Example seconds_2 : seconds_gt max_int64 (max_int64 - 1) = false.
Proof. vm_compute. reflexivity. Qed.
Example seconds_3 : seconds_gt (- Second) 0 = false.
Proof. vm_compute. reflexivity. Qed.

Definition digit_val (c : ascii) : Z := Z.of_N (N_of_ascii c) - 48.

(** [leadingInt]: [None] is the overflow error *)
Fixpoint leadingInt (x : Z) (s : string) : option (Z * string) :=
  match s with
  | EmptyString => Some (x, EmptyString)
  | String c s' =>
      if is_digit c then
        if (two63 / 10 <? x)%Z then None
        else let x' := (x * 10 + digit_val c)%Z in
             if (two63 <? x')%Z then None else leadingInt x' s'
      else Some (x, s)
  end.

(** [leadingFraction]: digits beyond the 63-bit range are dropped *)
Fixpoint leadingFraction (x scale : Z) (overflow : bool) (s : string) : Z * Z * string :=
  match s with
  | EmptyString => (x, scale, EmptyString)
  | String c s' =>
      if is_digit c then
        let y := (x * 10 + digit_val c)%Z in
        if overflow || (max_int64 / 10 <? x)%Z || (two63 <? y)%Z
        then leadingFraction x scale true s'
        else leadingFraction y (scale * 10)%Z false s'
      else (x, scale, s)
  end.

(** The bytes up to the next digit or period: the unit's name *)
Fixpoint span_unit (s : string) : string * string :=
  match s with
  | EmptyString => (EmptyString, EmptyString)
  | String c s' =>
      if is_digit c || Ascii.eqb c "." then (EmptyString, s)
      else let '(u, r) := span_unit s' in (String c u, r)
  end.

Definition micro_sign : string := String (ascii_of_N 194) (String (ascii_of_N 181) "s").
Definition greek_mu : string := String (ascii_of_N 206) (String (ascii_of_N 188) "s").

Definition unitMap (u : string) : option Z :=
  if String.eqb u "ns" then Some 1%Z
  else if String.eqb u "us" || String.eqb u micro_sign || String.eqb u greek_mu then Some 1000%Z
  else if String.eqb u "ms" then Some Millisecond
  else if String.eqb u "s" then Some Second
  else if String.eqb u "m" then Some Minute
  else if String.eqb u "h" then Some Hour
  else None.

Definition invalid_duration (orig : string) : goerr := ErrorString ("time: invalid duration " +:+ orig).
Definition missing_unit (orig : string) : goerr := ErrorString ("time: missing unit in duration " +:+ orig).
Definition unknown_unit (u orig : string) : goerr :=
  ErrorString ("time: unknown unit " +:+ u +:+ " in duration " +:+ orig).

(** One number with its unit: the value in nanoseconds and the rest. *)
Definition parse_component (orig s : string) : res (Z * string) :=
  match s with
  | EmptyString => Err (invalid_duration orig)
  | String c _ =>
      if negb (is_digit c || Ascii.eqb c ".") then Err (invalid_duration orig)
      else match leadingInt 0 s with
      | None => Err (invalid_duration orig)
      | Some (v, s1) =>
          let pre := negb (String.length s =? String.length s1)%nat in
          let '(f, scale, s2, post) :=
            match s1 with
            | String d s1' =>
                if Ascii.eqb d "." then
                  let '(f, scale, r) := leadingFraction 0 1 false s1' in
                  (f, scale, r, negb (String.length s1' =? String.length r)%nat)
                else (0%Z, 1%Z, s1, false)
            | EmptyString => (0%Z, 1%Z, s1, false)
            end in
          if negb pre && negb post then Err (invalid_duration orig)
          else
            let '(u, rest) := span_unit s2 in
            if String.eqb u "" then Err (missing_unit orig)
            else match unitMap u with
            | None => Err (unknown_unit u orig)
            | Some unit =>
                if (two63 / unit <? v)%Z then Err (invalid_duration orig)
                else
                  let v1 := (v * unit)%Z in
                  let v2 := if (0 <? f)%Z
                            then (v1 + f64_trunc (f64_mul (f64_of_Z f) (f64_div (f64_of_Z unit) (f64_of_Z scale))))%Z
                            else v1 in
                  if (0 <? f)%Z && (two63 <? v2)%Z then Err (invalid_duration orig)
                  else Ok (v2, rest)
            end
      end
  end.

(** The loop over the components; each consumes at least one byte, so the
    length of the string is enough fuel ([parse_components_fuel]). *)
Fixpoint parse_components (fuel : nat) (orig : string) (d : Z) (s : string) : res Z :=
  match s with
  | EmptyString => Ok d
  | _ =>
      match fuel with
      | O => Err (invalid_duration orig)
      | S fuel' =>
          let? (v, rest) := parse_component orig s in
          let d' := ((d + v) mod two64)%Z in
          if (two63 <? d')%Z then Err (invalid_duration orig)
          else parse_components fuel' orig d' rest
      end
  end.

Definition ParseDuration (orig : string) : res Z :=
  let '(neg, s) :=
    match orig with
    | String c s' =>
        if Ascii.eqb c "-" then (true, s')
        else if Ascii.eqb c "+" then (false, s') else (false, orig)
    | EmptyString => (false, orig)
    end in
  if String.eqb s "0" then Ok 0%Z
  else if String.eqb s "" then Err (invalid_duration orig)
  else
    let? d := parse_components (String.length s) orig 0 s in
    if neg then Ok (- d)%Z
    else if (max_int64 <? d)%Z then Err (invalid_duration orig)
    else Ok d.

Example pd_1 : ParseDuration "1h30m" = Ok 5400000000000%Z.
Proof. vm_compute. reflexivity. Qed.
Example pd_2 : ParseDuration "1.5s" = Ok 1500000000%Z.
Proof. vm_compute. reflexivity. Qed.
Example pd_3 : ParseDuration "-2m" = Ok (-120000000000)%Z.
Proof. vm_compute. reflexivity. Qed.
Example pd_4 : is_ok (ParseDuration "10") = false.
Proof. vm_compute. reflexivity. Qed.
Example pd_5 : is_ok (ParseDuration "9223372036854775808ns") = false.
Proof. vm_compute. reflexivity. Qed.
Example pd_6 : ParseDuration "0.000000001s" = Ok 1%Z.
Proof. vm_compute. reflexivity. Qed.

(** ** Termination: enough fuel decides the result *)

Lemma leadingInt_length x s v r :
  leadingInt x s = Some (v, r) -> String.length r <= String.length s.
Proof.
  revert x. induction s as [|c s IH]; cbn; intros x; [by intros [= _ <-]|].
  destruct (is_digit c); [|by intros [= _ <-]].
  destruct (two63 / 10 <? x)%Z; [done|]. destruct (_ <? _)%Z; [done|].
  intros H. apply IH in H. lia.
Qed.

Lemma leadingFraction_length x sc o s f sc' r :
  leadingFraction x sc o s = (f, sc', r) -> String.length r <= String.length s.
Proof.
  revert x sc o. induction s as [|c s IH]; cbn; intros x sc o; [by intros [= _ _ <-]|].
  destruct (is_digit c); [|by intros [= _ _ <-]].
  destruct (o || _ || _); intros H; apply IH in H; lia.
Qed.

Lemma span_unit_length s u r :
  span_unit s = (u, r) -> String.length s = String.length u + String.length r.
Proof.
  revert u r. induction s as [|c s IH]; cbn; intros u r; [by intros [= <- <-]|].
  destruct (is_digit c || _); [by intros [= <- <-]|].
  destruct (span_unit s) as [u' r'] eqn:E. intros [= <- <-]. cbn. by rewrite (IH u' r').
Qed.

Lemma parse_component_consumes orig s v r :
  parse_component orig s = Ok (v, r) -> String.length r < String.length s.
Proof.
  unfold parse_component. destruct s as [|c s]; [done|].
  remember (String c s) as w. destruct (negb (_ || _)); [done|].
  destruct (leadingInt 0 w) as [[v0 s1]|] eqn:E1; [|done].
  apply leadingInt_length in E1.
  destruct (match s1 with EmptyString => _ | _ => _ end) as [[[f sc] s2] post] eqn:E2.
  assert (String.length s2 <= String.length s1) as L2.
  { destruct s1 as [|d s1']; [by injection E2 as <- <- <- <-|].
    destruct (Ascii.eqb d "."); [|by injection E2 as <- <- <- <-].
    destruct (leadingFraction 0 1 false s1') as [[f' sc'] r'] eqn:E3.
    injection E2 as <- <- <- <-. apply leadingFraction_length in E3. cbn. lia. }
  destruct (negb _ && negb post); [done|].
  destruct (span_unit s2) as [u rest] eqn:E4. apply span_unit_length in E4.
  destruct (String.eqb_spec u "") as [|Hu]; [done|].
  destruct (unitMap u); [|done]. destruct (_ <? v0)%Z; [done|].
  destruct ((0 <? f)%Z && _); [done|]. intros [= _ <-].
  destruct u; [done|]. cbn in E4. lia.
Qed.

Lemma parse_components_fuel orig s : forall d n m,
  String.length s <= n -> String.length s <= m ->
  parse_components n orig d s = parse_components m orig d s.
Proof.
  induction s as [s IH] using (induction_ltof1 _ String.length). unfold ltof in IH.
  intros d n m Hn Hm. destruct s as [|c s]; [by destruct n, m|].
  destruct n as [|n]; cbn [String.length] in *; [lia|].
  destruct m as [|m]; [lia|]. cbn [parse_components].
  destruct (parse_component orig (String c s)) as [[v r]|] eqn:E; cbn; [|done].
  destruct (two63 <? _)%Z; [done|].
  apply parse_component_consumes in E. cbn in E. apply IH; cbn; lia.
Qed.

(** ** Bounds: an accepted duration is an [int64] *)

Lemma parse_components_bounds n orig : forall d s r,
  (0 <= d <= two63)%Z -> parse_components n orig d s = Ok r -> (0 <= r <= two63)%Z.
Proof.
  induction n as [|n IH]; intros d s r Hd; destruct s as [|c s]; cbn [parse_components];
    [by intros [= <-]|done|by intros [= <-]|].
  destruct (parse_component orig (String c s)) as [[v t]|]; cbn; [|done].
  destruct (Z.ltb_spec two63 ((d + v) mod two64)) as [|Hle]; [done|].
  apply IH. split; [|done]. by apply Z.mod_pos_bound.
Qed.

Lemma ParseDuration_bounds s d :
  ParseDuration s = Ok d -> (min_int64 <= d <= max_int64)%Z.
Proof.
  unfold ParseDuration.
  destruct (match s with EmptyString => _ | _ => _ end) as [neg s'].
  destruct (String.eqb s' "0"); [by intros [= <-]|].
  destruct (String.eqb s' ""); [done|].
  destruct (parse_components _ _ _ _) as [r|] eqn:E; cbn; [|done].
  apply parse_components_bounds in E; [|unfold two63; lia].
  unfold min_int64, max_int64, two63 in *.
  destruct neg; [intros [= <-]; lia|].
  destruct (Z.ltb_spec 9223372036854775807 r); intros [= <-]. lia.
Qed.
