(* ===== verification/GoUnmarshal.v ===== *)
(** * encoding/json on structs, maps and integers

    What the code uses of [json.Marshal] and [json.Unmarshal] beyond the
    documents of GoJson.v: structs with their case-insensitive field names,
    maps with string keys (written in the order of their keys), slices of
    strings, 64-bit integers, and [interface{}] targets.  A target that cannot
    hold a value makes the decoder go on and report the first such error at the
    end; no caller reads the target then, so the error ends the decoding here. *)

From S2P Require Import Prelude GoStd GoUrl GoJson GoTime.
From stdpp Require Import sorting.
Local Open Scope string_scope.
Local Open Scope list_scope.
Local Open Scope spi_scope.

Definition jsonSyntaxError : goerr := ExtError "json: syntax error" [].
Definition jsonTypeError : goerr := ExtError "json: cannot unmarshal value into Go struct field" [].

(** ** Field names *)

(** The representative of a name under case folding: K also stands for the
    Kelvin sign (E2 84 AA), S for the long s (C5 BF). *)
Fixpoint fold_name (s : string) : string :=
  match s with
  | EmptyString => EmptyString
  | String c s1 =>
      match s1 with
      | String c2 s2 =>
          if (N_of_ascii c =? 197)%N && (N_of_ascii c2 =? 191)%N then String "s" (fold_name s2)
          else match s2 with
               | String c3 s3 =>
                   if (N_of_ascii c =? 226)%N && (N_of_ascii c2 =? 132)%N && (N_of_ascii c3 =? 170)%N
                   then String "k" (fold_name s3) else String (lower_char c) (fold_name s1)
               | EmptyString => String (lower_char c) (fold_name s1)
               end
      | EmptyString => String (lower_char c) (fold_name s1)
      end
  end.

(** The field a member is stored into: an exact match, or else a folded one *)
Definition find_by_name {F} (fields : list (string * F)) (key : string) : option F :=
  match List.find (fun f => String.eqb f.1 key) fields with
  | Some f => Some f.2
  | None => option_map snd (List.find (fun f => String.eqb (fold_name f.1) (fold_name key)) fields)
  end.

(** ** Decoding into targets; each takes the old value of its target *)

Definition decode_string (old : string) (v : json) : res string :=
  match v with JString s => Ok s | JNull => Ok old | _ => Err jsonTypeError end.

(** The elements of an array, into a slice that held [old] *)
Fixpoint decode_items (old : list string) (items : list json) : res (list string) :=
  match items with
  | [] => Ok []
  | v :: rest =>
      let? s := decode_string (match old with o :: _ => o | [] => "" end) v in
      let? l := decode_items (match old with _ :: os => os | [] => [] end) rest in
      Ok (s :: l)
  end.
(** A slice of strings; [None] is the nil slice *)
Definition decode_strings (old : option (list string)) (v : json) : res (option (list string)) :=
  match v with
  | JNull => Ok None
  | JArray items => let? l := decode_items (default [] old) items in Ok (Some l)
  | _ => Err jsonTypeError
  end.

(** strconv.ParseInt and ParseUint on the literal of a number *)
Fixpoint digits_value (acc : Z) (s : string) : Z :=
  match s with
  | EmptyString => acc
  | String c s' => digits_value (acc * 10 + digit_val c) s'
  end.
Definition ParseUint (s : string) : option Z :=
  match digits s with
  | (EmptyString, _) => None
  | (d, EmptyString) => if (digits_value 0 d <? two64)%Z then Some (digits_value 0 d) else None
  | (_, String _ _) => None
  end.
Definition ParseInt (s : string) : option Z :=
  match s with
  | String "-" t =>
      match ParseUint t with
      | Some n => if (n <=? two63)%Z then Some (- n)%Z else None
      | None => None
      end
  | _ =>
      match ParseUint s with
      | Some n => if (n <=? max_int64)%Z then Some n else None
      | None => None
      end
  end.
Definition decode_number (parse : string -> option Z) (old : Z) (v : json) : res Z :=
  match v with
  | JNumber text => match parse text with Some n => Ok n | None => Err jsonTypeError end
  | JNull => Ok old
  | _ => Err jsonTypeError
  end.
Definition decode_int64 : Z -> json -> res Z := decode_number ParseInt.
Definition decode_uint64 : Z -> json -> res Z := decode_number ParseUint.

(** A struct: the members in order, each into its field; unknown members are
    ignored. *)
Fixpoint decode_members {A} (fields : list (string * (A -> json -> res A))) (dest : A)
  (ms : list (string * json)) : res A :=
  match ms with
  | [] => Ok dest
  | (key, v) :: rest =>
      let? dest := match find_by_name fields key with Some f => f dest v | None => Ok dest end in
      decode_members fields dest rest
  end.
Definition decode_struct {A} (fields : list (string * (A -> json -> res A))) (dest : A) (v : json) : res A :=
  match v with
  | JObject ms => decode_members fields dest ms
  | JNull => Ok dest
  | _ => Err jsonTypeError
  end.

(** A map: every value is decoded into a fresh element.  The nil map and the
    empty one are the same here; no caller distinguishes them. *)
Fixpoint decode_entries {A} (element : json -> res A) (m : gmap string A) (ms : list (string * json))
  : res (gmap string A) :=
  match ms with
  | [] => Ok m
  | (key, v) :: rest => let? a := element v in decode_entries element (<[key := a]> m) rest
  end.
Definition decode_map {A} (element : json -> res A) (old : gmap string A) (v : json) : res (gmap string A) :=
  match v with
  | JObject ms => decode_entries element old ms
  | JNull => Ok ∅
  | _ => Err jsonTypeError
  end.

(** [json.Unmarshal(data, &dest)] *)
Definition Unmarshal_into {A} (decode : A -> json -> res A) (dest : A) (data : string) : res A :=
  match parse_json data with
  | None => Err jsonSyntaxError
  | Some v => decode dest v
  end.

(** ** interface{} targets

    A number becomes a float64: a literal that rounds to an infinity is an
    error.  2^1024 - 2^970 is the least real that does. *)
Definition float64_limit : Z := 2 ^ 1024 - 2 ^ 970.
Fixpoint strip_zeros (s : string) : string :=
  match s with String "0" s' => strip_zeros s' | _ => s end.
Definition float64_ok (text : string) : bool :=
  let s := TrimPrefix text "-" in
  let '(i, s1) := digits s in
  let '(f, s2) := match s1 with String "." t => digits t | _ => (EmptyString, s1) end in
  let e := match s2 with
           | String _ (String "-" t) => (- digits_value 0 t)%Z
           | String _ (String "+" t) => digits_value 0 t
           | String _ t => digits_value 0 t
           | EmptyString => 0%Z
           end in
  let m := strip_zeros (i +:+ f) in
  let e10 := (e - Z.of_nat (String.length f))%Z in
  let magnitude := (e10 + Z.of_nat (String.length m))%Z in
  if String.eqb m EmptyString || (magnitude <? 300)%Z then true
  else if (310 <? magnitude)%Z then false
  else if (0 <=? e10)%Z then (digits_value 0 m * 10 ^ e10 <? float64_limit)%Z
  else (digits_value 0 m <? float64_limit * 10 ^ (- e10))%Z.

Fixpoint interface_ok (v : json) : bool :=
  match v with
  | JNumber text => float64_ok text
  | JArray items => forallb interface_ok items
  | JObject ms => forallb (fun m => interface_ok m.2) ms
  | _ => true
  end.

(** The value of a member of a map[string]interface{}: the last one counts *)
Fixpoint member (key : string) (ms : list (string * json)) : option json :=
  match ms with
  | [] => None
  | (k, v) :: rest =>
      match member key rest with
      | Some w => Some w
      | None => if String.eqb k key then Some v else None
      end
  end.

(** [json.Unmarshal] into a map[string]interface{}; the nil map is empty *)
Definition decode_object (v : json) : res (list (string * json)) :=
  match v with
  | JObject ms => if interface_ok v then Ok ms else Err jsonTypeError
  | JNull => Ok []
  | _ => Err jsonTypeError
  end.
Definition Unmarshal_object (data : string) : res (list (string * json)) :=
  match parse_json data with
  | None => Err jsonSyntaxError
  | Some v => decode_object v
  end.
(** [json.NewDecoder(body).Decode]: the first value of the body *)
Definition Decode_object (data : string) : res (list (string * json)) :=
  match parse_value (2 * String.length data + 2) 0 data with
  | None => Err jsonSyntaxError
  | Some (v, _) => decode_object v
  end.

Example object_1 : Decode_object ("{" +:+ json_string "a" +:+ ":1e308}x") = Ok [("a", JNumber "1e308")].
Proof. vm_compute. reflexivity. Qed.
Example object_2 : Unmarshal_object ("{" +:+ json_string "a" +:+ ":[1.8e308]}") = Err jsonTypeError.
Proof. vm_compute. reflexivity. Qed.
Example object_3 : Unmarshal_object ("{" +:+ json_string "a" +:+ ":1}x") = Err jsonSyntaxError.
Proof. vm_compute. reflexivity. Qed.

(** ** Writing maps *)

Definition key_le {A} (a b : string * A) : Prop := Is_true (String.leb a.1 b.1).
#[export] Instance key_le_dec {A} : RelDecision (@key_le A).
Proof. intros a b. unfold key_le. apply _. Defined.
(** The entries of a map in the order of their keys *)
Definition sorted_entries {A} (m : gmap string A) : list (string * A) := merge_sort key_le (map_to_list m).
Definition marshal_map {A} (print : A -> string) (m : gmap string A) : string :=
  print_object (map (fun e => (e.1, print e.2)) (sorted_entries m)).
Definition marshal_strings (s : option (list string)) : string :=
  match s with None => "null" | Some l => print_array (map json_string l) end.

(** ** Lemmas: integers *)

Lemma digit_char_spec d : (0 <= d < 10)%Z ->
  is_digit (digit_char d) = true /\ digit_val (digit_char d) = d.
Proof.
  intros H. assert (d = 0 \/ d = 1 \/ d = 2 \/ d = 3 \/ d = 4 \/ d = 5 \/ d = 6 \/ d = 7 \/ d = 8 \/ d = 9)%Z by lia.
  repeat (destruct H0 as [->|H0]; [done|]). by subst.
Qed.

Lemma digit_char_mod n : is_digit (digit_char (n mod 10)) = true /\ digit_val (digit_char (n mod 10)) = (n mod 10)%Z.
Proof. apply digit_char_spec. apply Z.mod_pos_bound. lia. Qed.

Lemma digits_format fuel : forall n acc,
  digits (format_digits fuel n acc) = (format_digits fuel n (digits acc).1, (digits acc).2).
Proof.
  induction fuel as [|f IH]; intros n acc; cbn [format_digits]; [by destruct (digits acc)|].
  assert (digits (String (digit_char (n mod 10)) acc) = (String (digit_char (n mod 10)) (digits acc).1, (digits acc).2)) as E.
  { cbn [digits]. rewrite (proj1 (digit_char_mod n)). by destruct (digits acc). }
  destruct (n <? 10)%Z; [exact E|]. by rewrite IH, E.
Qed.

Lemma digits_value_format fuel : forall n acc, (0 <= n < 10 ^ Z.of_nat fuel)%Z ->
  digits_value 0 (format_digits fuel n acc) = digits_value n acc.
Proof.
  induction fuel as [|f IH]; intros n acc H; cbn [format_digits].
  - change (10 ^ Z.of_nat 0)%Z with 1%Z in H. by assert (n = 0)%Z as -> by lia.
  - destruct (Z.ltb_spec n 10).
    + cbn [digits_value]. rewrite (proj2 (digit_char_mod n)), Z.mod_small by lia. done.
    + rewrite Nat2Z.inj_succ, Z.pow_succ_r in H by lia. rewrite IH.
      * cbn [digits_value]. rewrite (proj2 (digit_char_mod n)). f_equal. pose proof (Z.div_mod n 10). lia.
      * split; [apply Z.div_pos; lia|apply Z.div_lt_upper_bound; lia].
Qed.

(** A positive number has no leading zero. *)
Lemma format_head fuel : forall n acc, (0 < n < 10 ^ Z.of_nat fuel)%Z ->
  exists d s, format_digits fuel n acc = String (digit_char d) s /\ (1 <= d < 10)%Z.
Proof.
  induction fuel as [|f IH]; intros n acc H; cbn [format_digits].
  - change (10 ^ Z.of_nat 0)%Z with 1%Z in H. lia.
  - destruct (Z.ltb_spec n 10).
    + exists n, acc. rewrite Z.mod_small by lia. split; [done|lia].
    + rewrite Nat2Z.inj_succ, Z.pow_succ_r in H by lia. apply IH.
      split; [apply Z.div_str_pos; lia|apply Z.div_lt_upper_bound; lia].
Qed.

Lemma format_app fuel : forall n acc b, format_digits fuel n (acc +:+ b) = format_digits fuel n acc +:+ b.
Proof.
  induction fuel as [|f IH]; intros n acc b; cbn [format_digits]; [done|].
  destruct (n <? 10)%Z; [done|]. by rewrite <- IH.
Qed.

Lemma digit_cases d (P : ascii -> Prop) :
  P "0"%char -> P "1"%char -> P "2"%char -> P "3"%char -> P "4"%char -> P "5"%char -> P "6"%char ->
  P "7"%char -> P "8"%char -> P "9"%char -> (0 <= d < 10)%Z -> P (digit_char d).
Proof.
  intros. assert (d = 0 \/ d = 1 \/ d = 2 \/ d = 3 \/ d = 4 \/ d = 5 \/ d = 6 \/ d = 7 \/ d = 8 \/ d = 9)%Z as E by lia.
  repeat (destruct E as [->|E]; [assumption|]). by subst.
Qed.

(** The text of an unsigned number is a digit and more digits. *)
Lemma FormatUint_text n : (0 <= n < 10 ^ 20)%Z ->
  exists d s, FormatUint n = String (digit_char d) s /\ (0 <= d < 10)%Z /\
    (Ascii.eqb (digit_char d) "0" = true -> n = 0%Z).
Proof.
  intros H. destruct (Z.eqb_spec n 0) as [->|Hn]; [by exists 0%Z, EmptyString|].
  destruct (format_head 20 n EmptyString) as (d & s & E & Hd); [lia|].
  exists d, s. split; [exact E|]. split; [lia|].
  assert (forall P : ascii -> Prop, P "1"%char -> P "2"%char -> P "3"%char -> P "4"%char -> P "5"%char ->
    P "6"%char -> P "7"%char -> P "8"%char -> P "9"%char -> P (digit_char d)) as Hc.
  { intros P. intros. assert (d = 1 \/ d = 2 \/ d = 3 \/ d = 4 \/ d = 5 \/ d = 6 \/ d = 7 \/ d = 8 \/ d = 9)%Z as E' by lia.
    repeat (destruct E' as [->|E']; [assumption|]). by subst. }
  apply (Hc (fun c => Ascii.eqb c "0" = true -> n = 0%Z)); done.
Qed.

Lemma digits_FormatUint n rest : ends_number rest = true -> digits (FormatUint n +:+ rest) = (FormatUint n, rest).
Proof.
  intros H. unfold FormatUint. rewrite <- format_app, str_app_nil_l, digits_format.
  destruct rest as [|c rest]; [done|]. cbn in H. cbn [digits].
  destruct (is_digit c); [done|]. done.
Qed.

Lemma number_int_FormatUint n rest : (0 <= n < 10 ^ 20)%Z -> ends_number rest = true ->
  number_int (FormatUint n +:+ rest) = Some (FormatUint n, rest).
Proof.
  intros Hn Hr. pose proof (digits_FormatUint n rest Hr) as Hd.
  destruct (FormatUint_text n Hn) as (d & s & E & _ & Hz). unfold number_int.
  rewrite E, str_app_cons in *. destruct (Ascii.eqb (digit_char d) "0") eqn:E0.
  - rewrite (Hz eq_refl) in E. change (FormatUint 0) with "0" in E. injection E as <- <-. done.
  - by rewrite Hd.
Qed.

Lemma number_tail rest : ends_number rest = true ->
  number_frac rest = Some (EmptyString, rest) /\ number_exp rest = Some (EmptyString, rest).
Proof.
  destruct rest as [|c rest]; [done|]. cbn [ends_number]. intros H.
  rewrite negb_true_iff, !orb_false_iff in H. destruct H as [[[_ Hdot] He] HE].
  split; [|unfold number_exp; by rewrite He, HE].
  unfold number_frac. destruct c as [[] [] [] [] [] [] [] []]; try done.
Qed.

Lemma parse_number_FormatInt n rest : (min_int64 <= n <= max_int64)%Z -> ends_number rest = true ->
  parse_number (FormatInt n +:+ rest) = Some (JNumber (FormatInt n), rest).
Proof.
  intros Hn Hr. destruct (number_tail rest Hr) as [Hf He]. unfold min_int64, max_int64 in Hn.
  unfold FormatInt. destruct (Z.ltb_spec n 0) as [Hneg|Hpos].
  - unfold parse_number. change ("-" +:+ FormatUint (- n)) with (String "-" (FormatUint (- n))).
    rewrite str_app_cons. rewrite number_int_FormatUint by (done || lia). rewrite Hf, He.
    by rewrite !str_app_nil_r.
  - pose proof (number_int_FormatUint n rest ltac:(lia) Hr) as Hi. unfold parse_number.
    destruct (FormatUint_text n) as (d & s & E & Hd & _); [lia|].
    assert (match FormatUint n +:+ rest with String "-" t => ("-", t) | _ => ("", FormatUint n +:+ rest) end
            = ("", FormatUint n +:+ rest)) as ->.
    { rewrite E, str_app_cons. by apply (digit_cases d). }
    by rewrite Hi, Hf, He, !str_app_nil_r, str_app_nil_l.
Qed.

Lemma FormatInt_head n : (min_int64 <= n <= max_int64)%Z ->
  exists c s, FormatInt n = String c s /\ is_ws c = false /\ Ascii.eqb c ch_rbracket = false /\
  forall f depth t, parse_value (S f) depth (String c t) = parse_number (String c t).
Proof.
  intros Hn. unfold min_int64, max_int64 in Hn. unfold FormatInt. destruct (Z.ltb_spec n 0).
  - exists "-"%char, (FormatUint (- n)). by repeat split.
  - destruct (FormatUint_text n) as (d & s & E & Hd & _); [lia|]. exists (digit_char d), s.
    split; [done|]. apply (digit_cases d); [..|done]; by repeat split.
Qed.

Lemma number_reads n d : (min_int64 <= n <= max_int64)%Z ->
  reads_as (FormatInt n) (JNumber (FormatInt n)) d.
Proof.
  intros Hn [|fuel] rest Hr Hf; [lia|]. destruct (FormatInt_head n Hn) as (c & s & E & _ & _ & Hp).
  pose proof (parse_number_FormatInt n rest Hn Hr) as H. rewrite E, str_app_cons in H |- *. by rewrite Hp, H.
Qed.

Lemma ParseUint_FormatUint n : (0 <= n < two64)%Z -> ParseUint (FormatUint n) = Some n.
Proof.
  intros Hn. unfold two64 in Hn. pose proof (digits_FormatUint n "" eq_refl) as Hd. rewrite str_app_nil_r in Hd.
  unfold ParseUint. rewrite Hd. destruct (FormatUint_text n) as (d & s & E & _); [lia|].
  assert (digits_value 0 (FormatUint n) = n) as Hv by (apply digits_value_format; lia).
  rewrite E in *. rewrite Hv. destruct (Z.ltb_spec n two64); [done|unfold two64 in *; lia].
Qed.

Lemma ParseInt_FormatInt n : (min_int64 <= n <= max_int64)%Z -> ParseInt (FormatInt n) = Some n.
Proof.
  unfold min_int64, max_int64. intros Hn. unfold FormatInt. destruct (Z.ltb_spec n 0).
  - change ("-" +:+ FormatUint (- n)) with (String "-" (FormatUint (- n))). cbn [ParseInt].
    rewrite ParseUint_FormatUint by (unfold two64; lia).
    destruct (Z.leb_spec (- n) two63); [f_equal; lia|unfold two63 in *; lia].
  - pose proof (ParseUint_FormatUint n ltac:(unfold two64; lia)) as Hu.
    destruct (FormatUint_text n) as (d & s & E & Hd & _); [lia|].
    assert (ParseInt (FormatUint n) = match ParseUint (FormatUint n) with
      | Some n => if (n <=? max_int64)%Z then Some n else None | None => None end) as ->.
    { rewrite E. by apply (digit_cases d). }
    rewrite Hu. destruct (Z.leb_spec n max_int64); [done|unfold max_int64 in *; lia].
Qed.

(** ** Lemmas: slices and maps *)

Definition strings_json (s : option (list string)) : json :=
  match s with None => JNull | Some l => JArray (map (fun x => JString (to_valid_utf8 x)) l) end.

Lemma marshal_strings_reads s d : (d < maxNestingDepth)%N -> reads_as (marshal_strings s) (strings_json s) d.
Proof.
  intros Hd. destruct s as [l|]; [|apply null_reads]. cbn [marshal_strings strings_json].
  pose proof (print_array_reads (map (fun x => (json_string x, JString (to_valid_utf8 x))) l) d) as H.
  rewrite !map_map in H. cbn [fst snd] in H. apply H; [done|].
  apply List.Forall_map, List.Forall_forall. intros x _. split; [apply json_string_reads|].
  exists dquote. eexists. by split.
Qed.

Lemma decode_items_strings old l :
  decode_items old (map (fun x => JString (to_valid_utf8 x)) l) = Ok (map to_valid_utf8 l).
Proof. revert old. induction l as [|x l IH]; intros old; cbn; [done|]. by rewrite IH. Qed.

Lemma decode_strings_json old s : decode_strings old (strings_json s) = Ok (option_map (map to_valid_utf8) s).
Proof. destruct s as [l|]; cbn; [|done]. by rewrite decode_items_strings. Qed.

(** An object with members, or none *)
Lemma print_object_reads' (ms : list (string * string * json)) d :
  (d < maxNestingDepth)%N -> Forall (fun x => reads_as x.1.2 x.2 (d + 1)%N) ms ->
  reads_as (print_object (map fst ms)) (JObject (map (fun x => (to_valid_utf8 x.1.1, x.2)) ms)) d.
Proof.
  intros Hd Hall. destruct ms as [|m ms]; [|by apply print_object_reads].
  intros [|fuel] rest _ Hf; [lia|]. change (print_object (map fst [])) with (String ch_lbrace (String ch_rbrace EmptyString)).
  rewrite !str_app_cons, str_app_nil_l.
  cbn [parse_value skip_ws]. change (is_ws ch_lbrace) with false. cbv beta iota.
  change (Ascii.eqb ch_lbrace dquote) with false. rewrite Ascii.eqb_refl. apply N.ltb_lt in Hd as ->. cbv beta iota.
  by rewrite expect_here.
Qed.

(** A map whose keys are valid UTF-8 *)
Definition valid_keys {A} (m : gmap string A) : Prop := map_Forall (fun k _ => to_valid_utf8 k = k) m.

Section maps.
Context {A : Type} (print : A -> string) (as_json : A -> json) (element : json -> res A) (ok : A -> Prop).

Definition map_json (m : gmap string A) : json :=
JObject (map (fun e => (to_valid_utf8 e.1, as_json e.2)) (sorted_entries m)).

Lemma sorted_entries_perm (m : gmap string A) : Permutation (sorted_entries m) (map_to_list m).
Proof. apply merge_sort_Permutation. Qed.

Lemma NoDup_sorted_entries (m : gmap string A) : NoDup (sorted_entries m).*1.
Proof. rewrite sorted_entries_perm. apply NoDup_fst_map_to_list. Qed.

Lemma sorted_entries_In (m : gmap string A) k a : In (k, a) (sorted_entries m) -> m !! k = Some a.
Proof.
intros H. apply elem_of_map_to_list. apply list_elem_of_In.
eapply Permutation_in; [apply sorted_entries_perm|exact H].
Qed.

Lemma marshal_map_reads (m : gmap string A) d :
(d < maxNestingDepth)%N -> map_Forall (fun _ a => reads_as (print a) (as_json a) (d + 1)%N) m ->
reads_as (marshal_map print m) (map_json m) d.
Proof.
intros Hd Hall. unfold marshal_map, map_json.
pose proof (print_object_reads' (map (fun e => (e.1, print e.2, as_json e.2)) (sorted_entries m)) d Hd) as H.
rewrite !map_map in H. cbn [fst snd] in H. apply H.
apply List.Forall_map, List.Forall_forall. intros [k a] Hin. apply (Hall k), sorted_entries_In, Hin.
Qed.

Lemma decode_entries_json l : Forall (fun e : string * A => element (as_json e.2) = Ok e.2 /\ to_valid_utf8 e.1 = e.1) l ->
forall m, decode_entries element m (map (fun e => (to_valid_utf8 e.1, as_json e.2)) l)
  = Ok (fold_left (fun (m : gmap string A) e => <[e.1 := e.2]> m) l m).
Proof.
induction 1 as [|[k a] l [He Hk] _ IH]; intros m; cbn; [done|]. cbn in He, Hk. by rewrite He, Hk, <- IH.
Qed.

Lemma fold_insert_fresh (l : list (string * A)) : NoDup l.*1 -> forall m : gmap string A,
fold_left (fun (m : gmap string A) e => <[e.1 := e.2]> m) l m = (list_to_map l : gmap string A) ∪ m.
Proof.
induction l as [|[k a] l IH]; intros Hnd m; cbn; [by rewrite (left_id_L ∅ (∪))|].
apply NoDup_cons in Hnd as [Hk Hnd]. rewrite IH by done.
rewrite <- insert_union_l. apply not_elem_of_list_to_map in Hk. by rewrite insert_union_r by done.
Qed.

(** Writing a map and reading it back *)
Lemma decode_map_json (m : gmap string A) :
valid_keys m -> map_Forall (fun _ a => element (as_json a) = Ok a) m ->
decode_map element ∅ (map_json m) = Ok m.
Proof.
intros Hk Hall. unfold map_json. cbn [decode_map]. rewrite decode_entries_json.
- rewrite fold_insert_fresh.
  + rewrite (right_id_L ∅ (∪)). f_equal. rewrite <- (list_to_map_to_list m) at 2.
    apply list_to_map_proper; [|apply sorted_entries_perm].
    apply NoDup_sorted_entries.
  + apply NoDup_sorted_entries.
- apply List.Forall_forall. intros [k a] Hin. apply sorted_entries_In in Hin. cbn. split; [by apply (Hall k)|by apply (Hk k a)].
Qed.
End maps.
