(* ===== verification/GoBase64.v ===== *)
(** * encoding/base64: [StdEncoding] and [RawURLEncoding]

    The encoder is shared by the OAuth state codec, the docker config mapper
    and the file content controller; the decoder by the OAuth state codec.
    The decoder skips line breaks and, like the library's default (non-strict)
    mode, ignores the unused trailing bits of the last character. *)

From S2P Require Import Prelude GoStd.
Local Open Scope string_scope.
Local Open Scope Z_scope.

Record Encoding := mkEncoding { enc_url : bool; enc_pad : bool }.
Definition StdEncoding := mkEncoding false true.
Definition RawURLEncoding := mkEncoding true false.

Definition byte_val (c : ascii) : Z := Z.of_N (N_of_ascii c).
Definition byte_of (z : Z) : ascii := ascii_of_N (Z.to_N z).

(** The alphabet of an encoding: 6-bit value to character and back. *)
Definition alphabet (e : Encoding) (v : Z) : ascii :=
  if v <? 26 then byte_of (65 + v)
  else if v <? 52 then byte_of (97 + (v - 26))
  else if v <? 62 then byte_of (48 + (v - 52))
  else if v =? 62 then (if enc_url e then "-" else "+")%char
  else (if enc_url e then "_" else "/")%char.

Definition alphabet_inv (e : Encoding) (c : ascii) : option Z :=
  let n := byte_val c in
  if (65 <=? n) && (n <=? 90) then Some (n - 65)
  else if (97 <=? n) && (n <=? 122) then Some (n - 97 + 26)
  else if (48 <=? n) && (n <=? 57) then Some (n - 48 + 52)
  else if Ascii.eqb c (if enc_url e then "-" else "+")%char then Some 62
  else if Ascii.eqb c (if enc_url e then "_" else "/")%char then Some 63
  else None.

Definition pad_char : ascii := "=".
Definition padding (e : Encoding) (n : nat) : string :=
  if enc_pad e
  then match n with 1%nat => "=" | 2%nat => "==" | _ => "" end
  else "".

(** [EncodeToString] *)
Fixpoint EncodeToString (e : Encoding) (s : string) : string :=
  match s with
  | EmptyString => EmptyString
  | String a EmptyString =>
      let v := byte_val a * 16 in
      String (alphabet e (v / 64)) (String (alphabet e (v mod 64)) (padding e 2))
  | String a (String b EmptyString) =>
      let v := (byte_val a * 256 + byte_val b) * 4 in
      String (alphabet e (v / 4096)) (String (alphabet e (v / 64 mod 64))
        (String (alphabet e (v mod 64)) (padding e 1)))
  | String a (String b (String c rest)) =>
      let v := byte_val a * 65536 + byte_val b * 256 + byte_val c in
      String (alphabet e (v / 262144)) (String (alphabet e (v / 4096 mod 64))
        (String (alphabet e (v / 64 mod 64)) (String (alphabet e (v mod 64))
          (EncodeToString e rest))))
  end.

Definition CorruptInputError : goerr := ErrorString "illegal base64 data at input byte".

Definition is_newline (c : ascii) : bool :=
  let n := byte_val c in (n =? 10) || (n =? 13).
Fixpoint strip_newlines (s : string) : string :=
  match s with
  | EmptyString => EmptyString
  | String c s' => if is_newline c then strip_newlines s' else String c (strip_newlines s')
  end.

(** Decoding of the quanta of an input without line breaks *)
Fixpoint decode_quanta (e : Encoding) (s : string) : res string :=
  match s with
  | EmptyString => Ok EmptyString
  | String a (String b s2) =>
      match alphabet_inv e a, alphabet_inv e b with
      | Some x, Some y =>
          let one := byte_of ((x * 64 + y) / 16) in
          match s2 with
          | EmptyString =>
              if enc_pad e then Err CorruptInputError else Ok (String one EmptyString)
          | String c s3 =>
              match alphabet_inv e c with
              | None =>
                  if enc_pad e && Ascii.eqb c pad_char && String.eqb s3 "="
                  then Ok (String one EmptyString) else Err CorruptInputError
              | Some z =>
                  let w := (x * 4096 + y * 64 + z) / 4 in
                  let two := String (byte_of (w / 256)) (String (byte_of (w mod 256)) EmptyString) in
                  match s3 with
                  | EmptyString => if enc_pad e then Err CorruptInputError else Ok two
                  | String d s4 =>
                      match alphabet_inv e d with
                      | None =>
                          if enc_pad e && Ascii.eqb d pad_char && String.eqb s4 ""
                          then Ok two else Err CorruptInputError
                      | Some t =>
                          let v := x * 262144 + y * 4096 + z * 64 + t in
                          match decode_quanta e s4 with
                          | Ok r => Ok (String (byte_of (v / 65536))
                                     (String (byte_of (v / 256 mod 256))
                                       (String (byte_of (v mod 256)) r)))
                          | Err er => Err er
                          end
                      end
                  end
              end
          end
      | _, _ => Err CorruptInputError
      end
  | String _ EmptyString => Err CorruptInputError
  end.

(** [DecodeString] *)
Definition DecodeString (e : Encoding) (s : string) : res string :=
  decode_quanta e (strip_newlines s).

Example b64_1 : EncodeToString StdEncoding "user:pw" = "dXNlcjpwdw==".
Proof. reflexivity. Qed.
Example b64_2 : DecodeString StdEncoding "dXNlcjpwdw==" = Ok "user:pw".
Proof. reflexivity. Qed.
Example b64_3 : DecodeString RawURLEncoding "dXNlcjpwdw" = Ok "user:pw".
Proof. reflexivity. Qed.
Example b64_4 : DecodeString RawURLEncoding "dXNlcjpwdw==" = Err CorruptInputError.
Proof. reflexivity. Qed.

(** ** Round trip *)

Lemma byte_val_range c : 0 <= byte_val c < 256.
Proof. unfold byte_val. pose proof (N_ascii_bounded c). lia. Qed.

Lemma byte_of_val c : byte_of (byte_val c) = c.
Proof. unfold byte_of, byte_val. rewrite N2Z.id. apply ascii_N_embedding. Qed.

(** The 64 values of the alphabet, checked one by one. *)
Definition alphabet_ok (e : Encoding) (v : Z) : bool :=
  bool_decide (alphabet_inv e (alphabet e v) = Some v) && negb (is_newline (alphabet e v)).

Lemma alphabet_table e : forallb (fun n => alphabet_ok e (Z.of_nat n)) (seq 0 64) = true.
Proof. destruct e as [[] []]; vm_compute; reflexivity. Qed.

Lemma alphabet_spec e v : 0 <= v < 64 ->
  alphabet_inv e (alphabet e v) = Some v /\ is_newline (alphabet e v) = false.
Proof.
  intros Hv. pose proof (alphabet_table e) as H. rewrite forallb_forall in H.
  specialize (H (Z.to_nat v)). rewrite Z2Nat.id in H by lia.
  assert (In (Z.to_nat v) (seq 0 64)) as Hin by (apply List.in_seq; lia).
  specialize (H Hin). unfold alphabet_ok in H. reflect_bools.
  destruct H as [H1 H2]. split; [|done]. by apply bool_decide_eq_true in H1.
Qed.

Lemma alphabet_inv_alphabet e v : 0 <= v < 64 -> alphabet_inv e (alphabet e v) = Some v.
Proof. intros. by apply alphabet_spec. Qed.
Lemma alphabet_no_newline e v : 0 <= v < 64 -> is_newline (alphabet e v) = false.
Proof. intros. by apply alphabet_spec. Qed.

Lemma pad_not_in_alphabet e : alphabet_inv e pad_char = None.
Proof. by destruct e as [[] []]. Qed.

(** Induction three bytes at a time, as the encoder proceeds. *)
Lemma string_ind3 (P : string -> Prop) :
  P "" -> (forall a, P (String a "")) -> (forall a b, P (String a (String b ""))) ->
  (forall a b c s, P s -> P (String a (String b (String c s)))) -> forall s, P s.
Proof.
  intros H0 H1 H2 H3. fix IH 1. intros [|a [|b [|c s]]]; [done|apply H1|apply H2|].
  apply H3, IH.
Qed.

Ltac byte_ranges :=
  repeat match goal with
  | c : ascii |- _ =>
      lazymatch goal with
      | _ : 0 <= byte_val c < 256 |- _ => fail
      | _ => pose proof (byte_val_range c)
      end
  end.
Ltac six_bits :=
  first [ lia | split; [apply Z.div_pos; lia | apply Z.div_lt_upper_bound; lia]
        | apply Z.mod_pos_bound; lia ].

Lemma encode_no_newlines e s : strip_newlines (EncodeToString e s) = EncodeToString e s.
Proof.
  induction s as [|a|a b|a b c s IH] using string_ind3; [done|..]; byte_ranges;
    cbn [EncodeToString strip_newlines]; rewrite !alphabet_no_newline by six_bits.
  - by destruct e as [[] []].
  - by destruct e as [[] []].
  - by rewrite IH.
Qed.

Lemma decode_encode_quanta e s : decode_quanta e (EncodeToString e s) = Ok s.
Proof.
  induction s as [|a|a b|a b c s IH] using string_ind3; [done|..]; byte_ranges;
    cbn [EncodeToString decode_quanta]; rewrite !alphabet_inv_alphabet by six_bits.
  - replace (_ / 16) with (byte_val a) by (clear; pose proof (byte_val_range a); Z.div_mod_to_equations; lia).
    rewrite byte_of_val. destruct e as [u []]; cbn -[alphabet_inv]; [|done].
    change "="%char with pad_char. by rewrite pad_not_in_alphabet.
  - set (w := (_ * 4096 + _ + _) / 4).
    assert (w = byte_val a * 256 + byte_val b) as ->
      by (unfold w; Z.div_mod_to_equations; lia).
    rewrite Z.div_add_l, Z.div_small, Z.add_0_r, (Z.add_comm (_ * 256)), Z.mod_add, Z.mod_small by lia.
    rewrite !byte_of_val. destruct e as [u []]; cbn -[alphabet_inv]; [|done].
    change "="%char with pad_char. by rewrite pad_not_in_alphabet.
  - rewrite IH. set (v := _ * 262144 + _ + _ + _).
    assert (v = byte_val a * 65536 + byte_val b * 256 + byte_val c) as ->
      by (unfold v; Z.div_mod_to_equations; lia).
    assert ((byte_val a * 65536 + byte_val b * 256 + byte_val c) / 65536 = byte_val a) as ->
      by (Z.div_mod_to_equations; lia).
    assert ((byte_val a * 65536 + byte_val b * 256 + byte_val c) / 256 mod 256 = byte_val b) as ->
      by (Z.div_mod_to_equations; lia).
    assert ((byte_val a * 65536 + byte_val b * 256 + byte_val c) mod 256 = byte_val c) as ->
      by (Z.div_mod_to_equations; lia).
    by rewrite !byte_of_val.
Qed.

Lemma base64_roundtrip e s : DecodeString e (EncodeToString e s) = Ok s.
Proof. unfold DecodeString. rewrite encode_no_newlines. apply decode_encode_quanta. Qed.

(** ** The URL alphabet needs no escaping in a query string *)

Definition url_char (c : ascii) : bool :=
  let n := byte_val c in
  (65 <=? n) && (n <=? 90) || (97 <=? n) && (n <=? 122) || (48 <=? n) && (n <=? 57) || (n =? 45) || (n =? 95).
Fixpoint url_safe (s : string) : bool :=
  match s with EmptyString => true | String c s' => url_char c && url_safe s' end.

Lemma alphabet_url_char v : 0 <= v < 64 -> url_char (alphabet RawURLEncoding v) = true.
Proof.
  intros Hv.
  assert (forallb (fun n => url_char (alphabet RawURLEncoding (Z.of_nat n))) (seq 0 64) = true) as H
    by (vm_compute; reflexivity).
  rewrite forallb_forall in H. specialize (H (Z.to_nat v)). rewrite Z2Nat.id in H by lia.
  apply H, List.in_seq. lia.
Qed.

Lemma encode_url_safe s : url_safe (EncodeToString RawURLEncoding s) = true.
Proof.
  induction s as [|a|a b|a b c s IH] using string_ind3; [done|..]; byte_ranges;
    cbn [EncodeToString url_safe]; rewrite !alphabet_url_char by six_bits; done.
Qed.
