(* ===== verification/Api.v ===== *)
(** * The custom resources: api/v1beta1

    Go structs are records (one field per Go field, with a short prefix naming
    the struct); string-typed enumerations stay strings, because the API server
    hands the controllers whatever string the object holds.  A Go [nil] map and
    an empty map are the same [gmap]; [nil] pointers are [None].  Of the types
    that api/v1beta1 borrows from the Kubernetes and remote-secret APIs
    (ObjectMeta, Secret, LinkableSecretSpec) the fields the code reads or writes
    are kept. *)

From S2P Require Import Prelude GoStd.
Local Open Scope string_scope.
Local Open Scope list_scope.

(** ** Kubernetes object data used by the resources *)

(** metav1.ObjectMeta: instants in nanoseconds since the epoch *)
Record ObjectMeta := mkMeta {
  om_Name : string;
  om_GenerateName : string;
  om_Namespace : string;
  om_Labels : gmap string string;
  om_Annotations : gmap string string;
  om_Finalizers : list string;
  om_CreationTimestamp : Z;
  om_DeletionTimestamp : option Z }.
Definition set_om_Labels (v : gmap string string) (r : ObjectMeta) : ObjectMeta :=
  mkMeta (om_Name r) (om_GenerateName r) (om_Namespace r) v (om_Annotations r) (om_Finalizers r) (om_CreationTimestamp r) (om_DeletionTimestamp r).
Definition set_om_Annotations (v : gmap string string) (r : ObjectMeta) : ObjectMeta :=
  mkMeta (om_Name r) (om_GenerateName r) (om_Namespace r) (om_Labels r) v (om_Finalizers r) (om_CreationTimestamp r) (om_DeletionTimestamp r).
Definition set_om_Finalizers (v : list string) (r : ObjectMeta) : ObjectMeta :=
  mkMeta (om_Name r) (om_GenerateName r) (om_Namespace r) (om_Labels r) (om_Annotations r) v (om_CreationTimestamp r) (om_DeletionTimestamp r).

(** types.NamespacedName / client.ObjectKey *)
Record ObjectKey := mkKey {
  key_Namespace : string;
  key_Name : string }.

#[export] Instance ObjectKey_eq_dec : EqDecision ObjectKey.
Proof. solve_decision. Defined.
#[export] Instance ObjectKey_countable : Countable ObjectKey.
Proof.
  apply (inj_countable' (fun k => (key_Namespace k, key_Name k)) (fun p => mkKey p.1 p.2)).
  by intros [].
Defined.

Definition ObjectKeyFromObject (m : ObjectMeta) : ObjectKey := mkKey (om_Namespace m) (om_Name m).

(** [m[k]] on a Go map of strings: the empty string when absent *)
Definition map_get (m : gmap string string) (k : string) : string := default "" (m !! k).

(** ** Permissions *)

Definition ServiceProviderTypeLabel := "spi.appstudio.redhat.com/service-provider-type".
Definition ServiceProviderHostLabel := "spi.appstudio.redhat.com/service-provider-host".
Definition GroupVersion_Group := "appstudio.redhat.com".
Definition GroupVersion_Version := "v1beta1".

Definition PermissionTypeRead := "r".
Definition PermissionTypeWrite := "w".
Definition PermissionTypeReadWrite := "rw".
Definition IsRead (pt : string) : bool :=
  String.eqb pt PermissionTypeRead || String.eqb pt PermissionTypeReadWrite.
Definition IsWrite (pt : string) : bool :=
  String.eqb pt PermissionTypeWrite || String.eqb pt PermissionTypeReadWrite.

Definition PermissionAreaRepository := "repository".
Definition PermissionAreaRepositoryMetadata := "repositoryMetadata".
Definition PermissionAreaWebhooks := "webhooks".
Definition PermissionAreaUser := "user".
Definition PermissionAreaRegistry := "registry".
Definition PermissionAreaRegistryMetadata := "registryMetadata".

(** api.Permission *)
Record Permission := mkPermission {
  perm_Type : string;
  perm_Area : string }.
Definition set_perm_Area (v : string) (r : Permission) : Permission :=
  mkPermission (perm_Type r) v.

(** api.Permissions *)
Record Permissions := mkPermissions {
  perms_Required : list Permission;
  perms_AdditionalScopes : list string }.
Definition set_perms_Required (v : list Permission) (r : Permissions) : Permissions :=
  mkPermissions v (perms_AdditionalScopes r).

#[export] Instance Permission_eq_dec : EqDecision Permission.
Proof. solve_decision. Defined.
#[export] Instance Permissions_eq_dec : EqDecision Permissions.
Proof. solve_decision. Defined.

(** ** SPIAccessToken *)

(** api.Token: the token data kept in the token storage; Expiry is a uint64 *)
Record Token := mkToken {
  td_Username : string;
  td_AccessToken : string;
  td_TokenType : string;
  td_RefreshToken : string;
  td_Expiry : Z }.

(** api.TokenMetadata; the opaque state is a byte string *)
Record TokenMetadata := mkTokenMetadata {
  tm_Username : string;
  tm_UserId : string;
  tm_Scopes : list string;
  tm_ServiceProviderState : string;
  tm_LastRefreshTime : Z }.
Definition set_tm_LastRefreshTime (v : Z) (r : TokenMetadata) : TokenMetadata :=
  mkTokenMetadata (tm_Username r) (tm_UserId r) (tm_Scopes r) (tm_ServiceProviderState r) v.
Definition empty_metadata : TokenMetadata := mkTokenMetadata "" "" [] "" 0.
Definition set_tm_Username (v : string) (m : TokenMetadata) : TokenMetadata :=
  mkTokenMetadata v (tm_UserId m) (tm_Scopes m) (tm_ServiceProviderState m) (tm_LastRefreshTime m).
Definition set_tm_ServiceProviderState (v : string) (m : TokenMetadata) : TokenMetadata :=
  mkTokenMetadata (tm_Username m) (tm_UserId m) (tm_Scopes m) v (tm_LastRefreshTime m).

#[export] Instance Token_eq_dec : EqDecision Token.
Proof. solve_decision. Defined.
#[export] Instance TokenMetadata_eq_dec : EqDecision TokenMetadata.
Proof. solve_decision. Defined.

Definition SPIAccessTokenPhaseAwaitingTokenData := "AwaitingTokenData".
Definition SPIAccessTokenPhaseReady := "Ready".
Definition SPIAccessTokenPhaseInvalid := "Invalid".
Definition SPIAccessTokenPhaseError := "Error".

Definition SPIAccessTokenErrorReasonUnknownServiceProvider := "UnknownServiceProvider".
Definition SPIAccessTokenErrorUnsupportedServiceProviderConfiguration := "UnsupportedServiceProviderConfiguration".
Definition SPIAccessTokenErrorReasonMetadataFailure := "MetadataFailure".
Definition SPIAccessTokenErrorReasonUnsupportedPermissions := "UnsupportedPermissions".

(** SPIAccessTokenSpec *)
Record SPIAccessTokenSpec := mkTokenSpec {
  atsp_Permissions : Permissions;
  atsp_ServiceProviderUrl : string }.

(** SPIAccessTokenStatus *)
Record SPIAccessTokenStatus := mkTokenStatus {
  atst_Phase : string;
  atst_ErrorReason : string;
  atst_ErrorMessage : string;
  atst_OAuthUrl : string;
  atst_UploadUrl : string;
  atst_TokenMetadata : option TokenMetadata }.
Definition set_atst_Phase (v : string) (r : SPIAccessTokenStatus) : SPIAccessTokenStatus :=
  mkTokenStatus v (atst_ErrorReason r) (atst_ErrorMessage r) (atst_OAuthUrl r) (atst_UploadUrl r) (atst_TokenMetadata r).
Definition set_atst_ErrorReason (v : string) (r : SPIAccessTokenStatus) : SPIAccessTokenStatus :=
  mkTokenStatus (atst_Phase r) v (atst_ErrorMessage r) (atst_OAuthUrl r) (atst_UploadUrl r) (atst_TokenMetadata r).
Definition set_atst_ErrorMessage (v : string) (r : SPIAccessTokenStatus) : SPIAccessTokenStatus :=
  mkTokenStatus (atst_Phase r) (atst_ErrorReason r) v (atst_OAuthUrl r) (atst_UploadUrl r) (atst_TokenMetadata r).
Definition set_atst_OAuthUrl (v : string) (r : SPIAccessTokenStatus) : SPIAccessTokenStatus :=
  mkTokenStatus (atst_Phase r) (atst_ErrorReason r) (atst_ErrorMessage r) v (atst_UploadUrl r) (atst_TokenMetadata r).
Definition set_atst_UploadUrl (v : string) (r : SPIAccessTokenStatus) : SPIAccessTokenStatus :=
  mkTokenStatus (atst_Phase r) (atst_ErrorReason r) (atst_ErrorMessage r) (atst_OAuthUrl r) v (atst_TokenMetadata r).
Definition set_atst_TokenMetadata (v : option TokenMetadata) (r : SPIAccessTokenStatus) : SPIAccessTokenStatus :=
  mkTokenStatus (atst_Phase r) (atst_ErrorReason r) (atst_ErrorMessage r) (atst_OAuthUrl r) (atst_UploadUrl r) v.

(** SPIAccessToken *)
Record SPIAccessToken := mkSPIAccessToken {
  at_Kind : string;
  at_Meta : ObjectMeta;
  at_Spec : SPIAccessTokenSpec;
  at_Status : SPIAccessTokenStatus }.
Definition set_at_Meta (v : ObjectMeta) (r : SPIAccessToken) : SPIAccessToken :=
  mkSPIAccessToken (at_Kind r) v (at_Spec r) (at_Status r).
Definition set_at_Status (v : SPIAccessTokenStatus) (r : SPIAccessToken) : SPIAccessToken :=
  mkSPIAccessToken (at_Kind r) (at_Meta r) (at_Spec r) v.

Definition at_Name (t : SPIAccessToken) : string := om_Name (at_Meta t).
Definition at_Namespace (t : SPIAccessToken) : string := om_Namespace (at_Meta t).
Definition at_Labels (t : SPIAccessToken) : gmap string string := om_Labels (at_Meta t).
Definition at_Key (t : SPIAccessToken) : ObjectKey := ObjectKeyFromObject (at_Meta t).
Definition with_token_status (f : SPIAccessTokenStatus -> SPIAccessTokenStatus) (t : SPIAccessToken) :=
  set_at_Status (f (at_Status t)) t.

(** ** SPIAccessTokenBinding *)

(** TokenFieldMapping *)
Record TokenFieldMapping := mkFieldMapping {
  tfm_Token : string;
  tfm_Name : string;
  tfm_ServiceProviderUrl : string;
  tfm_ServiceProviderUserName : string;
  tfm_ServiceProviderUserId : string;
  tfm_UserId : string;
  tfm_ExpiredAfter : string;
  tfm_Scopes : string }.

(** rapi.ServiceAccountLink, flattened: Reference.Name, Managed.Name, Managed.GenerateName, As *)
Record ServiceAccountLink := mkSALink {
  sal_ReferenceName : string;
  sal_ManagedName : string;
  sal_ManagedGenerateName : string;
  sal_As : string }.

(** SecretSpec: the inlined rapi.LinkableSecretSpec and Fields *)
Record SecretSpec := mkSecretSpec {
  ss_Name : string;
  ss_GenerateName : string;
  ss_Type : string;
  ss_Labels : gmap string string;
  ss_Annotations : gmap string string;
  ss_LinkedTo : list ServiceAccountLink;
  ss_Fields : TokenFieldMapping }.

(** SPIAccessTokenBindingSpec *)
Record SPIAccessTokenBindingSpec := mkBindingSpec {
  bsp_RepoUrl : string;
  bsp_Permissions : Permissions;
  bsp_Secret : SecretSpec;
  bsp_Lifetime : string }.
Definition set_bsp_RepoUrl (v : string) (r : SPIAccessTokenBindingSpec) : SPIAccessTokenBindingSpec :=
  mkBindingSpec v (bsp_Permissions r) (bsp_Secret r) (bsp_Lifetime r).
Definition set_bsp_Permissions (v : Permissions) (r : SPIAccessTokenBindingSpec) : SPIAccessTokenBindingSpec :=
  mkBindingSpec (bsp_RepoUrl r) v (bsp_Secret r) (bsp_Lifetime r).

(** TargetObjectRef *)
Record TargetObjectRef := mkTargetObjectRef {
  tor_Name : string;
  tor_Kind : string;
  tor_ApiVersion : string }.

(** SPIAccessTokenBindingStatus *)
Record SPIAccessTokenBindingStatus := mkBindingStatus {
  bst_Phase : string;
  bst_ErrorReason : string;
  bst_ErrorMessage : string;
  bst_LinkedAccessTokenName : string;
  bst_OAuthUrl : string;
  bst_UploadUrl : string;
  bst_SyncedObjectRef : TargetObjectRef;
  bst_ServiceAccountNames : list string }.
Definition set_bst_Phase (v : string) (r : SPIAccessTokenBindingStatus) : SPIAccessTokenBindingStatus :=
  mkBindingStatus v (bst_ErrorReason r) (bst_ErrorMessage r) (bst_LinkedAccessTokenName r) (bst_OAuthUrl r) (bst_UploadUrl r) (bst_SyncedObjectRef r) (bst_ServiceAccountNames r).
Definition set_bst_ErrorReason (v : string) (r : SPIAccessTokenBindingStatus) : SPIAccessTokenBindingStatus :=
  mkBindingStatus (bst_Phase r) v (bst_ErrorMessage r) (bst_LinkedAccessTokenName r) (bst_OAuthUrl r) (bst_UploadUrl r) (bst_SyncedObjectRef r) (bst_ServiceAccountNames r).
Definition set_bst_ErrorMessage (v : string) (r : SPIAccessTokenBindingStatus) : SPIAccessTokenBindingStatus :=
  mkBindingStatus (bst_Phase r) (bst_ErrorReason r) v (bst_LinkedAccessTokenName r) (bst_OAuthUrl r) (bst_UploadUrl r) (bst_SyncedObjectRef r) (bst_ServiceAccountNames r).
Definition set_bst_LinkedAccessTokenName (v : string) (r : SPIAccessTokenBindingStatus) : SPIAccessTokenBindingStatus :=
  mkBindingStatus (bst_Phase r) (bst_ErrorReason r) (bst_ErrorMessage r) v (bst_OAuthUrl r) (bst_UploadUrl r) (bst_SyncedObjectRef r) (bst_ServiceAccountNames r).
Definition set_bst_OAuthUrl (v : string) (r : SPIAccessTokenBindingStatus) : SPIAccessTokenBindingStatus :=
  mkBindingStatus (bst_Phase r) (bst_ErrorReason r) (bst_ErrorMessage r) (bst_LinkedAccessTokenName r) v (bst_UploadUrl r) (bst_SyncedObjectRef r) (bst_ServiceAccountNames r).
Definition set_bst_UploadUrl (v : string) (r : SPIAccessTokenBindingStatus) : SPIAccessTokenBindingStatus :=
  mkBindingStatus (bst_Phase r) (bst_ErrorReason r) (bst_ErrorMessage r) (bst_LinkedAccessTokenName r) (bst_OAuthUrl r) v (bst_SyncedObjectRef r) (bst_ServiceAccountNames r).
Definition set_bst_SyncedObjectRef (v : TargetObjectRef) (r : SPIAccessTokenBindingStatus) : SPIAccessTokenBindingStatus :=
  mkBindingStatus (bst_Phase r) (bst_ErrorReason r) (bst_ErrorMessage r) (bst_LinkedAccessTokenName r) (bst_OAuthUrl r) (bst_UploadUrl r) v (bst_ServiceAccountNames r).
Definition set_bst_ServiceAccountNames (v : list string) (r : SPIAccessTokenBindingStatus) : SPIAccessTokenBindingStatus :=
  mkBindingStatus (bst_Phase r) (bst_ErrorReason r) (bst_ErrorMessage r) (bst_LinkedAccessTokenName r) (bst_OAuthUrl r) (bst_UploadUrl r) (bst_SyncedObjectRef r) v.

(** SPIAccessTokenBinding *)
Record SPIAccessTokenBinding := mkBinding {
  b_Meta : ObjectMeta;
  b_Spec : SPIAccessTokenBindingSpec;
  b_Status : SPIAccessTokenBindingStatus }.
Definition set_b_Meta (v : ObjectMeta) (r : SPIAccessTokenBinding) : SPIAccessTokenBinding :=
  mkBinding v (b_Spec r) (b_Status r).
Definition set_b_Spec (v : SPIAccessTokenBindingSpec) (r : SPIAccessTokenBinding) : SPIAccessTokenBinding :=
  mkBinding (b_Meta r) v (b_Status r).
Definition set_b_Status (v : SPIAccessTokenBindingStatus) (r : SPIAccessTokenBinding) : SPIAccessTokenBinding :=
  mkBinding (b_Meta r) (b_Spec r) v.

Definition b_Name (b : SPIAccessTokenBinding) : string := om_Name (b_Meta b).
Definition b_Namespace (b : SPIAccessTokenBinding) : string := om_Namespace (b_Meta b).
Definition b_Labels (b : SPIAccessTokenBinding) : gmap string string := om_Labels (b_Meta b).
Definition b_RepoUrl (b : SPIAccessTokenBinding) : string := bsp_RepoUrl (b_Spec b).
Definition with_status (f : SPIAccessTokenBindingStatus -> SPIAccessTokenBindingStatus) (b : SPIAccessTokenBinding) :=
  set_b_Status (f (b_Status b)) b.
Definition empty_ref : TargetObjectRef := mkTargetObjectRef "" "" "".

Definition SPIAccessTokenBindingPhaseAwaitingTokenData := "AwaitingTokenData".
Definition SPIAccessTokenBindingPhaseInjected := "Injected".
Definition SPIAccessTokenBindingPhaseError := "Error".

Definition BindingErrorReasonUnknownServiceProviderType := "UnknownServiceProviderType".
Definition BindingErrorUnsupportedServiceProviderConfiguration := "UnsupportedServiceProviderConfiguration".
Definition BindingErrorReasonInvalidLifetime := "InvalidLifetime".
Definition BindingErrorReasonTokenLookup := "TokenLookup".
Definition BindingErrorReasonLinkedToken := "LinkedToken".
Definition BindingErrorReasonTokenRetrieval := "TokenRetrieval".
Definition BindingErrorReasonTokenSync := "TokenSync".
Definition BindingErrorReasonTokenAnalysis := "TokenAnalysis".
Definition BindingErrorReasonUnsupportedPermissions := "UnsupportedPermissions".
Definition BindingErrorReasonInconsistentSpec := "InconsistentSpec".
Definition BindingErrorReasonServiceAccountUnavailable := "ServiceAccountUnavailable".
Definition BindingErrorReasonServiceAccountUpdate := "ServiceAccountUpdate".
Definition BindingErrorReasonNoError := "".

Definition SecretTypeBasicAuth := "kubernetes.io/basic-auth".
Definition SecretTypeServiceAccountToken := "kubernetes.io/service-account-token".
Definition SecretTypeDockercfg := "kubernetes.io/dockercfg".
Definition SecretTypeDockerConfigJson := "kubernetes.io/dockerconfigjson".
Definition SecretTypeSSHAuth := "kubernetes.io/ssh-auth".
Definition ServiceAccountLinkTypeImagePullSecret := "imagePullSecret".

(** [TokenFieldMapping.Empty]: deep equality with the zero value *)
Definition mapping_Empty (m : TokenFieldMapping) : bool :=
  match m with
  | mkFieldMapping "" "" "" "" "" "" "" "" => true
  | _ => false
  end.

Definition ref_and_managed_msg (i : nat) : string :=
  "The " +:+ FormatInt (Z.of_nat i + 1) +:+ "-th service account spec defines both a service account reference and the managed service account. This is invalid".
Definition not_pull_secret_msg (i : nat) : string :=
  "the secret must have the " +:+ SecretTypeDockerConfigJson +:+ " type for it to be linkable to the "
    +:+ FormatInt (Z.of_nat i + 1) +:+ "-th service account spec as an image pull secret".

(** The loop of [SPIAccessTokenBinding.Validate] from index [i] on *)
Fixpoint validate_links (secretType : string) (i : nat) (links : list ServiceAccountLink) : list string :=
  match links with
  | [] => []
  | link :: rest =>
      (if negb (String.eqb (sal_ReferenceName link) "") &&
          (negb (String.eqb (sal_ManagedName link) "") || negb (String.eqb (sal_ManagedGenerateName link) ""))
       then [ref_and_managed_msg i] else [])
      ++ (if negb (String.eqb secretType SecretTypeDockerConfigJson) &&
             String.eqb (sal_As link) ServiceAccountLinkTypeImagePullSecret
          then [not_pull_secret_msg i] else [])
      ++ validate_links secretType (S i) rest
  end.

(** [SPIAccessTokenBinding.Validate]: the consistency errors *)
Definition Binding_Validate (b : SPIAccessTokenBinding) : list string :=
  let s := bsp_Secret (b_Spec b) in validate_links (ss_Type s) 0 (ss_LinkedTo s).

(** ** SPIAccessCheck *)

Definition RSServiceProviderHostLabel := "appstudio.redhat.com/sp.host".
Definition RSServiceProviderRepositoryAnnotation := "appstudio.redhat.com/sp.repository".
Definition SPIRepoTypeGit := "git".
Definition SPIRepoTypeContainerRegistry := "containerRegistry".
Definition SPIAccessCheckErrorUnknownError := "UnknownError".
Definition SPIAccessCheckErrorUnknownServiceProvider := "UnknownServiceProviderType".
Definition SPIAccessCheckErrorUnsupportedServiceProviderConfiguration := "UnsupportedServiceProviderConfiguration".
Definition SPIAccessCheckErrorRepoNotFound := "RepositoryNotFound".
Definition SPIAccessCheckErrorBadURL := "BadURL".
Definition SPIAccessCheckErrorNotImplemented := "NotImplemented".
Definition SPIAccessCheckErrorTokenLookupFailed := "TokenLookupFailure".
Definition SPIAccessCheckAccessibilityPublic := "public".
Definition SPIAccessCheckAccessibilityPrivate := "private".
Definition SPIAccessCheckAccessibilityUnknown := "unknown".

(** SPIAccessCheckSpec *)
Record SPIAccessCheckSpec := mkCheckSpec {
  acsp_RepoUrl : string;
  acsp_Permissions : Permissions }.

(** SPIAccessCheckStatus *)
Record SPIAccessCheckStatus := mkCheckStatus {
  acst_Accessible : bool;
  acst_Accessibility : string;
  acst_Type : string;
  acst_ServiceProvider : string;
  acst_ErrorReason : string;
  acst_ErrorMessage : string }.
Definition set_acst_ErrorReason (v : string) (r : SPIAccessCheckStatus) : SPIAccessCheckStatus :=
  mkCheckStatus (acst_Accessible r) (acst_Accessibility r) (acst_Type r) (acst_ServiceProvider r) v (acst_ErrorMessage r).
Definition set_acst_ErrorMessage (v : string) (r : SPIAccessCheckStatus) : SPIAccessCheckStatus :=
  mkCheckStatus (acst_Accessible r) (acst_Accessibility r) (acst_Type r) (acst_ServiceProvider r) (acst_ErrorReason r) v.

(** SPIAccessCheck *)
Record SPIAccessCheck := mkCheck {
  ac_Meta : ObjectMeta;
  ac_Spec : SPIAccessCheckSpec;
  ac_Status : SPIAccessCheckStatus }.
Definition set_ac_Status (v : SPIAccessCheckStatus) (r : SPIAccessCheck) : SPIAccessCheck :=
  mkCheck (ac_Meta r) (ac_Spec r) v.

(** ** SPIFileContentRequest *)

Definition SPIFileContentRequestPhaseDelivered := "Delivered".
Definition SPIFileContentRequestPhaseError := "Error".

(** SPIFileContentRequestSpec *)
Record SPIFileContentRequestSpec := mkFileSpec {
  fsp_FilePath : string;
  fsp_RepoUrl : string;
  fsp_Ref : string }.

(** SPIFileContentRequestStatus *)
Record SPIFileContentRequestStatus := mkFileStatus {
  fst_Phase : string;
  fst_ErrorMessage : string;
  fst_Content : string;
  fst_ContentEncoding : string }.

(** SPIFileContentRequest *)
Record SPIFileContentRequest := mkFileRequest {
  f_Meta : ObjectMeta;
  f_Spec : SPIFileContentRequestSpec;
  f_Status : SPIFileContentRequestStatus }.
Definition set_f_Meta (v : ObjectMeta) (r : SPIFileContentRequest) : SPIFileContentRequest :=
  mkFileRequest v (f_Spec r) (f_Status r).
Definition set_f_Status (v : SPIFileContentRequestStatus) (r : SPIFileContentRequest) : SPIFileContentRequest :=
  mkFileRequest (f_Meta r) (f_Spec r) v.

(** The fixed permissions of a file content request *)
Definition File_Permissions : Permissions :=
  mkPermissions [mkPermission PermissionTypeRead PermissionAreaRepository] [].

(** ** SPIAccessTokenDataUpdate *)

(** corev1.TypedLocalObjectReference *)
Record TypedLocalObjectReference := mkLocalRef {
  lref_APIGroup : option string;
  lref_Kind : string;
  lref_Name : string }.

(** SPIAccessTokenDataUpdateSpec *)
Record SPIAccessTokenDataUpdateSpec := mkDataUpdateSpec {
  dusp_TokenName : string;
  dusp_DataOwner : TypedLocalObjectReference }.

(** SPIAccessTokenDataUpdate *)
Record SPIAccessTokenDataUpdate := mkDataUpdate {
  du_Meta : ObjectMeta;
  du_Spec : SPIAccessTokenDataUpdateSpec }.

(** ** Objects of other APIs *)

(** corev1.Secret; Data values are byte strings *)
Record Secret := mkSecret {
  sec_Kind : string;
  sec_APIVersion : string;
  sec_Meta : ObjectMeta;
  sec_Type : string;
  sec_Data : gmap string string }.

(** corev1.ServiceAccount: only its metadata is read *)
Record ServiceAccount := mkServiceAccount {
  sa_Meta : ObjectMeta }.

(** corev1.Event; the involved object is (Namespace, Name, Kind, APIVersion) *)
Record Event := mkEvent {
  ev_Meta : ObjectMeta;
  ev_Message : string;
  ev_Reason : string;
  ev_InvolvedObject : string * string * string * string;
  ev_Type : string;
  ev_LastTimestamp : Z }.

(** metav1.Condition *)
Record Condition := mkCondition {
  cond_Type : string;
  cond_Status : string;
  cond_Reason : string;
  cond_Message : string }.

(** rapi.TargetStatus: the fields the lookup reads *)
Record TargetStatus := mkTargetStatus {
  ts_ApiUrl : string;
  ts_Namespace : string;
  ts_Error : string;
  ts_SecretName : string }.

(** rapi.RemoteSecretTarget, an element of Spec.Targets *)
Record RemoteSecretTarget := mkRemoteSecretTarget {
  rst_Namespace : string;
  rst_ApiUrl : string;
  rst_ClusterCredentialsSecret : string }.
#[export] Instance RemoteSecretTarget_eq_dec : EqDecision RemoteSecretTarget.
Proof. solve_decision. Defined.

(** rapi.RemoteSecret: Spec.Secret.Type, Spec.Targets, StringUploadData, Status.Conditions
    and Status.Targets *)
Record RemoteSecret := mkRemoteSecret {
  rs_Kind : string;
  rs_Meta : ObjectMeta;
  rs_SecretType : string;
  rs_StringUploadData : gmap string string;
  rs_Conditions : list Condition;
  rs_Targets : list TargetStatus;
  rs_SpecTargets : list RemoteSecretTarget }.
Definition set_rs_Meta (v : ObjectMeta) (r : RemoteSecret) : RemoteSecret :=
  mkRemoteSecret (rs_Kind r) v (rs_SecretType r) (rs_StringUploadData r) (rs_Conditions r) (rs_Targets r) (rs_SpecTargets r).
Definition set_rs_StringUploadData (v : gmap string string) (r : RemoteSecret) : RemoteSecret :=
  mkRemoteSecret (rs_Kind r) (rs_Meta r) (rs_SecretType r) v (rs_Conditions r) (rs_Targets r) (rs_SpecTargets r).
Definition set_rs_Conditions (v : list Condition) (r : RemoteSecret) : RemoteSecret :=
  mkRemoteSecret (rs_Kind r) (rs_Meta r) (rs_SecretType r) (rs_StringUploadData r) v (rs_Targets r) (rs_SpecTargets r).
Definition set_rs_SpecTargets (v : list RemoteSecretTarget) (r : RemoteSecret) : RemoteSecret :=
  mkRemoteSecret (rs_Kind r) (rs_Meta r) (rs_SecretType r) (rs_StringUploadData r) (rs_Conditions r) (rs_Targets r) v.

(** The parts of application-api's Environment and Application that the
    controllers read: Spec.Tags and the target of
    Spec.UnstableConfigurationFields (target namespace, API URL, credentials) *)
Record Environment := mkEnvironment {
  env_Meta : ObjectMeta;
  env_Tags : list string;
  env_UnstableConfigurationFields : option RemoteSecretTarget }.
Record Application := mkApplication { app_Meta : ObjectMeta }.

(** ** Matchable objects

    serviceprovider.Matchable: the binding, the access check and the file
    content request as the token lookup sees them. *)

(** serviceprovider.Matchable *)
Record Matchable := mkMatchable {
  m_RepoUrl : string;
  m_ObjNamespace : string;
  m_Permissions : Permissions }.

Definition Matchable_of_binding (b : SPIAccessTokenBinding) : Matchable :=
  mkMatchable (b_RepoUrl b) (b_Namespace b) (bsp_Permissions (b_Spec b)).
Definition Matchable_of_check (c : SPIAccessCheck) : Matchable :=
  mkMatchable (acsp_RepoUrl (ac_Spec c)) (om_Namespace (ac_Meta c)) (acsp_Permissions (ac_Spec c)).
Definition Matchable_of_file (f : SPIFileContentRequest) : Matchable :=
  mkMatchable (fsp_RepoUrl (f_Spec f)) (om_Namespace (f_Meta f)) File_Permissions.

(** ** Lemmas on [Validate] *)

Lemma validate_links_nil_iff secretType links : forall i,
  validate_links secretType i links = [] <->
  Forall (fun l =>
    (sal_ReferenceName l = "" \/ (sal_ManagedName l = "" /\ sal_ManagedGenerateName l = "")) /\
    (sal_As l = ServiceAccountLinkTypeImagePullSecret -> secretType = SecretTypeDockerConfigJson)) links.
Proof.
  induction links as [|l links IH]; intros i; cbn [validate_links]; [done|].
  rewrite List.Forall_cons_iff. specialize (IH (S i)).
  destruct (String.eqb_spec (sal_ReferenceName l) ""), (String.eqb_spec (sal_ManagedName l) ""),
    (String.eqb_spec (sal_ManagedGenerateName l) ""), (String.eqb_spec secretType SecretTypeDockerConfigJson),
    (String.eqb_spec (sal_As l) ServiceAccountLinkTypeImagePullSecret); cbn; naive_solver.
Qed.
