(* ===== verification/Externals.v ===== *)
(** * Configuration data and the third-party functions the operator calls

    The records of pkg/spi-shared/config and pkg/config, and the class
    [Externals] of the pure third-party functions used by the code (go.mod
    dependencies are not part of the repository).  Every theorem of the
    development holds for every instance of the class. *)

From S2P Require Import Prelude GoStd Api.
Local Open Scope string_scope.

(** ** pkg/spi-shared/config and golang.org/x/oauth2 data *)

(** oauth2.Endpoint *)
Record Endpoint := mkEndpoint { AuthURL : string; TokenURL : string }.

(** oauth2.Config: the fields the operator sets *)
Record OAuth2Config := mkOAuth2Config {
  oc_ClientID : string; oc_ClientSecret : string; oc_Endpoint : Endpoint }.

Record ServiceProviderType := mkSPType {
  spt_Name : string; spt_DefaultOAuthEndpoint : Endpoint;
  spt_DefaultHost : string; spt_DefaultBaseUrl : string }.

Record ServiceProviderConfiguration := mkSPConfig {
  spc_Type : ServiceProviderType; spc_BaseUrl : string;
  spc_Extra : gmap string string; spc_OAuth2Config : option OAuth2Config }.

Record SharedConfiguration := mkSharedConfig {
  sc_ServiceProviders : list ServiceProviderConfiguration; sc_BaseUrl : string }.

Record persistedServiceProviderConfiguration := mkPersistedSP {
  psp_ClientId : string; psp_ClientSecret : string; psp_ServiceProviderName : string;
  psp_BaseUrl : string; psp_Extra : gmap string string }.

Record persistedConfiguration := mkPersisted {
  pc_ServiceProviders : list persistedServiceProviderConfiguration }.

(** pkg/config: the operator's own configuration; durations in nanoseconds *)
Definition AnyTokenPolicy := "any".
Definition ExactTokenPolicy := "exact".
Record OperatorConfiguration := mkOpConfig {
  opc_Shared : SharedConfiguration;
  opc_TokenLookupCacheTtl : Z; opc_AccessCheckTtl : Z; opc_AccessTokenTtl : Z;
  opc_AccessTokenBindingTtl : Z; opc_FileContentRequestTtl : Z;
  opc_TokenMatchPolicy : string; opc_DeletionGracePeriod : Z;
  opc_MaxFileDownloadSize : Z; opc_EnableTokenUpload : bool }.

#[export] Instance Endpoint_eq_dec : EqDecision Endpoint.
Proof. solve_decision. Defined.
#[export] Instance OAuth2Config_eq_dec : EqDecision OAuth2Config.
Proof. solve_decision. Defined.
#[export] Instance ServiceProviderType_eq_dec : EqDecision ServiceProviderType.
Proof. solve_decision. Defined.

(** ** Third-party functions *)

Class Externals := {
  (** golang.org/x/oauth2/github.Endpoint *)
  github_Endpoint : Endpoint;
  (** rerror.NewAggregatedError *)
  NewAggregatedError : list goerr -> goerr;
  (** k8s.io/apimachinery/pkg/util/errors.NewAggregate of a non-empty list *)
  NewAggregate : list goerr -> goerr;
  (** k8s.io/apimachinery/pkg/util/validation.IsDNS1123Subdomain *)
  IsDNS1123Subdomain : string -> list string;
  (** rconfig.ValidateStruct on the two configuration structs *)
  ValidateSPConfig : ServiceProviderConfiguration -> option goerr;
  ValidateShared : SharedConfiguration -> option goerr;
  (** remote-secret/pkg/commaseparated: a string seen as a set of names *)
  cs_t : Type;
  cs_Value : string -> cs_t;
  cs_Contains : cs_t -> string -> bool;
  cs_Add : string -> cs_t -> cs_t;
  cs_Remove : string -> cs_t -> cs_t;
  cs_Len : cs_t -> nat;
  cs_Values : cs_t -> list string;
  cs_String : cs_t -> string;
  (** the order in which [for range] visits the keys of a map *)
  iteration_order : list string -> list string
}.
