(* ===== verification/SpErrors.v ===== *)
(** * pkg/errors: errors of the service providers' HTTP APIs *)

From S2P Require Import Prelude GoStd.
Local Open Scope string_scope.
Local Open Scope Z_scope.

(** [ServiceProviderHttpError.Error] *)
Definition HttpError_Error (StatusCode : Z) (Response : string) : string :=
  let identification :=
    if (400 <=? StatusCode) && (StatusCode <? 500) then "invalid access token"
    else if (500 <? StatusCode) && (StatusCode <? 600) then "error in the service provider"
    else "unknown service provider error" in
  identification +:+ " (http status " +:+ FormatInt StatusCode +:+ "): " +:+ Response.

(** The [Error] method of every error of the development, and [fmt.Errorf]
    with a trailing [": %w"]. *)
Definition Error (e : goerr) : string := error_text_with HttpError_Error e.
Definition Errorf_w (prefix : string) (e : goerr) : goerr :=
  WrapError (prefix +:+ ": " +:+ Error e) e.

(** [fmt.Errorf] with a leading ["%w"] for a sentinel error *)
Definition Wrapf (sentinel rest : string) : goerr := WrapError (sentinel +:+ rest) (ErrorString sentinel).

(** [convertToServiceProviderHttpError] *)
Definition convertToServiceProviderHttpError (e : goerr) : option (Z * string) := errors_As_http e.

Definition IsServiceProviderHttpError (e : goerr) : bool :=
  match convertToServiceProviderHttpError e with Some _ => true | None => false end.

Definition IsServiceProviderHttpInvalidAccessToken (e : goerr) : bool :=
  match convertToServiceProviderHttpError e with
  | None => false
  | Some (code, _) => (400 <=? code) && (code <? 500)
  end.

Definition IsServiceProviderHttpInternalServerError (e : goerr) : bool :=
  match convertToServiceProviderHttpError e with
  | None => false
  | Some (code, _) => (500 <=? code) && (code <? 600)
  end.

(** [FromHttpResponse]: the status code and the body as read, [Err] when
    reading the body failed *)
Definition FromHttpResponse (StatusCode : Z) (body : res string) : option goerr :=
  if (400 <=? StatusCode) && (StatusCode <? 600) then
    Some (HttpError StatusCode
      match body with
      | Ok bytes => bytes
      | Err err => "failed to read the error response from the service provider: " +:+ Error err
      end)
  else None.

(** ** Lemmas *)

Lemma Errorf_w_transparent p e :
  errors_As_http (Errorf_w p e) = errors_As_http e /\
  errors_As_validation (Errorf_w p e) = errors_As_validation e /\
  ReasonForError (Errorf_w p e) = ReasonForError e /\
  (forall s, errors_Is (Errorf_w p e) s = errors_Is e s).
Proof. done. Qed.

(** Wrapping with [fmt.Errorf] any number of times *)
Definition wrapped (ps : list string) (e : goerr) : goerr := fold_right Errorf_w e ps.

Lemma wrapped_As_http ps e : errors_As_http (wrapped ps e) = errors_As_http e.
Proof. by induction ps. Qed.

(** The classification of a failed HTTP exchange: for every status code,
    [FromHttpResponse] yields an error exactly for the codes 400 to 599, and
    however often callers wrap that error, it is recognised as an HTTP error
    and as exactly one of invalid access token (4xx) and internal server
    error (5xx). *)
Lemma FromHttpResponse_classified code body ps :
  match FromHttpResponse code body with
  | None => ~ (400 <= code < 600)
  | Some e =>
      400 <= code < 600 /\
      IsServiceProviderHttpError (wrapped ps e) = true /\
      IsServiceProviderHttpInvalidAccessToken (wrapped ps e) = (code <? 500) /\
      IsServiceProviderHttpInternalServerError (wrapped ps e) = negb (code <? 500)
  end.
Proof.
  unfold FromHttpResponse, IsServiceProviderHttpError, IsServiceProviderHttpInvalidAccessToken,
    IsServiceProviderHttpInternalServerError, convertToServiceProviderHttpError.
  destruct ((400 <=? code) && (code <? 600)) eqn:E; reflect_bools; [|lia].
  rewrite !wrapped_As_http. cbn. split; [lia|]. split; [done|].
  destruct (Z.ltb_spec code 500), (Z.leb_spec 400 code), (Z.leb_spec 500 code),
    (Z.ltb_spec code 600); cbn; (done || lia).
Qed.

(** The text of status 500, which [IsServiceProviderHttpInternalServerError]
    classifies as a server error, is the one of an unknown error. *)
Lemma HttpError_500_text r :
  IsServiceProviderHttpInternalServerError (HttpError 500 r) = true /\
  Error (HttpError 500 r) = "unknown service provider error (http status 500): " +:+ r /\
  Error (HttpError 501 r) = "error in the service provider (http status 501): " +:+ r.
Proof. done. Qed.
