(* ===== verification/OAuthState.v ===== *)
(** * pkg/spi-shared/oauthstate: the state carried through the OAuth flow

    [OAuthInfo], its JSON form inside a URL-safe base64 string, and the parser
    (codec.go, anonymous.go).  The decoding into the struct follows
    encoding/json: exact field names first, then names equal up to Unicode
    case folding; later members override earlier ones; [null] leaves a string
    and clears a slice.  The texts of JSON errors are abbreviated. *)

From S2P Require Import Prelude GoStd GoUrl GoJson GoUnmarshal GoBase64 SpErrors.
Local Open Scope string_scope.
Local Open Scope list_scope.
Local Open Scope spi_scope.

(** Scopes is [None] for a nil slice. *)
Record OAuthInfo := mkOAuthInfo {
  oi_ObjectName : string; oi_ObjectNamespace : string; oi_ObjectKind : string;
  oi_Scopes : option (list string); oi_ServiceProviderName : string; oi_ServiceProviderUrl : string }.
Definition empty_info : OAuthInfo := mkOAuthInfo "" "" "" None "" "".

(** ** Encode *)

Definition marshal_info (i : OAuthInfo) : string :=
  print_object
    [("objectName", json_string (oi_ObjectName i));
     ("objectNs", json_string (oi_ObjectNamespace i));
     ("objectKind", json_string (oi_ObjectKind i));
     ("scopes", marshal_strings (oi_Scopes i));
     ("providerType", json_string (oi_ServiceProviderName i));
     ("providerUrl", json_string (oi_ServiceProviderUrl i))].

(** Marshalling strings and slices of strings cannot fail. *)
Definition Encode (state : OAuthInfo) : res string :=
  Ok (EncodeToString RawURLEncoding (marshal_info state)).

(** ** Decoding into the struct *)

Inductive info_field := FName | FNamespace | FKind | FScopes | FProviderName | FProviderUrl.

Definition fields : list (string * info_field) :=
  [("objectName", FName); ("objectNs", FNamespace); ("objectKind", FKind); ("scopes", FScopes);
   ("providerType", FProviderName); ("providerUrl", FProviderUrl)].

Definition find_field : string -> option info_field := find_by_name fields.

Definition store_field (f : info_field) (v : json) (i : OAuthInfo) : res OAuthInfo :=
  let '(mkOAuthInfo n ns k sc p u) := i in
  match f with
  | FName => let? x := decode_string n v in Ok (mkOAuthInfo x ns k sc p u)
  | FNamespace => let? x := decode_string ns v in Ok (mkOAuthInfo n x k sc p u)
  | FKind => let? x := decode_string k v in Ok (mkOAuthInfo n ns x sc p u)
  | FScopes => let? x := decode_strings sc v in Ok (mkOAuthInfo n ns k x p u)
  | FProviderName => let? x := decode_string p v in Ok (mkOAuthInfo n ns k sc x u)
  | FProviderUrl => let? x := decode_string u v in Ok (mkOAuthInfo n ns k sc p x)
  end.

(** Unknown members are ignored. *)
Fixpoint store_members (ms : list (string * json)) (i : OAuthInfo) : res OAuthInfo :=
  match ms with
  | [] => Ok i
  | (key, v) :: rest =>
      let? i := match find_field key with Some f => store_field f v i | None => Ok i end in
      store_members rest i
  end.

(** [json.Unmarshal(data, &dest)] *)
Definition Unmarshal (data : string) (dest : OAuthInfo) : res OAuthInfo :=
  match parse_json data with
  | None => Err jsonSyntaxError
  | Some (JObject ms) => store_members ms dest
  | Some JNull => Ok dest
  | Some _ => Err jsonTypeError
  end.

Definition ParseInto (state : string) (dest : OAuthInfo) : res OAuthInfo :=
  match DecodeString RawURLEncoding state with
  | Err err => Err (Errorf_w "failed to base64-decode the state" err)
  | Ok data =>
      match Unmarshal data dest with
      | Err err => Err (Errorf_w "failed to unmarshal the state JSON" err)
      | Ok i => Ok i
      end
  end.

Definition ParseOAuthInfo (state : string) : res OAuthInfo :=
  match ParseInto state empty_info with
  | Err err => Err (WrapError ("error parsing OAuth state " +:+ Error err) err)
  | Ok i => Ok i
  end.

(** ** Round trip *)

(** An info whose strings are valid UTF-8 *)
Definition valid_info (i : OAuthInfo) : OAuthInfo :=
  mkOAuthInfo (to_valid_utf8 (oi_ObjectName i)) (to_valid_utf8 (oi_ObjectNamespace i))
    (to_valid_utf8 (oi_ObjectKind i)) (option_map (map to_valid_utf8) (oi_Scopes i))
    (to_valid_utf8 (oi_ServiceProviderName i)) (to_valid_utf8 (oi_ServiceProviderUrl i)).

Lemma marshal_info_reads i :
  parse_json (marshal_info i) = Some (JObject
    [("objectName", JString (to_valid_utf8 (oi_ObjectName i)));
     ("objectNs", JString (to_valid_utf8 (oi_ObjectNamespace i)));
     ("objectKind", JString (to_valid_utf8 (oi_ObjectKind i)));
     ("scopes", strings_json (oi_Scopes i));
     ("providerType", JString (to_valid_utf8 (oi_ServiceProviderName i)));
     ("providerUrl", JString (to_valid_utf8 (oi_ServiceProviderUrl i)))]).
Proof.
  apply reads_as_parse_json.
  refine (print_object_reads
    [("objectName", json_string (oi_ObjectName i), JString (to_valid_utf8 (oi_ObjectName i)));
     ("objectNs", json_string (oi_ObjectNamespace i), JString (to_valid_utf8 (oi_ObjectNamespace i)));
     ("objectKind", json_string (oi_ObjectKind i), JString (to_valid_utf8 (oi_ObjectKind i)));
     ("scopes", marshal_strings (oi_Scopes i), strings_json (oi_Scopes i));
     ("providerType", json_string (oi_ServiceProviderName i), JString (to_valid_utf8 (oi_ServiceProviderName i)));
     ("providerUrl", json_string (oi_ServiceProviderUrl i), JString (to_valid_utf8 (oi_ServiceProviderUrl i)))]
    0 _ _ _); [done|done|].
  repeat constructor; cbn [fst snd]; (apply json_string_reads || by apply marshal_strings_reads).
Qed.

Lemma Unmarshal_marshal i dest : Unmarshal (marshal_info i) dest = Ok (valid_info i).
Proof.
  unfold Unmarshal. rewrite marshal_info_reads. destruct dest as [n ns k sc p u].
  cbn [store_members]. change (find_field "objectName") with (Some FName).
  change (find_field "objectNs") with (Some FNamespace). change (find_field "objectKind") with (Some FKind).
  change (find_field "scopes") with (Some FScopes). change (find_field "providerType") with (Some FProviderName).
  change (find_field "providerUrl") with (Some FProviderUrl). unfold valid_info, strings_json.
  destruct (oi_Scopes i) as [l|]; cbn; [|done]. by rewrite decode_items_strings.
Qed.

(** What every user of an encoded state relies on *)
Lemma Encode_parses i s :
  Encode i = Ok s ->
  url_safe s = true /\ ParseOAuthInfo s = Ok (valid_info i) /\
  forall dest, ParseInto s dest = Ok (valid_info i).
Proof.
  intros H. unfold Encode in H. apply Ok_inj in H. subst s.
  split; [apply encode_url_safe|].
  assert (forall dest, ParseInto (EncodeToString RawURLEncoding (marshal_info i)) dest = Ok (valid_info i)) as H.
  { intros dest. unfold ParseInto. by rewrite base64_roundtrip, Unmarshal_marshal. }
  split; [|exact H]. unfold ParseOAuthInfo. by rewrite H.
Qed.

(** C22 The OAuth state survives its journey: encoding any state succeeds with
    characters that need no escaping in a URL, and parsing the result, into a
    fresh struct or over any earlier state, gives the state back, with invalid
    UTF-8 in its strings replaced. *)
Theorem oauth_state_roundtrip (i dest : OAuthInfo) :
  exists s, Encode i = Ok s /\ url_safe s = true /\
    ParseOAuthInfo s = Ok (valid_info i) /\ ParseInto s dest = Ok (valid_info i).
Proof.
  eexists. split; [done|]. destruct (Encode_parses i _ eq_refl) as (Hu & Hp & Hi). split; [exact Hu|].
  split; [exact Hp|apply Hi].
Qed.

Definition sample_info : OAuthInfo :=
  mkOAuthInfo "tok" "ns" "SPIAccessToken" (Some ["repo"; "read:user"]) "GitHub" "https://github.com?a=1&b".
Example sample_info_valid : valid_info sample_info = sample_info.
Proof. vm_compute. reflexivity. Qed.
Example sample_state : Unmarshal ("{" +:+ json_string "OBJECTNAME" +:+ ":" +:+ json_string "x" +:+ ", "
    +:+ json_string "unknown" +:+ ":[1e5], " +:+ json_string "scopes" +:+ ":null}") sample_info =
  Ok (mkOAuthInfo "x" "ns" "SPIAccessToken" None "GitHub" "https://github.com?a=1&b").
Proof. vm_compute. reflexivity. Qed.
