(* ===== verification/Effects.v ===== *)
(** * Effects: programs that talk to the cluster, the storages and the providers

    Code with side effects is a [prog]: a tree of calls [Vis e k] to the
    environment (the Kubernetes API server, the token and secret storages, the
    service provider interface and, below it, the HTTP and API clients of the
    providers, the dependents handler of remote-secret, the clock), each followed by a continuation that receives the answer.  Nothing
    is assumed of the answers: [exec p tr a] says that [p] can perform the
    calls of [tr] with those answers and return [a], so a theorem about all
    [tr] holds against every environment, failures and races with other
    writers included.  [run_trace] executes a program against a concrete
    environment. *)

From S2P Require Import Prelude GoStd Api Externals.
Local Open Scope string_scope.
Local Open Scope list_scope.

(** ** Kinds of cluster objects *)

Inductive kind :=
| KToken | KBinding | KCheck | KFile | KDataUpdate | KSecret | KEvent | KRemoteSecret
| KEnvironment | KApplication.

#[export] Instance kind_eq_dec : EqDecision kind.
Proof. solve_decision. Defined.

Definition obj (k : kind) : Type :=
  match k with
  | KToken => SPIAccessToken
  | KBinding => SPIAccessTokenBinding
  | KCheck => SPIAccessCheck
  | KFile => SPIFileContentRequest
  | KDataUpdate => SPIAccessTokenDataUpdate
  | KSecret => Secret
  | KEvent => Event
  | KRemoteSecret => RemoteSecret
  | KEnvironment => Environment
  | KApplication => Application
  end.

(** client.Client.  A successful [Create], [Update], [Status().Update] or
    [Patch] decodes the server's answer into the object passed to it: the
    answer is the object as the caller sees it afterwards.  On an error the
    caller's object is unchanged.  [KListNotIn] selects the objects without the
    label or with another value of it. *)
Inductive KubeE : Type -> Type :=
| KGet (k : kind) (key : ObjectKey) : KubeE (res (obj k))
| KList (k : kind) (namespace : string) (labels : list (string * string)) (limit : option nat)
    : KubeE (res (list (obj k)))
| KListNotIn (k : kind) (namespace label : string) (values : list string) : KubeE (res (list (obj k)))
| KCreate (k : kind) (o : obj k) : KubeE (res (obj k))
| KUpdate (k : kind) (o : obj k) : KubeE (res (obj k))
| KStatusUpdate (k : kind) (o : obj k) : KubeE (res (obj k))
| KPatch (k : kind) (o base : obj k) : KubeE (res (obj k))
| KStatusPatch (k : kind) (o base : obj k) : KubeE (res (obj k))
| KDelete (k : kind) (o : obj k) : KubeE (option goerr).

(** controller-runtime's finalizer.Finalizers: the object as it was changed in
    memory, whether it and its status need an update, and the error. *)
Record FinalizeResult (k : kind) := mkFinalizeResult {
  fin_obj : obj k; fin_Updated : bool; fin_StatusUpdated : bool; fin_err : option goerr }.
Arguments mkFinalizeResult {k}. Arguments fin_obj {k}. Arguments fin_Updated {k}.
Arguments fin_StatusUpdated {k}. Arguments fin_err {k}.

(** ** The service provider interface (pkg/serviceprovider.ServiceProvider)

    The getters are fields; the methods that do I/O are the calls of [SpE]. *)

Record OAuthCapability := mkOAuthCapability {
  GetOAuthEndpoint : string; OAuthScopesFor : Permissions -> list string }.

(** pkg/serviceprovider/oauth and oauthcapability.go: the routes of the OAuth
    service, and [DefaultOAuthCapability.GetOAuthEndpoint] *)
Definition CallBackRoutePath : string := "/oauth/callback".
Definition AuthenticateRoutePath : string := "/oauth/authenticate".
Definition DefaultOAuthEndpoint (BaseUrl : string) : string := BaseUrl +:+ AuthenticateRoutePath.

Record ServiceProvider := mkSP {
  GetBaseUrl_sp : string;
  GetType : ServiceProviderType;
  GetOAuthCapability : option OAuthCapability;
  has_DownloadFileCapability : bool;
  has_RefreshTokenCapability : bool }.

(** serviceprovider.Credentials *)
Record Credentials := mkCredentials { cred_Username : string; cred_Token : string }.

(** serviceprovider.AccessTokenMapper (access_token_mapper.go) *)
Record AccessTokenMapper := mkMapper {
  atm_Name : string; atm_Token : string; atm_ServiceProviderUrl : string;
  atm_ServiceProviderUserName : string; atm_ServiceProviderUserId : string;
  atm_UserId : string; atm_ExpiredAfter : option Z; atm_Scopes : list string }.

Definition set_atm_Scopes (v : list string) (m : AccessTokenMapper) : AccessTokenMapper :=
  mkMapper (atm_Name m) (atm_Token m) (atm_ServiceProviderUrl m) (atm_ServiceProviderUserName m)
    (atm_ServiceProviderUserId m) (atm_UserId m) (atm_ExpiredAfter m) v.

Inductive SpE : Type -> Type :=
| FromRepoUrl (repoUrl namespace : string) : SpE (res ServiceProvider)
| LookupTokens (sp : ServiceProvider) (b : SPIAccessTokenBinding) : SpE (res (list SPIAccessToken))
| LookupCredentials (sp : ServiceProvider) (m : Matchable) : SpE (res (option Credentials))
| PersistMetadata (sp : ServiceProvider) (t : SPIAccessToken) : SpE (SPIAccessToken * option goerr)
| CheckRepositoryAccess (sp : ServiceProvider) (c : SPIAccessCheck) : SpE (res SPIAccessCheckStatus)
| MapToken (sp : ServiceProvider) (b : SPIAccessTokenBinding) (t : SPIAccessToken) (td : Token)
    : SpE (res AccessTokenMapper)
| SpValidate (sp : ServiceProvider) (p : Permissions) : SpE (res (list goerr))
| DownloadFile (sp : ServiceProvider) (spec : SPIFileContentRequestSpec) (c : Credentials) (maxSize : Z)
    : SpE (res string)
| RefreshToken (sp : ServiceProvider) (t : option Token) (cfg : OAuth2Config) : SpE (res Token)
| FetchMetadata (t : SPIAccessToken) (includeState : bool) : SpE (res (option TokenMetadata))
| FilterMatches (m : Matchable) (t : SPIAccessToken) : SpE (res bool).

(** ** Storages *)

(** pkg/spi-shared/tokenstorage.TokenStorage *)
Inductive TokenStorageE : Type -> Type :=
| TsInitialize : TokenStorageE (option goerr)
| TsStore (owner : SPIAccessToken) (t : Token) : TokenStorageE (option goerr)
| TsGet (owner : SPIAccessToken) : TokenStorageE (res (option Token))
| TsDelete (owner : SPIAccessToken) : TokenStorageE (option goerr).

(** remote-secret's secretstorage: the typed storage of tokens and the raw one *)
Inductive SecretStorageE : Type -> Type :=
| TypedStore (owner : SPIAccessToken) (t : Token) : SecretStorageE (option goerr)
| TypedGet (owner : SPIAccessToken) : SecretStorageE (res Token)
| TypedDelete (owner : SPIAccessToken) : SecretStorageE (option goerr)
| RawStore (id : ObjectKey) (data : string) : SecretStorageE (option goerr)
| RawGet (id : ObjectKey) : SecretStorageE (res string)
| RawDelete (id : ObjectKey) : SecretStorageE (option goerr)
| CreateClient : SecretStorageE (option goerr).

(** ** The dependents handler of remote-secret

    Its target is the binding by reference: each call sees the binding as it
    is in memory at that moment. *)

Record Dependents := mkDependents { dep_Secret : Secret; dep_ServiceAccounts : list ServiceAccount }.

Inductive DepE : Type -> Type :=
| DepCheckPoint (b : SPIAccessTokenBinding) : DepE (res nat)
| DepSync (b : SPIAccessTokenBinding) (sp : ServiceProvider) (t : SPIAccessToken)
    : DepE (result (string * goerr) Dependents)
| DepRevertTo (b : SPIAccessTokenBinding) (checkpoint : nat) : DepE (option goerr)
| DepCleanup (b : SPIAccessTokenBinding) : DepE (option goerr).

(** ** The OAuth service (oauth/)

    Besides the cluster and the storages, a request handler of the OAuth
    service uses the state that all requests share (the synchronization
    strategy of a controller, the scopes of a globally configured OAuth
    client), the session of the browser, and the cluster on behalf of the user:
    [auth] is the bearer token that the client takes from the context. *)

(** tokenDataSyncStrategy: its two implementations *)
Inductive SyncStrategy := SpiSync | RsSync.

(** The values the service puts into a session *)
Inductive session_value := SessString (s : string) | SessInt64 (n : Z).

(** oauth2.Token; Expiry is an instant in nanoseconds *)
Record OAuth2Token := mkOAuth2Token {
  ot_AccessToken : string; ot_TokenType : string; ot_RefreshToken : string; ot_Expiry : Z }.

Inductive OauthE : Type -> Type :=
| SetSyncStrategy (spType : string) (s : SyncStrategy) : OauthE unit
| GetSyncStrategy (spType : string) : OauthE SyncStrategy
| SetScopes (c : OAuth2Config) (scopes : list string) : OauthE unit
| GetScopes (c : OAuth2Config) : OauthE (list string)
| SessGet (key : string) : OauthE (option session_value)
| SessPut (key : string) (v : session_value) : OauthE unit
| SessDestroy : OauthE (option goerr)
| RandInt (max : Z) : OauthE (option Z)
| CreateUserClient (auth namespace : string) : OauthE (option goerr)
| AccessReview (auth namespace verb group version resource : string) : OauthE (res bool)
| UserGet (auth : string) (k : kind) (key : ObjectKey) : OauthE (res (obj k))
| UserUpdate (auth : string) (k : kind) (o : obj k) : OauthE (res (obj k))
| UserStore (auth namespace : string) (owner : SPIAccessToken) (t : Token) : OauthE (option goerr)
| ExchangeCode (c : OAuth2Config) (redirectUrl code scope : string) : OauthE (res OAuth2Token)
| RenderRedirect (url : string) : OauthE (option goerr).

(** ** HTTP and the clients of the service providers (pkg/serviceprovider/...)

    net/http: a request as the code composes it, and the response with the
    result of reading its whole body.  [http.Client.Do] answers a response
    whenever it answers no error. *)
Record HttpRequest := mkHttpRequest {
  hq_Method : string; hq_URL : string; hq_Header : list (string * string); hq_Body : string }.
Record HttpResponse := mkHttpResponse { hr_StatusCode : Z; hr_Body : res string }.

Inductive HttpE : Type -> Type :=
| HttpDo (q : HttpRequest) : HttpE (res HttpResponse).

(** A pointer whose address the code can print: the address and the value *)
Definition pointer (A : Type) : Type := option (Z * A).
Definition ptr_value {A} (p : pointer A) : option A := option_map snd p.
Definition ptr_address {A} (p : pointer A) : Z := match p with Some (a, _) => a | None => 0 end.

(** google/go-github: the calls of a client authenticated by [token], with the
    parts of the answers that the code reads; an error may come with the
    response. *)
Record GhUser := mkGhUser { gu_ID : option Z; gu_Login : option string }.
Record GhUserResponse := mkGhUserResponse {
  gur_User : GhUser; gur_StatusCode : Z; gur_OAuthScopes : string }.
Record GhRepository := mkGhRepository {
  ghr_HTMLURL : option string; ghr_Private : option bool; ghr_Permissions : gmap string bool }.
Record GhRepositoryPage := mkGhRepositoryPage { ghp_Repos : list GhRepository; ghp_NextPage : Z }.
(** A file: its size and the result of its GetContent *)
Record GhFile := mkGhFile { ghf_Size : pointer Z; ghf_Content : res string }.
Record GhContents := mkGhContents { ghc_File : option GhFile; ghc_Directory : option (list GhFile) }.

Inductive GhE : Type -> Type :=
| GhUsersGet (token : string) : GhE (res GhUserResponse)
| GhRepositoriesGet (token owner repo : string) : GhE (result (goerr * option Z) GhRepository)
| GhRepositoriesList (token : string) (perPage page : Z) : GhE (res GhRepositoryPage)
| GhGetContents (token owner repo path ref : string)
    : GhE (result (goerr * option HttpResponse) GhContents).

(** xanzy/go-gitlab: the client, by the constructor that made it, and its calls.
    [GlDo] reads the member [field] of the response, a list of strings.
    [RetryableRequest] is the constructor of hashicorp/go-retryablehttp. *)
Inductive GlClient :=
| NewClient (token baseUrl : string)
| NewBasicAuthClient (username password baseUrl : string).
Record GlUserResponse := mkGlUserResponse { glu_Username : string; glu_ID : Z; glu_StatusCode : Z }.
Record GlScopesResponse := mkGlScopesResponse { gls_StatusCode : Z; gls_Scopes : option (list string) }.
Record GlProject := mkGlProject { glp_Visibility : string; glp_StatusCode : option Z }.
Record GlFile := mkGlFile { glf_Size : Z; glf_Content : string }.

Inductive GlE : Type -> Type :=
| GlNewClient (c : GlClient) : GlE (option goerr)
| GlCurrentUser (c : GlClient) : GlE (res GlUserResponse)
| RetryableRequest (method url : string) : GlE (option goerr)
| GlNewRequest (c : GlClient) (method path : string) : GlE (option goerr)
| GlDo (c : GlClient) (method url field : string) : GlE (result (goerr * option Z) GlScopesResponse)
| GlGetProject (c : GlClient) (pid : string) : GlE (result (goerr * option Z) GlProject)
| GlGetFile (c : GlClient) (pid path ref : string) : GlE (result (goerr * option Z) GlFile).

(** ** The clients of the cluster (oauth/clientfactory)

    rest.Config and client.Options: the fields that the code reads or sets.
    [co_Mapper] lists the kinds of the REST mapper, each with whether it is
    namespaced. *)
Record RestConfig := mkRestConfig {
  rc_Host : string; rc_CAFile : string; rc_Insecure : bool; rc_AuthProvider : option string;
  rc_BearerToken : string }.
Record ClientOptions := mkClientOptions { co_Mapper : list (string * bool) }.

(** A constructor of a configuration answers a pointer and an error.
    [AuthenticatedDo] is [Do] of an http.Client whose transport is remote-secret's
    AuthenticatingRoundTripper: [bearer] is the bearer token in the context of
    the request. *)
Inductive ClientE : Type -> Type :=
| AddToScheme (api : string) : ClientE (option goerr)
| BuildConfigFromFlags (masterUrl kubeconfigPath : string) : ClientE (option RestConfig * option goerr)
| InClusterConfig : ClientE (option RestConfig * option goerr)
| CertPool (path : string) : ClientE (option goerr)
| ClientNew (cfg : option RestConfig) (opts : ClientOptions) : ClientE (option goerr)
| AuthenticatedDo (bearer : option string) (q : HttpRequest) : ClientE (res HttpResponse).

(** ** Start-up: files and the constructors of other modules

    os.Open and io.ReadAll of a file; the set-up of the validators, of the
    secret storage (remote-secret), of a page template, of the metrics, of a
    controller ([SetupWithManager]) and of the manager; the HTTP server. *)
(** The options of controller-runtime's manager that main sets.
    [GetConfigOrDie] answers nothing when it ends the process. *)
Record ManagerOptions := mkManagerOptions {
  mo_MetricsBindAddress : string; mo_HealthProbeBindAddress : string; mo_LeaderElection : bool;
  mo_LeaderElectionID : string; mo_WebhookNextProtos : list string }.

Inductive StartE : Type -> Type :=
| OsOpen (path : string) : StartE (option goerr)
| OsReadAll (path : string) : StartE (res string)
| SetupCustomValidations (AllowInsecureURLs : bool) : StartE (option goerr)
| CreateInitializedSecretStorage : StartE (option goerr)
| InitializeStorage (name : string) : StartE (option goerr)
| ParseFiles (path : string) : StartE (option goerr)
| RegisterCommonMetrics : StartE (option goerr)
| SetupWithManager (controller : string) (storage : option string) : StartE (option goerr)
| GetConfigOrDie : StartE (option RestConfig)
| NewManager (cfg : RestConfig) (opts : ManagerOptions) : StartE (option goerr)
| AddHealthzCheck (name : string) : StartE (option goerr)
| AddReadyzCheck (name : string) : StartE (option goerr)
| ManagerStart : StartE (option goerr)
| OsStat (path : string) : StartE (option goerr)
| ListenAndServe (addr : string) (tls : option (string * string)) (nextProtos : option (list string)) : StartE (option goerr)
| AwaitInterrupt : StartE unit
| Shutdown (timeout : Z) : StartE (option goerr).

Inductive Ev : Type -> Type :=
| Kube {X} (e : KubeE X) : Ev X
| Sp {X} (e : SpE X) : Ev X
| Ts {X} (e : TokenStorageE X) : Ev X
| Ss {X} (e : SecretStorageE X) : Ev X
| Dep {X} (e : DepE X) : Ev X
| Oa {X} (e : OauthE X) : Ev X
| Ht {X} (e : HttpE X) : Ev X
| Gh {X} (e : GhE X) : Ev X
| Gl {X} (e : GlE X) : Ev X
| Cl {X} (e : ClientE X) : Ev X
| St {X} (e : StartE X) : Ev X
| Finalize (k : kind) (o : obj k) : Ev (FinalizeResult k)
| Now : Ev Z.

(** ** Programs *)

Inductive prog (A : Type) : Type :=
| Ret (a : A)
| Vis {X : Type} (e : Ev X) (k : X -> prog A).
Arguments Ret {A} a.
Arguments Vis {A X} e k.

Fixpoint bind {A B} (p : prog A) (f : A -> prog B) : prog B :=
  match p with
  | Ret a => f a
  | Vis e k => Vis e (fun x => bind (k x) f)
  end.

Notation "'let!' x ':=' p 'in' k" := (bind p (fun x => k))
  (at level 10, x pattern, p at level 100, k at level 200) : spi_scope.

Definition call {X} (e : Ev X) : prog X := Vis e Ret.
Definition kube {X} (e : KubeE X) : prog X := call (Kube e).

(** ** Traces *)

Record act := Act { act_ty : Type; act_ev : Ev act_ty; act_res : act_ty }.
Arguments Act {act_ty} _ _.

Fixpoint exec {A} (p : prog A) (tr : list act) (a : A) {struct p} : Prop :=
  match p with
  | Ret a' => tr = [] /\ a = a'
  | Vis e k => exists x tr', tr = Act e x :: tr' /\ exec (k x) tr' a
  end.

(** Sequencing of fallible programs *)
Definition try {A B} (p : prog (res A)) (k : A -> prog (res B)) : prog (res B) :=
  bind p (fun r => match r with Ok a => k a | Err e => Ret (Err e) end).

(** A concrete environment: a state and an answer to every call *)
Definition handler (S : Type) : Type := forall X, Ev X -> S -> S * X.

Fixpoint run_trace {S A} (h : handler S) (p : prog A) (s : S) : list act * A * S :=
  match p with
  | Ret a => ([], a, s)
  | Vis e k =>
      let '(s', x) := h _ e s in
      let '(tr, a, s'') := run_trace h (k x) s' in
      (Act e x :: tr, a, s'')
  end.

(** Interpretation of one interface by its implementation: every
    [Ts] call of a program is replaced by the program that implements it. *)
Fixpoint with_storage {A} (impl : forall X, TokenStorageE X -> prog X) (p : prog A) : prog A :=
  match p with
  | Ret a => Ret a
  | Vis e k =>
      match e in Ev X return (X -> prog A) -> prog A with
      | Ts te => fun k' => bind (impl _ te) k'
      | e' => fun k' => Vis e' k'
      end (fun x => with_storage impl (k x))
  end.

(** ** Lemmas *)

Lemma exec_bind {A B} (p : prog A) (f : A -> prog B) tr b :
  exec (bind p f) tr b <->
  exists a tr1 tr2, tr = tr1 ++ tr2 /\ exec p tr1 a /\ exec (f a) tr2 b.
Proof.
  revert tr. induction p as [a|X e k IH]; intros tr; cbn.
  - split.
    + intros H. by exists a, [], tr.
    + intros (a' & tr1 & tr2 & -> & [-> ->] & H). done.
  - split.
    + intros (x & tr' & -> & H). apply IH in H as (a & tr1 & tr2 & -> & H1 & H2).
      exists a, (Act e x :: tr1), tr2. split; [done|]. eauto.
    + intros (a & tr1 & tr2 & -> & (x & tr' & -> & H1) & H2).
      exists x, (tr' ++ tr2). split; [done|]. apply IH. eauto 6.
Qed.

(** Every program finishes under every environment. *)
Lemma run_trace_exec {S A} (h : handler S) (p : prog A) (s : S) :
  exec p (run_trace h p s).1.1 (run_trace h p s).1.2.
Proof.
  revert s. induction p as [a|X e k IH]; intros s; cbn; [done|].
  destruct (h X e s) as [s' x]. specialize (IH x s').
  destruct (run_trace h (k x) s') as [[tr a] s'']. cbn in *. eauto.
Qed.

Lemma exec_bind_ret {A B} (p : prog A) (f : A -> B) tr b :
  exec (bind p (fun a => Ret (f a))) tr b <-> exists a, exec p tr a /\ b = f a.
Proof.
  rewrite exec_bind. split.
  - intros (a & tr1 & tr2 & -> & H & [-> ->]). exists a. by rewrite app_nil_r.
  - intros (a & H & ->). exists a, tr, []. by rewrite app_nil_r.
Qed.

Lemma exec_try_ok {A B} (p : prog (res A)) (k : A -> prog (res B)) tr b :
  exec (try p k) tr (Ok b) ->
  exists a tr1 tr2, tr = tr1 ++ tr2 /\ exec p tr1 (Ok a) /\ exec (k a) tr2 (Ok b).
Proof.
  intros (r & tr1 & tr2 & -> & H1 & H2)%exec_bind. destruct r as [a|e]; [eauto 6|by destruct H2].
Qed.

Lemma exec_Vis {A X} (e : Ev X) (k : X -> prog A) x tr a :
  exec (k x) tr a -> exec (Vis e k) (Act e x :: tr) a.
Proof. intros H. cbn. eauto. Qed.
Lemma exec_Ret {A} (a : A) : exec (Ret a) [] a.
Proof. done. Qed.

(** [run_trace] of a sequence *)
Lemma run_trace_bind {S A B} (h : handler S) (p : prog A) (f : A -> prog B) s :
  run_trace h (bind p f) s =
  let '(tr1, a, s1) := run_trace h p s in
  let '(tr2, b, s2) := run_trace h (f a) s1 in (tr1 ++ tr2, b, s2).
Proof.
  revert s. induction p as [a|X e k IH]; intros s; cbn.
  - by destruct (run_trace h (f a) s) as [[tr b] s'].
  - destruct (h X e s) as [s' x]. rewrite IH.
    destruct (run_trace h (k x) s') as [[tr1 a] s1].
    by destruct (run_trace h (f a) s1) as [[tr2 b] s2].
Qed.

(** ** Observations: what a trace did to the cluster, the storages and the
    dependent objects, with the answers *)

Inductive kube_write :=
| WCreate (k : kind) (o : obj k) (r : res (obj k))
| WUpdate (k : kind) (o : obj k) (r : res (obj k))
| WStatusUpdate (k : kind) (o : obj k) (r : res (obj k))
| WPatch (k : kind) (o base : obj k) (r : res (obj k))
| WStatusPatch (k : kind) (o base : obj k) (r : res (obj k))
| WDelete (k : kind) (o : obj k) (r : option goerr).

Definition kube_write_of {X} (e : KubeE X) : X -> option kube_write :=
  match e in KubeE X return X -> option kube_write with
  | KGet _ _ => fun _ => None
  | KList _ _ _ _ => fun _ => None
  | KListNotIn _ _ _ _ => fun _ => None
  | KCreate k o => fun r => Some (WCreate k o r)
  | KUpdate k o => fun r => Some (WUpdate k o r)
  | KStatusUpdate k o => fun r => Some (WStatusUpdate k o r)
  | KPatch k o b => fun r => Some (WPatch k o b r)
  | KStatusPatch k o b => fun r => Some (WStatusPatch k o b r)
  | KDelete k o => fun r => Some (WDelete k o r)
  end.

Definition obs_write (a : act) : option kube_write :=
  match act_ev a in Ev X return X -> option kube_write with
  | Kube e => kube_write_of e
  | _ => fun _ => None
  end (act_res a).

Inductive dep_call :=
| DcCheckPoint (b : SPIAccessTokenBinding) (r : res nat)
| DcSync (b : SPIAccessTokenBinding) (sp : ServiceProvider) (t : SPIAccessToken)
    (r : result (string * goerr) Dependents)
| DcRevertTo (b : SPIAccessTokenBinding) (checkpoint : nat) (r : option goerr)
| DcCleanup (b : SPIAccessTokenBinding) (r : option goerr).

Definition dep_call_of {X} (e : DepE X) : X -> dep_call :=
  match e in DepE X return X -> dep_call with
  | DepCheckPoint b => DcCheckPoint b
  | DepSync b sp t => DcSync b sp t
  | DepRevertTo b cp => DcRevertTo b cp
  | DepCleanup b => DcCleanup b
  end.

Definition obs_dep (a : act) : option dep_call :=
  match act_ev a in Ev X return X -> option dep_call with
  | Dep e => fun x => Some (dep_call_of e x)
  | _ => fun _ => None
  end (act_res a).

(** Writes to the token storage interface *)
Inductive ts_write :=
| TwStore (owner : SPIAccessToken) (t : Token) (r : option goerr)
| TwDelete (owner : SPIAccessToken) (r : option goerr).

Definition obs_ts (a : act) : option ts_write :=
  match act_ev a in Ev X return X -> option ts_write with
  | Ts e =>
      match e in TokenStorageE X return X -> option ts_write with
      | TsStore o t => fun r => Some (TwStore o t r)
      | TsDelete o => fun r => Some (TwDelete o r)
      | _ => fun _ => None
      end
  | _ => fun _ => None
  end (act_res a).

Definition writes (tr : list act) : list kube_write := omap obs_write tr.
Definition deps (tr : list act) : list dep_call := omap obs_dep tr.
Definition ts_writes (tr : list act) : list ts_write := omap obs_ts tr.

Lemma writes_app tr1 tr2 : writes (tr1 ++ tr2) = writes tr1 ++ writes tr2.
Proof. apply omap_app. Qed.
Lemma deps_app tr1 tr2 : deps (tr1 ++ tr2) = deps tr1 ++ deps tr2.
Proof. apply omap_app. Qed.
Lemma ts_writes_app tr1 tr2 : ts_writes (tr1 ++ tr2) = ts_writes tr1 ++ ts_writes tr2.
Proof. apply omap_app. Qed.
Lemma writes_cons a tr : writes (a :: tr) = match obs_write a with Some w => w :: writes tr | None => writes tr end.
Proof. done. Qed.
Lemma deps_cons a tr : deps (a :: tr) = match obs_dep a with Some w => w :: deps tr | None => deps tr end.
Proof. done. Qed.

(** Writes the OAuth service makes on behalf of a user *)
Inductive user_write :=
| UwUpdate (auth : string) (k : kind) (o : obj k) (r : res (obj k))
| UwStore (auth namespace : string) (owner : SPIAccessToken) (t : Token) (r : option goerr).

Definition obs_user (a : act) : option user_write :=
  match act_ev a in Ev X return X -> option user_write with
  | Oa e =>
      match e in OauthE X return X -> option user_write with
      | UserUpdate auth k o => fun r => Some (UwUpdate auth k o r)
      | UserStore auth ns o t => fun r => Some (UwStore auth ns o t r)
      | _ => fun _ => None
      end
  | _ => fun _ => None
  end (act_res a).
Definition user_writes (tr : list act) : list user_write := omap obs_user tr.
Lemma user_writes_app tr1 tr2 : user_writes (tr1 ++ tr2) = user_writes tr1 ++ user_writes tr2.
Proof. apply omap_app. Qed.
Lemma user_writes_cons a tr :
  user_writes (a :: tr) = match obs_user a with Some w => w :: user_writes tr | None => user_writes tr end.
Proof. done. Qed.

(** HTTP exchanges *)
Definition obs_http (a : act) : option (HttpRequest * res HttpResponse) :=
  match act_ev a in Ev X return X -> option (HttpRequest * res HttpResponse) with
  | Ht e => match e in HttpE X return X -> option (HttpRequest * res HttpResponse) with
            | HttpDo q => fun r => Some (q, r)
            end
  | _ => fun _ => None
  end (act_res a).
Definition exchanges (tr : list act) : list (HttpRequest * res HttpResponse) := omap obs_http tr.
Lemma exchanges_app tr1 tr2 : exchanges (tr1 ++ tr2) = exchanges tr1 ++ exchanges tr2.
Proof. apply omap_app. Qed.

(** ** Stores the calls of a trace read and write

    [step s a s'] says how the call of [a] with its answer uses a store; a
    trace is a run of the store when each of its steps is. *)

Section store.
Context {S : Type} (step : S -> act -> S -> Prop).

Fixpoint run_store (s : S) (tr : list act) (s' : S) : Prop :=
match tr with
| [] => s' = s
| a :: rest => exists s1, step s a s1 /\ run_store s1 rest s'
end.

Lemma run_store_app s tr1 tr2 s' :
run_store s (tr1 ++ tr2) s' <-> exists s1, run_store s tr1 s1 /\ run_store s1 tr2 s'.
Proof.
revert s. induction tr1 as [|a tr1 IH]; intros s; cbn.
- split; [by exists s|]. by intros (s1 & -> & H).
- setoid_rewrite IH. naive_solver.
Qed.

(** Calls that do not concern the store *)
Definition silent (a : act) : Prop := forall s s', step s a s' -> s' = s.

Lemma run_store_silent s tr s' : Forall silent tr -> run_store s tr s' -> s' = s.
Proof.
intros H. revert s. induction H as [|a tr Ha _ IH]; intros s; cbn; [done|].
intros (s1 & H1 & H2). rewrite (Ha _ _ H1) in H2. eauto.
Qed.
End store.

(** One rewriting database for observations of traces *)
Create Rewrite HintDb spi_trace.
#[export] Hint Rewrite writes_app deps_app ts_writes_app user_writes_app exchanges_app app_nil_r : spi_trace.

(** ** Stepping through an execution *)

#[global] Arguments exec : simpl never.

Ltac exec_step :=
  match goal with
  | H : exec (Ret _) _ _ |- _ =>
      destruct H as [-> H]; try discriminate H;
      try apply Ok_inj in H; try apply Err_inj in H; try apply Some_inj' in H; subst
  | H : exec _ _ _ |- _ => progress (unfold kube, call in H; cbn [bind] in H)
  | H : exec (Vis _ _) _ _ |- _ =>
      let x := fresh "x" in let tr := fresh "tr" in
      destruct H as (x & tr & -> & H)
  end.
Ltac exec_steps := repeat (exec_step; cbn beta iota in * ).

(** ** A program logic for traces

    [sat P Q p]: in every execution of [p] each call satisfies [P] and the
    result satisfies [Q].  The rules follow the shape of programs, so that a
    property of a handler is proved from the properties of its parts. *)

Definition sat (P : act -> Prop) {A} (Q : A -> Prop) (p : prog A) : Prop :=
  forall tr a, exec p tr a -> Forall P tr /\ Q a.

Lemma sat_Ret P {A} (Q : A -> Prop) (a : A) : Q a -> sat P Q (Ret a).
Proof. intros H tr a' [-> ->]. by split. Qed.

Lemma sat_Vis P {A X} (Q : A -> Prop) (e : Ev X) (k : X -> prog A) :
  (forall x, P (Act e x)) -> (forall x, sat P Q (k x)) -> sat P Q (Vis e k).
Proof.
  intros HP Hk tr a (x & tr' & -> & H). destruct (Hk x _ _ H). split; [by constructor|done].
Qed.

Lemma sat_bind P {A B} (R : A -> Prop) (Q : B -> Prop) (p : prog A) (f : A -> prog B) :
  sat P R p -> (forall a, R a -> sat P Q (f a)) -> sat P Q (bind p f).
Proof.
  intros Hp Hf tr b (a & tr1 & tr2 & -> & H1 & H2)%exec_bind.
  destruct (Hp _ _ H1) as [HP HR]. destruct (Hf a HR _ _ H2). split; [by apply Forall_app_2|done].
Qed.

(** No claim on the results *)
Definition every (P : act -> Prop) {A} (p : prog A) : Prop := sat P (fun _ => True) p.

Lemma every_bind P {A B} (p : prog A) (f : A -> prog B) :
  every P p -> (forall a, every P (f a)) -> every P (bind p f).
Proof. intros Hp Hf. apply (sat_bind P (fun _ => True)); [exact Hp|]. intros a _. apply Hf. Qed.
Lemma every_try P {A B} (p : prog (res A)) (k : A -> prog (res B)) :
  every P p -> (forall a, every P (k a)) -> every P (try p k).
Proof. intros Hp Hk. apply every_bind; [done|]. intros [a|e]; [apply Hk|by apply sat_Ret]. Qed.
Lemma every_exec P {A} (p : prog A) tr a : every P p -> exec p tr a -> Forall P tr.
Proof. intros H He. by apply (H _ _ He). Qed.

Lemma sat_weaken (P P' : act -> Prop) {A} (Q Q' : A -> Prop) (p : prog A) :
  (forall a, P a -> P' a) -> (forall a, Q a -> Q' a) -> sat P Q p -> sat P' Q' p.
Proof.
  intros HP HQ H tr a He. destruct (H _ _ He). split; [by eapply Forall_impl|auto].
Qed.

(** Calls that write nothing to the cluster, and predicates on the writes *)
Definition on_writes (W : kube_write -> Prop) (a : act) : Prop :=
  match obs_write a with Some w => W w | None => True end.

Lemma on_writes_Forall W tr : Forall (on_writes W) tr <-> Forall W (writes tr).
Proof.
  induction tr as [|a tr IH]; [by split; constructor|].
  rewrite writes_cons, List.Forall_cons_iff. unfold on_writes at 1.
  destruct (obs_write a); [rewrite List.Forall_cons_iff|]; tauto.
Qed.

(** Predicates on the HTTP requests *)
Definition on_http (P : HttpRequest -> Prop) (a : act) : Prop :=
  match obs_http a with Some (q, _) => P q | None => True end.

(** Step through a program; the calls and the results are left as goals. *)
Ltac sat_step :=
  lazymatch goal with
  | |- sat _ _ (Ret _) => apply sat_Ret
  | |- sat _ _ (Vis _ _) => apply sat_Vis; [intros ?|intros ?]
  | |- sat _ _ (bind (call _) _) => unfold call at 1; cbn [bind]
  | |- sat _ _ (bind (kube _) _) => unfold kube at 1, call at 1; cbn [bind]
  | |- sat _ _ (call _) => unfold call at 1
  | |- sat _ _ (kube _) => unfold kube at 1, call at 1
  | |- sat _ _ (bind (Ret _) _) => cbn [bind]
  | |- sat _ _ (match ?x with _ => _ end) => destruct x eqn:?
  | |- sat _ _ (bind (match ?x with _ => _ end) _) => destruct x eqn:?
  end.

(** Sequence with no claim on the intermediate result *)
Ltac sat_seq := eapply (sat_bind _ (fun _ => True)); [|intros ? _].
