(* ===== verification/Samples.v ===== *)
(** * Concrete environments and data

    An instance of [Externals], sample objects, and [scripted], an environment
    that gives fixed answers: they run the programs of the other files on
    concrete inputs and show that the hypotheses of the theorems can hold. *)

From S2P Require Import Prelude GoStd Api Externals SpErrors Effects.
Local Open Scope string_scope.
Local Open Scope list_scope.

(** ** Third-party functions *)

#[export] Instance sample_externals : Externals := {|
  github_Endpoint := mkEndpoint "https://github.com/login/oauth/authorize" "https://github.com/login/oauth/access_token";
  NewAggregatedError := fun es => ErrorString (Join (map Error es) ", ");
  NewAggregate := fun es => ErrorString ("[" +:+ Join (map Error es) ", " +:+ "]");
  IsDNS1123Subdomain := fun h => if String.eqb h "" then ["empty"] else [];
  ValidateSPConfig := fun _ => None;
  ValidateShared := fun _ => None;
  cs_t := list string;
  cs_Value := fun s => if String.eqb s "" then [] else Split s ",";
  cs_Contains := fun vs v => existsb (String.eqb v) vs;
  cs_Add := fun v vs => if existsb (String.eqb v) vs then vs else vs ++ [v];
  cs_Remove := fun v vs => List.filter (fun w => negb (String.eqb v w)) vs;
  cs_Len := @length string;
  cs_Values := fun vs => vs;
  cs_String := fun vs => Join vs ",";
  iteration_order := fun l => l |}.

(** ** Objects *)

Definition sample_meta (name : string) : ObjectMeta := mkMeta name "" "ns" ∅ ∅ [] 0 None.
Definition no_permissions : Permissions := mkPermissions [] [].
Definition sample_metadata : TokenMetadata := mkTokenMetadata "alois" "42" [] "" 0.

Definition sample_token (name phase : string) (md : option TokenMetadata) : SPIAccessToken :=
  mkSPIAccessToken "SPIAccessToken" (sample_meta name) (mkTokenSpec no_permissions "https://quay.io")
    (mkTokenStatus phase "" "" "" "" md).

Definition sample_secret_spec : SecretSpec :=
  mkSecretSpec "" "" SecretTypeBasicAuth ∅ ∅ [] (mkFieldMapping "" "" "" "" "" "" "" "").

Definition sample_binding (name repoUrl linked : string) : SPIAccessTokenBinding :=
  mkBinding (sample_meta name) (mkBindingSpec repoUrl no_permissions sample_secret_spec "")
    (mkBindingStatus "" "" "" linked "" "" empty_ref []).

Definition sample_secret (name : string) (labels data : gmap string string) : Secret :=
  mkSecret "Secret" "v1" (mkMeta name "" "ns" labels ∅ [] 0 None) "Opaque" data.

Definition sample_sp_type : ServiceProviderType :=
  mkSPType "Quay" (mkEndpoint "" "") "quay.io" "https://quay.io".
Definition sample_sp : ServiceProvider := mkSP "https://quay.io" sample_sp_type None false false.

Definition sample_config : OperatorConfiguration :=
  mkOpConfig (mkSharedConfig [] "https://spi") 3600000000000 1800000000000 432000000000000
    7200000000000 1800000000000 AnyTokenPolicy 2000000000 2097152 true.

(** ** Fixed answers *)

Record script := mkScript {
  s_token : res SPIAccessToken; s_binding : res SPIAccessTokenBinding;
  s_check : res SPIAccessCheck; s_file : res SPIFileContentRequest;
  s_update : res SPIAccessTokenDataUpdate; s_secret : res Secret;
  s_event : res Event; s_rs : res RemoteSecret;
  s_tokens : list SPIAccessToken; s_bindings : list SPIAccessTokenBinding;
  s_secrets : list Secret; s_remote_secrets : list RemoteSecret;
  s_write_error : option goerr; s_status_error : option goerr; s_delete_error : option goerr;
  s_sp : res ServiceProvider; s_lookup : res (list SPIAccessToken);
  s_validation : res (list goerr); s_persist : option goerr;
  s_data : res (option Token); s_metadata : res (option TokenMetadata);
  s_credentials : res (option Credentials); s_content : res string;
  s_sync : result (string * goerr) Dependents; s_fin_error : option goerr; s_now : Z }.

Definition not_found : goerr := StatusError ReasonNotFound "not found".

(** Nothing exists, every write succeeds *)
Definition empty_script : script :=
  mkScript (Err not_found) (Err not_found) (Err not_found) (Err not_found) (Err not_found)
    (Err not_found) (Err not_found) (Err not_found) [] [] [] [] None None None
    (Ok sample_sp) (Ok []) (Ok []) None (Ok None) (Ok None) (Ok None) (Ok "")
    (Ok (mkDependents (sample_secret "dep" ∅ ∅) [])) None 0.

Definition echo {A} (e : option goerr) (o : A) : res A :=
  match e with Some err => Err err | None => Ok o end.

Section answers.
Context (s : script).

Definition get_answer (k : kind) : res (obj k) :=
match k with
| KToken => s_token s | KBinding => s_binding s | KCheck => s_check s | KFile => s_file s
| KDataUpdate => s_update s | KSecret => s_secret s | KEvent => s_event s | KRemoteSecret => s_rs s
| KEnvironment => Err not_found | KApplication => Err not_found
end.
Definition list_answer (k : kind) : res (list (obj k)) :=
match k with
| KToken => Ok (s_tokens s) | KBinding => Ok (s_bindings s)
| KSecret => Ok (s_secrets s) | KRemoteSecret => Ok (s_remote_secrets s)
| KCheck | KFile | KDataUpdate | KEvent | KEnvironment | KApplication => Ok []
end.

Definition kube_answer {X} (e : KubeE X) : X :=
match e in KubeE X return X with
| KGet k _ => get_answer k
| KList k _ _ _ => list_answer k
| KListNotIn k _ _ _ => list_answer k
| KCreate _ o | KUpdate _ o => echo (s_write_error s) o
| KStatusUpdate _ o => echo (s_status_error s) o
| KPatch _ o _ => echo (s_write_error s) o
| KStatusPatch _ o _ => echo (s_status_error s) o
| KDelete _ _ => s_delete_error s
end.

Definition sp_answer {X} (e : SpE X) : X :=
match e in SpE X return X with
| FromRepoUrl _ _ => s_sp s
| LookupTokens _ _ => s_lookup s
| LookupCredentials _ _ => s_credentials s
| PersistMetadata _ t => (t, s_persist s)
| CheckRepositoryAccess _ c => Ok (ac_Status c)
| MapToken _ _ t td =>
    Ok (mkMapper (at_Name t) (td_AccessToken td) (atsp_ServiceProviderUrl (at_Spec t)) "" "" "" None [])
| SpValidate _ _ => s_validation s
| DownloadFile _ _ _ _ => s_content s
| RefreshToken _ _ _ => Err (ErrorString "refresh refused")
| FetchMetadata _ _ => s_metadata s
| FilterMatches _ _ => Ok true
end.

Definition ts_answer {X} (e : TokenStorageE X) : X :=
match e in TokenStorageE X return X with
| TsInitialize => None
| TsStore _ _ => None
| TsGet _ => s_data s
| TsDelete _ => None
end.

Definition ss_answer {X} (e : SecretStorageE X) : X :=
match e in SecretStorageE X return X with
| TypedStore _ _ => None
| TypedGet _ => Err not_found
| TypedDelete _ => None
| RawStore _ _ => None
| RawGet _ => Err not_found
| RawDelete _ => None
| CreateClient => None
end.

Definition dep_answer {X} (e : DepE X) : X :=
match e in DepE X return X with
| DepCheckPoint _ => Ok 7
| DepSync _ _ _ => s_sync s
| DepRevertTo _ _ => None
| DepCleanup _ => None
end.

(** The OAuth service has environments of its own (see OAuthService.v). *)
Definition oauth_answer {X} (e : OauthE X) : X :=
match e in OauthE X return X with
| SetSyncStrategy _ _ => tt
| GetSyncStrategy _ => SpiSync
| SetScopes _ _ => tt
| GetScopes _ => []
| SessGet _ => None
| SessPut _ _ => tt
| SessDestroy => None
| RandInt _ => Some 0%Z
| CreateUserClient _ _ => None
| AccessReview _ _ _ _ _ _ => Ok true
| UserGet _ k _ => get_answer k
| UserUpdate _ k o => echo (s_write_error s) o
| UserStore _ _ _ _ => None
| ExchangeCode _ _ _ _ => Ok (mkOAuth2Token "access" "bearer" "refresh" 0)
| RenderRedirect _ => None
end.

(** No network: a provider's package has environments of its own. *)
Definition offline : goerr := ErrorString "no network".
Definition http_answer {X} (e : HttpE X) : X :=
match e in HttpE X return X with HttpDo _ => Err offline end.
Definition gh_answer {X} (e : GhE X) : X :=
match e in GhE X return X with
| GhUsersGet _ => Err offline
| GhRepositoriesGet _ _ _ => Err (offline, None)
| GhRepositoriesList _ _ _ => Err offline
| GhGetContents _ _ _ _ _ => Err (offline, None)
end.
Definition gl_answer {X} (e : GlE X) : X :=
match e in GlE X return X with
| GlNewClient _ => None
| GlCurrentUser _ => Err offline
| RetryableRequest _ _ => None
| GlNewRequest _ _ _ => None
| GlDo _ _ _ _ => Err (offline, None)
| GlGetProject _ _ => Err (offline, None)
| GlGetFile _ _ _ _ => Err (offline, None)
end.
Definition service_config : RestConfig := mkRestConfig "https://10.0.0.1:443" "/ca.crt" false None "sa-token".
Definition client_answer {X} (e : ClientE X) : X :=
match e in ClientE X return X with
| AddToScheme _ => None
| BuildConfigFromFlags _ _ => (Some service_config, None)
| InClusterConfig => (Some service_config, None)
| CertPool _ => None
| ClientNew _ _ => None
| AuthenticatedDo _ _ => Err offline
end.
Definition start_answer {X} (e : StartE X) : X :=
match e in StartE X return X with
| OsOpen _ => None
| OsReadAll _ => Ok ""
| SetupCustomValidations _ => None
| CreateInitializedSecretStorage => None
| InitializeStorage _ => None
| ParseFiles _ => None
| RegisterCommonMetrics => None
| SetupWithManager _ _ => None
| GetConfigOrDie => Some service_config
| NewManager _ _ => None
| AddHealthzCheck _ => None
| AddReadyzCheck _ => None
| ManagerStart => None
| OsStat _ => None
| ListenAndServe _ _ _ => None
| AwaitInterrupt => tt
| Shutdown _ => None
end.

Definition scripted : handler unit := fun X e u =>
(u, match e in Ev X return X with
    | Kube ke => kube_answer ke
    | Sp se => sp_answer se
    | Ts te => ts_answer te
    | Ss se => ss_answer se
    | Dep de => dep_answer de
    | Oa oe => oauth_answer oe
    | Ht he => http_answer he
    | Gh ge => gh_answer ge
    | Gl ge => gl_answer ge
    | Cl ce => client_answer ce
    | St se => start_answer se
    | Finalize k o => mkFinalizeResult o false false (s_fin_error s)
    | Now => s_now s
    end).
End answers.

(** The trace and the result of a run against fixed answers *)
Definition trace_of {A} (s : script) (p : prog A) : list act := (run_trace (scripted s) p tt).1.1.
Definition result_of {A} (s : script) (p : prog A) : A := (run_trace (scripted s) p tt).1.2.

Lemma scripted_exec {A} (s : script) (p : prog A) : exec p (trace_of s p) (result_of s p).
Proof. apply run_trace_exec. Qed.

(** The fixed answers with a network: [web] answers the HTTP requests. *)
Definition online (web : HttpRequest -> res HttpResponse) (s : script) : handler unit := fun X e u =>
  match e in Ev X return unit * X with
  | Ht he => (u, match he in HttpE X return X with HttpDo q => web q end)
  | other => scripted s _ other u
  end.
Definition online_trace {A} web s (p : prog A) : list act := (run_trace (online web s) p tt).1.1.
Definition online_result {A} web s (p : prog A) : A := (run_trace (online web s) p tt).1.2.
Lemma online_exec {A} web s (p : prog A) : exec p (online_trace web s p) (online_result web s p).
Proof. apply run_trace_exec. Qed.

(** The fixed answers with the APIs of GitHub and GitLab as well *)
Record network := mkNetwork {
  net_web : HttpRequest -> res HttpResponse;
  net_github : forall X, GhE X -> X;
  net_gitlab : forall X, GlE X -> X }.
Definition networked (n : network) (s : script) : handler unit := fun X e u =>
  match e in Ev X return unit * X with
  | Ht he => (u, match he in HttpE X return X with HttpDo q => net_web n q end)
  | Gh ge => (u, net_github n _ ge)
  | Gl ge => (u, net_gitlab n _ ge)
  | other => scripted s _ other u
  end.
Definition net_trace {A} n s (p : prog A) : list act := (run_trace (networked n s) p tt).1.1.
Definition net_result {A} n s (p : prog A) : A := (run_trace (networked n s) p tt).1.2.
Lemma net_exec {A} n s (p : prog A) : exec p (net_trace n s p) (net_result n s p).
Proof. apply run_trace_exec. Qed.
