(* ===== verification/TokenStorage.v ===== *)
(** * pkg/spi-shared/tokenstorage and pkg/spi-shared/secretstorage

    The token storage interface and its implementations: the default one over
    remote-secret's typed secret storage, the notifying decorators that create
    an SPIAccessTokenDataUpdate after every write, and the in-memory storage,
    which serves as the specification the default storage is shown to refine. *)

From S2P Require Import Prelude GoStd Api Externals SpErrors Effects Samples.
Local Open Scope string_scope.
Local Open Scope list_scope.
Local Open Scope spi_scope.

(** secretstorage.NotFoundError *)
Definition NotFoundError : string := "secret storage: not found".

(** ** DefaultTokenStorage (tokenstorage.go) *)

Module DefaultTokenStorage.

Definition Delete (owner : SPIAccessToken) : prog (option goerr) :=
let! r := call (Ss (TypedDelete owner)) in
match r with
| Some err =>
    if errors_Is err NotFoundError
    then Ret (Some (Errorf_w "failed to delete the token data" err))
    else Ret None
| None => Ret None
end.

Definition Get (owner : SPIAccessToken) : prog (res (option Token)) :=
let! r := call (Ss (TypedGet owner)) in
match r with
| Err err =>
    if errors_Is err NotFoundError then Ret (Ok None)
    else Ret (Err (Errorf_w "failed to get the token data" err))
| Ok t => Ret (Ok (Some t))
end.

Definition Initialize : prog (option goerr) := Ret None.

Definition Store (owner : SPIAccessToken) (token : Token) : prog (option goerr) :=
let! r := call (Ss (TypedStore owner token)) in
match r with
| Some err => Ret (Some (Errorf_w "failed to store the token data" err))
| None => Ret None
end.

(** The interface as one interpretation of its calls *)
Definition impl (X : Type) (e : TokenStorageE X) : prog X :=
match e with
| TsInitialize => Initialize
| TsStore owner t => Store owner t
| TsGet owner => Get owner
| TsDelete owner => Delete owner
end.
End DefaultTokenStorage.

(** ** NotifyingTokenStorage (notifyingtokenstorage.go) *)

Module NotifyingTokenStorage.

(** The update object for [owner], as passed to [Create] *)
Definition data_update (owner : SPIAccessToken) : SPIAccessTokenDataUpdate :=
mkDataUpdate
  (mkMeta "" "token-update-" (at_Namespace owner) ∅ ∅ [] 0 None)
  (mkDataUpdateSpec "" (mkLocalRef (Some GroupVersion_Group) "SPIAccessToken" (at_Name owner))).

Definition createDataUpdate (owner : SPIAccessToken) : prog (option goerr) :=
let! c := call (Ss CreateClient) in
match c with
| Some err => Ret (Some (Errorf_w "error creating client" err))
| None =>
    let! r := kube (KCreate KDataUpdate (data_update owner)) in
    match r with
    | Err err => Ret (Some (Errorf_w "error creating data update" err))
    | Ok _ => Ret None
    end
end.

Definition Initialize : prog (option goerr) :=
let! r := call (Ts TsInitialize) in
match r with
| Some err => Ret (Some (Errorf_w "wrapped storage error" err))
| None => Ret None
end.

Definition Store (owner : SPIAccessToken) (token : Token) : prog (option goerr) :=
let! r := call (Ts (TsStore owner token)) in
match r with
| Some err => Ret (Some (Errorf_w "wrapped storage error" err))
| None => createDataUpdate owner
end.

Definition Get (owner : SPIAccessToken) : prog (res (option Token)) :=
let! r := call (Ts (TsGet owner)) in
match r with
| Err err => Ret (Err (Errorf_w "wrapped storage error" err))
| Ok t => Ret (Ok t)
end.

Definition Delete (owner : SPIAccessToken) : prog (option goerr) :=
let! r := call (Ts (TsDelete owner)) in
match r with
| Some err => Ret (Some (Errorf_w "wrapped storage error" err))
| None => createDataUpdate owner
end.
End NotifyingTokenStorage.

(** ** NotifyingSecretStorage (notifyingsecretstorage.go) *)

Module NotifyingSecretStorage.
Section with_owner_type.
Context (Group Kind : string).

Definition data_update (id : ObjectKey) : SPIAccessTokenDataUpdate :=
mkDataUpdate
(mkMeta "" "data-update-" (key_Namespace id) ∅ ∅ [] 0 None)
(mkDataUpdateSpec "" (mkLocalRef (Some Group) Kind (key_Name id))).

Definition createDataUpdate (id : ObjectKey) : prog (option goerr) :=
let! c := call (Ss CreateClient) in
match c with
| Some err => Ret (Some (Errorf_w "failed to create the k8s client to use" err))
| None =>
  let! r := kube (KCreate KDataUpdate (data_update id)) in
  match r with
  | Err err => Ret (Some (Errorf_w "error creating data update" err))
  | Ok _ => Ret None
  end
end.

Definition Delete (id : ObjectKey) : prog (option goerr) :=
let! r := call (Ss (RawDelete id)) in
match r with
| Some err => Ret (Some (Errorf_w "wrapped storage error" err))
| None => createDataUpdate id
end.

Definition Get (id : ObjectKey) : prog (res string) :=
let! r := call (Ss (RawGet id)) in
match r with
| Err err => Ret (Err (Errorf_w "wrapped storage error" err))
| Ok data => Ret (Ok data)
end.

Definition Initialize : prog (option goerr) := Ret None.
Definition Examine : prog (option goerr) := Ret None.

Definition Store (id : ObjectKey) (data : string) : prog (option goerr) :=
let! r := call (Ss (RawStore id data)) in
match r with
| Some err => Ret (Some (Errorf_w "wrapped storage error" err))
| None => createDataUpdate id
end.
End with_owner_type.
End NotifyingSecretStorage.

(** ** MemoryTokenStorage (memorystorage/memory.go)

    The mutex makes every operation atomic: an operation is a function on the
    state.  [Tokens = None] is the nil map. *)

Module MemoryTokenStorage.

Record State := mkState {
Tokens : option (gmap ObjectKey Token);
ErrorOnInitialize : option goerr; ErrorOnStore : option goerr;
ErrorOnGet : option goerr; ErrorOnDelete : option goerr }.

Definition set_Tokens (m : gmap ObjectKey Token) (s : State) : State :=
mkState (Some m) (ErrorOnInitialize s) (ErrorOnStore s) (ErrorOnGet s) (ErrorOnDelete s).

Definition ensureTokens (s : State) : State :=
match Tokens s with None => set_Tokens ∅ s | Some _ => s end.

(** The map after [ensureTokens] *)
Definition contents (s : State) : gmap ObjectKey Token := default ∅ (Tokens s).

Definition Initialize (s : State) : State * option goerr :=
match ErrorOnInitialize s with
| Some e => (s, Some e)
| None => (set_Tokens ∅ s, None)
end.

Definition Store (owner : SPIAccessToken) (token : Token) (s : State) : State * option goerr :=
match ErrorOnStore s with
| Some e => (s, Some e)
| None => let s := ensureTokens s in (set_Tokens (<[at_Key owner := token]> (contents s)) s, None)
end.

Definition Get (owner : SPIAccessToken) (s : State) : State * res (option Token) :=
match ErrorOnGet s with
| Some e => (s, Err e)
| None => let s := ensureTokens s in (s, Ok (contents s !! at_Key owner))
end.

Definition Delete (owner : SPIAccessToken) (s : State) : State * option goerr :=
match ErrorOnDelete s with
| Some e => (s, Some e)
| None => let s := ensureTokens s in (set_Tokens (delete (at_Key owner) (contents s)) s, None)
end.

Definition step (X : Type) (e : TokenStorageE X) (s : State) : State * X :=
match e with
| TsInitialize => Initialize s
| TsStore owner t => Store owner t s
| TsGet owner => Get owner s
| TsDelete owner => Delete owner s
end.

Definition no_errors (s : State) : Prop :=
ErrorOnInitialize s = None /\ ErrorOnStore s = None /\ ErrorOnGet s = None /\ ErrorOnDelete s = None.

Lemma contents_ensure s : contents (ensureTokens s) = contents s.
Proof. unfold ensureTokens, contents. by destruct (Tokens s) eqn:E; rewrite ?E. Qed.

Lemma no_errors_ensure s : no_errors s -> no_errors (ensureTokens s).
Proof. unfold ensureTokens. by destruct (Tokens s). Qed.

(** The operations of a storage that injects no errors *)
Lemma Store_ok o t s : no_errors s ->
Store o t s = (set_Tokens (<[at_Key o := t]> (contents s)) (ensureTokens s), None).
Proof. intros (_ & H & _). unfold Store. by rewrite H, contents_ensure. Qed.
Lemma Get_ok o s : no_errors s ->
Get o s = (ensureTokens s, Ok (contents s !! at_Key o)).
Proof. intros (_ & _ & H & _). unfold Get. by rewrite H, contents_ensure. Qed.
Lemma Delete_ok o s : no_errors s ->
Delete o s = (set_Tokens (delete (at_Key o) (contents s)) (ensureTokens s), None).
Proof. intros (_ & _ & _ & H). unfold Delete. by rewrite H, contents_ensure. Qed.
End MemoryTokenStorage.

(** ** The default storage refines the in-memory one

    [LawfulSecretStorage h view absent] is the documented contract of remote-secret's
    typed secret storage, which is not part of this repository: over states
    seen through [view] as a map, storing inserts, reading answers the stored
    value or an error that is [NotFoundError], and deleting removes the value; a
    deletion of what is not there changes nothing and answers [absent], which
    either is no error or is [NotFoundError]. *)

Class LawfulSecretStorage {S} (h : handler S) (view : S -> gmap ObjectKey Token)
  (absent : SPIAccessToken -> option goerr) : Prop := {
  lawful_store : forall o t s,
    (h _ (Ss (TypedStore o t)) s).2 = None /\
    view (h _ (Ss (TypedStore o t)) s).1 = <[at_Key o := t]> (view s);
  lawful_get : forall o s,
    view (h _ (Ss (TypedGet o)) s).1 = view s /\
    match view s !! at_Key o with
    | Some t => (h _ (Ss (TypedGet o)) s).2 = Ok t
    | None => exists e, (h _ (Ss (TypedGet o)) s).2 = Err e /\ errors_Is e NotFoundError = true
    end;
  lawful_delete : forall o s,
    (h _ (Ss (TypedDelete o)) s).2 = (if view s !! at_Key o then None else absent o) /\
    view (h _ (Ss (TypedDelete o)) s).1 = delete (at_Key o) (view s);
  lawful_absent : forall o e, absent o = Some e -> errors_Is e NotFoundError = true }.

(** The operations on token data and their observable answers *)
Inductive storage_op :=
| OpStore (owner : SPIAccessToken) (t : Token)
| OpGet (owner : SPIAccessToken)
| OpDelete (owner : SPIAccessToken).

Inductive storage_answer :=
| AnswerDone (e : option goerr)
| AnswerData (r : res (option Token)).

Definition default_op {S} (h : handler S) (op : storage_op) (s : S) : S * storage_answer :=
  match op with
  | OpStore o t => let r := run_trace h (DefaultTokenStorage.Store o t) s in (r.2, AnswerDone r.1.2)
  | OpGet o => let r := run_trace h (DefaultTokenStorage.Get o) s in (r.2, AnswerData r.1.2)
  | OpDelete o => let r := run_trace h (DefaultTokenStorage.Delete o) s in (r.2, AnswerDone r.1.2)
  end.

Definition memory_op (op : storage_op) (s : MemoryTokenStorage.State)
  : MemoryTokenStorage.State * storage_answer :=
  match op with
  | OpStore o t => let '(s', e) := MemoryTokenStorage.Store o t s in (s', AnswerDone e)
  | OpGet o => let '(s', r) := MemoryTokenStorage.Get o s in (s', AnswerData r)
  | OpDelete o => let '(s', e) := MemoryTokenStorage.Delete o s in (s', AnswerDone e)
  end.

Fixpoint run_ops {S} (step : storage_op -> S -> S * storage_answer) (ops : list storage_op) (s : S)
  : S * list storage_answer :=
  match ops with
  | [] => (s, [])
  | op :: rest =>
      let '(s1, a) := step op s in
      let '(s2, l) := run_ops step rest s1 in (s2, a :: l)
  end.

(** The in-memory storage, except that a deletion of what is not there answers
    what the secret storage says of it, as a failure *)
Definition reporting_op (absent : SPIAccessToken -> option goerr) (op : storage_op) (s : MemoryTokenStorage.State)
  : MemoryTokenStorage.State * storage_answer :=
  let r := memory_op op s in
  match op with
  | OpDelete o =>
      if MemoryTokenStorage.contents s !! at_Key o then r
      else (r.1, AnswerDone (option_map (Errorf_w "failed to delete the token data") (absent o)))
  | _ => r
  end.

(** The simulation relation *)
Definition storage_rel {S} (view : S -> gmap ObjectKey Token) (s : S) (m : MemoryTokenStorage.State) : Prop :=
  MemoryTokenStorage.no_errors m /\ MemoryTokenStorage.contents m = view s.

Section refinement.
Context {S : Type} (h : handler S) (view : S -> gmap ObjectKey Token) (absent : SPIAccessToken -> option goerr)
      {L : LawfulSecretStorage h view absent}.

Lemma simulate_op op s m :
storage_rel view s m ->
(default_op h op s).2 = (reporting_op absent op m).2 /\
storage_rel view (default_op h op s).1 (reporting_op absent op m).1.
Proof using L.
intros [Hn Hc]. pose proof (MemoryTokenStorage.no_errors_ensure m Hn) as Hn'.
unfold storage_rel. destruct op as [o t|o|o]; cbn.
- rewrite MemoryTokenStorage.Store_ok, Hc by done.
  destruct (lawful_store o t s) as [H1 H2].
  destruct (h _ (Ss (TypedStore o t)) s) as [s' r]. cbn in *. by subst r.
- rewrite MemoryTokenStorage.Get_ok by done. cbn.
  rewrite MemoryTokenStorage.contents_ensure, Hc.
  destruct (lawful_get o s) as [H1 H2].
  destruct (h _ (Ss (TypedGet o)) s) as [s' r]. cbn in *.
  destruct (view s !! at_Key o) as [t|]; [by subst r|].
  destruct H2 as (e & -> & He). by rewrite He.
- rewrite MemoryTokenStorage.Delete_ok, Hc by done.
  destruct (lawful_delete o s) as [H1 H2]. pose proof (lawful_absent o) as Ha.
  destruct (h _ (Ss (TypedDelete o)) s) as [s' r]. cbn in *. subst r.
  destruct (view s !! at_Key o) as [t|]; [done|]. destruct (absent o) as [e|]; [|done]. by rewrite (Ha e eq_refl).
Qed.

Lemma simulate_ops ops : forall s m, storage_rel view s m ->
(run_ops (default_op h) ops s).2 = (run_ops (reporting_op absent) ops m).2 /\
storage_rel view (run_ops (default_op h) ops s).1 (run_ops (reporting_op absent) ops m).1.
Proof using L.
induction ops as [|op ops IH]; intros s m R; cbn; [done|].
destruct (simulate_op op s m R) as [Ha R'].
destruct (default_op h op s) as [s1 a1], (reporting_op absent op m) as [m1 a2]. cbn in *. subst a2.
destruct (IH s1 m1 R') as [Hl R''].
destruct (run_ops (default_op h) ops s1), (run_ops (reporting_op absent) ops m1). cbn in *. by subst.
Qed.
End refinement.

(** When deletions of what is not there succeed, nothing is reported. *)
Lemma reporting_silent absent ops : (forall o, absent o = None) ->
  forall m, MemoryTokenStorage.no_errors m -> run_ops (reporting_op absent) ops m = run_ops memory_op ops m.
Proof.
  intros Ha. induction ops as [|op ops IH]; intros m Hn; cbn [run_ops]; [done|].
  assert (reporting_op absent op m = memory_op op m) as ->.
  { destruct op as [o t|o|o]; [done..|]. unfold reporting_op, memory_op. rewrite MemoryTokenStorage.Delete_ok by done.
    destruct (MemoryTokenStorage.contents m !! at_Key o); [done|]. by rewrite Ha. }
  assert (MemoryTokenStorage.no_errors (memory_op op m).1) as Hn'.
  { pose proof (MemoryTokenStorage.no_errors_ensure m Hn). unfold memory_op. destruct op as [o t|o|o].
    - by rewrite MemoryTokenStorage.Store_ok.
    - by rewrite MemoryTokenStorage.Get_ok.
    - by rewrite MemoryTokenStorage.Delete_ok. }
  destruct (memory_op op m) as [m1 a]. by rewrite IH.
Qed.

(** C20 The default token storage refines the in-memory one but for the deletion
    of what is not there: over any secret storage that keeps its contract, every
    sequence of stores, reads and deletions leaves the same contents behind as
    [MemoryTokenStorage] started from the same contents, and gives exactly its
    answers, except that a deletion fails when its data are absent and the secret
    storage answers that with [NotFoundError], which the in-memory storage and
    the comment of the type take for success.  Over a secret storage that does
    not report absent data the answers are the same throughout. *)
Theorem default_storage_refines_memory :
  forall (S : Type) (h : handler S) (view : S -> gmap ObjectKey Token) (absent : SPIAccessToken -> option goerr),
  LawfulSecretStorage h view absent ->
  forall ops s m, storage_rel view s m ->
  (run_ops (default_op h) ops s).2 = (run_ops (reporting_op absent) ops m).2 /\
  storage_rel view (run_ops (default_op h) ops s).1 (run_ops (reporting_op absent) ops m).1 /\
  ((forall o, absent o = None) -> run_ops (reporting_op absent) ops m = run_ops memory_op ops m).
Proof.
  intros S h view absent L ops s m R. destruct (simulate_ops h view absent ops s m R) as [Ha R'].
  split; [done|]. split; [done|]. intros Hs. by apply reporting_silent; [|destruct R].
Qed.

(** Two secret storages that keep the contract: a map in memory, whose deletions
    always succeed, and one that reports absent data *)
Definition map_secret_storage : handler (gmap ObjectKey Token) := fun X e =>
  match e in Ev X return gmap ObjectKey Token -> gmap ObjectKey Token * X with
  | Ss se =>
      match se in SecretStorageE X return gmap ObjectKey Token -> gmap ObjectKey Token * X with
      | TypedStore o t => fun s => (<[at_Key o := t]> s, None)
      | TypedGet o => fun s =>
          (s, match s !! at_Key o with Some t => Ok t | None => Err (ErrorString NotFoundError) end)
      | TypedDelete o => fun s => (delete (at_Key o) s, None)
      | RawStore _ _ => fun s => (s, None)
      | RawGet _ => fun s => (s, Err (ErrorString NotFoundError))
      | RawDelete _ => fun s => (s, None)
      | CreateClient => fun s => (s, None)
      end
  | other => fun s => (s, (scripted empty_script _ other tt).2)
  end.

Definition strict_secret_storage : handler (gmap ObjectKey Token) := fun X e =>
  match e in Ev X return gmap ObjectKey Token -> gmap ObjectKey Token * X with
  | Ss se =>
      match se in SecretStorageE X return gmap ObjectKey Token -> gmap ObjectKey Token * X with
      | TypedDelete o => fun s => (delete (at_Key o) s, if s !! at_Key o then None else Some (ErrorString NotFoundError))
      | other => map_secret_storage _ (Ss other)
      end
  | other => map_secret_storage _ other
  end.

#[export] Instance map_secret_storage_lawful : LawfulSecretStorage map_secret_storage id (fun _ => None).
Proof.
  split; intros; cbn; [done| | |done].
  - split; [done|]. destruct (s !! at_Key o) eqn:E; [done|]. eexists. split; [done|]. cbn. apply String.eqb_refl.
  - by destruct (s !! at_Key o).
Qed.
#[export] Instance strict_secret_storage_lawful :
  LawfulSecretStorage strict_secret_storage id (fun _ => Some (ErrorString NotFoundError)).
Proof.
  split; intros; cbn; [done| |done|by injection H as <-].
  split; [done|]. destruct (s !! at_Key o) eqn:E; [done|]. eexists. split; [done|]. cbn. apply String.eqb_refl.
Qed.

Definition sample_token_object : SPIAccessToken :=
  mkSPIAccessToken "SPIAccessToken" (mkMeta "tok" "" "ns" ∅ ∅ [] 0 None)
    (mkTokenSpec (mkPermissions [] []) "https://quay.io") (mkTokenStatus "" "" "" "" "" None).
Definition sample_token_data : Token := mkToken "u" "secret" "" "" 0.

Definition sample_ops : list storage_op :=
  [OpGet sample_token_object; OpStore sample_token_object sample_token_data; OpGet sample_token_object;
   OpDelete sample_token_object; OpGet sample_token_object; OpDelete sample_token_object].
Definition empty_memory : MemoryTokenStorage.State := MemoryTokenStorage.mkState None None None None None.
Lemma empty_memory_rel : storage_rel id ∅ empty_memory.
Proof. done. Qed.

Lemma default_storage_refines_memory_witness :
  (run_ops (default_op map_secret_storage) sample_ops ∅).2 = (run_ops memory_op sample_ops empty_memory).2 /\
  List.last (run_ops (default_op strict_secret_storage) sample_ops ∅).2 (AnswerDone None) =
    AnswerDone (Some (Errorf_w "failed to delete the token data" (ErrorString NotFoundError))) /\
  List.last (run_ops memory_op sample_ops empty_memory).2 (AnswerData (Ok None)) = AnswerDone None.
Proof.
  destruct (default_storage_refines_memory _ map_secret_storage id _ map_secret_storage_lawful sample_ops ∅ _ empty_memory_rel)
    as (H1 & _ & H2).
  destruct (default_storage_refines_memory _ strict_secret_storage id _ strict_secret_storage_lawful sample_ops ∅ _ empty_memory_rel)
    as (H3 & _).
  split; [rewrite H1; by rewrite (H2 (fun _ => eq_refl))|]. split; [rewrite H3; vm_compute; reflexivity|vm_compute; reflexivity].
Defined.

(** ** Error behaviour of the default storage's deletion *)

(** [DefaultTokenStorage.Delete] on every branch: it performs exactly one
    deletion, and reports an error exactly when the secret storage answered
    that the data was not found; any other failure of the secret storage is
    dropped and the caller is told that the data is gone. *)
Theorem default_delete_reports_only_not_found owner tr r :
  exec (DefaultTokenStorage.Delete owner) tr r ->
  exists answer,
    tr = [Act (Ss (TypedDelete owner)) answer] /\
    r = match answer with
        | Some err =>
            if errors_Is err NotFoundError
            then Some (Errorf_w "failed to delete the token data" err) else None
        | None => None
        end.
Proof.
  intros H. unfold DefaultTokenStorage.Delete in H. exec_steps.
  exists x. destruct x as [err|]; [destruct (errors_Is err NotFoundError)|]; exec_steps; done.
Qed.

Lemma default_delete_reports_only_not_found_witness :
  exists answer,
    [Act (Ss (TypedDelete sample_token_object)) (Some (ErrorString "vault is sealed"))] =
    [Act (Ss (TypedDelete sample_token_object)) answer] /\
    None = match answer with
           | Some err =>
               if errors_Is err NotFoundError
               then Some (Errorf_w "failed to delete the token data" err) else None
           | None => None
           end.
Proof.
  apply (default_delete_reports_only_not_found sample_token_object).
  exists (Some (ErrorString "vault is sealed")), []. split; [done|]. split; done.
Defined.

(** ** The write protocol of the notifying storages *)

Lemma createDataUpdate_exec owner tr r :
  exec (NotifyingTokenStorage.createDataUpdate owner) tr r ->
  ts_writes tr = [] /\
  match r with
  | None => exists o, writes tr = [WCreate KDataUpdate (NotifyingTokenStorage.data_update owner) (Ok o)]
  | Some _ =>
      writes tr = [] \/
      exists e, writes tr = [WCreate KDataUpdate (NotifyingTokenStorage.data_update owner) (Err e)]
  end.
Proof.
  intros H. unfold NotifyingTokenStorage.createDataUpdate in H. exec_steps.
  destruct x as [err|]; exec_steps; [by eauto|].
  destruct x as [o|err]; exec_steps; eauto.
Qed.

(** The storage operation a notifying write delegates to *)
Inductive notified_write := NStore (t : Token) | NDelete.

Definition notifying_write (w : notified_write) (owner : SPIAccessToken) : prog (option goerr) :=
  match w with
  | NStore t => NotifyingTokenStorage.Store owner t
  | NDelete => NotifyingTokenStorage.Delete owner
  end.
Definition delegated (w : notified_write) (owner : SPIAccessToken) (r : option goerr) : ts_write :=
  match w with NStore t => TwStore owner t r | NDelete => TwDelete owner r end.

(** The notifying token storage: a store or a deletion performs exactly
    that operation on the wrapped storage; when it fails nothing is written to
    the cluster and the error is reported; when it succeeds, the operation
    succeeds exactly if one SPIAccessTokenDataUpdate naming the owner was
    created, and no other object is written. *)
Theorem notifying_write_protocol w owner tr r :
  exec (notifying_write w owner) tr r ->
  exists inner,
    ts_writes tr = [delegated w owner inner] /\
    match inner with
    | Some err => writes tr = [] /\ r = Some (Errorf_w "wrapped storage error" err)
    | None =>
        (r = None <-> exists o, writes tr = [WCreate KDataUpdate (NotifyingTokenStorage.data_update owner) (Ok o)]) /\
        (writes tr = [] \/ exists x, writes tr = [WCreate KDataUpdate (NotifyingTokenStorage.data_update owner) x])
    end.
Proof.
  intros H.
  assert (exists inner tr', tr = Act (match w with NStore t => Ts (TsStore owner t) | NDelete => Ts (TsDelete owner) end) inner :: tr' /\
    match inner with
    | Some err => tr' = [] /\ r = Some (Errorf_w "wrapped storage error" err)
    | None => exec (NotifyingTokenStorage.createDataUpdate owner) tr' r
    end) as (inner & tr' & -> & Hin).
  { destruct w; unfold notifying_write, NotifyingTokenStorage.Store, NotifyingTokenStorage.Delete in H;
      exec_steps; exists x, tr0; (split; [done|]); destruct x; exec_steps; done. }
  exists inner. destruct inner as [err|].
  - destruct Hin as [-> ->]. by destruct w.
  - apply createDataUpdate_exec in Hin as [Hts Hw].
    replace (ts_writes _) with (delegated w owner None :: ts_writes tr') by by destruct w.
    replace (writes (_ :: tr')) with (writes tr') by by destruct w.
    rewrite Hts. split; [done|].
    destruct r as [e|]; [|naive_solver].
    destruct Hw as [->|[e' ->]]; naive_solver.
Qed.

Lemma notifying_write_protocol_witness :
  exists inner,
    ts_writes (run_trace map_secret_storage (notifying_write (NStore sample_token_data) sample_token_object) ∅).1.1
      = [delegated (NStore sample_token_data) sample_token_object inner] /\ inner = None.
Proof.
  destruct (notifying_write_protocol (NStore sample_token_data) sample_token_object _ _
    (run_trace_exec map_secret_storage _ ∅)) as (inner & H & _).
  exists inner. split; [exact H|]. vm_compute in H. by injection H.
Defined.
