(* ===== verification/SpConfig.v ===== *)
(** * pkg/spi-shared/config: service provider configuration

    The supported provider types, the conversion of the persisted
    configuration ([convert], [LoadFrom]), the selection of a configuration
    from the user's secrets (userconfig.go) and from the global configuration
    (serviceprovider.go), and the URL helpers (util.go).  Reading and
    unmarshalling the YAML file is an argument of [LoadFrom]. *)

From S2P Require Import Prelude GoStd GoUrl Api Externals SpErrors Effects Samples.
Local Open Scope string_scope.
Local Open Scope list_scope.
Local Open Scope spi_scope.

(** ** util.go *)

(** [GetBaseUrl]; [None] is the nil URL *)
Definition GetBaseUrl (u : option URL) : string :=
  match u with
  | None => ""
  | Some u =>
      if String.eqb (Scheme u) "" || String.eqb (Host u) "" then ""
      else Scheme u +:+ "://" +:+ Host u
  end.

Definition GetHostWithScheme (repoUrl : string) : res string :=
  match Parse repoUrl with
  | Err err => Err (Errorf_w ("failed to parse " +:+ repoUrl +:+ " as URL") err)
  | Ok u => Ok (GetBaseUrl (Some u))
  end.

(** ** Supported service provider types *)

Definition githubHost := "github.com".
Definition gitlabHost := "gitlab.com".
Definition gitlabUrl := "https://" +:+ gitlabHost.
Definition quaySaasHost := "quay.io".
Definition quaySaasBaseUrl := "https://" +:+ quaySaasHost.

Section types.
Context {X : Externals}.

Definition ServiceProviderTypeGitHub : ServiceProviderType :=
mkSPType "GitHub" github_Endpoint githubHost ("https://" +:+ githubHost).
Definition ServiceProviderTypeGitLab : ServiceProviderType :=
mkSPType "GitLab" (mkEndpoint (gitlabUrl +:+ "/oauth/authorize") (gitlabUrl +:+ "/oauth/token"))
  gitlabHost gitlabUrl.
Definition ServiceProviderTypeQuay : ServiceProviderType :=
mkSPType "Quay" (mkEndpoint (quaySaasBaseUrl +:+ "/oauth/authorize") (quaySaasBaseUrl +:+ "/oauth/access_token"))
  quaySaasHost quaySaasBaseUrl.
Definition ServiceProviderTypeHostCredentials : ServiceProviderType :=
mkSPType "HostCredentials" (mkEndpoint "" "") "" "".

Definition SupportedServiceProviderTypes : list ServiceProviderType :=
[ServiceProviderTypeGitHub; ServiceProviderTypeGitLab; ServiceProviderTypeQuay].
End types.

Definition errUnknownServiceProvider : string := "haven't found service provider in supported list".

Definition spt_is (name : string) (t : ServiceProviderType) : bool := String.eqb (spt_Name t) name.

Definition GetServiceProviderTypeByName {X : Externals} (name : string) : res ServiceProviderType :=
  match List.find (spt_is name) SupportedServiceProviderTypes with
  | Some t => Ok t
  | None => Err (Errorf_w ("serviceprovider '" +:+ name +:+ "'") (ErrorString errUnknownServiceProvider))
  end.

(** ** persistedConfiguration.convert *)

Definition convert_one {X : Externals} (sp : persistedServiceProviderConfiguration)
  : res ServiceProviderConfiguration :=
  let? spType := GetServiceProviderTypeByName (psp_ServiceProviderName sp) in
  Ok (mkSPConfig spType
        (if String.eqb (psp_BaseUrl sp) "" then spt_DefaultBaseUrl spType else psp_BaseUrl sp)
        (psp_Extra sp)
        (if negb (String.eqb (psp_ClientId sp) "") && negb (String.eqb (psp_ClientSecret sp) "")
         then Some (mkOAuth2Config (psp_ClientId sp) (psp_ClientSecret sp) (spt_DefaultOAuthEndpoint spType))
         else None)).

Fixpoint convert_all {X : Externals} (sps : list persistedServiceProviderConfiguration)
  : res (list ServiceProviderConfiguration) :=
  match sps with
  | [] => Ok []
  | sp :: rest => let? c := convert_one sp in let? cs := convert_all rest in Ok (c :: cs)
  end.

Definition configured (name : string) (cs : list ServiceProviderConfiguration) : bool :=
  existsb (fun c => String.eqb (spt_Name (spc_Type c)) name) cs.

(** The loop adding the supported types that are not explicitly configured *)
Fixpoint add_defaults (ts : list ServiceProviderType) (cs : list ServiceProviderConfiguration)
  : list ServiceProviderConfiguration :=
  match ts with
  | [] => cs
  | t :: rest =>
      add_defaults rest
        (if configured (spt_Name t) cs then cs
         else cs ++ [mkSPConfig t (spt_DefaultBaseUrl t) ∅ None])
  end.

Definition convert {X : Externals} (persistedConfig : persistedConfiguration) : res SharedConfiguration :=
  let? cs := convert_all (pc_ServiceProviders persistedConfig) in
  Ok (mkSharedConfig (add_defaults SupportedServiceProviderTypes cs) "").

(** [LoadFrom]; [pcfg] is the result of reading and unmarshalling the file *)
Definition LoadFrom {X : Externals} (pcfg : res persistedConfiguration) (baseUrl : string)
  : res SharedConfiguration :=
  let? p := pcfg in
  let? cfg := convert p in
  let cfg' := mkSharedConfig (sc_ServiceProviders cfg) (TrimSuffix baseUrl "/") in
  match ValidateShared cfg' with
  | Some err => Err (Errorf_w "service configuration validation failed" err)
  | None => Ok cfg'
  end.

(** ** serviceprovider.go: the global configuration *)

Definition matches_global (spType : ServiceProviderType) (repoBaseUrl : string)
  (c : ServiceProviderConfiguration) : bool :=
  String.eqb (spt_Name (spc_Type c)) (spt_Name spType) && String.eqb (spc_BaseUrl c) repoBaseUrl.

Definition SpConfigFromGlobalConfig (g : SharedConfiguration) (spType : ServiceProviderType)
  (repoBaseUrl : string) : option ServiceProviderConfiguration :=
  match List.find (matches_global spType repoBaseUrl) (sc_ServiceProviders g) with
  | Some c => Some c
  | None =>
      if String.eqb (spt_DefaultBaseUrl spType) repoBaseUrl
      then Some (mkSPConfig spType (spt_DefaultBaseUrl spType) ∅ None)
      else None
  end.

(** ** userconfig.go: configuration from the user's secrets *)

Definition errMultipleMatchingSecrets : string := "found multiple matching oauth config secrets".

(** The loop over the listed secrets: with a host label equal to the host, and
    without a host label for a provider on its default host *)
Definition oauthSecretsWithHost (spHost : string) (secrets : list Secret) : list Secret :=
  List.filter (fun s => match om_Labels (sec_Meta s) !! ServiceProviderHostLabel with
                        | Some h => String.eqb h spHost
                        | None => false
                        end) secrets.
Definition oauthSecretsWithoutHost (spType : ServiceProviderType) (spHost : string)
  (secrets : list Secret) : list Secret :=
  List.filter (fun s => match om_Labels (sec_Meta s) !! ServiceProviderHostLabel with
                        | Some _ => false
                        | None => String.eqb spHost (spt_DefaultHost spType)
                        end) secrets.

Definition select_config_secret (spType : ServiceProviderType) (spHost : string)
  (secrets : list Secret) : res (option Secret) :=
  match oauthSecretsWithHost spHost secrets with
  | [s] => Ok (Some s)
  | _ :: _ :: _ => Err (ErrorString errMultipleMatchingSecrets)
  | [] =>
      match oauthSecretsWithoutHost spType spHost secrets with
      | [s] => Ok (Some s)
      | _ :: _ :: _ => Err (ErrorString errMultipleMatchingSecrets)
      | [] => Ok None
      end
  end.

Definition findUserServiceProviderConfigSecret (tokenNamespace : string) (spType : ServiceProviderType)
  (spHost : string) : prog (res (option Secret)) :=
  let! r := kube (KList KSecret tokenNamespace [(ServiceProviderTypeLabel, spt_Name spType)] None) in
  match r with
  | Err listErr =>
      if IsForbidden listErr then Ret (Ok None)
      else if IsUnauthorized listErr then Ret (Ok None)
      else Ret (Err (Errorf_w "failed to list sp config secrets" listErr))
  | Ok secrets =>
      if (length secrets <? 1)%nat then Ret (Ok None)
      else Ret (select_config_secret spType spHost secrets)
  end.

Definition oauthCfgSecretFieldClientId := "clientId".
Definition oauthCfgSecretFieldClientSecret := "clientSecret".
Definition oauthCfgSecretFieldAuthUrl := "authUrl".
Definition oauthCfgSecretFieldTokenUrl := "tokenUrl".

Definition nonempty_field (s : Secret) (key : string) (default_value : string) : string :=
  match sec_Data s !! key with
  | Some v => if (0 <? String.length v)%nat then v else default_value
  | None => default_value
  end.

Definition initializeOAuthConfigFromSecret (secret : Secret) (spType : ServiceProviderType)
  : option OAuth2Config :=
  match sec_Data secret !! oauthCfgSecretFieldClientId with
  | None => None
  | Some clientId =>
      match sec_Data secret !! oauthCfgSecretFieldClientSecret with
      | None => None
      | Some clientSecret =>
          Some (mkOAuth2Config clientId clientSecret
            (mkEndpoint
              (nonempty_field secret oauthCfgSecretFieldAuthUrl (AuthURL (spt_DefaultOAuthEndpoint spType)))
              (nonempty_field secret oauthCfgSecretFieldTokenUrl (TokenURL (spt_DefaultOAuthEndpoint spType)))))
      end
  end.

Definition createServiceProviderConfigurationFromSecret (configSecret : Secret) (baseUrl : string)
  (spType : ServiceProviderType) : ServiceProviderConfiguration :=
  mkSPConfig spType baseUrl ∅ (initializeOAuthConfigFromSecret configSecret spType).

Definition SpConfigFromUserSecret (namespace : string) (spType : ServiceProviderType) (repoUrl : URL)
  : prog (res (option ServiceProviderConfiguration)) :=
  let! r := findUserServiceProviderConfigSecret namespace spType (Host repoUrl) in
  match r with
  | Err findErr => Ret (Err findErr)
  | Ok (Some configSecret) =>
      Ret (Ok (Some (createServiceProviderConfigurationFromSecret configSecret
                       (GetBaseUrl (Some repoUrl)) spType)))
  | Ok None => Ret (Ok None)
  end.

(** ** Lemmas *)

Lemma configured_app n cs c :
  configured n (cs ++ [c]) = configured n cs || String.eqb (spt_Name (spc_Type c)) n.
Proof. unfold configured. rewrite existsb_app. cbn. by rewrite orb_false_r. Qed.

Lemma add_defaults_prefix ts : forall cs, exists ds,
  add_defaults ts cs = cs ++ ds /\
  Forall (fun d => spc_BaseUrl d = spt_DefaultBaseUrl (spc_Type d) /\ spc_OAuth2Config d = None /\
                   In (spc_Type d) ts /\ configured (spt_Name (spc_Type d)) cs = false) ds.
Proof.
  induction ts as [|t ts IH]; intros cs; cbn [add_defaults].
  - exists []. by rewrite app_nil_r.
  - destruct (configured (spt_Name t) cs) eqn:E.
    + destruct (IH cs) as (ds & -> & H). exists ds. split; [done|].
      eapply List.Forall_impl; [|exact H]. cbn. naive_solver.
    + destruct (IH (cs ++ [mkSPConfig t (spt_DefaultBaseUrl t) ∅ None])) as (ds & -> & H).
      exists (mkSPConfig t (spt_DefaultBaseUrl t) ∅ None :: ds).
      rewrite <- app_assoc. split; [done|]. constructor; [cbn; auto|].
      eapply List.Forall_impl; [|exact H]. cbn. intros d (? & ? & ? & Hc).
      rewrite configured_app in Hc. reflect_bools. naive_solver.
Qed.

Lemma add_defaults_covers ts : forall cs n,
  configured n cs = true \/ In n (map spt_Name ts) -> configured n (add_defaults ts cs) = true.
Proof.
  induction ts as [|t ts IH]; intros cs n H; cbn in *; [naive_solver|].
  apply IH. destruct (configured (spt_Name t) cs) eqn:E; [naive_solver|].
  destruct H as [H|[<-|H]]; [left|left|by right]; rewrite configured_app; cbn.
  - by rewrite H.
  - by rewrite String.eqb_refl, orb_true_r.
Qed.

Lemma convert_all_spec {X : Externals} sps : forall cs,
  convert_all sps = Ok cs -> Forall2 (fun p c => convert_one p = Ok c) sps cs.
Proof.
  induction sps as [|p sps IH]; cbn; intros cs.
  - intros [= <-]. constructor.
  - destruct (convert_one p) as [c|] eqn:E; cbn; [|done].
    destruct (convert_all sps) as [cs'|]; cbn; [|done].
    intros [= <-]. constructor; auto.
Qed.

(** [convert] keeps every persisted provider, in order, and completes the
    configuration: the result starts with the conversion of each persisted
    entry, every supported provider type is configured, and the entries that
    were added are exactly defaults (default base URL, no OAuth client) of
    supported types that the file does not mention. *)
Theorem convert_complete {X : Externals} p cfg :
  convert p = Ok cfg ->
  exists explicit defaults,
    sc_ServiceProviders cfg = explicit ++ defaults /\
    Forall2 (fun e c => convert_one e = Ok c) (pc_ServiceProviders p) explicit /\
    (forall t, In t SupportedServiceProviderTypes ->
       configured (spt_Name t) (sc_ServiceProviders cfg) = true) /\
    Forall (fun d => spc_BaseUrl d = spt_DefaultBaseUrl (spc_Type d) /\ spc_OAuth2Config d = None /\
                     In (spc_Type d) SupportedServiceProviderTypes /\
                     configured (spt_Name (spc_Type d)) explicit = false) defaults.
Proof.
  unfold convert. destruct (convert_all _) as [cs|] eqn:E; cbn [rbind]; [|done].
  intros <-%Ok_inj. cbn [sc_ServiceProviders].
  destruct (add_defaults_prefix SupportedServiceProviderTypes cs) as (ds & Hds & HF).
  exists cs, ds. split; [done|]. split; [by apply convert_all_spec|]. split; [|done].
  intros t Ht. apply add_defaults_covers. right. by apply in_map.
Qed.

Definition sample_persisted : persistedConfiguration :=
  mkPersisted [mkPersistedSP "id" "secret" "GitLab" "" ∅; mkPersistedSP "" "" "GitLab" "https://gitlab.corp" ∅].

Example convert_sample :
  match convert sample_persisted with
  | Ok c => map (fun sp => (spt_Name (spc_Type sp), spc_BaseUrl sp)) (sc_ServiceProviders c)
  | Err _ => []
  end = [("GitLab", "https://gitlab.com"); ("GitLab", "https://gitlab.corp");
         ("GitHub", "https://github.com"); ("Quay", "https://quay.io")].
Proof. vm_compute. reflexivity. Qed.

Lemma convert_complete_witness :
  exists cfg explicit defaults,
    convert sample_persisted = Ok cfg /\ sc_ServiceProviders cfg = explicit ++ defaults /\
    (forall t, In t SupportedServiceProviderTypes ->
       configured (spt_Name t) (sc_ServiceProviders cfg) = true).
Proof.
  destruct (convert sample_persisted) as [cfg|e] eqn:E; [|exfalso; vm_compute in E; discriminate E].
  destruct (convert_complete sample_persisted cfg E) as (ex & ds & H1 & _ & H2 & _).
  exists cfg, ex, ds. split; [reflexivity|]. split; [exact H1|exact H2].
Defined.

(** The choice among the user's configuration secrets does not depend on the
    order in which the API server lists them: two listings with the same
    secrets give the same configuration secret, the same absence or the same
    ambiguity error. *)
Theorem select_config_secret_order spType spHost l l' :
  Permutation l l' ->
  select_config_secret spType spHost l = select_config_secret spType spHost l'.
Proof.
  intros P. unfold select_config_secret.
  assert (Permutation (oauthSecretsWithHost spHost l) (oauthSecretsWithHost spHost l')) as P1
    by (by apply Permutation_filter_bool).
  assert (Permutation (oauthSecretsWithoutHost spType spHost l) (oauthSecretsWithoutHost spType spHost l')) as P2
    by (by apply Permutation_filter_bool).
  destruct (oauthSecretsWithHost spHost l) as [|a [|b m]];
    [apply Permutation_nil in P1 as ->|apply Permutation_length_1_inv in P1 as ->; done|].
  - destruct (oauthSecretsWithoutHost spType spHost l) as [|a [|b m]];
      [by apply Permutation_nil in P2 as ->|by apply Permutation_length_1_inv in P2 as ->|].
    apply Permutation_length in P2. by destruct (oauthSecretsWithoutHost spType spHost l') as [|? [|]].
  - apply Permutation_length in P1. by destruct (oauthSecretsWithHost spHost l') as [|? [|]].
Qed.

Definition labelled_secret (name host : string) : Secret :=
  sample_secret name (<[ServiceProviderHostLabel := host]> ∅) ∅.

Lemma select_config_secret_order_witness :
  select_config_secret ServiceProviderTypeQuay "quay.io" [labelled_secret "a" "quay.io"; sample_secret "b" ∅ ∅] =
  select_config_secret ServiceProviderTypeQuay "quay.io" [sample_secret "b" ∅ ∅; labelled_secret "a" "quay.io"].
Proof. apply select_config_secret_order. constructor. Defined.
