(* ===== verification/Factory.v ===== *)
(** * pkg/serviceprovider: the factory of service providers

    [Factory.FromRepoUrl] (serviceprovider.go) with the registry of
    initializers (initialization.go).  [SP] is the type of the providers that
    the constructors make.  A constructor is the provider's own
    function from a configuration to a provider; a probe is a program (it may
    perform calls) answering a base URL. *)

From S2P Require Import Prelude GoStd GoUrl Api Externals SpErrors Effects Samples SpConfig.
Local Open Scope string_scope.
Local Open Scope list_scope.
Local Open Scope spi_scope.

(** ** initialization.go *)

Record Initializer (SP : Type) := mkInitializer {
  Probe : option (string -> prog (res string));
  Constructor : option (ServiceProviderConfiguration -> res SP) }.
Arguments mkInitializer {SP}. Arguments Probe {SP}. Arguments Constructor {SP}.

(** [Initializers]: the map from provider names *)
Definition Initializers (SP : Type) : Type := gmap string (Initializer SP).
Definition NewInitializers {SP} : Initializers SP := ∅.
Definition errInitializerNotFound : string := "initializer not found".

Definition GetInitializer {SP} (i : Initializers SP) (spType : ServiceProviderType) : res (Initializer SP) :=
  match (i : gmap string (Initializer SP)) !! spt_Name spType with
  | Some init => Ok init
  | None => Err (Errorf_w ("service provider '" +:+ spt_Name spType +:+ "'") (ErrorString errInitializerNotFound))
  end.

Definition AddKnownInitializer {SP} (i : Initializers SP) (spType : ServiceProviderType) (init : Initializer SP)
  : Initializers SP := <[spt_Name spType := init]> (i : gmap string (Initializer SP)).

Definition errNoConstructorImplemented : string := "service provider has no constructor".
Definition errNoInitializer : string := "service provider has no initializer".

(** Outcome of code that may dereference a nil pointer *)
Inductive outcome (A : Type) := Val (a : A) | NilPanic.
Arguments Val {A} a.
Arguments NilPanic {A}.

Record Factory (SP : Type) := mkFactory {
  fac_Configuration : OperatorConfiguration;
  fac_Initializers : Initializers SP }.
Arguments mkFactory {SP}. Arguments fac_Configuration {SP}. Arguments fac_Initializers {SP}.

Section factory.
Context {X : Externals} {SP : Type} (f : Factory SP).

Definition spConfigWithBaseUrl (spType : ServiceProviderType) (baseUrl : string)
: res ServiceProviderConfiguration :=
let cfg := mkSPConfig spType baseUrl ∅ None in
match ValidateSPConfig cfg with
| Some err => Err (Errorf_w "failed to validate service provider configuration" err)
| None => Ok cfg
end.

Definition createHostCredentialsProvider (repoUrl : URL) : outcome (res SP) :=
match GetInitializer (fac_Initializers f) ServiceProviderTypeHostCredentials with
| Err e => Val (Err (Errorf_w "initializer for host credentials service provider not found" e))
| Ok init =>
    match spConfigWithBaseUrl ServiceProviderTypeHostCredentials (GetBaseUrl (Some repoUrl)) with
    | Err err => Val (Err (Errorf_w "failed to build service provider configuration from base URL" err))
    | Ok cfg =>
        match Constructor init with
        | None => NilPanic
        | Some ctor =>
            match ctor cfg with
            | Err err => Val (Err (Errorf_w "failed to construct host credentials provider" err))
            | Ok sp => Val (Ok sp)
            end
        end
    end
end.

(** The answer [Ok None] is the pair of nils: no provider, no error. *)
Definition initializeServiceProvider (spType : ServiceProviderType)
(spConfig : option ServiceProviderConfiguration) (repoBaseUrl : string)
: prog (outcome (res (option SP))) :=
match GetInitializer (fac_Initializers f) spType with
| Err _ =>
    Ret (Val (Err (Errorf_w ("failed to initialize service provider '" +:+ spt_Name spType +:+ "'")
                     (ErrorString errNoInitializer))))
| Ok initializer =>
    match Constructor initializer with
    | None =>
        (* the error text reads spConfig.ServiceProviderType.Name *)
        match spConfig with
        | None => Ret NilPanic
        | Some c =>
            Ret (Val (Err (Errorf_w ("service provider '" +:+ spt_Name (spc_Type c) +:+ "'")
                             (ErrorString errNoConstructorImplemented))))
        end
    | Some ctor =>
        match spConfig with
        | Some cfg =>
            match ValidateSPConfig cfg with
            | Some err =>
                Ret (Val (Err (Errorf_w ("failed to create runtime configuration for service provider "
                                         +:+ spt_Name spType) err)))
            | None =>
                match ctor cfg with
                | Err e => Ret (Val (Err (Errorf_w "failed to construct service provider" e)))
                | Ok sp => Ret (Val (Ok (Some sp)))
                end
            end
        | None =>
            match Probe initializer with
            | None => Ret (Val (Ok None))
            | Some probe =>
                let! r := probe repoBaseUrl in
                match r with
                | Err _ => Ret (Val (Ok None))
                | Ok probeBaseUrl =>
                    if String.eqb probeBaseUrl "" then Ret (Val (Ok None))
                    else match spConfigWithBaseUrl spType probeBaseUrl with
                         | Err err =>
                             Ret (Val (Err (Errorf_w "failed to build service provider configuration from probe" err)))
                         | Ok cfg =>
                             match ctor cfg with
                             | Err e => Ret (Val (Err (Errorf_w "failed to construct service provider after probing" e)))
                             | Ok sp => Ret (Val (Ok (Some sp)))
                             end
                         end
                end
            end
        end
    end
end.

(** The loop of [FromRepoUrl] over the supported types *)
Fixpoint try_types (types : list ServiceProviderType) (namespace : string) (repoUrl : URL)
: prog (outcome (res SP)) :=
match types with
| [] => Ret (createHostCredentialsProvider repoUrl)
| sp :: rest =>
    let! user := SpConfigFromUserSecret namespace sp repoUrl in
    match user with
    | Err err =>
        Ret (Val (Err (Errorf_w "failed to create service provider configuration from user secret" err)))
    | Ok u =>
        let spConfig :=
          match u with
          | Some c => Some c
          | None => SpConfigFromGlobalConfig (opc_Shared (fac_Configuration f)) sp (GetBaseUrl (Some repoUrl))
          end in
        let! r := initializeServiceProvider sp spConfig (GetBaseUrl (Some repoUrl)) in
        match r with
        | NilPanic => Ret NilPanic
        | Val (Err err) => Ret (Val (Err err))
        | Val (Ok (Some p)) => Ret (Val (Ok p))
        | Val (Ok None) => try_types rest namespace repoUrl
        end
    end
end.

Definition Factory_FromRepoUrl (repoUrl namespace : string) : prog (outcome (res SP)) :=
match Parse repoUrl with
| Err errUrlParse => Ret (Val (Err (Errorf_w "failed to parse repo url" errUrlParse)))
| Ok parsedRepoUrl => try_types SupportedServiceProviderTypes namespace parsedRepoUrl
end.

(** ** Where a provider comes from *)

(** [sp] was made by the registered constructor of [t] from a configuration
  that the validator accepted. *)
Definition constructed_by (t : ServiceProviderType) (cfg : ServiceProviderConfiguration)
(sp : SP) : Prop :=
exists init ctor,
  (fac_Initializers f : gmap string (Initializer SP)) !! spt_Name t = Some init /\
  Constructor init = Some ctor /\ ctor cfg = Ok sp /\ ValidateSPConfig cfg = None.

Lemma spConfigWithBaseUrl_ok t u cfg :
spConfigWithBaseUrl t u = Ok cfg -> cfg = mkSPConfig t u ∅ None /\ ValidateSPConfig cfg = None.
Proof. unfold spConfigWithBaseUrl. destruct (ValidateSPConfig _) eqn:E; [done|]. by intros <-%Ok_inj. Qed.

Lemma GetInitializer_ok t init :
GetInitializer (fac_Initializers f) t = Ok init ->
(fac_Initializers f : gmap string (Initializer SP)) !! spt_Name t = Some init.
Proof. unfold GetInitializer. destruct (_ !! _); [by intros <-%Ok_inj|done]. Qed.

Lemma initialize_constructed t c base tr sp :
exec (initializeServiceProvider t c base) tr (Val (Ok (Some sp))) ->
exists cfg, constructed_by t cfg sp /\
  (c = Some cfg \/ (c = None /\ exists u, u <> "" /\ cfg = mkSPConfig t u ∅ None)).
Proof.
unfold initializeServiceProvider, constructed_by.
destruct (GetInitializer _ t) as [init|] eqn:Ei; [|by intros [_ ?]].
apply GetInitializer_ok in Ei.
destruct (Constructor init) as [ctor|] eqn:Ec; [|destruct c; by intros [_ ?]].
destruct c as [cfg|].
- destruct (ValidateSPConfig cfg) eqn:Ev; [by intros [_ ?]|].
  destruct (ctor cfg) as [sp'|] eqn:Es; [|by intros [_ ?]].
  intros [_ [= <-]]. exists cfg. split; [|by left]. by exists init, ctor.
- destruct (Probe init) as [probe|]; [|by intros [_ ?]].
  intros (r & tr1 & tr2 & -> & _ & H)%exec_bind.
  destruct r as [u|]; [|by destruct H].
  destruct (String.eqb_spec u "") as [|Hu]; [by destruct H|].
  destruct (spConfigWithBaseUrl t u) as [cfg|] eqn:Eb; [|by destruct H].
  apply spConfigWithBaseUrl_ok in Eb as [-> Ev].
  destruct (ctor _) as [sp'|] eqn:Es; [|by destruct H].
  destruct H as [_ [= <-]]. eexists. split; [by exists init, ctor|]. right. eauto.
Qed.

Lemma host_credentials_constructed u sp :
createHostCredentialsProvider u = Val (Ok sp) ->
constructed_by ServiceProviderTypeHostCredentials
  (mkSPConfig ServiceProviderTypeHostCredentials (GetBaseUrl (Some u)) ∅ None) sp.
Proof.
unfold createHostCredentialsProvider.
destruct (GetInitializer _ _) as [init|] eqn:Ei; [|done]. apply GetInitializer_ok in Ei.
destruct (spConfigWithBaseUrl _ _) as [cfg|] eqn:Eb; [|done].
apply spConfigWithBaseUrl_ok in Eb as [-> Ev].
destruct (Constructor init) as [ctor|] eqn:Ec; [|done].
destruct (ctor _) as [sp'|] eqn:Es; [|done]. intros [= <-]. by exists init, ctor.
Qed.

(** The secrets the user's configuration is taken from, as listed in a trace *)
Lemma SpConfigFromUserSecret_exec ns t u tr r :
exec (SpConfigFromUserSecret ns t u) tr r ->
writes tr = [] /\
match r with
| Ok (Some cfg) => exists secrets s,
    In (Act (Kube (KList KSecret ns [(ServiceProviderTypeLabel, spt_Name t)] None)) (Ok secrets)) tr /\
    select_config_secret t (Host u) secrets = Ok (Some s) /\
    cfg = createServiceProviderConfigurationFromSecret s (GetBaseUrl (Some u)) t
| _ => True
end.
Proof.
unfold SpConfigFromUserSecret, findUserServiceProviderConfigSecret. intros H. exec_steps.
destruct x as [secrets|e].
- destruct (Nat.ltb_spec (length secrets) 1); exec_steps; [done|].
  destruct (select_config_secret t (Host u) secrets) as [[s|]|] eqn:E; exec_steps; [|done..].
  split; [done|]. exists secrets, s. split; [by left|]. done.
- destruct (IsForbidden e); exec_steps; [done|].
  destruct (IsUnauthorized e); exec_steps; done.
Qed.

(** Provenance of the configuration a provider was made from *)
Inductive config_origin (ns : string) (u : URL) (tr : list act)
: ServiceProviderType -> ServiceProviderConfiguration -> Prop :=
| from_user_secret t secrets s :
  In t SupportedServiceProviderTypes ->
  In (Act (Kube (KList KSecret ns [(ServiceProviderTypeLabel, spt_Name t)] None)) (Ok secrets)) tr ->
  select_config_secret t (Host u) secrets = Ok (Some s) ->
  config_origin ns u tr t (createServiceProviderConfigurationFromSecret s (GetBaseUrl (Some u)) t)
| from_global t cfg :
  In t SupportedServiceProviderTypes ->
  SpConfigFromGlobalConfig (opc_Shared (fac_Configuration f)) t (GetBaseUrl (Some u)) = Some cfg ->
  config_origin ns u tr t cfg
| from_probe t base :
  In t SupportedServiceProviderTypes -> base <> "" ->
  SpConfigFromGlobalConfig (opc_Shared (fac_Configuration f)) t (GetBaseUrl (Some u)) = None ->
  config_origin ns u tr t (mkSPConfig t base ∅ None)
| from_host :
  config_origin ns u tr ServiceProviderTypeHostCredentials
    (mkSPConfig ServiceProviderTypeHostCredentials (GetBaseUrl (Some u)) ∅ None).

Lemma config_origin_mono ns u tr tr' t cfg :
(forall a, In a tr -> In a tr') -> config_origin ns u tr t cfg -> config_origin ns u tr' t cfg.
Proof.
intros Hi []; [eapply from_user_secret|apply from_global|apply from_probe|apply from_host]; eauto.
Qed.

Lemma try_types_provenance types ns u : forall tr sp,
(forall t, In t types -> In t SupportedServiceProviderTypes) ->
exec (try_types types ns u) tr (Val (Ok sp)) ->
exists t cfg, constructed_by t cfg sp /\ config_origin ns u tr t cfg.
Proof.
induction types as [|t types IH]; intros tr sp Hsup H; cbn [try_types] in H.
- destruct H as [-> H]. symmetry in H. apply host_credentials_constructed in H.
  do 2 eexists. split; [exact H|]. apply from_host.
- apply exec_bind in H as (user & tr1 & tr2 & -> & H1 & H).
  apply SpConfigFromUserSecret_exec in H1 as [_ H1].
  destruct user as [user|]; [|by destruct H].
  apply exec_bind in H as (r & tr3 & tr4 & -> & H2 & H).
  destruct r as [[[p|]|]|]; [|..|by destruct H|by destruct H].
  + destruct H as [-> [= ->]]. apply initialize_constructed in H2 as (cfg & Hc & Ho).
    exists t, cfg. split; [done|]. specialize (Hsup t (or_introl eq_refl)).
    destruct user as [c|]; cbn in Ho.
    * destruct Ho as [[= <-]|[? _]]; [|done]. destruct H1 as (secrets & s & Hin & Hs & ->).
      eapply from_user_secret; eauto. apply in_or_app. by left.
    * destruct Ho as [Ho|(Hn & b & Hb & ->)]; [by apply from_global|by apply from_probe].
  + destruct (IH tr4 sp) as (t' & cfg & Hc & Ho); [by intros ? ?; apply Hsup; right|done|].
    exists t', cfg. split; [done|]. eapply config_origin_mono; [|exact Ho].
    intros a Ha. apply in_or_app; right. apply in_or_app; by right.
Qed.
End factory.

(** Provenance: whatever the cluster answers, a provider returned by
    [FromRepoUrl] was made by the constructor registered for its type, from a
    configuration the validator accepted, and that configuration is the one
    selected among the user's listed secrets, or the global one for the
    repository's base URL, or a probed base URL when neither exists, or the
    host-credentials fallback for the repository's base URL. *)
Theorem FromRepoUrl_provenance {X : Externals} {SP} (f : Factory SP) repoUrl ns tr sp :
  exec (Factory_FromRepoUrl f repoUrl ns) tr (Val (Ok sp)) ->
  exists u t cfg, Parse repoUrl = Ok u /\ constructed_by f t cfg sp /\ config_origin f ns u tr t cfg.
Proof.
  unfold Factory_FromRepoUrl. destruct (Parse repoUrl) as [u|]; [|by intros [_ ?]].
  intros H. apply try_types_provenance in H as (t & cfg & Hc & Ho); [|done]. eauto 8.
Qed.

Definition sample_factory : Factory ServiceProvider :=
  mkFactory sample_config
    (AddKnownInitializer (AddKnownInitializer (AddKnownInitializer (AddKnownInitializer NewInitializers
      ServiceProviderTypeGitHub (mkInitializer None (Some (fun c => Ok (mkSP (spc_BaseUrl c) (spc_Type c) None true false)))))
      ServiceProviderTypeGitLab (mkInitializer None (Some (fun c => Ok (mkSP (spc_BaseUrl c) (spc_Type c) None true true)))))
      ServiceProviderTypeQuay (mkInitializer None (Some (fun c => Ok (mkSP (spc_BaseUrl c) (spc_Type c) None false false)))))
      ServiceProviderTypeHostCredentials (mkInitializer None (Some (fun c => Ok (mkSP (spc_BaseUrl c) (spc_Type c) None false false))))).

(** quay.io is recognised by its default base URL. *)
Example sample_factory_quay :
  match result_of empty_script (Factory_FromRepoUrl sample_factory "https://quay.io/org/repo" "ns") with
  | Val (Ok sp) => Some (spt_Name (GetType sp), GetBaseUrl_sp sp)
  | _ => None
  end = Some ("Quay", "https://quay.io").
Proof. vm_compute. reflexivity. Qed.
(** Any other host gets the host-credentials provider. *)
Example sample_factory_other :
  match result_of empty_script (Factory_FromRepoUrl sample_factory "https://git.example.com/x" "ns") with
  | Val (Ok sp) => Some (spt_Name (GetType sp), GetBaseUrl_sp sp)
  | _ => None
  end = Some ("HostCredentials", "https://git.example.com").
Proof. vm_compute. reflexivity. Qed.

Lemma FromRepoUrl_provenance_witness :
  exists u t cfg, Parse "https://quay.io/org/repo" = Ok u /\
    constructed_by sample_factory t cfg (mkSP "https://quay.io" ServiceProviderTypeQuay None false false) /\
    config_origin sample_factory "ns" u
      (trace_of empty_script (Factory_FromRepoUrl sample_factory "https://quay.io/org/repo" "ns")) t cfg.
Proof.
  apply (FromRepoUrl_provenance sample_factory "https://quay.io/org/repo" "ns").
  exact (scripted_exec empty_script (Factory_FromRepoUrl sample_factory "https://quay.io/org/repo" "ns")).
Defined.

(** No nil dereference: if every registered initializer has a constructor,
    [FromRepoUrl] always answers a provider or an error. *)
Theorem FromRepoUrl_no_panic {X : Externals} {SP} (f : Factory SP) repoUrl ns tr :
  map_Forall (fun _ init => is_Some (Constructor init)) (fac_Initializers f : gmap string (Initializer SP)) ->
  ~ exec (Factory_FromRepoUrl f repoUrl ns) tr NilPanic.
Proof.
  intros Hall. unfold Factory_FromRepoUrl. destruct (Parse repoUrl) as [u|]; [|by intros [_ ?]].
  generalize SupportedServiceProviderTypes. intros types. revert tr.
  induction types as [|t types IH]; intros tr H; cbn [try_types] in H.
  - destruct H as [_ H]. unfold createHostCredentialsProvider in H.
    destruct (GetInitializer _ _) as [init|] eqn:Ei; [|done]. apply GetInitializer_ok, Hall in Ei.
    destruct (spConfigWithBaseUrl _ _); [|done]. destruct Ei as [ctor Hc]. rewrite Hc in H.
    by destruct (ctor _).
  - apply exec_bind in H as (user & tr1 & tr2 & -> & _ & H).
    destruct user as [user|]; [|by destruct H].
    apply exec_bind in H as (r & tr3 & tr4 & -> & H2 & H).
    destruct r as [[[p|]|]|]; [by destruct H|by eapply IH|by destruct H|].
    clear H. unfold initializeServiceProvider in H2.
    destruct (GetInitializer _ t) as [init|] eqn:Ei; [|by destruct H2].
    apply GetInitializer_ok, Hall in Ei as [ctor Hc]. rewrite Hc in H2.
    destruct (match user with Some _ => _ | None => _ end) as [cfg|].
    + destruct (ValidateSPConfig cfg); [by destruct H2|]. by destruct (ctor cfg), H2.
    + destruct (Probe init) as [probe|]; [|by destruct H2].
      apply exec_bind in H2 as (r & tr5 & tr6 & -> & _ & H2).
      destruct r as [u'|]; [|by destruct H2]. destruct (String.eqb u' ""); [by destruct H2|].
      destruct (spConfigWithBaseUrl t u'); [|by destruct H2]. by destruct (ctor _), H2.
Qed.

Lemma FromRepoUrl_no_panic_witness :
  ~ exec (Factory_FromRepoUrl sample_factory "https://quay.io/org/repo" "ns") [] NilPanic.
Proof.
  apply (FromRepoUrl_no_panic sample_factory "https://quay.io/org/repo" "ns" []).
  unfold sample_factory, AddKnownInitializer, NewInitializers, Initializers. cbn [fac_Initializers].
  repeat (apply map_Forall_insert_2; [by eexists|]). apply map_Forall_empty.
Defined.

(** Without a constructor and without a configuration the error text itself
    dereferences the nil configuration. *)
Lemma initialize_without_constructor_panics {X : Externals} {SP} (f : Factory SP) t base init :
  (fac_Initializers f : gmap string (Initializer SP)) !! spt_Name t = Some init ->
  Constructor init = None ->
  exec (initializeServiceProvider f t None base) [] NilPanic.
Proof.
  intros Hi Hc. unfold initializeServiceProvider, GetInitializer. by rewrite Hi, Hc.
Qed.
