(* ===== verification/Lookup.v ===== *)
(** * pkg/serviceprovider: metadata cache, filters and the generic lookup

    [MetadataCache] (cache.go), the token and remote secret filters
    (tokenfilter.go, rsfilter.go), [GetAllScopes] (util.go) and
    [GenericLookup] (lookup.go).  The goroutines of [GenericLookup.Lookup] are
    a pool of programs whose calls interleave arbitrarily ([pool_step]); the
    mutex makes each append to the shared slices one step. *)

From S2P Require Import Prelude GoStd GoUrl Api Externals SpErrors Effects SpConfig Samples.
Local Open Scope string_scope.
Local Open Scope list_scope.
Local Open Scope spi_scope.

(** ** cache.go *)

Definition MetadataExpirationPolicy : Type := SPIAccessToken -> prog bool.

(** Called only on tokens with metadata *)
Definition TtlMetadataExpirationPolicy (Ttl : Z) : MetadataExpirationPolicy := fun token =>
  match atst_TokenMetadata (at_Status token) with
  | None => Ret false
  | Some m =>
      let! now := call Now in
      Ret (tm_LastRefreshTime m * Second + Ttl <? now)%Z
  end.
Definition NeverMetadataExpirationPolicy : MetadataExpirationPolicy := fun _ => Ret false.

Record MetadataCache := mkMetadataCache {
  ExpirationPolicy : MetadataExpirationPolicy;
  CacheServiceProviderState : bool }.

(** [Factory.NewCacheWithExpirationPolicy] (serviceprovider.go) *)
Definition NewCacheWithExpirationPolicy (cfg : OperatorConfiguration) (policy : MetadataExpirationPolicy)
  : MetadataCache :=
  mkMetadataCache policy (String.eqb (opc_TokenMatchPolicy cfg) ExactTokenPolicy).

Definition set_metadata (m : option TokenMetadata) (t : SPIAccessToken) : SPIAccessToken :=
  with_token_status (set_atst_TokenMetadata m) t.

(** [Persist]: the token afterwards and the error *)
Definition Persist (token : SPIAccessToken) : prog (SPIAccessToken * option goerr) :=
  let! stamped :=
    match atst_TokenMetadata (at_Status token) with
    | Some m =>
        let! now := call Now in
        Ret (set_metadata (Some (set_tm_LastRefreshTime (Unix now) m)) token)
    | None => Ret token
    end in
  let! r := kube (KStatusUpdate KToken stamped) in
  match r with
  | Err err =>
      Ret (stamped, Some (Errorf_w ("metadata cache error: updating the status of token "
                            +:+ at_Namespace stamped +:+ "/" +:+ at_Name stamped) err))
  | Ok updated => Ret (updated, None)
  end.

Definition refresh (c : MetadataCache) (token : SPIAccessToken) : prog SPIAccessToken :=
  match atst_TokenMetadata (at_Status token) with
  | None => Ret token
  | Some _ =>
      let! expired := ExpirationPolicy c token in
      if expired then Ret (set_metadata None token) else Ret token
  end.

(** [Ensure] with a MetadataProvider [Fetch] *)
Definition Ensure (c : MetadataCache) (Fetch : SPIAccessToken -> bool -> prog (res (option TokenMetadata)))
  (token : SPIAccessToken) : prog (SPIAccessToken * option goerr) :=
  let wasPresent := match atst_TokenMetadata (at_Status token) with Some _ => true | None => false end in
  let! token := refresh c token in
  match atst_TokenMetadata (at_Status token) with
  | Some _ => Ret (token, None)
  | None =>
      let! data := Fetch token (CacheServiceProviderState c) in
      match data with
      | Err err => Ret (token, Some (Errorf_w "metadata cache error: fetching token data" err))
      | Ok data =>
          let token := set_metadata data token in
          if wasPresent || match data with Some _ => true | None => false end
          then Persist token
          else Ret (token, None)
      end
  end.

(** ** tokenfilter.go *)

(** A filter is given the token by reference: it answers the token as it leaves
    it, unless it panics. *)
Definition TokenFilter : Type := Matchable -> SPIAccessToken -> prog (go (SPIAccessToken * res bool)).
Definition MatchAllTokenFilter : TokenFilter := fun _ token => Ret (Returns (token, Ok true)).
Definition NewFilter (policy : string) (exactTokenFilter : TokenFilter) : TokenFilter :=
  if String.eqb policy AnyTokenPolicy then MatchAllTokenFilter else exactTokenFilter.

(** ** rsfilter.go *)

Definition RemoteSecretConditionTypeDataObtained : string := "DataObtained".

(** meta.IsStatusConditionTrue: the first condition of the type decides *)
Definition IsStatusConditionTrue (cs : list Condition) (type : string) : bool :=
  match List.find (fun c => String.eqb (cond_Type c) type) cs with
  | Some c => String.eqb (cond_Status c) "True"
  | None => false
  end.

Definition local_target (namespace : string) (t : TargetStatus) : bool :=
  String.eqb (ts_ApiUrl t) "" && String.eqb (ts_Error t) "" && String.eqb (ts_Namespace t) namespace.

(** [getLocalNamespaceTargetIndex] from index [i] on; -1 when there is none *)
Fixpoint local_target_index (i : Z) (targets : list TargetStatus) (namespace : string) : Z :=
  match targets with
  | [] => (-1)%Z
  | t :: rest => if local_target namespace t then i else local_target_index (i + 1) rest namespace
  end.
Definition getLocalNamespaceTargetIndex : list TargetStatus -> string -> Z := local_target_index 0.

Definition RemoteSecretFilter : Type := Matchable -> RemoteSecret -> bool.
Definition DefaultRemoteSecretFilterFunc : RemoteSecretFilter := fun m rs =>
  IsStatusConditionTrue (rs_Conditions rs) RemoteSecretConditionTypeDataObtained
  && String.eqb (rs_SecretType rs) SecretTypeBasicAuth
  && negb (getLocalNamespaceTargetIndex (rs_Targets rs) (m_ObjNamespace m) =? -1)%Z.

(** ** util.go *)

(** [GetAllScopes]: the set of scopes, in the order the map iteration yields *)
Definition GetAllScopes {X : Externals} (convertToScopes : Permission -> list string) (perms : Permissions)
  : list string :=
  let scopesSet : gset string :=
    list_to_set (perms_AdditionalScopes perms) ∪
    list_to_set (flat_map convertToScopes (perms_Required perms)) in
  iteration_order (elements scopesSet).

(** ** lookup.go *)

Definition missingTargetError : string :=
  "found RemoteSecret does not have a target in the SPIAccessCheck's namespace, this should not happen".
Definition accessTokenNotFoundError : string := "token data is not found in token storage".
Definition ScmCredentialsSecretLabel := "appstudio.redhat.com/credentials".
Definition ScmSecretHostnameLabel := "appstudio.redhat.com/scm.host".
Definition BasicAuthUsernameKey := "username".
Definition BasicAuthPasswordKey := "password".

Definition RepoUrlParser : Type := string -> res URL.

Definition RepoUrlFromString : RepoUrlParser := fun repoUrl =>
  match Parse repoUrl with
  | Err err => Err (Errorf_w "invalid url" err)
  | Ok parsed => Ok parsed
  end.

Definition RepoUrlFromSchemalessString : RepoUrlParser := fun repoUrl =>
  RepoUrlFromString (if Contains repoUrl "://" then repoUrl else "https://" +:+ repoUrl).

Record GenericLookup := mkGenericLookup {
  gl_ServiceProviderType : string;
  gl_TokenFilter : TokenFilter;
  gl_RemoteSecretFilter : option RemoteSecretFilter;
  gl_Fetch : SPIAccessToken -> bool -> prog (res (option TokenMetadata));
  gl_MetadataCache : MetadataCache;
  gl_RepoUrlParser : RepoUrlParser }.

(** The result of one goroutine; a panic in it ends the whole process. *)
Inductive candidate := Matched (t : SPIAccessToken) | NotMatched | Failed (e : goerr) | Crashed (what : string).
Definition crashed (c : candidate) : bool := match c with Crashed _ => true | _ => false end.

(** The goroutine started for one ready token *)
Definition examine (l : GenericLookup) (m : Matchable) (tkn : SPIAccessToken) : prog candidate :=
  let! (tkn, err) := Ensure (gl_MetadataCache l) (gl_Fetch l) tkn in
  match err with
  | Some e => Ret (Failed e)
  | None =>
      let! ok := gl_TokenFilter l m tkn in
      match ok with
      | Panics what => Ret (Crashed what)
      | Returns (_, Err e) => Ret (Failed e)
      | Returns (tkn, Ok true) => Ret (Matched tkn)
      | Returns (_, Ok false) => Ret NotMatched
      end
  end.

Definition is_ready (t : SPIAccessToken) : bool :=
  String.eqb (atst_Phase (at_Status t)) SPIAccessTokenPhaseReady.

(** The shared state of the goroutines *)
Record pool := mkPool {
  running : list (SPIAccessToken * prog candidate);
  result_ : list SPIAccessToken;
  errs_ : list goerr }.

Definition deliver (c : candidate) (p : pool) : pool :=
  match c with
  | Matched t => mkPool (running p) (result_ p ++ [t]) (errs_ p)
  | NotMatched | Crashed _ => p
  | Failed e => mkPool (running p) (result_ p) (errs_ p ++ [e])
  end.

(** One step: some goroutine gets the answer to its next call, or ends and
    delivers its result under the mutex.  A goroutine that panics delivers
    nothing, and nothing happens after it. *)
Inductive pool_step : pool -> list act -> pool -> Prop :=
| step_call pre post t X (e : Ev X) k x r es :
    pool_step (mkPool (pre ++ (t, Vis e k) :: post) r es) [Act e x]
              (mkPool (pre ++ (t, k x) :: post) r es)
| step_done pre post t c r es :
    crashed c = false ->
    pool_step (mkPool (pre ++ (t, Ret c) :: post) r es) []
              (deliver c (mkPool (pre ++ post) r es)).

(** [wg.Wait()]: the pool has run dry *)
Inductive pool_run : pool -> list act -> pool -> Prop :=
| run_dry r es : pool_run (mkPool [] r es) [] (mkPool [] r es)
| run_step p tr p' tr' p'' : pool_step p tr p' -> pool_run p' tr' p'' -> pool_run p (tr ++ tr') p''.

Definition spawn (l : GenericLookup) (m : Matchable) (tokens : list SPIAccessToken) : pool :=
  mkPool (map (fun t => (t, examine l m t)) (List.filter is_ready tokens)) [] [].

(** What [Lookup] returns once the pool has run dry *)
Definition collect {X : Externals} (p : pool) : res (list SPIAccessToken) :=
  if (0 <? length (errs_ p))%nat
  then Err (Errorf_w "errors while examining the potential matches" (NewAggregate (errs_ p)))
  else Ok (result_ p).

Definition lookup_labels (l : GenericLookup) (u : URL) : list (string * string) :=
  [(ServiceProviderTypeLabel, gl_ServiceProviderType l); (ServiceProviderHostLabel, Host u)].

(** [GenericLookup.Lookup]: the calls it may make and the results it may give *)
Inductive Lookup {X : Externals} (l : GenericLookup) (m : Matchable)
  : list act -> res (list SPIAccessToken) -> Prop :=
| Lookup_bad_url err :
    gl_RepoUrlParser l (m_RepoUrl m) = Err err ->
    Lookup l m [] (Err (Errorf_w ("error parsing the host from repo URL " +:+ m_RepoUrl m) err))
| Lookup_list_failed u err :
    gl_RepoUrlParser l (m_RepoUrl m) = Ok u ->
    Lookup l m [Act (Kube (KList KToken (m_ObjNamespace m) (lookup_labels l u) None)) (Err err)]
      (Err (Errorf_w "failed to list the potentially matching tokens" err))
| Lookup_examined u potentialMatches tr p :
    gl_RepoUrlParser l (m_RepoUrl m) = Ok u ->
    pool_run (spawn l m potentialMatches) tr p ->
    Lookup l m (Act (Kube (KList KToken (m_ObjNamespace m) (lookup_labels l u) None)) (Ok potentialMatches) :: tr)
      (collect p).

(** The schedule that runs the goroutines one after the other, as a program *)
Fixpoint examine_all (l : GenericLookup) (m : Matchable) (tokens : list SPIAccessToken) (p : pool)
  : prog (go pool) :=
  match tokens with
  | [] => Ret (Returns p)
  | t :: rest =>
      let! c := examine l m t in
      match c with
      | Crashed what => Ret (Panics what)
      | _ => examine_all l m rest (deliver c p)
      end
  end.

Definition Lookup_sequential {X : Externals} (l : GenericLookup) (m : Matchable)
  : prog (go (res (list SPIAccessToken))) :=
  match gl_RepoUrlParser l (m_RepoUrl m) with
  | Err err => Ret (Returns (Err (Errorf_w ("error parsing the host from repo URL " +:+ m_RepoUrl m) err)))
  | Ok u =>
      let! r := kube (KList KToken (m_ObjNamespace m) (lookup_labels l u) None) in
      match r with
      | Err err => Ret (Returns (Err (Errorf_w "failed to list the potentially matching tokens" err)))
      | Ok tokens =>
          let! p := examine_all l m (List.filter is_ready tokens) (mkPool [] [] []) in
          match p with
          | Returns p => Ret (Returns (collect p))
          | Panics what => Ret (Panics what)
          end
      end
  end.

Definition PersistMetadata_generic (l : GenericLookup) (token : SPIAccessToken)
  : prog (SPIAccessToken * option goerr) :=
  Ensure (gl_MetadataCache l) (gl_Fetch l) token.

(** ** lookup.go: credentials *)

Definition matches_filter (l : GenericLookup) (m : Matchable) (rs : RemoteSecret) : bool :=
  match gl_RemoteSecretFilter l with None => true | Some p => p m rs end.

Definition lookupRemoteSecrets (l : GenericLookup) (m : Matchable) : prog (res (list RemoteSecret)) :=
  match gl_RepoUrlParser l (m_RepoUrl m) with
  | Err err => Ret (Err (Errorf_w ("error parsing the repo URL " +:+ m_RepoUrl m) err))
  | Ok u =>
      let! r := kube (KList KRemoteSecret (m_ObjNamespace m) [(RSServiceProviderHostLabel, Host u)] None) in
      match r with
      | Err err => Ret (Err (Errorf_w "failed to list the potentially matching remote secrets" err))
      | Ok potentialMatches => Ret (Ok (List.filter (matches_filter l m) potentialMatches))
      end
  end.

(** The repositories named by the annotation contain the URL's path *)
Definition names_repository {X : Externals} (u : URL) (rs : RemoteSecret) : bool :=
  existsb (String.eqb (TrimPrefix (Path u) "/"))
    (cs_Values (cs_Value (map_get (om_Annotations (rs_Meta rs)) RSServiceProviderRepositoryAnnotation))).

Definition choose_remote_secret {X : Externals} (u : URL) (first : RemoteSecret) (all : list RemoteSecret)
  : RemoteSecret :=
  match List.find (names_repository u) all with Some rs => rs | None => first end.

Definition lookupRemoteSecretSecret {X : Externals} (l : GenericLookup) (m : Matchable)
  (remoteSecrets : list RemoteSecret) : prog (res (option Secret)) :=
  match remoteSecrets with
  | [] => Ret (Ok None)
  | first :: _ =>
      match gl_RepoUrlParser l (m_RepoUrl m) with
      | Err err => Ret (Err (Errorf_w ("error parsing the repo URL " +:+ m_RepoUrl m) err))
      | Ok u =>
          let rs := choose_remote_secret u first remoteSecrets in
          let targetIndex := getLocalNamespaceTargetIndex (rs_Targets rs) (m_ObjNamespace m) in
          if (targetIndex <? 0)%Z || (Z.of_nat (length (rs_Targets rs)) <=? targetIndex)%Z
          then Ret (Err (ErrorString missingTargetError))
          else match rs_Targets rs !! Z.to_nat targetIndex with
               | None => Ret (Err (ErrorString missingTargetError))
               | Some target =>
                   let! r := kube (KGet KSecret (mkKey (m_ObjNamespace m) (ts_SecretName target))) in
                   match r with
                   | Err err => Ret (Err (Errorf_w "unable to find Secret created by RemoteSecret" err))
                   | Ok secret => Ret (Ok (Some secret))
                   end
               end
      end
  end.

Definition lookupSCMSecret (l : GenericLookup) (m : Matchable) : prog (res (option Secret)) :=
  match gl_RepoUrlParser l (m_RepoUrl m) with
  | Err err => Ret (Err (Errorf_w ("error parsing the repo URL " +:+ m_RepoUrl m) err))
  | Ok u =>
      let! r := kube (KList KSecret (m_ObjNamespace m)
                  [(ScmCredentialsSecretLabel, "scm"); (ScmSecretHostnameLabel, Host u)] None) in
      match r with
      | Err err => Ret (Err (Errorf_w ("failed to list SCM secrets in " +:+ m_ObjNamespace m +:+ " namespace") err))
      | Ok [] => Ret (Ok None)
      | Ok (s :: _) => Ret (Ok (Some s))
      end
  end.

(** [LookupCredentials]; [lookup] is the call of [Lookup] it starts with *)
Definition LookupCredentials_generic {X : Externals} (lookup : prog (res (list SPIAccessToken)))
  (l : GenericLookup) (m : Matchable) : prog (res (option Credentials)) :=
  let! tokens := lookup in
  match tokens with
  | Err err => Ret (Err err)
  | Ok (token :: _) =>
      let! r := call (Ts (TsGet token)) in
      match r with
      | Err err => Ret (Err (Errorf_w "failed to get token data" err))
      | Ok None => Ret (Err (ErrorString accessTokenNotFoundError))
      | Ok (Some td) => Ret (Ok (Some (mkCredentials (td_Username td) (td_AccessToken td))))
      end
  | Ok [] =>
      let! rss := lookupRemoteSecrets l m in
      match rss with
      | Err err => Ret (Err err)
      | Ok remoteSecrets =>
          let! s := lookupRemoteSecretSecret l m remoteSecrets in
          match s with
          | Err err => Ret (Err err)
          | Ok found =>
              let! s :=
                match found with
                | Some s => Ret (Ok (Some s))
                | None => lookupSCMSecret l m
                end in
              match s with
              | Err err => Ret (Err err)
              | Ok None => Ret (Ok None)
              | Ok (Some secret) =>
                  Ret (Ok (Some (mkCredentials (map_get (sec_Data secret) BasicAuthUsernameKey)
                                               (map_get (sec_Data secret) BasicAuthPasswordKey))))
              end
          end
      end
  end.

(** ** Lemmas: the pool *)

(** One goroutine's complete run: its token, its calls and its result *)
Record decided := mkDecided { dec_token : SPIAccessToken; dec_trace : list act; dec_result : candidate }.

Definition matched_of (d : decided) : option SPIAccessToken :=
  match dec_result d with Matched t => Some t | _ => None end.
Definition failed_of (d : decided) : option goerr :=
  match dec_result d with Failed e => Some e | _ => None end.

(** The run [d] decides the goroutine [g] *)
Definition decides (g : SPIAccessToken * prog candidate) (d : decided) : Prop :=
  g.1 = dec_token d /\ exec g.2 (dec_trace d) (dec_result d) /\ crashed (dec_result d) = false.

(** [ds] lists the goroutines of [gs], each with a run that decides it. *)
Definition all_decided (gs : list (SPIAccessToken * prog candidate)) (ds : list decided) : Prop :=
  exists gs', Permutation gs gs' /\ Forall2 decides gs' ds.

Lemma all_decided_cons_inv g gs ds :
  all_decided (g :: gs) ds -> exists ds1 d ds2, ds = ds1 ++ d :: ds2 /\ decides g d /\ all_decided gs (ds1 ++ ds2).
Proof.
  intros (gs' & P & F).
  assert (In g gs') as (g1 & g2 & ->)%in_split by (by eapply Permutation_in; [exact P|left]).
  apply Forall2_app_inv_l in F as (ds1 & ds2 & F1 & F2 & ->).
  inversion F2 as [|? d ? ds3 Hd F3]; subst. exists ds1, d, ds3. split; [done|]. split; [done|].
  exists (g1 ++ g2). split; [by apply Permutation_cons_app_inv in P|by apply Forall2_app].
Qed.

Lemma all_decided_insert g gs ds1 d ds2 :
  decides g d -> all_decided gs (ds1 ++ ds2) -> all_decided (g :: gs) (ds1 ++ d :: ds2).
Proof.
  intros Hd (gs' & P & F). apply Forall2_app_inv_r in F as (g1 & g2 & F1 & F2 & ->).
  exists (g1 ++ g :: g2). split.
  - rewrite P. apply Permutation_middle.
  - apply Forall2_app; [done|]. by constructor.
Qed.

Lemma all_decided_perm gs gs' ds : Permutation gs gs' -> all_decided gs ds -> all_decided gs' ds.
Proof. intros P (g & P' & F). exists g. split; [by rewrite <- P|done]. Qed.

Definition traces (ds : list decided) : list act := concat (map dec_trace ds).

Lemma traces_app ds1 ds2 : traces (ds1 ++ ds2) = traces ds1 ++ traces ds2.
Proof. unfold traces. by rewrite map_app, concat_app. Qed.

(** Whatever the schedule, the runs of the goroutines of a pool explain its
    final state and, up to their interleaving, all its calls. *)
Lemma pool_run_decided p tr p' :
  pool_run p tr p' ->
  running p' = [] /\
  exists ds, all_decided (running p) ds /\
    result_ p' = result_ p ++ omap matched_of ds /\
    errs_ p' = errs_ p ++ omap failed_of ds /\
    Permutation tr (traces ds).
Proof.
  induction 1 as [r es|p tr p' tr' p'' Hs _ [Hdry (ds & Hd & Hr & He & Ht)]].
  - split; [done|]. exists []. cbn. rewrite !app_nil_r. split; [by exists []|done].
  - split; [done|]. inversion Hs as [pre post t X e k x r es|pre post t c r es Hc]; subst; cbn in *.
    + apply (all_decided_perm _ _ _ (Permutation_sym (Permutation_middle _ _ _))) in Hd.
      apply all_decided_cons_inv in Hd as (ds1 & d & ds2 & -> & (Htok & Hx & Hcr) & Hd). cbn in Htok, Hx.
      exists (ds1 ++ mkDecided t (Act e x :: dec_trace d) (dec_result d) :: ds2).
      split; [|split; [|split]].
      * eapply all_decided_perm; [apply Permutation_middle|]. apply all_decided_insert; [|done].
        split; [done|]. split; [by apply exec_Vis|done].
      * by rewrite Hr, !omap_app.
      * by rewrite He, !omap_app.
      * rewrite traces_app in *. cbn in *. rewrite Ht. apply Permutation_middle.
    + replace (running (deliver c (mkPool (pre ++ post) r es))) with (pre ++ post) in Hd by by destruct c.
      exists (mkDecided t [] c :: ds). split; [|split; [|split]].
      * eapply all_decided_perm; [apply Permutation_middle|].
        apply (all_decided_insert _ _ []); [by repeat split|done].
      * rewrite Hr. destruct c; cbn; [by rewrite <- app_assoc|done..].
      * rewrite He. destruct c; cbn; (done || by rewrite <- app_assoc).
      * done.
Qed.

Lemma spawn_decided l m tokens ds :
  all_decided (running (spawn l m tokens)) ds ->
  Permutation (map dec_token ds) (List.filter is_ready tokens) /\
  Forall (fun d => exec (examine l m (dec_token d)) (dec_trace d) (dec_result d) /\ crashed (dec_result d) = false) ds.
Proof.
  intros (gs & P & F). cbn in P.
  assert (Forall (fun g => g.2 = examine l m g.1) gs) as HF.
  { rewrite <- P. apply List.Forall_forall. intros g. rewrite in_map_iff. by intros (t & <- & _). }
  split.
  - transitivity (map fst gs).
    + clear P HF. induction F as [|g d gs ds [H _] _ IH]; cbn; [done|]. by rewrite <- H, IH.
    + rewrite <- P, map_map. cbn. by rewrite map_id.
  - clear P. induction F as [|g d gs ds (H1 & H2 & H3) F IH]; [done|].
    inversion HF as [|? ? Hg HF']; subst. constructor; [|by apply IH].
    rewrite <- H1, <- Hg. by split.
Qed.

(** The sequential schedule is one of the schedules of the pool. *)
Lemma pool_run_one t post r es (p : prog candidate) : forall tr c tr' p',
  exec p tr c -> crashed c = false ->
  pool_run (deliver c (mkPool post r es)) tr' p' ->
  pool_run (mkPool ((t, p) :: post) r es) (tr ++ tr') p'.
Proof.
  induction p as [c0|Y e k IH]; intros tr c tr' p' H Hc Hrun.
  - destruct H as [-> ->]. apply (run_step _ [] (deliver c0 (mkPool post r es))); [|done].
    by apply (step_done [] post t c0 r es).
  - destruct H as (x & tr1 & -> & H).
    apply (run_step _ [Act e x] (mkPool ((t, k x) :: post) r es)).
    + apply (step_call [] post t Y e k x r es).
    + by eapply IH.
Qed.

Lemma examine_all_run l m tokens : forall r es tr p,
  exec (examine_all l m tokens (mkPool [] r es)) tr (Returns p) ->
  pool_run (mkPool (map (fun t => (t, examine l m t)) tokens) r es) tr p.
Proof.
  induction tokens as [|t tokens IH]; intros r es tr p H; cbn [examine_all] in H.
  - destruct H as [-> [= ->]]. constructor.
  - apply exec_bind in H as (c & tr1 & tr2 & -> & H1 & H2). cbn [map].
    eapply pool_run_one; [exact H1|by destruct c; [..|destruct H2]|].
    destruct c; cbn [deliver result_ errs_ running] in *; [by apply IH..|by destruct H2].
Qed.

(** ** Lemmas: targets and filters *)

Lemma local_target_index_spec ns targets : forall i, (0 <= i)%Z ->
  (local_target_index i targets ns = -1)%Z \/
  exists n t, local_target_index i targets ns = (i + Z.of_nat n)%Z /\ n < length targets /\
    targets !! n = Some t /\ local_target ns t = true.
Proof.
  induction targets as [|t targets IH]; intros i Hi; cbn [local_target_index]; [by left|].
  destruct (local_target ns t) eqn:E.
  - right. exists 0, t. cbn. repeat split; [lia|lia|done].
  - destruct (IH (i + 1)%Z) as [->|(n & t' & -> & Hn & Ht & Hl)]; [lia|by left|].
    right. exists (S n), t'. cbn. repeat split; [lia|lia|done|done].
Qed.

Lemma lookupRemoteSecrets_filtered l m p tr rss :
  gl_RemoteSecretFilter l = Some p ->
  exec (lookupRemoteSecrets l m) tr (Ok rss) -> forall rs, In rs rss -> p m rs = true.
Proof.
  intros Hp H rs Hin. unfold lookupRemoteSecrets in H.
  destruct (gl_RepoUrlParser l (m_RepoUrl m)) as [u|]; exec_steps.
  destruct x as [potential|]; exec_steps. apply List.filter_In in Hin as [_ Hm].
  unfold matches_filter in Hm. by rewrite Hp in Hm.
Qed.

Lemma choose_remote_secret_in {X : Externals} u first rest :
  In (choose_remote_secret u first (first :: rest)) (first :: rest).
Proof.
  unfold choose_remote_secret. destruct (List.find _ _) as [rs|] eqn:E; [|by left].
  apply List.find_some in E. tauto.
Qed.

Definition listing {X : Externals} (l : GenericLookup) (m : Matchable) (u : URL)
  (r : res (list SPIAccessToken)) : act :=
  Act (Kube (KList KToken (m_ObjNamespace m) (lookup_labels l u) None)) r.

(** A token that a lookup offers: a listed, ready token whose metadata could be
    ensured, as the filter accepted it, with the calls of both among those of [tr] *)
Definition offered (l : GenericLookup) (m : Matchable) (tokens : list SPIAccessToken) (tr : list act)
  (t : SPIAccessToken) : Prop :=
  exists listed ensured asked filtered, In listed tokens /\ is_ready listed = true /\ incl (asked ++ filtered) tr /\
    exec (Ensure (gl_MetadataCache l) (gl_Fetch l) listed) asked (ensured, None) /\
    exec (gl_TokenFilter l m ensured) filtered (Returns (t, Ok true)).

Lemma examine_matched l m token seg t : exec (examine l m token) seg (Matched t) ->
  exists ensured asked filtered, seg = asked ++ filtered /\
    exec (Ensure (gl_MetadataCache l) (gl_Fetch l) token) asked (ensured, None) /\
    exec (gl_TokenFilter l m ensured) filtered (Returns (t, Ok true)).
Proof.
  intros ([ensured err] & asked & rest & -> & H1 & H)%exec_bind. destruct err as [e|]; [by destruct H as [_ [=]]|].
  apply exec_bind in H as (r & filtered & rest' & -> & H2 & H). exists ensured, asked, filtered.
  destruct r as [[t' [[]|e]]|what]; destruct H as [-> H]; try discriminate H. injection H as ->. by rewrite app_nil_r.
Qed.

Lemma offered_incl l m tokens tr tr' t : offered l m tokens tr t -> incl tr tr' -> offered l m tokens tr' t.
Proof. intros (listed & e & s1 & s2 & H1 & H2 & H3 & H4) Hi. exists listed, e, s1, s2. eauto using incl_tran. Qed.

(** Whatever the schedule, every token that is found was offered. *)
Lemma Lookup_found {X : Externals} l m tr ts : Lookup l m tr (Ok ts) ->
  exists u tokens tr', gl_RepoUrlParser l (m_RepoUrl m) = Ok u /\ tr = listing l m u (Ok tokens) :: tr' /\
    Forall (offered l m tokens tr') ts.
Proof.
  intros H. inversion H as [| |u tokens tr' p Hu Hrun E1 E2]; subst. exists u, tokens, tr'. do 2 (split; [done|]).
  apply pool_run_decided in Hrun as (_ & ds & Hd & Hr & He & Ht). cbn in Hr, He.
  apply spawn_decided in Hd as [Hp HF]. unfold collect in E2. rewrite Hr in E2.
  destruct (0 <? length (errs_ p))%nat; [done|]. injection E2 as <-.
  apply List.Forall_forall. intros t Hin. apply list_elem_of_In, list_elem_of_omap in Hin as (d & Hd%list_elem_of_In & Hm).
  rewrite List.Forall_forall in HF. destruct (HF d Hd) as [Hx _]. unfold matched_of in Hm.
  destruct (dec_result d) as [t'| | |] eqn:Er; [|done..]. injection Hm as ->.
  assert (In (dec_token d) (List.filter is_ready tokens)) as [Hin Hready]%List.filter_In
    by (eapply Permutation_in; [exact Hp|by apply in_map]).
  apply examine_matched in Hx as (ensured & asked & filtered & Eq & H1 & H2).
  exists (dec_token d), ensured, asked, filtered. split_and!; [done..| |done|done].
  rewrite <- Eq. intros a Ha. eapply Permutation_in; [symmetry; exact Ht|]. apply in_concat. exists (dec_trace d). split; [by apply in_map|done].
Qed.

(** ** Theorems *)

(** C15 [Lookup] under every interleaving of its goroutines.  Apart from an
    unparsable repository URL and a failed listing, a lookup lists the tokens
    of the matchable's namespace labelled with the provider type and the URL's
    host, decides each ready token exactly once by a complete run of its
    goroutine that does not panic, and makes no other calls than an interleaving of those runs.
    If some run failed the lookup fails with all the failures and returns no
    tokens; otherwise it returns exactly the tokens that matched: none is lost
    or duplicated, whatever the schedule. *)
Theorem Lookup_every_schedule {X : Externals} l m tr r :
  Lookup l m tr r ->
  (exists e, gl_RepoUrlParser l (m_RepoUrl m) = Err e /\ tr = [] /\ is_ok r = false) \/
  (exists u e, gl_RepoUrlParser l (m_RepoUrl m) = Ok u /\ tr = [listing l m u (Err e)] /\ is_ok r = false) \/
  (exists u tokens ds tr',
    gl_RepoUrlParser l (m_RepoUrl m) = Ok u /\ tr = listing l m u (Ok tokens) :: tr' /\
    Permutation (map dec_token ds) (List.filter is_ready tokens) /\
    Forall (fun d => exec (examine l m (dec_token d)) (dec_trace d) (dec_result d) /\ crashed (dec_result d) = false) ds /\
    Permutation tr' (traces ds) /\
    r = match omap failed_of ds with
        | [] => Ok (omap matched_of ds)
        | es => Err (Errorf_w "errors while examining the potential matches" (NewAggregate es))
        end).
Proof.
  intros H. inversion H as [e He|u e Hu|u tokens tr' p Hu Hrun]; subst; [by eauto|by eauto 8|].
  right; right. apply pool_run_decided in Hrun as (_ & ds & Hd & Hr & He & Ht). cbn in Hr, He.
  apply spawn_decided in Hd as [Hp HF].
  exists u, tokens, ds, tr'. do 5 (split; [done|]).
  unfold collect. rewrite He, Hr. by destruct (omap failed_of ds).
Qed.

Lemma Lookup_sequential_sound {X : Externals} l m tr r :
  exec (Lookup_sequential l m) tr (Returns r) -> Lookup l m tr r.
Proof.
  unfold Lookup_sequential. destruct (gl_RepoUrlParser l (m_RepoUrl m)) as [u|e] eqn:Eu.
  - intros H. exec_steps. destruct x as [tokens|e]; exec_steps; [|injection H as ->; by eapply Lookup_list_failed].
    apply exec_bind in H as ([p|what] & tr1 & tr2 & -> & H1 & H2); destruct H2 as [-> H2]; [|done].
    injection H2 as ->. rewrite app_nil_r.
    apply examine_all_run in H1. by eapply Lookup_examined.
  - intros [-> [= ->]]. by apply Lookup_bad_url.
Qed.

(** The program that examines the candidates one after the other is one of
    the behaviours of the concurrent lookup: the concurrent lookup can always
    answer what the sequential one does, with the same calls. *)
Theorem Lookup_sequential_refines {X : Externals} l m tr r :
  exec (Lookup_sequential l m) tr (Returns r) -> Lookup l m tr r.
Proof. apply Lookup_sequential_sound. Qed.

Definition sample_lookup : GenericLookup :=
  mkGenericLookup "Quay" MatchAllTokenFilter (Some DefaultRemoteSecretFilterFunc)
    (fun t st => call (Sp (FetchMetadata t st))) (mkMetadataCache NeverMetadataExpirationPolicy false)
    RepoUrlFromSchemalessString.
Definition sample_matchable : Matchable := mkMatchable "quay.io/org/repo" "ns" no_permissions.
Definition sample_lookup_script : script :=
  mkScript (Err not_found) (Err not_found) (Err not_found) (Err not_found) (Err not_found)
    (Err not_found) (Err not_found) (Err not_found)
    [sample_token "a" "Ready" (Some sample_metadata); sample_token "b" "Error" None;
     sample_token "c" "Ready" None] [] [] [] None None None
    (Ok sample_sp) (Ok []) (Ok []) None (Ok None) (Ok (Some sample_metadata)) (Ok None) (Ok "")
    (Ok (mkDependents (sample_secret "dep" ∅ ∅) [])) None 5000000000.

Example sample_lookup_result :
  match result_of sample_lookup_script (Lookup_sequential sample_lookup sample_matchable) with
  | Returns (Ok ts) => map at_Name ts
  | _ => []
  end = ["a"; "c"].
Proof. vm_compute. reflexivity. Qed.

Definition sample_lookup_answer : res (list SPIAccessToken) :=
  match result_of sample_lookup_script (Lookup_sequential sample_lookup sample_matchable) with
  | Returns r => r
  | Panics _ => Ok []
  end.
Lemma sample_lookup_exec :
  exec (Lookup_sequential sample_lookup sample_matchable)
    (trace_of sample_lookup_script (Lookup_sequential sample_lookup sample_matchable)) (Returns sample_lookup_answer).
Proof. exact (scripted_exec sample_lookup_script (Lookup_sequential sample_lookup sample_matchable)). Qed.

Lemma Lookup_sequential_refines_witness :
  Lookup sample_lookup sample_matchable
    (trace_of sample_lookup_script (Lookup_sequential sample_lookup sample_matchable)) sample_lookup_answer.
Proof. apply Lookup_sequential_refines, sample_lookup_exec. Defined.

Lemma Lookup_every_schedule_witness :
  exists tr r, length tr = 4 /\ is_ok r = true /\ Lookup sample_lookup sample_matchable tr r /\
  ((exists e, gl_RepoUrlParser sample_lookup (m_RepoUrl sample_matchable) = Err e /\ tr = [] /\ is_ok r = false) \/
   (exists u e, gl_RepoUrlParser sample_lookup (m_RepoUrl sample_matchable) = Ok u /\
      tr = [listing sample_lookup sample_matchable u (Err e)] /\ is_ok r = false) \/
   (exists u tokens ds tr',
    gl_RepoUrlParser sample_lookup (m_RepoUrl sample_matchable) = Ok u /\
    tr = listing sample_lookup sample_matchable u (Ok tokens) :: tr' /\
    Permutation (map dec_token ds) (List.filter is_ready tokens) /\
    Forall (fun d => exec (examine sample_lookup sample_matchable (dec_token d)) (dec_trace d) (dec_result d) /\
                     crashed (dec_result d) = false) ds /\
    Permutation tr' (traces ds) /\
    r = match omap failed_of ds with
        | [] => Ok (omap matched_of ds)
        | es => Err (Errorf_w "errors while examining the potential matches" (NewAggregate es))
        end)).
Proof.
  pose (p := Lookup_sequential sample_lookup sample_matchable).
  exists (trace_of sample_lookup_script p), sample_lookup_answer.
  assert (Lookup sample_lookup sample_matchable (trace_of sample_lookup_script p) sample_lookup_answer) as H.
  { apply Lookup_sequential_sound, sample_lookup_exec. }
  split; [reflexivity|]. split; [reflexivity|]. split; [exact H|].
  exact (Lookup_every_schedule _ _ _ _ H).
Defined.

(** ** The metadata cache *)

Lemma set_metadata_twice m m' t : set_metadata m (set_metadata m' t) = set_metadata m t.
Proof. done. Qed.

Lemma Persist_ok tok tr tok' :
  exec (Persist tok) tr (tok', None) ->
  match atst_TokenMetadata (at_Status tok) with
  | None => tr = [Act (Kube (KStatusUpdate KToken tok)) (Ok tok')]
  | Some m => exists now,
      tr = [Act Now now;
            Act (Kube (KStatusUpdate KToken
              (set_metadata (Some (set_tm_LastRefreshTime (Unix now) m)) tok))) (Ok tok')]
  end.
Proof.
  unfold Persist. intros H. destruct (atst_TokenMetadata (at_Status tok)) as [m|]; exec_steps.
  - destruct x0 as [o|e]; exec_steps. injection H as ->. eauto.
  - destruct x as [o|e]; exec_steps. by injection H as ->.
Qed.

#[local] Arguments Persist : simpl never.

Definition fetched (t : SPIAccessToken) (st : bool) (data : option TokenMetadata) : act :=
  Act (Sp (FetchMetadata t st)) (Ok data).

(** [MetadataCache.Ensure] with a TTL policy, whenever it succeeds: either the
    token had metadata that the clock showed to be within the TTL, and then
    nothing is fetched or written and the token is unchanged; or the metadata
    was absent or past the TTL, the provider was asked exactly once, and the
    answer is persisted in a single status update, stamped with the current
    second when there is metadata - except that an absent answer for a token
    without metadata is not written at all. *)
Theorem Ensure_ttl ttl st tok tr tok' :
  exec (Ensure (mkMetadataCache (TtlMetadataExpirationPolicy ttl) st)
          (fun t b => call (Sp (FetchMetadata t b))) tok) tr (tok', None) ->
  (exists m now, atst_TokenMetadata (at_Status tok) = Some m /\ tok' = tok /\ tr = [Act Now now] /\
     (now <= tm_LastRefreshTime m * Second + ttl)%Z) \/
  (exists asked data tr',
     match atst_TokenMetadata (at_Status tok) with
     | None => asked = tok /\ tr = fetched asked st data :: tr'
     | Some m => asked = set_metadata None tok /\ exists now,
         tr = Act Now now :: fetched asked st data :: tr' /\
         (tm_LastRefreshTime m * Second + ttl < now)%Z
     end /\
     match data, atst_TokenMetadata (at_Status tok) with
     | None, None => tr' = [] /\ tok' = set_metadata None tok
     | None, Some _ => tr' = [Act (Kube (KStatusUpdate KToken (set_metadata None tok))) (Ok tok')]
     | Some d, _ => exists now,
         tr' = [Act Now now;
                Act (Kube (KStatusUpdate KToken
                  (set_metadata (Some (set_tm_LastRefreshTime (Unix now) d)) tok))) (Ok tok')]
     end).
Proof.
  unfold Ensure, refresh, TtlMetadataExpirationPolicy. cbn [ExpirationPolicy CacheServiceProviderState].
  intros H. destruct (atst_TokenMetadata (at_Status tok)) as [m|] eqn:Em; cbn [bind] in H.
  - exec_steps. destruct (Z.ltb_spec (tm_LastRefreshTime m * Second + ttl) x) as [Hlt|Hle]; cbn [bind] in H.
    + right. cbn in H. exec_steps. destruct x0 as [data|e]; exec_steps. cbn [orb] in H.
      apply Persist_ok in H. exists (set_metadata None tok), data, tr.
      split; [by eauto|]. destruct data as [d|]; exact H.
    + left. rewrite Em in H. exec_steps. injection H as ->. eauto 8.
  - right. rewrite Em in H. exec_steps. destruct x as [data|e]; exec_steps.
    exists tok, data. destruct data as [d|]; cbn [orb] in H.
    + apply Persist_ok in H. eexists. split; [eauto|]. exact H.
    + exec_steps. injection H as ->. exists []. done.
Qed.

Definition cache_script (now : Z) : script :=
  mkScript (Err not_found) (Err not_found) (Err not_found) (Err not_found) (Err not_found)
    (Err not_found) (Err not_found) (Err not_found) [] [] [] [] None None None
    (Ok sample_sp) (Ok []) (Ok []) None (Ok None) (Ok (Some sample_metadata)) (Ok None) (Ok "")
    (Ok (mkDependents (sample_secret "dep" ∅ ∅) [])) None now.

Definition sample_ensure : prog (SPIAccessToken * option goerr) :=
  Ensure (mkMetadataCache (TtlMetadataExpirationPolicy (Hour)) false)
    (fun t b => call (Sp (FetchMetadata t b))) (sample_token "a" "Ready" (Some sample_metadata)).

(** At second 5 the metadata of second 0 is fresh for a TTL of one hour. *)
Lemma Ensure_ttl_witness :
  exists tr tok', exec sample_ensure tr (tok', None) /\ length tr = 1 /\
  ((exists m now, atst_TokenMetadata (at_Status (sample_token "a" "Ready" (Some sample_metadata))) = Some m /\
     tok' = sample_token "a" "Ready" (Some sample_metadata) /\ tr = [Act Now now] /\
     (now <= tm_LastRefreshTime m * Second + Hour)%Z) \/ length tr <> 1).
Proof.
  pose proof (scripted_exec (cache_script 5000000000) sample_ensure) as H.
  exists (trace_of (cache_script 5000000000) sample_ensure), (sample_token "a" "Ready" (Some sample_metadata)).
  split; [exact H|]. split; [reflexivity|].
  destruct (Ensure_ttl Hour false _ _ _ H) as [Hk|(asked & data & tr' & Hs & _)]; [left; exact Hk|].
  cbn in Hs. destruct Hs as (_ & now & Htr & _). discriminate Htr.
Defined.

(** ** Credentials *)

(** With the default remote secret filter the error that "should not happen"
    does not happen: for remote secrets that [lookupRemoteSecrets] returned,
    [lookupRemoteSecretSecret] never fails with [missingTargetError], and the
    secret it reads is the one named by a target of a listed remote secret in
    the matchable's own namespace on the local cluster, without an error. *)
Theorem lookupRemoteSecretSecret_target {X : Externals} l m tr1 rss tr2 r :
  gl_RemoteSecretFilter l = Some DefaultRemoteSecretFilterFunc ->
  exec (lookupRemoteSecrets l m) tr1 (Ok rss) ->
  exec (lookupRemoteSecretSecret l m rss) tr2 r ->
  r <> Err (ErrorString missingTargetError) /\
  (forall s, r = Ok (Some s) -> exists rs target,
     In rs rss /\ In target (rs_Targets rs) /\ local_target (m_ObjNamespace m) target = true /\
     tr2 = [Act (Kube (KGet KSecret (mkKey (m_ObjNamespace m) (ts_SecretName target)))) (Ok s)]).
Proof.
  intros Hf H1 H2. pose proof (lookupRemoteSecrets_filtered _ _ _ _ _ Hf H1) as Hall. clear H1.
  unfold lookupRemoteSecretSecret in H2. destruct rss as [|first rest]; [exec_steps; done|].
  destruct (gl_RepoUrlParser l (m_RepoUrl m)) as [u|e]; [|exec_steps; done].
  pose proof (choose_remote_secret_in u first rest) as Hin.
  set (rs := choose_remote_secret u first (first :: rest)) in *.
  specialize (Hall rs Hin). unfold DefaultRemoteSecretFilterFunc in Hall. reflect_bools.
  destruct Hall as [_ Hidx]. unfold getLocalNamespaceTargetIndex in *.
  destruct (local_target_index_spec (m_ObjNamespace m) (rs_Targets rs) 0) as [|(n & t & Hn & Hlen & Ht & Hl)];
    [lia|done|].
  rewrite Z.add_0_l in Hn. rewrite Hn, Nat2Z.id, Ht in H2.
  destruct (Z.ltb_spec (Z.of_nat n) 0), (Z.leb_spec (Z.of_nat (length (rs_Targets rs))) (Z.of_nat n)); try lia.
  cbn in H2. exec_steps. destruct x as [s|e]; exec_steps; (split; [done|]); intros s' Hs; [|done].
  apply Ok_inj in Hs. injection Hs as ->. exists rs, t.
  repeat split; [done| |done]. apply list_elem_of_In. by eapply list_elem_of_lookup_2.
Qed.

Definition sample_remote_secret : RemoteSecret :=
  mkRemoteSecret "RemoteSecret" (sample_meta "rs") SecretTypeBasicAuth ∅
    [mkCondition RemoteSecretConditionTypeDataObtained "True" "" ""]
    [mkTargetStatus "" "other" "" "s0"; mkTargetStatus "" "ns" "" "s1"] [].
Definition remote_secret_script : script :=
  mkScript (Err not_found) (Err not_found) (Err not_found) (Err not_found) (Err not_found)
    (Ok (sample_secret "s1" ∅ ∅)) (Err not_found) (Err not_found) [] [] [] [sample_remote_secret] None None None
    (Ok sample_sp) (Ok []) (Ok []) None (Ok None) (Ok None) (Ok None) (Ok "")
    (Ok (mkDependents (sample_secret "dep" ∅ ∅) [])) None 0.

Lemma lookupRemoteSecretSecret_target_witness :
  result_of remote_secret_script (lookupRemoteSecretSecret sample_lookup sample_matchable [sample_remote_secret])
    <> Err (ErrorString missingTargetError).
Proof.
  refine (proj1 (lookupRemoteSecretSecret_target sample_lookup sample_matchable
    (trace_of remote_secret_script (lookupRemoteSecrets sample_lookup sample_matchable))
    [sample_remote_secret] _ _ eq_refl _ (scripted_exec _ _))).
  exact (scripted_exec remote_secret_script (lookupRemoteSecrets sample_lookup sample_matchable)).
Defined.
