(* ===== verification/AccessTokenMapper.v ===== *)
(** * Access token mapping: from a token to the data of the injected secret

    access_token_mapper.go, [DefaultMapToken] (serviceprovider.go) and
    controllers/tokens/secretdatagetter.go. *)

From S2P Require Import Prelude GoStd GoUrl GoJson GoBase64 Api Externals SpErrors Effects Samples.
Local Open Scope string_scope.
Local Open Scope list_scope.
Local Open Scope spi_scope.

(** ** json.MarshalIndent *)

Definition nl : string := String (ascii_of_N 10) EmptyString.
Definition tab : string := String (ascii_of_N 9) EmptyString.

(** [json.MarshalIndent] of the docker config with one entry *)
Definition marshal_docker_config (authKey auth : string) : string :=
  "{" +:+ nl +:+ tab +:+ json_string "auths" +:+ ": {" +:+ nl
  +:+ tab +:+ tab +:+ json_string authKey +:+ ": {" +:+ nl
  +:+ tab +:+ tab +:+ tab +:+ json_string "auth" +:+ ": " +:+ json_string auth +:+ nl
  +:+ tab +:+ tab +:+ "}" +:+ nl +:+ tab +:+ "}" +:+ nl +:+ "}".

(** ** access_token_mapper.go *)

Definition tokenKey := "token".
Definition dockerConfigJsonTypeAnnotationKey := "spi.appstudio.redhat.com/config-json-type".
Definition dockerConfigJsonExplicitAnnotationKey := "spi.appstudio.redhat.com/config-json-auth-key".
Definition dockerConfigJsonTypeKubernetes := "kubernetes".
Definition dockerConfigJsonTypeDocker := "docker".
Definition dockerConfigJsonTypeExplicit := "explicit".

Definition noExplicitAnnotationKeyError : string :=
  "annotation " +:+ dockerConfigJsonExplicitAnnotationKey +:+ " is required when "
    +:+ dockerConfigJsonTypeAnnotationKey +:+ " is set to " +:+ dockerConfigJsonTypeExplicit.
Definition unknownTypeAnnotationKeyError : string :=
  "unknown value for annotation " +:+ dockerConfigJsonTypeAnnotationKey.

(** corev1 keys of secret data *)
Definition BasicAuthUsernameKey := "username".
Definition BasicAuthPasswordKey := "password".
Definition DockerConfigKey := ".dockercfg".
Definition DockerConfigJsonKey := ".dockerconfigjson".
Definition SSHAuthPrivateKey := "ssh-privatekey".

(** The key under which the credentials are filed in the docker config *)
Definition docker_auth_key (annotations : gmap string string) (parsed : URL) : res string :=
  let t := map_get annotations dockerConfigJsonTypeAnnotationKey in
  if String.eqb t dockerConfigJsonTypeDocker || String.eqb t "" then Ok (Host parsed)
  else if String.eqb t dockerConfigJsonTypeKubernetes then Ok (Host parsed +:+ Path parsed)
  else if String.eqb t dockerConfigJsonTypeExplicit then
    match annotations !! dockerConfigJsonExplicitAnnotationKey with
    | None => Err (ErrorString noExplicitAnnotationKeyError)
    | Some val => Ok val
    end
  else Err (WrapError (unknownTypeAnnotationKeyError +:+ ": " +:+ t) (ErrorString unknownTypeAnnotationKeyError)).

Definition encodeDockerConfig (at_ : AccessTokenMapper) (annotations : gmap string string)
  (repoUrl : string) : res string :=
  match Parse repoUrl with
  | Err err => Err (Errorf_w "failed to parse service provider url" err)
  | Ok parsed =>
      let encoded := EncodeToString StdEncoding
                       (atm_ServiceProviderUserName at_ +:+ ":" +:+ atm_Token at_) in
      let? authKey := docker_auth_key annotations parsed in
      Ok (marshal_docker_config authKey encoded)
  end.

(** One conditional assignment of [fillByMapping] *)
Definition put (key value : string) (m : gmap string string) : gmap string string :=
  if String.eqb key "" then m else <[key := value]> m.

Definition fillByMapping (at_ : AccessTokenMapper) (mapping : TokenFieldMapping)
  (existingMap : gmap string string) : gmap string string :=
  if mapping_Empty mapping then <[tokenKey := atm_Token at_]> existingMap
  else
    let m := put (tfm_Token mapping) (atm_Token at_) existingMap in
    let m := match atm_ExpiredAfter at_ with
             | Some e => put (tfm_ExpiredAfter mapping) (FormatUint e) m
             | None => m
             end in
    let m := put (tfm_Name mapping) (atm_Name at_) m in
    let m := put (tfm_Scopes mapping) (Join (atm_Scopes at_) ",") m in
    let m := put (tfm_ServiceProviderUrl mapping) (atm_ServiceProviderUrl at_) m in
    let m := put (tfm_ServiceProviderUserId mapping) (atm_ServiceProviderUserId at_) m in
    let m := put (tfm_ServiceProviderUserName mapping) (atm_ServiceProviderUserName at_) m in
    put (tfm_UserId mapping) (atm_UserId at_) m.

Definition ToSecretType (at_ : AccessTokenMapper) (spec : SPIAccessTokenBindingSpec)
  : res (gmap string string) :=
  let s := bsp_Secret spec in
  let t := ss_Type s in
  if String.eqb t SecretTypeBasicAuth then
    Ok (<[BasicAuthPasswordKey := atm_Token at_]>
         (<[BasicAuthUsernameKey := atm_ServiceProviderUserName at_]> ∅))
  else if String.eqb t SecretTypeServiceAccountToken then Ok (<["extra" := atm_Token at_]> ∅)
  else if String.eqb t SecretTypeDockercfg then Ok (<[DockerConfigKey := atm_Token at_]> ∅)
  else if String.eqb t SecretTypeDockerConfigJson then
    let? dockerConfig := encodeDockerConfig at_ (ss_Annotations s) (bsp_RepoUrl spec) in
    Ok (<[DockerConfigJsonKey := dockerConfig]> ∅)
  else if String.eqb t SecretTypeSSHAuth then Ok (<[SSHAuthPrivateKey := atm_Token at_]> ∅)
  else Ok (fillByMapping at_ (ss_Fields s) ∅).

(** ** serviceprovider.go: DefaultMapToken *)

Definition DefaultMapToken (tokenObject : SPIAccessToken) (tokenData : Token) : AccessTokenMapper :=
  let md := atst_TokenMetadata (at_Status tokenObject) in
  mkMapper (at_Name tokenObject) (td_AccessToken tokenData)
    (atsp_ServiceProviderUrl (at_Spec tokenObject))
    (match md with Some m => tm_Username m | None => "" end)
    (match md with Some m => tm_UserId m | None => "" end)
    "" (Some (td_Expiry tokenData))
    (match md with Some m => tm_Scopes m | None => [] end).

(** ** controllers/tokens/secretdatagetter.go *)

(** bindings.SecretDataNotFoundError of remote-secret *)
Definition SecretDataNotFoundError : string := "secret data not found".

(** [GetData]: the data of the secret, or the reason and the error *)
Definition GetData (b : SPIAccessTokenBinding) (sp : ServiceProvider) (tokenObject : SPIAccessToken)
  : prog (result (string * goerr) (gmap string string)) :=
  let! r := call (Ts (TsGet tokenObject)) in
  match r with
  | Err err => Ret (Err (BindingErrorReasonTokenRetrieval,
                         Errorf_w "failed to get the token data from token storage" err))
  | Ok None => Ret (Err (BindingErrorReasonTokenRetrieval, ErrorString SecretDataNotFoundError))
  | Ok (Some token) =>
      let! m := call (Sp (MapToken sp b tokenObject token)) in
      match m with
      | Err err => Ret (Err (BindingErrorReasonTokenAnalysis,
                             Errorf_w "failed to analyze the token to produce the mapping to the secret" err))
      | Ok at_ =>
          match ToSecretType at_ (b_Spec b) with
          | Err err => Ret (Err (BindingErrorReasonTokenAnalysis,
                                 Errorf_w "failed to create data to be injected into the secret" err))
          | Ok stringData => Ret (Ok stringData)
          end
      end
  end.

(** ** Lemmas *)

Lemma put_lookup k v m k' :
  put k v m !! k' = if negb (String.eqb k "") && String.eqb k k' then Some v else m !! k'.
Proof.
  unfold put. destruct (String.eqb_spec k ""); cbn; [done|].
  destruct (String.eqb_spec k k') as [->|]; [by rewrite lookup_insert_eq|by rewrite lookup_insert_ne].
Qed.

(** The assignments of [fillByMapping] in the order they are made *)
Definition assignments (at_ : AccessTokenMapper) (mp : TokenFieldMapping) : list (string * string) :=
  (tfm_Token mp, atm_Token at_) ::
  match atm_ExpiredAfter at_ with Some e => [(tfm_ExpiredAfter mp, FormatUint e)] | None => [] end ++
  [(tfm_Name mp, atm_Name at_); (tfm_Scopes mp, Join (atm_Scopes at_) ",");
   (tfm_ServiceProviderUrl mp, atm_ServiceProviderUrl at_);
   (tfm_ServiceProviderUserId mp, atm_ServiceProviderUserId at_);
   (tfm_ServiceProviderUserName mp, atm_ServiceProviderUserName at_);
   (tfm_UserId mp, atm_UserId at_)].

Fixpoint last_assigned (k : string) (l : list (string * string)) : option string :=
  match l with
  | [] => None
  | (k', v) :: rest =>
      match last_assigned k rest with
      | Some w => Some w
      | None => if String.eqb k' k then Some v else None
      end
  end.

Lemma puts_lookup k l : k <> "" -> forall m,
  fold_left (fun m kv => put kv.1 kv.2 m) l m !! k =
  match last_assigned k l with Some v => Some v | None => m !! k end.
Proof.
  intros Hk. induction l as [|[k' v] l IH]; intros m; cbn; [done|].
  rewrite IH, put_lookup. destruct (last_assigned k l); [done|].
  destruct (String.eqb_spec k' k) as [->|]; [|by rewrite andb_false_r].
  apply String.eqb_neq in Hk. by rewrite Hk.
Qed.

Lemma fillByMapping_fold at_ mp m :
  mapping_Empty mp = false ->
  fillByMapping at_ mp m = fold_left (fun m kv => put kv.1 kv.2 m) (assignments at_ mp) m.
Proof. intros H. unfold fillByMapping, assignments. rewrite H. by destruct (atm_ExpiredAfter at_). Qed.

Lemma puts_no_empty_key l : forall m, m !! "" = None ->
  fold_left (fun m kv => put kv.1 kv.2 m) l m !! "" = None.
Proof.
  induction l as [|[k v] l IH]; intros m Hm; cbn; [done|]. apply IH.
  rewrite put_lookup. by destruct (String.eqb_spec k "").
Qed.

(** The data of a secret of a type without its own layout: with an empty
    field mapping the token alone under the key [token]; otherwise every key
    holds the value of the last mapped field assigned to it, in the order
    token, expiry (when known), name, scopes, url, user id, user name, id, and
    no key is set that the mapping does not name. *)
Theorem ToSecretType_mapped at_ spec :
  let t := ss_Type (bsp_Secret spec) in
  let mp := ss_Fields (bsp_Secret spec) in
  ~ In t [SecretTypeBasicAuth; SecretTypeServiceAccountToken; SecretTypeDockercfg;
          SecretTypeDockerConfigJson; SecretTypeSSHAuth] ->
  exists m, ToSecretType at_ spec = Ok m /\
    if mapping_Empty mp then m = {[tokenKey := atm_Token at_]}
    else forall k, m !! k = if String.eqb k "" then None else last_assigned k (assignments at_ mp).
Proof.
  intros t mp Ht. unfold ToSecretType. fold t mp.
  assert (forall s, In s [SecretTypeBasicAuth; SecretTypeServiceAccountToken; SecretTypeDockercfg;
    SecretTypeDockerConfigJson; SecretTypeSSHAuth] -> String.eqb t s = false) as Hne.
  { intros s Hs. apply String.eqb_neq. intros ->. by apply Ht. }
  rewrite !Hne by (cbn; tauto).
  eexists. split; [done|]. destruct (mapping_Empty mp) eqn:E.
  - unfold fillByMapping. by rewrite E.
  - intros k. rewrite fillByMapping_fold by done. destruct (String.eqb_spec k "") as [->|Hk].
    + by apply puts_no_empty_key.
    + rewrite puts_lookup by done. by destruct (last_assigned k _).
Qed.

Definition sample_mapper : AccessTokenMapper :=
  mkMapper "tok" "s3cret" "https://quay.io" "alois" "42" "" (Some 77%Z) ["r"; "w"].
Definition mapped_spec : SPIAccessTokenBindingSpec :=
  mkBindingSpec "https://quay.io/org/repo" no_permissions
    (mkSecretSpec "s" "" "Opaque" ∅ ∅ [] (mkFieldMapping "k" "" "" "k" "" "" "exp" "scopes")) "".

Lemma ToSecretType_mapped_witness :
  exists m, ToSecretType sample_mapper mapped_spec = Ok m /\
    m !! "k" = Some "alois" /\ m !! "exp" = Some "77" /\ m !! "scopes" = Some "r,w" /\ m !! "x" = None.
Proof.
  destruct (ToSecretType_mapped sample_mapper mapped_spec) as (m & H & Hk).
  - cbn. intros Hin. repeat (destruct Hin as [Hin|Hin]; [discriminate Hin|]). exact Hin.
  - cbn in Hk. exists m. split; [exact H|]. rewrite !Hk. vm_compute. done.
Defined.

(** Docker config secrets: the key of the credentials is the repository
    host, the host with the path, or the explicitly annotated key, as the type
    annotation says; it is an error exactly when the URL does not parse, the
    annotation is unknown, or the explicit key is missing; and decoding the
    [auth] value that is written gives back the user name and the token. *)
Theorem encodeDockerConfig_auth at_ annotations repoUrl :
  let t := map_get annotations dockerConfigJsonTypeAnnotationKey in
  match encodeDockerConfig at_ annotations repoUrl with
  | Err _ =>
      is_ok (Parse repoUrl) = false \/
      ~ In t [""; dockerConfigJsonTypeDocker; dockerConfigJsonTypeKubernetes; dockerConfigJsonTypeExplicit] \/
      (t = dockerConfigJsonTypeExplicit /\ annotations !! dockerConfigJsonExplicitAnnotationKey = None)
  | Ok out => exists u key auth,
      Parse repoUrl = Ok u /\ out = marshal_docker_config key auth /\
      DecodeString StdEncoding auth = Ok (atm_ServiceProviderUserName at_ +:+ ":" +:+ atm_Token at_) /\
      ((In t [""; dockerConfigJsonTypeDocker] /\ key = Host u) \/
       (t = dockerConfigJsonTypeKubernetes /\ key = Host u +:+ Path u) \/
       (t = dockerConfigJsonTypeExplicit /\ annotations !! dockerConfigJsonExplicitAnnotationKey = Some key))
  end.
Proof.
  intros t. unfold encodeDockerConfig. destruct (Parse repoUrl) as [u|e]; [|by left].
  unfold docker_auth_key. fold t.
  set (auth := EncodeToString _ _).
  assert (DecodeString StdEncoding auth = Ok (atm_ServiceProviderUserName at_ +:+ ":" +:+ atm_Token at_)) as Ha
    by apply base64_roundtrip.
  destruct (String.eqb_spec t dockerConfigJsonTypeDocker) as [Et|Nd]; [|destruct (String.eqb_spec t "") as [Et|Ne]].
  1, 2: cbn [orb rbind]; exists u, (Host u), auth; cbn; naive_solver.
  cbn [orb]. destruct (String.eqb_spec t dockerConfigJsonTypeKubernetes) as [Et|Nk].
  { cbn [rbind]. exists u, (Host u +:+ Path u), auth. naive_solver. }
  destruct (String.eqb_spec t dockerConfigJsonTypeExplicit) as [Et|Nx].
  - destruct (annotations !! dockerConfigJsonExplicitAnnotationKey) as [k|] eqn:Ek; cbn [rbind].
    + exists u, k, auth. naive_solver.
    + right; right. done.
  - cbn [rbind]. right; left. cbn. naive_solver.
Qed.
