(* ===== verification/BindingTarget.v ===== *)
(** * controllers/bindingtarget: what the dependents handler knows of a binding

    [BindingTargetObjectMarker] records in the labels and annotations of a
    secret or service account which bindings manage and reference it;
    [BindingNamespaceTarget] presents a binding as a deployment target.  An
    object is its [ObjectMeta]: the marker touches nothing else.  The
    comma-separated sets of remote-secret are a parameter (class [Externals])
    with the laws of [CommaSeparated]. *)

From S2P Require Import Prelude GoStd Api Externals Effects Samples.
Local Open Scope string_scope.
Local Open Scope list_scope.

(** ** target.go *)

Record BindingNamespaceTarget := mkTarget { tgt_Binding : SPIAccessTokenBinding }.

Definition GetActualSecretName (t : BindingNamespaceTarget) : string :=
  tor_Name (bst_SyncedObjectRef (b_Status (tgt_Binding t))).
Definition GetActualServiceAccountNames (t : BindingNamespaceTarget) : list string :=
  bst_ServiceAccountNames (b_Status (tgt_Binding t)).
Definition GetTargetObjectKey (t : BindingNamespaceTarget) : ObjectKey :=
  ObjectKeyFromObject (b_Meta (tgt_Binding t)).
Definition GetSpec (t : BindingNamespaceTarget) : SecretSpec := bsp_Secret (b_Spec (tgt_Binding t)).
Definition GetTargetNamespace (t : BindingNamespaceTarget) : string := b_Namespace (tgt_Binding t).
Definition GetTargetType (t : BindingNamespaceTarget) : string := "Binding".
Definition GetActualManagedAnnotations (t : BindingNamespaceTarget) : list string := [].
Definition GetActualManagedLabels (t : BindingNamespaceTarget) : list string := [].

(** ** objectmarker.go *)

Definition LinkAnnotation := "spi.appstudio.redhat.com/linked-access-token-binding".
Definition ManagedByBindingLabel := "spi.appstudio.redhat.com/managed-by-binding".

Section marker.
Context {X : Externals}.

Definition IsReferencedBy (binding : ObjectKey) (o : ObjectMeta) : bool :=
if decide (om_Annotations o = ∅) then false
else cs_Contains (cs_Value (map_get (om_Annotations o) LinkAnnotation)) (key_Name binding).

Definition IsManagedBy (binding : ObjectKey) (o : ObjectMeta) : bool :=
IsReferencedBy binding o &&
String.eqb (map_get (om_Labels o) ManagedByBindingLabel) (key_Name binding).

(** [None]: not managed by another binding *)
Definition IsManagedByOther (binding : ObjectKey) (o : ObjectMeta) : option ObjectKey :=
match om_Labels o !! ManagedByBindingLabel with
| None => None
| Some managingValue =>
    if String.eqb managingValue (key_Name binding) then None
    else Some (mkKey (om_Namespace o) managingValue)
end.

Definition ListManagedOptions (binding : ObjectKey) : list (string * string) :=
[(ManagedByBindingLabel, key_Name binding)].
Definition ListReferencedOptions (binding : ObjectKey) : list (string * string) := [].

Definition MarkReferenced (binding : ObjectKey) (o : ObjectMeta) : bool * ObjectMeta :=
let val := cs_Value (map_get (om_Annotations o) LinkAnnotation) in
if negb (cs_Contains val (key_Name binding)) then
  let val := cs_Add (key_Name binding) val in
  (true, set_om_Annotations (<[LinkAnnotation := cs_String val]> (om_Annotations o)) o)
else (false, o).

Definition MarkManaged (binding : ObjectKey) (o : ObjectMeta) : bool * ObjectMeta :=
let '(changed, o) := MarkReferenced binding o in
let val := map_get (om_Labels o) ManagedByBindingLabel in
if negb (String.eqb val (key_Name binding)) then
  (true, set_om_Labels (<[ManagedByBindingLabel := key_Name binding]> (om_Labels o)) o)
else (changed, o).

Definition UnmarkManaged (binding : ObjectKey) (o : ObjectMeta) : bool * ObjectMeta :=
let name := map_get (om_Labels o) ManagedByBindingLabel in
let contains := bool_decide (is_Some (om_Labels o !! ManagedByBindingLabel)) in
(contains,
 if String.eqb name (key_Name binding)
 then set_om_Labels (delete ManagedByBindingLabel (om_Labels o)) o else o).

Definition UnmarkReferenced (binding : ObjectKey) (o : ObjectMeta) : bool * ObjectMeta :=
match om_Annotations o !! LinkAnnotation with
| None => (false, o)
| Some v =>
    let names := cs_Value v in
    if cs_Contains names (key_Name binding) then
      let names := cs_Remove (key_Name binding) names in
      (true, set_om_Annotations
         (if Nat.eqb (cs_Len names) 0 then delete LinkAnnotation (om_Annotations o)
          else <[LinkAnnotation := cs_String names]> (om_Annotations o)) o)
    else (false, o)
end.

(** The loop writing [keys[i]]; [None] is an index out of range. *)
Fixpoint fill_keys (namespace : string) (i : nat) (values : list string) (keys : list ObjectKey)
: option (list ObjectKey) :=
match values with
| [] => Some keys
| n :: rest =>
    if decide (i < length keys)
    then fill_keys namespace (S i) rest (<[i := mkKey namespace n]> keys)
    else None
end.

Definition GetReferencingTargets (o : ObjectMeta) : option (list ObjectKey) :=
match om_Annotations o !! LinkAnnotation with
| None => Some []
| Some v =>
    let names := cs_Value v in
    fill_keys (om_Namespace o) 0 (cs_Values names) (replicate (cs_Len names) (mkKey "" ""))
end.
End marker.

(** ** The contract of comma-separated sets

    A plain name is what a Kubernetes object name is: not empty, no comma. *)

Definition plain (n : string) : Prop := n <> "" /\ cut_char "," n = None.

Class CommaSeparated (X : Externals) := {
  cs_wf : cs_t -> Prop;
  cs_wf_Value s : cs_wf (cs_Value s);
  cs_wf_Add n s : plain n -> cs_wf s -> cs_wf (cs_Add n s);
  cs_wf_Remove n s : cs_wf s -> cs_wf (cs_Remove n s);
  cs_empty n : cs_Contains (cs_Value "") n = false;
  cs_Contains_Add n s m : cs_Contains (cs_Add n s) m = String.eqb n m || cs_Contains s m;
  cs_Contains_Remove n s m : cs_Contains (cs_Remove n s) m = negb (String.eqb n m) && cs_Contains s m;
  cs_Value_String s n : cs_wf s -> plain n -> cs_Contains (cs_Value (cs_String s)) n = cs_Contains s n;
  cs_Len_0 s n : cs_Len s = 0 -> cs_Contains s n = false;
  cs_In_Values s n : In n (cs_Values s) <-> cs_Contains s n = true;
  cs_length_Values s : length (cs_Values s) = cs_Len s
}.

(** ** The abstract state of a marked object *)

(** Which bindings reference an object, and which one manages it *)
Record marks := mkMarks { referenced : gset string; manager : option string }.

Inductive mark_op :=
| OpMarkReferenced (b : ObjectKey) | OpUnmarkReferenced (b : ObjectKey)
| OpMarkManaged (b : ObjectKey) | OpUnmarkManaged (b : ObjectKey).
Definition op_binding (op : mark_op) : ObjectKey :=
  match op with
  | OpMarkReferenced b | OpUnmarkReferenced b | OpMarkManaged b | OpUnmarkManaged b => b
  end.

Definition mark_step {X : Externals} (op : mark_op) (o : ObjectMeta) : bool * ObjectMeta :=
  match op with
  | OpMarkReferenced b => MarkReferenced b o
  | OpUnmarkReferenced b => UnmarkReferenced b o
  | OpMarkManaged b => MarkManaged b o
  | OpUnmarkManaged b => UnmarkManaged b o
  end.

(** The abstract operations; the flag of [OpUnmarkManaged] says that the object
    was managed, by whichever binding. *)
Definition abstract_step (op : mark_op) (m : marks) : bool * marks :=
  match op with
  | OpMarkReferenced b =>
      (bool_decide (key_Name b ∉ referenced m),
       mkMarks ({[key_Name b]} ∪ referenced m) (manager m))
  | OpUnmarkReferenced b =>
      (bool_decide (key_Name b ∈ referenced m),
       mkMarks (referenced m ∖ {[key_Name b]}) (manager m))
  | OpMarkManaged b =>
      (bool_decide (key_Name b ∉ referenced m \/ manager m <> Some (key_Name b)),
       mkMarks ({[key_Name b]} ∪ referenced m) (Some (key_Name b)))
  | OpUnmarkManaged b =>
      (bool_decide (is_Some (manager m)),
       mkMarks (referenced m) (if decide (manager m = Some (key_Name b)) then None else manager m))
  end.

Fixpoint run_marks {S} (step : mark_op -> S -> bool * S) (ops : list mark_op) (s : S) : list bool * S :=
  match ops with
  | [] => ([], s)
  | op :: rest =>
      let '(changed, s) := step op s in
      let '(flags, s) := run_marks step rest s in (changed :: flags, s)
  end.

(** An object shows the marks [m], and is otherwise the object [o0]. *)
Record shows {X : Externals} (o0 o : ObjectMeta) (m : marks) : Prop := {
  shows_refs n : plain n ->
    cs_Contains (cs_Value (map_get (om_Annotations o) LinkAnnotation)) n = bool_decide (n ∈ referenced m);
  shows_manager : om_Labels o !! ManagedByBindingLabel = manager m;
  shows_frame :
    (om_Name o, om_Namespace o, om_Finalizers o, om_DeletionTimestamp o,
     delete LinkAnnotation (om_Annotations o), delete ManagedByBindingLabel (om_Labels o)) =
    (om_Name o0, om_Namespace o0, om_Finalizers o0, om_DeletionTimestamp o0,
     delete LinkAnnotation (om_Annotations o0), delete ManagedByBindingLabel (om_Labels o0)) }.

(** ** Lemmas *)

Section marker_lemmas.
Context {X : Externals} {L : CommaSeparated X}.

(** Marking never changes the set of the label or of the annotation's set
  beyond the binding it is called for. *)
Lemma MarkReferenced_shows b o0 o m :
plain (key_Name b) -> shows o0 o m ->
(MarkReferenced b o).1 = (abstract_step (OpMarkReferenced b) m).1 /\
shows o0 (MarkReferenced b o).2 (abstract_step (OpMarkReferenced b) m).2.
Proof using L.
intros Hp [Hr Hm Hf]. unfold MarkReferenced. rewrite (Hr _ Hp). cbn.
destruct (decide (key_Name b ∈ referenced m)) as [Hin|Hin].
- rewrite bool_decide_true by done. cbn. rewrite bool_decide_false by tauto. split; [done|].
  replace ({[key_Name b]} ∪ referenced m) with (referenced m) by set_solver.
  by split.
- rewrite bool_decide_false by done. cbn. rewrite bool_decide_true by done. split; [done|].
  split; cbn.
  + intros n Hn. unfold map_get at 1. rewrite lookup_insert_eq. cbn.
    rewrite cs_Value_String, cs_Contains_Add, Hr by auto using cs_wf_Add, cs_wf_Value.
    destruct (String.eqb_spec (key_Name b) n) as [->|]; cbn.
    * by rewrite bool_decide_true by set_solver.
    * apply bool_decide_ext. set_solver.
  + done.
  + rewrite delete_insert_eq. done.
Qed.

Lemma MarkManaged_shows b o0 o m :
plain (key_Name b) -> shows o0 o m ->
(MarkManaged b o).1 = (abstract_step (OpMarkManaged b) m).1 /\
shows o0 (MarkManaged b o).2 (abstract_step (OpMarkManaged b) m).2.
Proof using L.
intros Hp Hs. destruct (MarkReferenced_shows b o0 o m Hp Hs) as [H1 H2].
unfold MarkManaged. destruct (MarkReferenced b o) as [changed o'] eqn:E.
cbn [fst snd] in *. destruct H2 as [Hr Hm Hf]. cbn in *.
assert (map_get (om_Labels o') ManagedByBindingLabel = default "" (manager m)) as ->
  by (unfold map_get; by rewrite Hm).
destruct (String.eqb_spec (default "" (manager m)) (key_Name b)) as [Heq|Hne]; cbn.
- assert (manager m = Some (key_Name b)) as Hmb.
  { destruct (manager m) as [n|]; cbn in Heq; [by rewrite Heq|]. by destruct Hp. }
  rewrite H1. split; [apply bool_decide_ext; naive_solver|]. split; cbn; [done|by rewrite Hm|done].
- rewrite bool_decide_true by (right; intros Hc; apply Hne; by rewrite Hc). split; [done|].
  split; cbn; [done|by rewrite lookup_insert_eq|].
  rewrite delete_insert_eq. done.
Qed.

Lemma UnmarkManaged_shows b o0 o m :
plain (key_Name b) -> shows o0 o m ->
(UnmarkManaged b o).1 = (abstract_step (OpUnmarkManaged b) m).1 /\
shows o0 (UnmarkManaged b o).2 (abstract_step (OpUnmarkManaged b) m).2.
Proof using L.
intros Hp [Hr Hm Hf]. unfold UnmarkManaged, map_get. rewrite Hm. cbn. split; [done|].
destruct (String.eqb_spec (default "" (manager m)) (key_Name b)) as [Heq|Hne].
- assert (manager m = Some (key_Name b)) as Hmb.
  { destruct (manager m) as [n|]; cbn in Heq; [by rewrite Heq|]. by destruct Hp. }
  rewrite decide_True by done. split; cbn; [done|by rewrite lookup_delete_eq|].
  rewrite delete_delete_eq. done.
- rewrite decide_False by (intros Hc; apply Hne; by rewrite Hc). by split.
Qed.

Lemma UnmarkReferenced_shows b o0 o m :
plain (key_Name b) -> shows o0 o m ->
(UnmarkReferenced b o).1 = (abstract_step (OpUnmarkReferenced b) m).1 /\
shows o0 (UnmarkReferenced b o).2 (abstract_step (OpUnmarkReferenced b) m).2.
Proof using L.
intros Hp [Hr Hm Hf]. unfold UnmarkReferenced. unfold map_get in Hr.
destruct (om_Annotations o !! LinkAnnotation) as [v|] eqn:Ev; cbn in *.
- rewrite (Hr _ Hp). destruct (decide (key_Name b ∈ referenced m)) as [Hin|Hin].
  + rewrite bool_decide_true by done. cbn. split; [done|]. split; cbn.
    * intros n Hn. unfold map_get.
      assert (cs_Contains (cs_Remove (key_Name b) (cs_Value v)) n =
              bool_decide (n ∈ referenced m ∖ {[key_Name b]})) as Hrem.
      { rewrite cs_Contains_Remove, Hr by done.
        destruct (String.eqb_spec (key_Name b) n) as [->|]; cbn.
        - by rewrite bool_decide_false by set_solver.
        - apply bool_decide_ext. set_solver. }
      destruct (Nat.eqb_spec (cs_Len (cs_Remove (key_Name b) (cs_Value v))) 0) as [H0|_].
      -- rewrite lookup_delete_eq. cbn. rewrite cs_empty, <- Hrem. symmetry. by apply cs_Len_0.
      -- rewrite lookup_insert_eq. cbn. rewrite cs_Value_String; [done|by apply cs_wf_Remove, cs_wf_Value|done].
    * done.
    * rewrite <- Hf. f_equal. f_equal.
      destruct (Nat.eqb _ 0); [by rewrite delete_delete_eq|by rewrite delete_insert_eq].
  + rewrite bool_decide_false by done. cbn. split; [done|].
    replace (referenced m ∖ {[key_Name b]}) with (referenced m) by set_solver.
    split; cbn; [intros n Hn; unfold map_get; rewrite Ev; by apply Hr|done..].
- assert (key_Name b ∉ referenced m) as Hout.
  { apply (proj1 (bool_decide_eq_false _)). rewrite <- (Hr _ Hp). apply cs_empty. }
  rewrite bool_decide_false by done. split; [done|].
  replace (referenced m ∖ {[key_Name b]}) with (referenced m) by set_solver.
  split; cbn; [intros n Hn; unfold map_get; rewrite Ev; by apply Hr|done..].
Qed.
End marker_lemmas.

Lemma mark_step_shows {X : Externals} {L : CommaSeparated X} op o0 o m :
  plain (key_Name (op_binding op)) -> shows o0 o m ->
  (mark_step op o).1 = (abstract_step op m).1 /\
  shows o0 (mark_step op o).2 (abstract_step op m).2.
Proof.
  destruct op; cbn [op_binding mark_step]; intros Hp Hs;
    [by apply MarkReferenced_shows|by apply UnmarkReferenced_shows|
     by apply MarkManaged_shows|by apply UnmarkManaged_shows].
Qed.

(** C30 The marker implements a set of referencing bindings and an optional
    managing binding: any sequence of marks and unmarks by any bindings
    returns the flags of the abstract operations and ends in an object that
    shows the abstract state; for every binding, [IsReferencedBy],
    [IsManagedBy] and [IsManagedByOther] then answer as the abstract state
    says, and everything else of the object is as it was. *)
Theorem marker_refines_marks {X : Externals} {L : CommaSeparated X} ops o m :
  Forall (fun op => plain (key_Name (op_binding op))) ops ->
  shows o o m ->
  (run_marks mark_step ops o).1 = (run_marks abstract_step ops m).1 /\
  let o' := (run_marks mark_step ops o).2 in
  let m' := (run_marks abstract_step ops m).2 in
  shows o o' m' /\
  forall b, plain (key_Name b) ->
    IsReferencedBy b o' = bool_decide (key_Name b ∈ referenced m') /\
    IsManagedBy b o' = bool_decide (key_Name b ∈ referenced m' /\ manager m' = Some (key_Name b)) /\
    (IsManagedByOther b o' = None <-> manager m' = None \/ manager m' = Some (key_Name b)).
Proof.
  intros Hops Hs.
  assert (forall o1 m1, shows o o1 m1 ->
    (run_marks mark_step ops o1).1 = (run_marks abstract_step ops m1).1 /\
    shows o (run_marks mark_step ops o1).2 (run_marks abstract_step ops m1).2) as Hrun.
  { induction Hops as [|op ops Hp _ IH]; intros o1 m1 H1; cbn; [done|].
    destruct (mark_step_shows op o o1 m1 Hp H1) as [Hf Hs1].
    destruct (mark_step op o1) as [c o2], (abstract_step op m1) as [c' m2]. cbn in *.
    destruct (IH _ _ Hs1) as [Hfs Hs2].
    destruct (run_marks mark_step ops o2), (run_marks abstract_step ops m2). cbn in *. by subst. }
  destruct (Hrun _ _ Hs) as [Hflags Hs']. split; [done|]. cbv zeta. split; [done|].
  intros b Hp. destruct Hs' as [Hr Hm _].
  set (o' := (run_marks mark_step ops o).2) in *. set (m' := (run_marks abstract_step ops m).2) in *.
  assert (IsReferencedBy b o' = bool_decide (key_Name b ∈ referenced m')) as Hrb.
  { unfold IsReferencedBy. rewrite <- (Hr _ Hp). destruct (decide _) as [He|]; [|done].
    unfold map_get. rewrite He, lookup_empty. cbn. by rewrite cs_empty. }
  split; [done|]. unfold IsManagedBy, IsManagedByOther, map_get. rewrite Hrb, Hm. split.
  - rewrite bool_decide_and. f_equal. destruct (manager m') as [n|]; cbn.
    + destruct (String.eqb_spec n (key_Name b)); symmetry; [apply bool_decide_eq_true|apply bool_decide_eq_false]; naive_solver.
    + rewrite bool_decide_false by done. apply String.eqb_neq. intros He. by destruct Hp.
  - destruct (manager m') as [n|]; [|naive_solver].
    destruct (String.eqb_spec n (key_Name b)); naive_solver.
Qed.

(** [GetReferencingTargets] never indexes out of range, and lists, in the
    namespace of the object, exactly the bindings that reference it. *)
Theorem GetReferencingTargets_correct {X : Externals} {L : CommaSeparated X} o :
  exists keys, GetReferencingTargets o = Some keys /\
    (forall k, In k keys -> key_Namespace k = om_Namespace o) /\
    (forall n, In n (map key_Name keys) <-> IsReferencedBy (mkKey "" n) o = true).
Proof.
  assert (forall ns values pre post,
    length values = length post ->
    fill_keys ns (length pre) values (pre ++ post) = Some (pre ++ map (mkKey ns) values)) as Hfill.
  { intros ns. induction values as [|n values IH]; intros pre [|p post]; cbn; try done.
    intros [= Hlen]. rewrite decide_True by (rewrite length_app; cbn; lia).
    rewrite insert_app_r_alt by done. rewrite Nat.sub_diag. cbn.
    specialize (IH (pre ++ [mkKey ns n]) post Hlen).
    rewrite length_app, <- !app_assoc in IH. cbn in IH. by rewrite Nat.add_1_r in IH. }
  unfold GetReferencingTargets, IsReferencedBy, map_get. cbn.
  destruct (om_Annotations o !! LinkAnnotation) as [v|] eqn:Ev; cbn.
  - pose proof (Hfill (om_Namespace o) (cs_Values (cs_Value v)) [] (replicate (cs_Len (cs_Value v)) (mkKey "" ""))) as Hf.
    cbn in Hf. rewrite Hf by (rewrite cs_length_Values, length_replicate; done).
    eexists. split; [done|]. split.
    + intros k (n & <- & _)%in_map_iff. done.
    + intros n. rewrite map_map. cbn. rewrite map_id, cs_In_Values.
      rewrite decide_False; [done|]. intros He. by rewrite He in Ev.
  - exists []. split; [done|]. split; [done|]. intros n. rewrite cs_empty. cbn. by destruct (decide _).
Qed.

(** ** The comma-separated sets of [sample_externals] satisfy the contract *)

Definition no_comma (n : string) : Prop := cut_char "," n = None.

Lemma no_comma_cons c n : no_comma (String c n) <-> c <> ","%char /\ no_comma n.
Proof.
  unfold no_comma. cbn. destruct (Ascii.eqb_spec "," c) as [<-|]; [naive_solver|].
  destruct (cut_char "," n); cbn; naive_solver.
Qed.

Lemma Split_no_comma s : Forall no_comma (Split s ",").
Proof.
  induction s as [|c s IH]; cbn; [by constructor|].
  destruct (Ascii.eqb_spec c ","); [by constructor|].
  destruct (Split s ","); [by constructor; [apply no_comma_cons|]|].
  inversion IH; subst. constructor; [by apply no_comma_cons|done].
Qed.

Lemma Split_word n s : no_comma n -> Split (n +:+ "," +:+ s) "," = n :: Split s ",".
Proof.
  induction n as [|c n IH]; [done|]. intros [Hc Hn]%no_comma_cons.
  rewrite str_app_cons. cbn. apply Ascii.eqb_neq in Hc. rewrite Hc, IH; done.
Qed.

Lemma Split_one n : no_comma n -> Split n "," = [n].
Proof.
  induction n as [|c n IH]; [done|]. intros [Hc Hn]%no_comma_cons.
  cbn. apply Ascii.eqb_neq in Hc. rewrite Hc, IH; done.
Qed.

Lemma Split_Join vs : vs <> [] -> Forall no_comma vs -> Split (Join vs ",") "," = vs.
Proof.
  intros Hne Hvs. induction Hvs as [|n [|n' vs] Hn Hvs IH]; [done|by apply Split_one|].
  cbn [Join]. rewrite Split_word by done. f_equal. by apply IH.
Qed.

Lemma existsb_app_one (f : string -> bool) vs v : existsb f (vs ++ [v]) = f v || existsb f vs.
Proof. rewrite existsb_app. cbn. rewrite orb_false_r. apply orb_comm. Qed.

Lemma existsb_eqb n vs : existsb (String.eqb n) vs = true <-> In n vs.
Proof.
  rewrite existsb_exists. split; [|intros H; exists n; by rewrite String.eqb_refl].
  by intros (x & Hx & ->%String.eqb_eq).
Qed.

Lemma sample_Value_String vs n : Forall no_comma vs -> plain n ->
  existsb (String.eqb n) (if String.eqb (Join vs ",") "" then [] else Split (Join vs ",") ",") =
  existsb (String.eqb n) vs.
Proof.
  intros Hvs [Hn _]. destruct vs as [|v vs]; [done|].
  destruct (String.eqb_spec (Join (v :: vs) ",") "") as [He|]; [|by rewrite Split_Join].
  destruct vs as [|w vs]; cbn [Join] in He.
  - subst v. cbn. apply String.eqb_neq in Hn. by rewrite Hn.
  - destruct v; [by rewrite str_app_nil_l in He|by rewrite str_app_cons in He].
Qed.

#[export] Instance sample_comma_separated : CommaSeparated sample_externals.
Proof.
  refine {| cs_wf := (fun vs : list string => Forall no_comma vs) : @cs_t sample_externals -> Prop |}; cbn.
  - intros s. destruct (String.eqb s ""); [constructor|apply Split_no_comma].
  - intros n s [_ Hn] Hs. destruct (existsb _ s); [done|]. apply Forall_app_2; [done|]. by constructor.
  - intros n s Hs. apply List.Forall_forall. intros x [Hx _]%List.filter_In.
    by apply (proj1 (List.Forall_forall _ _) Hs).
  - done.
  - intros n s m. destruct (existsb (String.eqb n) s) eqn:E.
    + destruct (String.eqb_spec n m) as [<-|]; [|done]. by rewrite E.
    + rewrite existsb_app_one. f_equal. apply String.eqb_sym.
  - intros n s m. apply eq_true_iff_eq. rewrite andb_true_iff, !existsb_eqb, List.filter_In. tauto.
  - apply sample_Value_String.
  - intros [|] n; done.
  - intros s n. symmetry. apply existsb_eqb.
  - done.
Defined.

Definition marked_ops : list mark_op :=
  [OpMarkManaged (mkKey "ns" "b1"); OpMarkReferenced (mkKey "ns" "b2");
   OpUnmarkReferenced (mkKey "ns" "b1"); OpUnmarkManaged (mkKey "ns" "b2")].

Lemma marker_refines_marks_witness :
  (run_marks mark_step marked_ops (sample_meta "s")).1 = [true; true; true; true] /\
  IsManagedBy (mkKey "ns" "b1") (run_marks mark_step marked_ops (sample_meta "s")).2 = false /\
  IsReferencedBy (mkKey "ns" "b2") (run_marks mark_step marked_ops (sample_meta "s")).2 = true.
Proof.
  destruct (marker_refines_marks marked_ops (sample_meta "s") (mkMarks ∅ None)) as (Hf & _ & Hb).
  - repeat constructor; done.
  - split; [|done|done]. intros n Hn. rewrite bool_decide_false by set_solver. done.
  - split; [rewrite Hf; vm_compute; reflexivity|]. split.
    + destruct (Hb (mkKey "ns" "b1")) as (_ & -> & _); [by split|]. vm_compute. reflexivity.
    + destruct (Hb (mkKey "ns" "b2")) as (-> & _); [by split|]. vm_compute. reflexivity.
Defined.

Lemma GetReferencingTargets_correct_witness :
  exists keys,
    GetReferencingTargets (run_marks mark_step marked_ops (sample_meta "s")).2 = Some keys /\
    In "b2" (map key_Name keys).
Proof.
  destruct (GetReferencingTargets_correct (run_marks mark_step marked_ops (sample_meta "s")).2)
    as (keys & H & _ & Hn).
  exists keys. split; [exact H|]. apply Hn. vm_compute. reflexivity.
Defined.
