(* ===== verification/Enqueue.v ===== *)
(** * controllers: requests, results and the watches that enqueue them

    enqueue.go, the watch functions registered by [SetupWithManager] of the
    token and binding controllers, and the data update controller, whose
    objects exist only to trigger those watches. *)

From S2P Require Import Prelude GoStd Api Externals SpErrors Effects Samples TokenStorage BindingTarget.
Local Open Scope string_scope.
Local Open Scope list_scope.
Local Open Scope spi_scope.

(** ctrl.Result; RequeueAfter in nanoseconds *)
Record ctrl_Result := mkResult { res_Requeue : bool; res_RequeueAfter : Z }.
Definition no_requeue : ctrl_Result := mkResult false 0.

(** What a [Reconcile] returns: the result and the error *)
Definition outcome : Type := ctrl_Result * option goerr.
Definition done_ok : outcome := (no_requeue, None).
Definition failed (text : string) (e : goerr) : outcome := (no_requeue, Some (Errorf_w text e)).

(** labels.go *)
Definition SPIAccessTokenLinkLabel := "spi.appstudio.redhat.com/linked-access-token".

(** ** enqueue.go *)

(** [client.Object] is a kind and an object of it; reconcile.Request is an
    [ObjectKey]. *)
Definition requestForDataUpdateOwner (k : kind) (dataUpdateObject : obj k) (ownerKind : string) : list ObjectKey :=
  match k as k return obj k -> list ObjectKey with
  | KDataUpdate => fun update =>
      let owner := dusp_DataOwner (du_Spec update) in
      match lref_APIGroup owner with
      | None => []
      | Some group =>
          if negb (String.eqb group GroupVersion_Group) || negb (String.eqb (lref_Kind owner) ownerKind) then []
          else [mkKey (om_Namespace (du_Meta update)) (lref_Name owner)]
      end
  | _ => fun _ => []
  end dataUpdateObject.

(** ** The watches of the token controller *)

Definition requestsForTokenInObjectNamespace (namespace tokenName : string) : list ObjectKey :=
  if String.eqb tokenName "" then [] else [mkKey namespace tokenName].

Definition token_watch_binding (b : SPIAccessTokenBinding) : list ObjectKey :=
  requestsForTokenInObjectNamespace (b_Namespace b) (map_get (b_Labels b) SPIAccessTokenLinkLabel).
Definition token_watch_update (u : SPIAccessTokenDataUpdate) : list ObjectKey :=
  requestForDataUpdateOwner KDataUpdate u "SPIAccessToken".

(** ** The watches of the binding controller *)

Definition filteredBindingsAsRequests (namespace : string) (matchingFunc : SPIAccessTokenBinding -> bool)
  : prog (res (list ObjectKey)) :=
  let! r := kube (KList KBinding namespace [] None) in
  match r with
  | Err err => Ret (Err (Errorf_w ("failed to list bindings in the namespace " +:+ namespace +:+ ", error") err))
  | Ok bindings =>
      Ret (Ok (map (fun b => mkKey (b_Namespace b) (b_Name b)) (List.filter matchingFunc bindings)))
  end.

(** A watch function logs a failure to list and enqueues nothing. *)
Definition or_nothing (p : prog (res (list ObjectKey))) : prog (list ObjectKey) :=
  let! r := p in Ret (match r with Ok reqs => reqs | Err _ => [] end).

Definition binding_watch_token (t : SPIAccessToken) : prog (list ObjectKey) :=
  or_nothing (filteredBindingsAsRequests (at_Namespace t) (fun _ => true)).

Definition synced_to_secret (name : string) (b : SPIAccessTokenBinding) : bool :=
  let r := bst_SyncedObjectRef (b_Status b) in
  String.eqb (tor_Kind r) "Secret" && String.eqb (tor_Name r) name.
Definition binding_watch_secret (s : Secret) : prog (list ObjectKey) :=
  or_nothing (filteredBindingsAsRequests (om_Namespace (sec_Meta s)) (synced_to_secret (om_Name (sec_Meta s)))).

Definition linked_to (tokenName : string) (b : SPIAccessTokenBinding) : bool :=
  String.eqb tokenName (bst_LinkedAccessTokenName (b_Status b)).
Definition binding_watch_update (u : SPIAccessTokenDataUpdate) : prog (list ObjectKey) :=
  match requestForDataUpdateOwner KDataUpdate u "SPIAccessToken" with
  | [] => Ret []
  | tokenRequest :: _ =>
      or_nothing (filteredBindingsAsRequests (om_Namespace (du_Meta u)) (linked_to (key_Name tokenRequest)))
  end.

Definition binding_watch_sa {X : Externals} (sa : ServiceAccount) : prog (list ObjectKey) :=
  or_nothing (filteredBindingsAsRequests (om_Namespace (sa_Meta sa))
    (fun b => IsReferencedBy (ObjectKeyFromObject (b_Meta b)) (sa_Meta sa))).

(** ** spiaccesstokendataupdate_controller.go *)

Definition DataUpdate_Reconcile (req : ObjectKey) : prog outcome :=
  let! r := kube (KGet KDataUpdate req) in
  match r with
  | Err err =>
      if IsNotFound err then Ret done_ok
      else Ret (failed "failed to load the token data update from the cluster" err)
  | Ok update =>
      match om_DeletionTimestamp (du_Meta update) with
      | Some _ => Ret done_ok
      | None =>
          let! d := kube (KDelete KDataUpdate update) in
          match d with
          | Some err => Ret (failed "failed to delete the processed data token update" err)
          | None => Ret done_ok
          end
      end
  end.

(** ** Lemmas and properties *)

(** The object the API server hands to the watches for an update created by a
    notifying storage *)
Definition stored_update (owner : SPIAccessToken) (u : SPIAccessTokenDataUpdate) : Prop :=
  du_Spec u = du_Spec (NotifyingTokenStorage.data_update owner) /\
  om_Namespace (du_Meta u) = at_Namespace owner.

Lemma requestForDataUpdateOwner_stored owner u :
  stored_update owner u -> requestForDataUpdateOwner KDataUpdate u "SPIAccessToken" = [at_Key owner].
Proof. intros [Hs Hn]. unfold requestForDataUpdateOwner. rewrite Hs, Hn. done. Qed.

(** A write through the notifying storage wakes exactly the right objects:
    the update object it creates makes the token controller reconcile its
    owner and nothing else, and the binding controller reconcile exactly the
    bindings of the namespace that are linked to the owner (none when they
    cannot be listed). *)
Theorem data_update_wakes_owner owner u tr reqs :
  stored_update owner u ->
  exec (binding_watch_update u) tr reqs ->
  token_watch_update u = [at_Key owner] /\
  exists r, tr = [Act (Kube (KList KBinding (at_Namespace owner) [] None)) r] /\
    match r with
    | Err _ => reqs = []
    | Ok bs => forall k, In k reqs <->
        exists b, In b bs /\ bst_LinkedAccessTokenName (b_Status b) = at_Name owner /\
                  k = ObjectKeyFromObject (b_Meta b)
    end.
Proof.
  intros Hu H. pose proof (requestForDataUpdateOwner_stored _ _ Hu) as Hreq.
  split; [done|]. unfold binding_watch_update in H. rewrite Hreq in H.
  destruct Hu as [_ Hn]. rewrite Hn in H. unfold or_nothing, filteredBindingsAsRequests in H.
  exec_steps. exists x. destruct x as [bs|err]; exec_steps; (split; [done|]); [|done].
  intros k. rewrite in_map_iff. setoid_rewrite List.filter_In. unfold linked_to. cbn [key_Name at_Key].
  setoid_rewrite String.eqb_eq. split; intros (b & H1 & H2); exists b; naive_solver.
Qed.

(** The answers to the lists of bindings in a trace *)
Definition list_answer_of {X} (e : KubeE X) : X -> option (res (list SPIAccessTokenBinding)) :=
  match e in KubeE X return X -> option (res (list SPIAccessTokenBinding)) with
  | KList k _ _ _ =>
      match k return res (list (obj k)) -> option (res (list SPIAccessTokenBinding)) with
      | KBinding => fun r => Some r
      | _ => fun _ => None
      end
  | _ => fun _ => None
  end.
Definition binding_lists (tr : list act) : list (res (list SPIAccessTokenBinding)) :=
  omap (fun a => match act_ev a in Ev X return X -> _ with Kube e => list_answer_of e | _ => fun _ => None end (act_res a)) tr.

Definition linked_binding : SPIAccessTokenBinding := sample_binding "b" "https://quay.io/o/r" "tok".
Lemma data_update_wakes_owner_witness :
  let owner := sample_token "tok" "Ready" None in
  let u := NotifyingTokenStorage.data_update owner in
  token_watch_update u = [mkKey "ns" "tok"] /\
  In (mkKey "ns" "b") (result_of (mkScript (Err not_found) (Err not_found) (Err not_found) (Err not_found)
      (Err not_found) (Err not_found) (Err not_found) (Err not_found) [] [linked_binding] [] [] None None None
      (Ok sample_sp) (Ok []) (Ok []) None (Ok None) (Ok None) (Ok None) (Ok "")
      (Ok (mkDependents (sample_secret "dep" ∅ ∅) [])) None 0) (binding_watch_update u)).
Proof.
  intros owner u.
  edestruct (data_update_wakes_owner owner u) as (Ht & r & Hr & Hk); [done|apply scripted_exec|].
  split; [exact Ht|]. apply (f_equal binding_lists) in Hr. vm_compute in Hr. clear Ht.
  destruct r as [bs|e]; [|discriminate Hr]. apply Hk. exists linked_binding.
  injection Hr as <-. split; [by left|]. split; reflexivity.
Defined.

(** Data updates are transient: their controller writes nothing but the
    deletion of the update it was called for, deletes it unless it is gone or
    already being deleted, never requeues, and reports an error exactly when
    it could not read the update (for another reason than its absence) or
    could not delete it. *)
Theorem data_update_reconcile_deletes req tr o :
  exec (DataUpdate_Reconcile req) tr o ->
  o.1 = no_requeue /\
  exists r tr', tr = Act (Kube (KGet KDataUpdate req)) r :: tr' /\
    match r with
    | Err err => tr' = [] /\ (o.2 = None <-> IsNotFound err = true)
    | Ok u =>
        if om_DeletionTimestamp (du_Meta u) then tr' = [] /\ o.2 = None
        else exists d, tr' = [Act (Kube (KDelete KDataUpdate u)) d] /\ (o.2 = None <-> d = None)
    end.
Proof.
  intros H. unfold DataUpdate_Reconcile in H. exec_steps.
  destruct x as [u|err].
  - destruct (om_DeletionTimestamp (du_Meta u)) eqn:Ed; exec_steps.
    + split; [done|]. exists (Ok u), []. cbn. rewrite Ed. done.
    + destruct x as [err|]; exec_steps; (split; [done|]); eexists (Ok u), _;
        cbn; rewrite Ed; (split; [done|]); eexists; (split; [done|]); done.
  - destruct (IsNotFound err) eqn:E; exec_steps; (split; [done|]); exists (Err err), []; rewrite ?E; done.
Qed.

Definition update_script : script :=
  mkScript (Err not_found) (Err not_found) (Err not_found) (Err not_found)
      (Ok (NotifyingTokenStorage.data_update (sample_token "tok" "Ready" None)))
      (Err not_found) (Err not_found) (Err not_found) [] [] [] [] None None None
      (Ok sample_sp) (Ok []) (Ok []) None (Ok None) (Ok None) (Ok None) (Ok "")
      (Ok (mkDependents (sample_secret "dep" ∅ ∅) [])) None 0.
Lemma data_update_reconcile_deletes_witness :
  (result_of update_script (DataUpdate_Reconcile (mkKey "ns" "u"))).1 = no_requeue.
Proof.
  exact (proj1 (data_update_reconcile_deletes _ _ _
    (scripted_exec update_script (DataUpdate_Reconcile (mkKey "ns" "u"))))).
Defined.
