(* ===== verification/TokenController.v ===== *)
(** * controllers/spiaccesstoken_controller.go: the token controller

    [Reconcile] in the order of the code: load, finalize, clean up obsolete
    tokens, check the token data, determine and validate the provider, persist
    the metadata, label, update the status, refresh on request.  Each helper of
    the file is a definition of the same name; the parts of [Reconcile] that
    follow an early return are definitions of their own. *)

From S2P Require Import Prelude GoStd GoUrl GoJson GoTime GoBase64 Api Externals SpErrors OAuthState Effects Samples SpConfig Enqueue.
Local Open Scope string_scope.
Local Open Scope list_scope.
Local Open Scope spi_scope.

Definition linkedBindingsFinalizerName := "spi.appstudio.redhat.com/linked-bindings".
Definition tokenStorageFinalizerName := "spi.appstudio.redhat.com/token-storage".
Definition tokenRefreshLabelName := "spi.appstudio.redhat.com/refresh-token".
Definition unexpectedObjectTypeError : goerr := ErrorString "unexpected object type".
Definition linkedBindingPresentError : goerr := ErrorString "linked bindings present".
Definition noOauthConfigFoundError : goerr :=
  ErrorString "no oauth configuration found matching service provider URL of the token".
Definition RefreshTokenNotSupportedError : goerr :=
  ExtError "service provider does not support token refreshing" [].

(** [Update] and [Status().Update] when a flag asks for them *)
Definition update_if {k} (b : bool) (o : obj k) : prog (res (obj k)) :=
  if b then kube (KUpdate k o) else Ret (Ok o).
Definition status_update_if {k} (b : bool) (o : obj k) : prog (res (obj k)) :=
  if b then kube (KStatusUpdate k o) else Ret (Ok o).

Definition hasLinkedBindings (token : SPIAccessToken) : prog (res bool) :=
  let! r := kube (KList KBinding (at_Namespace token) [(SPIAccessTokenLinkLabel, at_Name token)] (Some 1)) in
  match r with
  | Err err =>
      Ret (Err (Errorf_w ("failed to list the linked bindings for " +:+ at_Namespace token +:+ "/" +:+ at_Name token) err))
  | Ok items => Ret (Ok (0 <? length items)%nat)
  end.

(** [ensureLabels]: the token with its labels, and whether they changed *)
Definition ensureLabels (t : SPIAccessToken) (detectedSp : string) : bool * SPIAccessToken :=
  let with_labels l t := set_at_Meta (set_om_Labels l (at_Meta t)) t in
  let '(changed, t) :=
    if negb (String.eqb (map_get (at_Labels t) ServiceProviderTypeLabel) detectedSp)
    then (true, with_labels (<[ServiceProviderTypeLabel := detectedSp]> (at_Labels t)) t)
    else (false, t) in
  let url := atsp_ServiceProviderUrl (at_Spec t) in
  if (0 <? String.length url)%nat then
    match Parse url with
    | Ok spUrl =>
        if negb (String.eqb (map_get (at_Labels t) ServiceProviderHostLabel) (Host spUrl))
        then (true, with_labels (<[ServiceProviderHostLabel := Host spUrl]> (at_Labels t)) t)
        else (changed, t)
    | Err _ => (changed, t)
    end
  else (changed, t).

(** ** The finalizers: the result is empty, only the error matters *)

Definition linkedBindingsFinalizer_Finalize (k : kind) (o : obj k) : prog (option goerr) :=
  match k as k return obj k -> prog (option goerr) with
  | KToken => fun token =>
      let! r := hasLinkedBindings token in
      match r with
      | Err err => Ret (Some err)
      | Ok true => Ret (Some linkedBindingPresentError)
      | Ok false => Ret None
      end
  | _ => fun _ => Ret (Some unexpectedObjectTypeError)
  end o.

Definition tokenStorageFinalizer_Finalize (t : SPIAccessToken) : prog (option goerr) :=
  let! r := call (Ts (TsDelete t)) in
  match r with
  | Some err =>
      Ret (Some (Errorf_w ("failed to delete the linked token during finalization of "
                            +:+ at_Namespace t +:+ "/" +:+ at_Name t) err))
  | None => Ret None
  end.

(** ** Token data and status *)

Definition is_ready_phase (t : SPIAccessToken) : bool :=
  String.eqb (atst_Phase (at_Status t)) SPIAccessTokenPhaseReady.
Definition has_metadata (t : SPIAccessToken) : bool :=
  match atst_TokenMetadata (at_Status t) with Some _ => true | None => false end.

Definition reconcileTokenData (t : SPIAccessToken) : prog (res SPIAccessToken) :=
  if has_metadata t && is_ready_phase t then
    let! r := call (Ts (TsGet t)) in
    match r with
    | Ok None => Ret (Ok (with_token_status (set_atst_TokenMetadata None) t))
    | Ok (Some _) => Ret (Ok t)
    | Err errGetToken => Ret (Err (Errorf_w "failed to get the token" errGetToken))
    end
  else Ret (Ok t).

Definition flipToExceptionalPhase (t : SPIAccessToken) (phase reason : string) (err : goerr)
  : prog (option goerr) :=
  let t := with_token_status (fun st =>
    set_atst_ErrorReason reason (set_atst_ErrorMessage (Error err) (set_atst_Phase phase st))) t in
  let! r := kube (KStatusUpdate KToken t) in
  match r with
  | Err uerr => Ret (Some (Errorf_w "failed to update the status with error" uerr))
  | Ok _ => Ret None
  end.

Definition oauth_info_of (t : SPIAccessToken) (sp : ServiceProvider) (c : OAuthCapability) : OAuthInfo :=
  mkOAuthInfo (at_Name t) (at_Namespace t) (at_Kind t)
    (Some (OAuthScopesFor c (atsp_Permissions (at_Spec t)))) (spt_Name (GetType sp)) (GetBaseUrl_sp sp).

Definition oAuthUrlFor (t : SPIAccessToken) : prog (res string) :=
  let url := atsp_ServiceProviderUrl (at_Spec t) in
  let! r := call (Sp (FromRepoUrl url (at_Namespace t))) in
  match r with
  | Err err =>
      match errors_As_validation err with
      | Some validationErr =>
          Ret (Err (Errorf_w ("failed to validate the service provider for URL " +:+ url) validationErr))
      | None => Ret (Err (Errorf_w ("failed to determine the service provider from URL " +:+ url) err))
      end
  | Ok sp =>
      match GetOAuthCapability sp with
      | None => Ret (Ok "")
      | Some oauthCapability =>
          let oauthBaseUrl := GetOAuthEndpoint oauthCapability in
          if Nat.eqb (String.length oauthBaseUrl) 0 then Ret (Ok "")
          else
            match Encode (oauth_info_of t sp oauthCapability) with
            | Err err => Ret (Err (Errorf_w "failed to encode the OAuth state" err))
            | Ok state => Ret (Ok (oauthBaseUrl +:+ "?state=" +:+ state))
            end
      end
  end.

(** A metadata with a user name *)
Definition known_user (t : SPIAccessToken) : bool :=
  match atst_TokenMetadata (at_Status t) with
  | Some md => negb (String.eqb (tm_Username md) "")
  | None => false
  end.

Section reconciler.
Context {X : Externals} (cfg : OperatorConfiguration).

Definition fillInStatus (t : SPIAccessToken) : prog (res SPIAccessToken) :=
let! r :=
  if negb (known_user t) then
    let! u := oAuthUrlFor t in
    match u with
    | Err err => Ret (Err err)
    | Ok oauthUrl =>
        Ret (Ok (with_token_status (fun st =>
          set_atst_Phase SPIAccessTokenPhaseAwaitingTokenData (set_atst_OAuthUrl oauthUrl st)) t))
    end
  else
    Ret (Ok (with_token_status (fun st =>
      set_atst_OAuthUrl "" (set_atst_Phase SPIAccessTokenPhaseReady st)) t)) in
match r with
| Err err => Ret (Err err)
| Ok t =>
    Ret (Ok (with_token_status (set_atst_UploadUrl
      (sc_BaseUrl (opc_Shared cfg) +:+ "/token/" +:+ at_Namespace t +:+ "/" +:+ at_Name t)) t))
end.

Definition updateTokenStatusSuccess (t : SPIAccessToken) : prog (res SPIAccessToken) :=
let! r := fillInStatus t in
match r with
| Err err => Ret (Err err)
| Ok t =>
    let t := with_token_status (fun st => set_atst_ErrorReason "" (set_atst_ErrorMessage "" st)) t in
    let! u := kube (KStatusUpdate KToken t) in
    match u with
    | Err err => Ret (Err (Errorf_w "failed to update status" err))
    | Ok t => Ret (Ok t)
    end
end.

Definition durationUntilNextReconcile (t : SPIAccessToken) (now : Z) : Z :=
time_Until now (om_CreationTimestamp (at_Meta t) + opc_AccessTokenTtl cfg + opc_DeletionGracePeriod cfg).

(** ** Refreshing *)

Definition refreshToken (t : SPIAccessToken) (sp : ServiceProvider) : prog (option goerr) :=
let url := atsp_ServiceProviderUrl (at_Spec t) in
let! r := call (Ts (TsGet t)) in
match r with
| Err err => Ret (Some (Errorf_w "unable to get refresh token from storage" err))
| Ok token =>
    match Parse url with
    | Err err => Ret (Some (Errorf_w "failed to parse service provider url from token" err))
    | Ok parsedUrl =>
        let! c := SpConfigFromUserSecret (at_Namespace t) (GetType sp) parsedUrl in
        match c with
        | Err err => Ret (Some (Errorf_w "failed to find service provider configuration in user secrets" err))
        | Ok userConfig =>
            let spConfig :=
              match userConfig with
              | Some c => Some c
              | None => SpConfigFromGlobalConfig (opc_Shared cfg) (GetType sp) url
              end in
            match spConfig ≫= spc_OAuth2Config with
            | None => Ret (Some noOauthConfigFoundError)
            | Some oauthConfig =>
                if negb (has_RefreshTokenCapability sp) then
                  Ret (Some (Errorf_w (spt_Name (GetType sp) +:+ " service provider type") RefreshTokenNotSupportedError))
                else
                  let! f := call (Sp (RefreshToken sp token oauthConfig)) in
                  match f with
                  | Err err => Ret (Some (Errorf_w "unable to refresh token" err))
                  | Ok refreshedToken =>
                      let! s := call (Ts (TsStore t refreshedToken)) in
                      match s with
                      | Some err => Ret (Some (Errorf_w "unable to store refresh token" err))
                      | None => Ret None
                      end
                  end
            end
        end
    end
end.

Definition refresh_requested (t : SPIAccessToken) : bool :=
match at_Labels t !! tokenRefreshLabelName with Some v => String.eqb v "true" | None => false end.
Definition without_refresh_label (t : SPIAccessToken) : SPIAccessToken :=
set_at_Meta (set_om_Labels (delete tokenRefreshLabelName (at_Labels t)) (at_Meta t)) t.

(** The refresh part of [Reconcile] and its last return *)
Definition Reconcile_refresh (t : SPIAccessToken) (sp : ServiceProvider) : prog outcome :=
let! r :=
  if refresh_requested t then
    let! e := refreshToken t sp in
    match e with
    | Some err => Ret (Err (Errorf_w "failed to refresh the token" err))
    | None =>
        let! u := kube (KUpdate KToken (without_refresh_label t)) in
        match u with
        | Err err => Ret (Err (Errorf_w "failed to remove token refresh request label" err))
        | Ok t => Ret (Ok t)
        end
    end
  else Ret (Ok t) in
match r with
| Err err => Ret (no_requeue, Some err)
| Ok t =>
    let! now := call Now in
    Ret (mkResult false (durationUntilNextReconcile t now), None)
end.

(** From [ensureLabels] on *)
Definition Reconcile_labels (t : SPIAccessToken) (sp : ServiceProvider) : prog outcome :=
let '(changed, t) := ensureLabels t (spt_Name (GetType sp)) in
let! r := update_if (k := KToken) changed t in
match r with
| Err err => Ret (failed "failed to update the object with the changes" err)
| Ok t =>
    let! s := updateTokenStatusSuccess t in
    match s with
    | Err err => Ret (failed "failed to update the status" err)
    | Ok t => Reconcile_refresh t sp
    end
end.

(** A status update that ends the reconciliation with [o] *)
Definition flip_and_stop (t : SPIAccessToken) (phase reason : string) (err : goerr) (text : string) (o : outcome)
: prog outcome :=
let! u := flipToExceptionalPhase t phase reason err in
match u with
| Some uerr => Ret (failed text uerr)
| None => Ret o
end.

(** With a service provider: validation and metadata *)
Definition Reconcile_provider (t : SPIAccessToken) (sp : ServiceProvider) : prog outcome :=
let! v := call (Sp (SpValidate sp (atsp_Permissions (at_Spec t)))) in
match v with
| Err err => Ret (failed "failed to validate the object" err)
| Ok [] =>
    let! (t, perr) := call (Sp (PersistMetadata sp t)) in
    match perr with
    | Some err =>
        if IsServiceProviderHttpInvalidAccessToken err then
          flip_and_stop t SPIAccessTokenPhaseInvalid SPIAccessTokenErrorReasonMetadataFailure err
            "failed to update the status" done_ok
        else
          flip_and_stop t SPIAccessTokenPhaseError SPIAccessTokenErrorReasonMetadataFailure err
            "failed to update the status" (failed "failed to persist the metadata" err)
    | None => Reconcile_labels t sp
    end
| Ok scopeValidation =>
    flip_and_stop t SPIAccessTokenPhaseInvalid SPIAccessTokenErrorReasonUnsupportedPermissions
      (NewAggregatedError scopeValidation) "failed to update the status" done_ok
end.

(** From the check of the token data on *)
Definition Reconcile_data (req : ObjectKey) (t : SPIAccessToken) : prog outcome :=
let! d := reconcileTokenData t in
match d with
| Err err => Ret (failed "failed to check the token's data in token storage" err)
| Ok t =>
    let! r := call (Sp (FromRepoUrl (atsp_ServiceProviderUrl (at_Spec t)) (key_Namespace req))) in
    match r with
    | Err err =>
        let reason :=
          match errors_As_validation err with
          | Some _ => SPIAccessTokenErrorUnsupportedServiceProviderConfiguration
          | None => SPIAccessTokenErrorReasonUnknownServiceProvider
          end in
        flip_and_stop t SPIAccessTokenPhaseError reason err "failed update the status" done_ok
    | Ok sp => Reconcile_provider t sp
    end
end.

(** A token past its lifetime, or awaiting data past the grace period *)
Definition token_obsolete (t : SPIAccessToken) (now : Z) : bool :=
let tokenLifetime := time_Since now (om_CreationTimestamp (at_Meta t)) in
seconds_gt tokenLifetime (opc_AccessTokenTtl cfg)
|| (String.eqb (atst_Phase (at_Status t)) SPIAccessTokenPhaseAwaitingTokenData
    && seconds_gt tokenLifetime (opc_DeletionGracePeriod cfg)).

(** The cleanup: [None] when the reconciliation goes on *)
Definition cleanup_obsolete (t : SPIAccessToken) (now : Z) : prog (option outcome) :=
if token_obsolete t now then
  let! r := hasLinkedBindings t in
  match r with
  | Err err => Ret (Some (failed "failed to check linked bindings for token" err))
  | Ok true => Ret None
  | Ok false =>
      let! d := kube (KDelete KToken t) in
      match d with
      | Some err => Ret (Some (failed "failed to cleanup token on reaching the lifetime or being unreferenced" err))
      | None => Ret (Some done_ok)
      end
  end
else Ret None.

(** After the finalization *)
Definition Reconcile_live (req : ObjectKey) (t : SPIAccessToken) : prog outcome :=
match om_DeletionTimestamp (at_Meta t) with
| Some _ => Ret done_ok
| None =>
    let! now := call Now in
    let! c := cleanup_obsolete t now in
    match c with
    | Some o => Ret o
    | None => Reconcile_data req t
    end
end.

(** The start of [Reconcile]: [inl] ends it *)
Definition load_and_finalize (req : ObjectKey) : prog (outcome + SPIAccessToken) :=
let! r := kube (KGet KToken req) in
match r with
| Err err =>
    if IsNotFound err then Ret (inl done_ok)
    else Ret (inl (failed "failed to load the token from the cluster" err))
| Ok t =>
    let! fin := call (Finalize KToken t) in
    match fin_err fin with
    | Some err => Ret (inl (failed "failed to finalize" err))
    | None =>
        let! u := update_if (k := KToken) (fin_Updated fin) (fin_obj fin) in
        match u with
        | Err err => Ret (inl (failed "failed to update based on finalization result" err))
        | Ok t =>
            let! s := status_update_if (k := KToken) (fin_StatusUpdated fin) t in
            match s with
            | Err err => Ret (inl (failed "failed to update the status based on finalization result" err))
            | Ok t => Ret (inr t)
            end
        end
    end
end.

Definition Reconcile (req : ObjectKey) : prog outcome :=
let! r := load_and_finalize req in
match r with inl o => Ret o | inr t => Reconcile_live req t end.
End reconciler.

(** ** What the statuses written to the cluster look like *)

Definition consistent_status (t : SPIAccessToken) : Prop :=
  let st := at_Status t in
  (atst_Phase st = SPIAccessTokenPhaseReady /\ known_user t = true /\ atst_OAuthUrl st = "" /\
   atst_ErrorReason st = "" /\ atst_ErrorMessage st = "") \/
  (atst_Phase st = SPIAccessTokenPhaseAwaitingTokenData /\ known_user t = false /\
   atst_ErrorReason st = "" /\ atst_ErrorMessage st = "") \/
  (atst_Phase st = SPIAccessTokenPhaseInvalid /\
   In (atst_ErrorReason st) [SPIAccessTokenErrorReasonUnsupportedPermissions; SPIAccessTokenErrorReasonMetadataFailure]) \/
  (atst_Phase st = SPIAccessTokenPhaseError /\
   In (atst_ErrorReason st) [SPIAccessTokenErrorReasonUnknownServiceProvider;
     SPIAccessTokenErrorUnsupportedServiceProviderConfiguration; SPIAccessTokenErrorReasonMetadataFailure]).

(** A write of a token: an update, a deletion, or a consistent status *)
Definition token_write (w : kube_write) : Prop :=
  match w with
  | WUpdate k _ _ | WDelete k _ _ => k = KToken
  | WStatusUpdate k o _ =>
      match k return obj k -> Prop with KToken => consistent_status | _ => fun _ => False end o
  | _ => False
  end.

Section lemmas.
Context {X : Externals} (cfg : OperatorConfiguration).
Let W := on_writes token_write.

Lemma flip_sat t phase reason err text o :
consistent_status (with_token_status (fun st =>
  set_atst_ErrorReason reason (set_atst_ErrorMessage (Error err) (set_atst_Phase phase st))) t) ->
sat W (fun _ => True) (flip_and_stop t phase reason err text o).
Proof.
intros H. unfold flip_and_stop, flipToExceptionalPhase. sat_seq; repeat sat_step; solve [done | exact H].
Qed.

Lemma oAuthUrlFor_sat t : sat W (fun _ => True) (oAuthUrlFor t).
Proof. unfold oAuthUrlFor. repeat sat_step; done. Qed.

Lemma fillInStatus_sat t :
sat W (fun r => match r with
  | Ok t' => known_user t' = known_user t /\
      (if known_user t then atst_Phase (at_Status t') = SPIAccessTokenPhaseReady /\ atst_OAuthUrl (at_Status t') = ""
       else atst_Phase (at_Status t') = SPIAccessTokenPhaseAwaitingTokenData)
  | Err _ => True end) (fillInStatus cfg t).
Proof.
unfold fillInStatus. destruct (known_user t) eqn:E; cbn [negb].
- cbn [bind]. apply sat_Ret. done.
- eapply (sat_bind _ (fun r => match r with Ok t' => known_user t' = false /\
    atst_Phase (at_Status t') = SPIAccessTokenPhaseAwaitingTokenData | Err _ => True end)).
  + eapply sat_bind; [apply oAuthUrlFor_sat|]. intros [url|] _; apply sat_Ret; cbn; rewrite ?E; done.
  + intros [t'|] H; by apply sat_Ret.
Qed.

Lemma updateTokenStatusSuccess_sat t : sat W (fun _ => True) (updateTokenStatusSuccess cfg t).
Proof.
unfold updateTokenStatusSuccess. eapply sat_bind; [apply fillInStatus_sat|].
intros [t'|] H; [|by apply sat_Ret]. repeat sat_step; try done.
destruct H as [H1 H2]. unfold W, on_writes. cbn. unfold consistent_status. cbn.
change (known_user (with_token_status _ t')) with (known_user t'). rewrite H1.
destruct (known_user t); naive_solver.
Qed.

Lemma refreshToken_sat t sp : sat W (fun _ => True) (refreshToken cfg t sp).
Proof.
unfold refreshToken, SpConfigFromUserSecret, findUserServiceProviderConfigSecret.
repeat (sat_step || sat_seq); done.
Qed.

Lemma Reconcile_refresh_sat t sp : sat W (fun _ => True) (Reconcile_refresh cfg t sp).
Proof.
unfold Reconcile_refresh. sat_seq.
- repeat sat_step; try done. sat_seq; [apply refreshToken_sat|]. repeat sat_step; done.
- repeat sat_step; done.
Qed.

Lemma Reconcile_labels_sat t sp : sat W (fun _ => True) (Reconcile_labels cfg t sp).
Proof.
unfold Reconcile_labels, update_if. destruct (ensureLabels t _) as [changed t'].
sat_seq; repeat sat_step; try done.
sat_seq; [apply updateTokenStatusSuccess_sat|]. repeat sat_step; try done. apply Reconcile_refresh_sat.
Qed.

Lemma Reconcile_provider_sat t sp : sat W (fun _ => True) (Reconcile_provider cfg t sp).
Proof.
unfold Reconcile_provider. repeat sat_step; try done;
  first [apply Reconcile_labels_sat | apply flip_sat; unfold consistent_status; cbn; tauto].
Qed.

Lemma Reconcile_data_sat req t : sat W (fun _ => True) (Reconcile_data cfg req t).
Proof.
unfold Reconcile_data, reconcileTokenData. sat_seq; repeat sat_step; try done.
- apply Reconcile_provider_sat.
- cbv zeta. apply flip_sat. unfold consistent_status. cbn. destruct (errors_As_validation _); tauto.
Qed.

Lemma Reconcile_live_sat req t : sat W (fun _ => True) (Reconcile_live cfg req t).
Proof.
unfold Reconcile_live. repeat sat_step; try done.
sat_seq; [unfold cleanup_obsolete, hasLinkedBindings; repeat (sat_step || sat_seq); done|].
repeat sat_step; [done|apply Reconcile_data_sat].
Qed.
End lemmas.

(** The writes of the start of a reconciliation: what the finalizers asked for *)
Definition finalization_write (w : kube_write) : Prop :=
  match w with
  | WUpdate k _ _ | WStatusUpdate k _ _ => k = KToken
  | _ => False
  end.

Lemma load_and_finalize_exec req tr r :
  exec (load_and_finalize req) tr r ->
  length (writes tr) <= 2 /\ Forall finalization_write (writes tr).
Proof.
  intros H. unfold load_and_finalize, update_if, status_update_if in H. exec_steps.
  destruct x as [t|err]; [|destruct (IsNotFound err); exec_steps; cbn; split; [lia|constructor|lia|constructor]].
  exec_steps. destruct x as [t' u s [e|]]; cbn in *; exec_steps; [cbn; split; [lia|constructor]|].
  destruct u; exec_steps; [destruct x as [t''|]; exec_steps; [|cbn; split; [lia|repeat constructor]]|];
    (destruct s; exec_steps; [destruct x; exec_steps|]; cbn; (split; [lia|repeat constructor])).
Qed.

(** C18 Everything the token controller writes: at most two writes carry out
    what the finalizers asked for; after that it only updates or deletes
    tokens, and every status it writes is consistent: Ready with a known user,
    no OAuth URL and no error; awaiting data without a known user and no
    error; Invalid or Error with a reason that belongs to the phase. *)
Theorem token_reconcile_writes {X : Externals} cfg req tr o :
  exec (Reconcile cfg req) tr o ->
  exists fin rest, writes tr = fin ++ rest /\ length fin <= 2 /\
    Forall finalization_write fin /\ Forall token_write rest.
Proof.
  intros (x & tr1 & tr2 & -> & H1 & H2)%exec_bind. rewrite writes_app.
  apply load_and_finalize_exec in H1 as [Hlen Hfin].
  exists (writes tr1), (writes tr2). repeat split; [done..|].
  apply on_writes_Forall. destruct x as [o'|t]; [destruct H2 as [-> _]; constructor|].
  by apply Reconcile_live_sat in H2 as [H _].
Qed.

Definition ready_script : script :=
  mkScript (Ok (sample_token "tok" "Ready" (Some sample_metadata))) (Err not_found) (Err not_found) (Err not_found)
      (Err not_found) (Err not_found) (Err not_found) (Err not_found) [] [] [] [] None None None
      (Ok sample_sp) (Ok []) (Ok []) None (Ok (Some (mkToken "u" "a" "" "" 0))) (Ok None) (Ok None) (Ok "")
      (Ok (mkDependents (sample_secret "dep" ∅ ∅) [])) None 5000000000.

Lemma token_reconcile_writes_witness :
  let tr := trace_of ready_script (Reconcile sample_config (mkKey "ns" "tok")) in
  length (writes tr) = 2 /\
  exists fin rest, writes tr = fin ++ rest /\ length fin <= 2 /\
    Forall finalization_write fin /\ Forall token_write rest.
Proof.
  intros tr. split; [vm_compute; reflexivity|].
  exact (token_reconcile_writes sample_config (mkKey "ns" "tok") _ _ (scripted_exec ready_script _)).
Defined.

(** ** Deletion of obsolete tokens *)

Definition linked_list (t : SPIAccessToken) (r : res (list SPIAccessTokenBinding)) : act :=
  Act (Kube (KList KBinding (at_Namespace t) [(SPIAccessTokenLinkLabel, at_Name t)] (Some 1))) r.
Definition no_delete (w : kube_write) : Prop := match w with WDelete _ _ _ => False | _ => True end.

Lemma cleanup_obsolete_exec cfg t now tr r :
  exec (cleanup_obsolete cfg t now) tr r ->
  if token_obsolete cfg t now then
    exists answer tr', tr = linked_list t answer :: tr' /\
      match answer with
      | Err _ => tr' = [] /\ exists o, r = Some o /\ o.2 <> None
      | Ok [] => exists d, tr' = [Act (Kube (KDelete KToken t)) d] /\
                   exists o, r = Some o /\ (o.2 = None <-> d = None)
      | Ok (_ :: _) => tr' = [] /\ r = None
      end
  else tr = [] /\ r = None.
Proof.
  unfold cleanup_obsolete. destruct (token_obsolete cfg t now); [|by intros [-> ->]].
  intros H. unfold hasLinkedBindings in H. exec_steps. exists x. eexists. split; [done|].
  destruct x as [[|b bs]|err]; cbn in H; exec_steps.
  - exists x. destruct x; exec_steps; (split; [done|]); eexists; (split; [done|]); cbn; naive_solver.
  - done.
  - split; [done|]. eexists. split; [done|]. done.
Qed.

Section no_delete_lemmas.
Context {X : Externals} (cfg : OperatorConfiguration).
Let W := on_writes no_delete.

Lemma flip_no_delete t phase reason err text o : sat W (fun _ => True) (flip_and_stop t phase reason err text o).
Proof. unfold flip_and_stop, flipToExceptionalPhase. sat_seq; repeat sat_step; done. Qed.

Lemma status_no_delete t : sat W (fun _ => True) (updateTokenStatusSuccess cfg t).
Proof.
unfold updateTokenStatusSuccess, fillInStatus. sat_seq; [|repeat sat_step; done].
sat_seq; [|repeat sat_step; done]. unfold oAuthUrlFor. repeat (sat_step || sat_seq); done.
Qed.

Lemma refresh_no_delete t sp : sat W (fun _ => True) (Reconcile_refresh cfg t sp).
Proof.
unfold Reconcile_refresh, refreshToken, SpConfigFromUserSecret, findUserServiceProviderConfigSecret.
repeat (sat_step || sat_seq); done.
Qed.

Lemma data_no_delete req t : sat W (fun _ => True) (Reconcile_data cfg req t).
Proof.
unfold Reconcile_data, reconcileTokenData, Reconcile_provider, Reconcile_labels, update_if.
sat_seq; [repeat sat_step; done|]. repeat sat_step; try done; try apply flip_no_delete.
all: sat_seq; [apply status_no_delete|]; repeat sat_step; [apply refresh_no_delete|done].
Qed.
End no_delete_lemmas.

(** C14 A live token on every branch: one being deleted is left alone; an
    obsolete one (older than its lifetime, or awaiting data for longer than
    the grace period) is deleted exactly when no binding of its namespace is
    labelled with its name, and the deletion ends the reconciliation; in every
    other case the reconciliation goes on and deletes nothing. *)
Theorem obsolete_tokens_deleted {X : Externals} cfg req t tr o :
  exec (Reconcile_live cfg req t) tr o ->
  match om_DeletionTimestamp (at_Meta t) with
  | Some _ => tr = [] /\ o = done_ok
  | None => exists now tr', tr = Act Now now :: tr' /\
      ((token_obsolete cfg t now = true /\ exists err, tr' = [linked_list t (Err err)] /\ o.2 <> None) \/
       (token_obsolete cfg t now = true /\
          exists d, tr' = [linked_list t (Ok []); Act (Kube (KDelete KToken t)) d] /\ (o.2 = None <-> d = None)) \/
       (exists tr'', (tr' = tr'' /\ token_obsolete cfg t now = false \/
                      exists b bs, tr' = linked_list t (Ok (b :: bs)) :: tr'' /\ token_obsolete cfg t now = true) /\
          exec (Reconcile_data cfg req t) tr'' o /\ Forall no_delete (writes tr'')))
  end.
Proof.
  intros H. unfold Reconcile_live in H. destruct (om_DeletionTimestamp (at_Meta t)); [by destruct H as [-> ->]|].
  unfold call in H. cbn [bind] in H. destruct H as (now & tr' & -> & H). exists now, tr'. split; [done|].
  apply exec_bind in H as (r & tr1 & tr2 & -> & H1 & H2). apply cleanup_obsolete_exec in H1.
  destruct (token_obsolete cfg t now) eqn:E.
  - destruct H1 as (answer & tr1' & -> & H1). destruct answer as [[|b bs]|err].
    + destruct H1 as (d & -> & o' & -> & Hd). destruct H2 as [-> ->]. right; left. split; [done|]. by exists d.
    + destruct H1 as [-> ->]. right; right. exists tr2. split; [right; by exists b, bs|]. split; [done|].
      apply on_writes_Forall. by apply data_no_delete in H2 as [H2 _].
    + destruct H1 as [-> (o' & -> & Ho)]. destruct H2 as [-> ->]. left. split; [done|]. by exists err.
  - destruct H1 as [-> ->]. right; right. exists tr2. split; [by left|]. split; [done|].
    apply on_writes_Forall. by apply data_no_delete in H2 as [H2 _].
Qed.

Lemma obsolete_tokens_deleted_witness :
  let t := sample_token "tok" "AwaitingTokenData" None in
  let tr := trace_of ready_script (Reconcile_live sample_config (mkKey "ns" "tok") t) in
  token_obsolete sample_config t 5000000000 = true /\
  exists now tr', tr = Act Now now :: tr'.
Proof.
  intros t tr. split; [vm_compute; reflexivity|].
  destruct (obsolete_tokens_deleted sample_config (mkKey "ns" "tok") t tr _ (scripted_exec ready_script _))
    as (now & tr' & H & _).
  exists now, tr'. exact H.
Defined.

(** The delay that ends a successful reconciliation reaches the token's end
    of life: when it has passed, and the instants are within the range of a
    duration, the token is older than its lifetime by the grace period. *)
Lemma requeue_reaches_end_of_life cfg t now later :
  (durationUntilNextReconcile cfg t now < max_int64)%Z ->
  (now + durationUntilNextReconcile cfg t now <= later)%Z ->
  (opc_AccessTokenTtl cfg + opc_DeletionGracePeriod cfg <= max_int64)%Z ->
  (opc_AccessTokenTtl cfg + opc_DeletionGracePeriod cfg <= time_Since later (om_CreationTimestamp (at_Meta t)))%Z.
Proof.
  unfold durationUntilNextReconcile, time_Until, time_Since, time_Sub.
  unfold min_int64, max_int64 in *. lia.
Qed.

(** ** Failures of the service provider *)

Definition with_error (t : SPIAccessToken) (phase reason : string) (err : goerr) : SPIAccessToken :=
  with_token_status (fun st =>
    set_atst_ErrorReason reason (set_atst_ErrorMessage (Error err) (set_atst_Phase phase st))) t.

Lemma flip_exec t phase reason err text o tr o' :
  exec (flip_and_stop t phase reason err text o) tr o' ->
  exists r, tr = [Act (Kube (KStatusUpdate KToken (with_error t phase reason err))) r] /\
    (is_ok r = true -> o' = o) /\ (is_ok r = false -> o'.2 <> None).
Proof.
  intros H. unfold flip_and_stop, flipToExceptionalPhase in H. exec_steps.
  destruct x; cbn in H; exec_steps; eexists; (split; [done|]); done.
Qed.

(** The answers of the provider decide the fate of the token: permissions it
    does not support, and metadata that it refuses with a 4xx status, flip the
    token to Invalid and end the reconciliation without a retry; any other
    failure to fetch the metadata flips it to Error and is reported, so that
    the reconciliation is retried.  In each case the failed status is the only
    write, and a failure to write it is reported. *)
Theorem provider_failures_classified {X : Externals} cfg t sp tr o :
  exec (Reconcile_provider cfg t sp) tr o ->
  exists v tr', tr = Act (Sp (SpValidate sp (atsp_Permissions (at_Spec t)))) v :: tr' /\
    match v with
    | Err _ => tr' = [] /\ o.2 <> None
    | Ok (e :: es) => exists r,
        tr' = [Act (Kube (KStatusUpdate KToken (with_error t SPIAccessTokenPhaseInvalid
                 SPIAccessTokenErrorReasonUnsupportedPermissions (NewAggregatedError (e :: es))))) r] /\
        (is_ok r = true -> o = done_ok) /\ (is_ok r = false -> o.2 <> None)
    | Ok [] => exists t' perr tr'', tr' = Act (Sp (PersistMetadata sp t)) (t', perr) :: tr'' /\
        match perr with
        | None => exec (Reconcile_labels cfg t' sp) tr'' o
        | Some err => exists r,
            let invalid := IsServiceProviderHttpInvalidAccessToken err in
            tr'' = [Act (Kube (KStatusUpdate KToken (with_error t'
                      (if invalid then SPIAccessTokenPhaseInvalid else SPIAccessTokenPhaseError)
                      SPIAccessTokenErrorReasonMetadataFailure err))) r] /\
            (is_ok r = true -> o = if invalid then done_ok else failed "failed to persist the metadata" err) /\
            (is_ok r = false -> o.2 <> None)
        end
    end.
Proof.
  intros H. unfold Reconcile_provider in H. unfold call at 1 in H. cbn [bind] in H.
  destruct H as (v & tr' & -> & H). exists v, tr'. split; [done|]. destruct v as [[|e es]|err].
  - unfold call in H. cbn [bind] in H. destruct H as ([t' perr] & tr'' & -> & H).
    exists t', perr, tr''. split; [done|]. destruct perr as [err|]; [|done].
    destruct (IsServiceProviderHttpInvalidAccessToken err); by apply flip_exec in H.
  - by apply flip_exec in H.
  - by destruct H as [-> ->].
Qed.

Definition refused_script : script :=
  mkScript (Err not_found) (Err not_found) (Err not_found) (Err not_found)
      (Err not_found) (Err not_found) (Err not_found) (Err not_found) [] [] [] [] None None None
      (Ok sample_sp) (Ok []) (Ok []) (Some (Errorf_w "failed to fetch" (HttpError 401 "no")))
      (Ok None) (Ok None) (Ok None) (Ok "")
      (Ok (mkDependents (sample_secret "dep" ∅ ∅) [])) None 0.

Lemma provider_failures_classified_witness :
  let t := sample_token "tok" "Ready" (Some sample_metadata) in
  let p := Reconcile_provider sample_config t sample_sp in
  exec p (trace_of refused_script p) (result_of refused_script p) /\
  result_of refused_script p = done_ok /\
  exists v tr', trace_of refused_script p = Act (Sp (SpValidate sample_sp (atsp_Permissions (at_Spec t)))) v :: tr'.
Proof.
  intros t p. split; [apply scripted_exec|]. split; [vm_compute; reflexivity|].
  destruct (provider_failures_classified sample_config t sample_sp _ _ (scripted_exec refused_script p))
    as (v & tr' & H & _).
  exists v, tr'. exact H.
Defined.

(** ** Refreshing on request *)

Definition token_stores (tr : list act) : list ts_write := ts_writes tr.

Lemma refreshToken_reads {X : Externals} cfg t sp tr r :
  exec (refreshToken cfg t sp) tr r -> exists x tr', tr = Act (Ts (TsGet t)) x :: tr'.
Proof. unfold refreshToken, call at 1. cbn [bind]. intros (x & tr' & -> & _). by exists x, tr'. Qed.

Lemma refreshToken_exec {X : Externals} cfg t sp tr r :
  exec (refreshToken cfg t sp) tr r ->
  writes tr = [] /\
  ((ts_writes tr = [] /\ r <> None) \/
   exists old oc tok s tr0,
     tr = Act (Ts (TsGet t)) (Ok old) :: tr0 ++ [Act (Sp (RefreshToken sp old oc)) (Ok tok); Act (Ts (TsStore t tok)) s] /\
     ts_writes tr = [TwStore t tok s] /\ (r = None <-> s = None)).
Proof.
  intros H. unfold refreshToken in H. exec_steps. destruct x as [old|err]; exec_steps; [|naive_solver].
  destruct (Parse _) as [u|err]; exec_steps; [|naive_solver].
  unfold SpConfigFromUserSecret, findUserServiceProviderConfigSecret in H.
  apply exec_bind in H as (c & tr1 & tr2 & -> & H1 & H2).
  assert (writes tr1 = [] /\ ts_writes tr1 = []) as [Hw Ht].
  { exec_steps. destruct x as [l|err]; [destruct (length l <? 1)%nat|destruct (IsForbidden err), (IsUnauthorized err)];
      exec_steps; try (destruct (select_config_secret _ _ _) as [[|]|]; exec_steps); done. }
  rewrite (writes_cons _ (tr1 ++ tr2)), writes_app, Hw. cbn [obs_write act_ev].
  change (ts_writes (?a :: tr1 ++ tr2)) with (ts_writes (tr1 ++ tr2)).
  rewrite ts_writes_app, Ht. cbn [app]. clear H1.
  destruct c as [userConfig|err]; [|destruct H2 as [-> ->]; naive_solver].
  destruct (_ ≫= spc_OAuth2Config) as [oc|]; [|destruct H2 as [-> ->]; naive_solver].
  destruct (has_RefreshTokenCapability sp); cbn [negb] in H2; [|destruct H2 as [-> ->]; naive_solver].
  exec_steps. destruct x as [tok|err]; exec_steps; [|naive_solver].
  destruct x as [err|]; exec_steps; (split; [done|]); right;
    exists old, oc, tok; eexists; exists tr1; done.
Qed.

(** C19 A refresh happens on request only, and the request is withdrawn only
    after it was served: without the label set to [true] the only call is a look
    at the clock, so nothing is read, asked of the provider or written; with it,
    the stored data are read first, and the label is removed (in the only write
    to the cluster) exactly after the token that the provider answered for these
    data was stored; a failure before that keeps the label, and is reported. *)
Theorem refresh_protocol {X : Externals} cfg t sp tr o :
  exec (Reconcile_refresh cfg t sp) tr o ->
  if refresh_requested t then
    (ts_writes tr = [] /\ writes tr = [] /\ o.2 <> None /\ exists r tr', tr = Act (Ts (TsGet t)) r :: tr') \/
    exists old oc tok s tr0 tr1,
      tr = Act (Ts (TsGet t)) (Ok old) :: tr0 ++ [Act (Sp (RefreshToken sp old oc)) (Ok tok); Act (Ts (TsStore t tok)) s] ++ tr1 /\
      ts_writes tr = [TwStore t tok s] /\
      match s with
      | Some _ => writes tr = [] /\ tr1 = [] /\ o.2 <> None
      | None => exists u, writes tr = [WUpdate KToken (without_refresh_label t) u] /\
                  refresh_requested (without_refresh_label t) = false /\ (o.2 = None <-> is_ok u = true)
      end
  else exists now, tr = [Act Now now] /\ o = (mkResult false (durationUntilNextReconcile cfg t now), None).
Proof.
  intros H. unfold Reconcile_refresh in H. destruct (refresh_requested t) eqn:E; [|exec_steps; by eexists].
  apply exec_bind in H as (r & tr1 & tr2 & -> & H1 & H2).
  apply exec_bind in H1 as (e & tr3 & tr4 & -> & H1 & H3).
  destruct (refreshToken_reads _ _ _ _ _ H1) as (x & tr' & Hx). apply refreshToken_exec in H1 as [Hw H1]. rewrite !writes_app, !ts_writes_app, Hw. cbn [app].
  destruct H1 as [[Ht He]|(old & oc & tok & s & tr0 & -> & Ht & Hs)]; rewrite Ht.
  - destruct e as [err|]; [|done]. destruct H3 as [-> ->]. destruct H2 as [-> ->]. left. split_and!; try done.
    exists x, tr'. by rewrite Hx, !app_nil_r.
  - right. exists old, oc, tok, s, tr0. destruct e as [err|].
    + destruct s; [|discriminate (proj2 Hs eq_refl)]. destruct H3 as [-> ->]. destruct H2 as [-> ->].
      exists []. split; [cbn; by rewrite !app_nil_r|]. by split.
    + assert (s = None) as -> by tauto.
      unfold kube at 1, call at 1 in H3. cbn [bind] in H3. destruct H3 as (u & tr5 & -> & H3).
      exists (Act (Kube (KUpdate KToken (without_refresh_label t))) u :: tr5 ++ tr2).
      assert (tr5 = [] /\ writes tr2 = [] /\ ts_writes tr2 = [] /\ (o.2 = None <-> is_ok u = true)) as (-> & Hw2 & Ht2 & Ho).
      { destruct u as [t'|err]; destruct H3 as [-> ->]; (split; [done|]); exec_steps; done. }
      split; [cbn; by rewrite <- !app_assoc|]. split; [cbn; by rewrite Ht2|]. exists u.
      split; [cbn; by rewrite Hw2|]. split; [|done].
      unfold refresh_requested, without_refresh_label, at_Labels. cbn. by rewrite lookup_delete_eq.
Qed.

Definition refreshable_token : SPIAccessToken :=
  let t := sample_token "tok" "Ready" (Some sample_metadata) in
  set_at_Meta (set_om_Labels {[tokenRefreshLabelName := "true"]} (at_Meta t)) t.

Lemma refresh_protocol_witness :
  let tr := trace_of ready_script (Reconcile_refresh sample_config refreshable_token sample_sp) in
  ts_writes tr = [] /\ writes tr = [] /\
  (result_of ready_script (Reconcile_refresh sample_config refreshable_token sample_sp)).2 <> None.
Proof.
  intros tr.
  destruct (refresh_protocol sample_config refreshable_token sample_sp _ _ (scripted_exec ready_script _))
    as [(H1 & H2 & H3 & _)|(old & oc & tok & s & tr0 & tr1 & _ & H & _)]; [by split_and!|].
  exfalso. vm_compute in H. discriminate H.
Defined.

(** ** The OAuth URL of a token awaiting data *)

#[local] Arguments marshal_info : simpl never.
#[local] Arguments EncodeToString : simpl never.

(** The OAuth URL names the token it is for: whenever a URL is produced for
    a token (whose strings are valid UTF-8), it is empty because the provider
    has no OAuth endpoint, or it is the endpoint with a [state] parameter that
    needs no escaping and that the OAuth service parses to the name, namespace
    and kind of the token, the scopes of its permissions and the provider. *)
Theorem oauth_url_identifies_token t tr url :
  exec (oAuthUrlFor t) tr (Ok url) ->
  exists sp, tr = [Act (Sp (FromRepoUrl (atsp_ServiceProviderUrl (at_Spec t)) (at_Namespace t))) (Ok sp)] /\
    match GetOAuthCapability sp with
    | None => url = ""
    | Some c =>
        if String.eqb (GetOAuthEndpoint c) "" then url = "" else
        exists state, url = GetOAuthEndpoint c +:+ "?state=" +:+ state /\ url_safe state = true /\
          ParseOAuthInfo state = Ok (valid_info (oauth_info_of t sp c))
    end.
Proof.
  intros H. unfold oAuthUrlFor in H. exec_steps. destruct x as [sp|err]; [|destruct (errors_As_validation err); by exec_steps].
  exists sp. destruct (GetOAuthCapability sp) as [c|]; [|by exec_steps].
  destruct (String.eqb_spec (GetOAuthEndpoint c) "") as [Hc|Hc].
  - rewrite Hc in H. cbn in H. by exec_steps.
  - destruct (GetOAuthEndpoint c) as [|ch rest] eqn:Ec; [done|]. cbn in H. exec_steps. split; [done|].
    exists (EncodeToString RawURLEncoding (marshal_info (oauth_info_of t sp c))).
    split; [reflexivity|]. destruct (Encode_parses (oauth_info_of t sp c) _ eq_refl) as (Hu & Hp & _).
    split; [exact Hu|exact Hp].
Qed.

Definition oauth_sp : ServiceProvider :=
  mkSP "https://quay.io" sample_sp_type (Some (mkOAuthCapability "https://spi/oauth/authenticate" (fun _ => ["repo:read"]))) false false.

Definition oauth_token : SPIAccessToken := sample_token "tok" "AwaitingTokenData" None.
Definition oauth_trace : list act := [Act (Sp (FromRepoUrl "https://quay.io" "ns")) (Ok oauth_sp)].
Definition oauth_url : string :=
  "https://spi/oauth/authenticate?state=" +:+ EncodeToString RawURLEncoding (marshal_info
    (mkOAuthInfo "tok" "ns" "SPIAccessToken" (Some ["repo:read"]) "Quay" "https://quay.io")).

Lemma oauth_url_identifies_token_witness :
  exists sp, oauth_trace = [Act (Sp (FromRepoUrl "https://quay.io" "ns")) (Ok sp)] /\
    match GetOAuthCapability sp with
    | None => oauth_url = ""
    | Some c =>
        if String.eqb (GetOAuthEndpoint c) "" then oauth_url = "" else
        exists state, oauth_url = GetOAuthEndpoint c +:+ "?state=" +:+ state /\ url_safe state = true /\
          ParseOAuthInfo state = Ok (valid_info (oauth_info_of oauth_token sp c))
    end.
Proof.
  apply (oauth_url_identifies_token oauth_token oauth_trace oauth_url).
  eexists. eexists. split; [reflexivity|]. split; reflexivity.
Defined.
