(* ===== verification/BindingController.v ===== *)
(** * controllers/spiaccesstokenbinding_controller.go: the binding controller

    [Reconcile] in the order of the code: load, normalise the repository URL,
    migrate finalizers and permission areas, finalize, enforce the lifetime,
    validate, link a token, synchronise the dependent objects, update the
    status, clean up.  The binding is passed by reference in the code: every
    helper takes it and returns it as it is in memory afterwards (after a
    successful write, the object the API server answered). *)

From S2P Require Import Prelude GoStd GoUrl GoTime Api Externals SpErrors Effects Samples SpConfig AccessTokenMapper Enqueue TokenController.
Local Open Scope string_scope.
Local Open Scope list_scope.
Local Open Scope spi_scope.

Definition deprecatedLinkedSecretsFinalizerName := "spi.appstudio.redhat.com/linked-secrets".
Definition linkedObjectsFinalizerName := "spi.appstudio.redhat.com/linked-objects".
Definition linkedTokenDoesntMatchError : goerr := ErrorString "linked token doesn't match the criteria".
Definition invalidServiceProviderHostError : goerr :=
  ErrorString "the host of service provider url, determined from repoUrl, is not a valid DNS1123 subdomain".
Definition minimalBindingLifetimeError : goerr :=
  ErrorString "a specified binding lifetime is less than 60s, which cannot be accepted".
Definition emptyUrlHostError : goerr := ErrorString "the host part, parsed from the whole repoUrl, is empty".
Definition bindingConsistencyError : goerr := ErrorString "binding consistency error".

(** ** Pure helpers *)

Definition assureProperRepoUrl (repoUrl : string) : res string :=
  match Parse repoUrl with
  | Err err => Err (Errorf_w "cannot parse repoUrl" err)
  | Ok parsedUrl =>
      if negb (String.eqb (Host parsedUrl) "") then Ok repoUrl
      else
        match Parse ("https://" +:+ repoUrl) with
        | Err err => Err (Errorf_w "cannot parse repoUrl after prepending https scheme" err)
        | Ok parsedUrl =>
            if negb (String.eqb (Host parsedUrl) "") then Ok ("https://" +:+ repoUrl)
            else Err emptyUrlHostError
        end
  end.

(** [Ok None]: unlimited *)
Definition bindingLifetime (cfg : OperatorConfiguration) (b : SPIAccessTokenBinding) : res (option Z) :=
  let l := bsp_Lifetime (b_Spec b) in
  if String.eqb l "" then Ok (Some (opc_AccessTokenBindingTtl cfg))
  else if String.eqb l "-1" then Ok None
  else
    match ParseDuration l with
    | Err err => Err (Errorf_w "invalid binding lifetime format specified" err)
    | Ok d => if (d <? 60 * Second)%Z then Err minimalBindingLifetimeError else Ok (Some d)
    end.

Definition migrate_area (p : Permission) : bool * Permission :=
  if String.eqb (perm_Area p) PermissionAreaRepository then (true, set_perm_Area PermissionAreaRegistry p)
  else if String.eqb (perm_Area p) PermissionAreaRepositoryMetadata
       then (true, set_perm_Area PermissionAreaRegistryMetadata p)
       else (false, p).

Definition checkQuayPermissionAreasMigration (b : SPIAccessTokenBinding) (spName : string)
  : bool * SPIAccessTokenBinding :=
  if String.eqb spName (spt_Name ServiceProviderTypeQuay) then
    let perms := bsp_Permissions (b_Spec b) in
    let migrated := map migrate_area (perms_Required perms) in
    (existsb fst migrated,
     set_b_Spec (set_bsp_Permissions (set_perms_Required (map snd migrated) perms) (b_Spec b)) b)
  else (false, b).

Definition getLinkedTokenFromList (b : SPIAccessTokenBinding) (tokens : list SPIAccessToken)
  : option SPIAccessToken :=
  List.find (fun t => String.eqb (at_Name t) (bst_LinkedAccessTokenName (b_Status b))) tokens.

Definition validateServiceProviderUrl {X : Externals} (serviceProviderUrl : string) : option goerr :=
  match Parse serviceProviderUrl with
  | Err err => Some (Errorf_w "the service provider url, determined from repoUrl, is not parsable" err)
  | Ok parse =>
      match IsDNS1123Subdomain (Host parse) with
      | [] => None
      | _ => Some invalidServiceProviderHostError
      end
  end.

(** The reference of a secret: its GroupVersionKind is the type information of
    the object. *)
Definition toObjectRef (s : Secret) : TargetObjectRef :=
  mkTargetObjectRef (om_Name (sec_Meta s)) (sec_Kind s) (sec_APIVersion s).

(** ** Status updates *)

Definition set_phase (phase : string) (b : SPIAccessTokenBinding) : SPIAccessTokenBinding :=
  with_status (set_bst_Phase phase) b.

(** A failure to update is logged only: the binding is the one in memory. *)
Definition updateBindingStatusError (b : SPIAccessTokenBinding) (reason : string) (err : goerr)
  : prog SPIAccessTokenBinding :=
  let b := with_status (fun st => set_bst_ErrorReason reason (set_bst_ErrorMessage (Error err) st)) b in
  let! r := kube (KStatusUpdate KBinding b) in
  Ret (match r with Ok b' => b' | Err _ => b end).

Definition updateBindingStatusSuccess (b : SPIAccessTokenBinding)
  : prog (SPIAccessTokenBinding * option goerr) :=
  let b := with_status (fun st => set_bst_ErrorReason "" (set_bst_ErrorMessage "" st)) b in
  let! r := kube (KStatusUpdate KBinding b) in
  match r with
  | Err err => Ret (b, Some (Errorf_w "failed to update status" err))
  | Ok b' => Ret (b', None)
  end.

(** Phase Error with a reason, persisted *)
Definition fail_binding (b : SPIAccessTokenBinding) (reason : string) (err : goerr) : prog SPIAccessTokenBinding :=
  updateBindingStatusError (set_phase SPIAccessTokenBindingPhaseError b) reason err.

(** ** The steps of [Reconcile] *)

(** [inl]: the reconciliation ends with this result.  The error of the update
    is logged and not returned. *)
Definition assureProperValuesInBinding (b : SPIAccessTokenBinding) : prog (outcome + SPIAccessTokenBinding) :=
  match assureProperRepoUrl (b_RepoUrl b) with
  | Err err =>
      let! _ := fail_binding b BindingErrorReasonUnknownServiceProviderType
                  (Errorf_w "failed to parse host out of repoUrl" err) in
      Ret (inl done_ok)
  | Ok repoUrl =>
      if negb (String.eqb repoUrl (b_RepoUrl b)) then
        let! _ := kube (KUpdate KBinding (set_b_Spec (set_bsp_RepoUrl repoUrl (b_Spec b)) b)) in
        Ret (inl (mkResult true 0, None))
      else Ret (inr b)
  end.

Definition migrate_finalizer (f : string) : string :=
  if String.eqb f deprecatedLinkedSecretsFinalizerName then linkedObjectsFinalizerName else f.

Definition migrateFinalizers (b : SPIAccessTokenBinding) : prog (res SPIAccessTokenBinding) :=
  let fs := om_Finalizers (b_Meta b) in
  let updateNeeded := existsb (fun f => String.eqb f deprecatedLinkedSecretsFinalizerName) fs in
  let b := set_b_Meta (set_om_Finalizers (map migrate_finalizer fs) (b_Meta b)) b in
  if updateNeeded && negb (bool_decide (is_Some (om_DeletionTimestamp (b_Meta b)))) then
    let! r := kube (KUpdate KBinding b) in
    match r with
    | Err err => Ret (Err (Errorf_w "failed to update the deprecated finalizer names" err))
    | Ok b => Ret (Ok b)
    end
  else Ret (Ok b).

Definition getServiceProvider (b : SPIAccessTokenBinding) : prog (res ServiceProvider) :=
  let! r := call (Sp (FromRepoUrl (b_RepoUrl b) (b_Namespace b))) in
  match r with
  | Ok sp => Ret (Ok sp)
  | Err err =>
      match errors_As_validation err with
      | Some validationErr =>
          let! _ := fail_binding b BindingErrorUnsupportedServiceProviderConfiguration err in
          Ret (Err (Errorf_w "failed to validate the service provider" validationErr))
      | None =>
          let! _ := fail_binding b BindingErrorReasonUnknownServiceProviderType err in
          Ret (Err (Errorf_w "failed to find the service provider" err))
      end
  end.

Definition linked_label (b : SPIAccessTokenBinding) (token : SPIAccessToken) : SPIAccessTokenBinding :=
  set_b_Meta (set_om_Labels (<[SPIAccessTokenLinkLabel := at_Name token]> (b_Labels b)) (b_Meta b)) b.
Definition linked_status (b : SPIAccessTokenBinding) (token : SPIAccessToken) : SPIAccessTokenBinding :=
  with_status (fun st => set_bst_UploadUrl (atst_UploadUrl (at_Status token))
    (set_bst_OAuthUrl (atst_OAuthUrl (at_Status token))
      (set_bst_LinkedAccessTokenName (at_Name token) st))) b.

(** The link in the labels *)
Definition persist_label (b : SPIAccessTokenBinding) (token : SPIAccessToken)
  : prog (SPIAccessTokenBinding * option goerr) :=
  if negb (String.eqb (map_get (b_Labels b) SPIAccessTokenLinkLabel) (at_Name token)) then
    let b := linked_label b token in
    let! r := kube (KUpdate KBinding b) in
    match r with
    | Err err =>
        let! b := updateBindingStatusError b BindingErrorReasonLinkedToken err in
        Ret (b, Some (Errorf_w "failed to update the binding with the token link" err))
    | Ok b => Ret (b, None)
    end
  else Ret (b, None).

(** The link in the status *)
Definition persist_status (b : SPIAccessTokenBinding) (token : SPIAccessToken)
  : prog (SPIAccessTokenBinding * option goerr) :=
  if negb (String.eqb (bst_LinkedAccessTokenName (b_Status b)) (at_Name token)) then
    let! (b, r) := updateBindingStatusSuccess (linked_status b token) in
    match r with
    | Some err =>
        let! b := updateBindingStatusError b BindingErrorReasonLinkedToken err in
        Ret (b, Some (Errorf_w "failed to update the binding status with the token link" err))
    | None => Ret (b, None)
    end
  else Ret (b, None).

Definition persistWithMatchingLabels (b : SPIAccessTokenBinding) (token : SPIAccessToken)
  : prog (SPIAccessTokenBinding * option goerr) :=
  let! (b, r) := persist_label b token in
  match r with
  | Some err => Ret (b, Some err)
  | None => persist_status b token
  end.

(** ** Linking a token *)

(** The token created for a binding that matches no existing one *)
Definition new_token (b : SPIAccessTokenBinding) (serviceProviderUrl : string) : SPIAccessToken :=
  mkSPIAccessToken "" (mkMeta "" "generated-spi-access-token-" (b_Namespace b) ∅ ∅ [] 0 None)
    (mkTokenSpec (bsp_Permissions (b_Spec b)) serviceProviderUrl) (mkTokenStatus "" "" "" "" "" None).

Record choice := mkChoice { ch_token : SPIAccessToken; ch_matching : bool; ch_created : bool }.

Section linking.
Context {X : Externals}.

(** The token to link: found, linked already, or newly created *)
Definition choose_token (sp : ServiceProvider) (b : SPIAccessTokenBinding) (tokens : list SPIAccessToken)
: prog (SPIAccessTokenBinding * res choice) :=
match tokens with
| [] =>
    let linked := bst_LinkedAccessTokenName (b_Status b) in
    if negb (String.eqb linked "") then
      let! r := kube (KGet KToken (mkKey (b_Namespace b) linked)) in
      match r with
      | Err err => Ret (b, Err (Errorf_w "failed to get the linked token" err))
      | Ok token => Ret (b, Ok (mkChoice token false false))
      end
    else
      let serviceProviderUrl := GetBaseUrl_sp sp in
      match validateServiceProviderUrl serviceProviderUrl with
      | Some err =>
          let! b := fail_binding b BindingErrorReasonUnknownServiceProviderType err in
          Ret (b, Err (Errorf_w "failed to determine the service provider URL from the repo" err))
      | None =>
          let! r := kube (KCreate KToken (new_token b serviceProviderUrl)) in
          match r with
          | Err err =>
              let! b := updateBindingStatusError b BindingErrorReasonLinkedToken err in
              Ret (b, Err (Errorf_w "failed to create the token" err))
          | Ok token => Ret (b, Ok (mkChoice token true true))
          end
      end
| t0 :: _ =>
    let token := match getLinkedTokenFromList b tokens with Some t => t | None => t0 end in
    Ret (b, Ok (mkChoice token true false))
end.

Definition linkToken (sp : ServiceProvider) (b : SPIAccessTokenBinding)
: prog (SPIAccessTokenBinding * res (SPIAccessToken * bool)) :=
let! r := call (Sp (LookupTokens sp b)) in
match r with
| Err err =>
    let! b := updateBindingStatusError b BindingErrorReasonTokenLookup err in
    Ret (b, Err (Errorf_w "failed to lookup the matching tokens in the service provider" err))
| Ok tokens =>
    let! (b, c) := choose_token sp b tokens in
    match c with
    | Err err => Ret (b, Err err)
    | Ok c =>
        let! (b, e) := persistWithMatchingLabels b (ch_token c) in
        match e with
        | None => Ret (b, Ok (ch_token c, ch_matching c))
        | Some err =>
            if ch_created c then
              let! _ := kube (KDelete KToken (ch_token c)) in Ret (b, Err err)
            else Ret (b, Err err)
        end
    end
end.
End linking.

(** ** Synchronising the dependent objects *)

Definition awaiting_without_objects (b : SPIAccessTokenBinding) : SPIAccessTokenBinding :=
  with_status (fun st => set_bst_ServiceAccountNames []
    (set_bst_SyncedObjectRef empty_ref
      (set_bst_Phase SPIAccessTokenBindingPhaseAwaitingTokenData st))) b.

Definition injected (b : SPIAccessTokenBinding) (deps : Dependents) : SPIAccessTokenBinding :=
  with_status (fun st =>
    set_bst_ServiceAccountNames (map (fun sa => om_Name (sa_Meta sa)) (dep_ServiceAccounts deps))
      (set_bst_SyncedObjectRef (toObjectRef (dep_Secret deps))
        (set_bst_Phase SPIAccessTokenBindingPhaseInjected st))) b.

(** The synchronisation of a linked token: [inr] when it ends the
    reconciliation *)
Definition sync_dependents (sp : ServiceProvider) (b : SPIAccessTokenBinding) (token : SPIAccessToken)
  (depCheckpoint : nat) : prog (outcome + SPIAccessTokenBinding) :=
  if is_ready_phase token then
    let! s := call (Dep (DepSync b sp token)) in
    match s with
    | Err (errorReason, err) =>
        if errors_Is err SecretDataNotFoundError then Ret (inr (awaiting_without_objects b))
        else
          let! b := fail_binding b errorReason err in
          let! _ := call (Dep (DepRevertTo b depCheckpoint)) in
          Ret (inl (failed "failed to sync the dependent objects" err))
    | Ok deps => Ret (inr (injected b deps))
    end
  else Ret (inr (awaiting_without_objects b)).

Section reconciler.
Context {X : Externals} (cfg : OperatorConfiguration).

(** The last return: wake up after the lifetime and the grace period *)
Definition requeue_after_lifetime (b : SPIAccessTokenBinding) (lifetime : option Z) : prog outcome :=
match lifetime with
| None => Ret done_ok
| Some d =>
    let! now := call Now in
    Ret (mkResult false (time_Until now (om_CreationTimestamp (b_Meta b) + d + opc_DeletionGracePeriod cfg)), None)
end.

(** From the checkpoint on *)
Definition Reconcile_sync (sp : ServiceProvider) (b : SPIAccessTokenBinding) (token : SPIAccessToken)
(lifetime : option Z) : prog outcome :=
let b := with_status (fun st => set_bst_UploadUrl (atst_UploadUrl (at_Status token))
  (set_bst_OAuthUrl (atst_OAuthUrl (at_Status token)) st)) b in
let! c := call (Dep (DepCheckPoint b)) in
match c with
| Err err =>
    let! _ := fail_binding b BindingErrorReasonServiceAccountUpdate err in
    Ret (failed "failed to prepare a checkpoint to revert to prior to changing the cluster state" err)
| Ok depCheckpoint =>
    let! s := sync_dependents sp b token depCheckpoint in
    match s with
    | inl o => Ret o
    | inr b =>
        let! (b, u) := updateBindingStatusSuccess b in
        match u with
        | Some err =>
            let! _ := call (Dep (DepRevertTo b depCheckpoint)) in
            Ret (failed "failed to update the status" err)
        | None =>
            if negb (String.eqb (bst_Phase (b_Status b)) SPIAccessTokenBindingPhaseInjected) then
              let! e := call (Dep (DepCleanup b)) in
              match e with
              | Some err =>
                  let! _ := updateBindingStatusError b BindingErrorReasonTokenSync err in
                  Ret (failed "failed to clean up the dependent objects" err)
              | None => requeue_after_lifetime b lifetime
              end
            else requeue_after_lifetime b lifetime
        end
    end
end.

(** Linking, and the check that a ready token matches *)
Definition Reconcile_link (sp : ServiceProvider) (b : SPIAccessTokenBinding) (lifetime : option Z) : prog outcome :=
let! (b, l) := linkToken sp b in
match l with
| Err err => Ret (failed "failed to link the token" err)
| Ok (token, matching) =>
    if negb matching && is_ready_phase token then
      let! _ := updateBindingStatusError
                  (with_status (set_bst_OAuthUrl "") (set_phase SPIAccessTokenBindingPhaseError b))
                  BindingErrorReasonLinkedToken linkedTokenDoesntMatchError in
      Ret done_ok
    else Reconcile_sync sp b token lifetime
end.

(** Validation of the spec by the code and by the provider *)
Definition Reconcile_validate (sp : ServiceProvider) (b : SPIAccessTokenBinding) (lifetime : option Z) : prog outcome :=
let b := if String.eqb (bst_Phase (b_Status b)) ""
         then set_phase SPIAccessTokenBindingPhaseAwaitingTokenData b else b in
match Binding_Validate b with
| (_ :: _) as consistency =>
    let! _ := fail_binding b BindingErrorReasonInconsistentSpec
                (NewAggregatedError
                  (map (fun e => WrapError (Error bindingConsistencyError +:+ ": " +:+ e) bindingConsistencyError)
                    consistency)) in
    Ret done_ok
| [] =>
    let! v := call (Sp (SpValidate sp (bsp_Permissions (b_Spec b)))) in
    match v with
    | Err err => Ret (failed "failed to validate the object" err)
    | Ok [] => Reconcile_link sp b lifetime
    | Ok scopeValidation =>
        let! _ := fail_binding b BindingErrorReasonUnsupportedPermissions (NewAggregatedError scopeValidation) in
        Ret done_ok
    end
end.

(** After the finalization: deletion and lifetime *)
Definition Reconcile_live (sp : ServiceProvider) (b : SPIAccessTokenBinding) : prog outcome :=
match om_DeletionTimestamp (b_Meta b) with
| Some _ => Ret done_ok
| None =>
    match bindingLifetime cfg b with
    | Err err =>
        let! _ := fail_binding b BindingErrorReasonInvalidLifetime err in
        Ret (failed "binding lifetime processing failed" err)
    | Ok lifetime =>
        let! now := call Now in
        let age := time_Since now (om_CreationTimestamp (b_Meta b)) in
        if match lifetime with Some d => seconds_gt age d | None => false end then
          let! d := kube (KDelete KBinding b) in
          match d with
          | Some err => Ret (failed "failed to cleanup binding on reaching the max lifetime" err)
          | None => Ret done_ok
          end
        else Reconcile_validate sp b lifetime
    end
end.

Definition Reconcile_finalize (sp : ServiceProvider) (b : SPIAccessTokenBinding) : prog outcome :=
let! fin := call (Finalize KBinding b) in
match fin_err fin with
| Some err => Ret (failed "failed to finalize" err)
| None =>
    let! u := update_if (k := KBinding) (fin_Updated fin) (fin_obj fin) in
    match u with
    | Err err => Ret (failed "failed to update based on finalization result" err)
    | Ok b =>
        let! s := status_update_if (k := KBinding) (fin_StatusUpdated fin) b in
        match s with
        | Err err => Ret (failed "failed to update the status based on finalization result" err)
        | Ok b => Reconcile_live sp b
        end
    end
end.

(** The provider and the migration of old permission areas *)
Definition Reconcile_provider (b : SPIAccessTokenBinding) : prog outcome :=
let! p := getServiceProvider b in
match p with
| Err _ => Ret done_ok
| Ok sp =>
    let '(permissionChange, b) := checkQuayPermissionAreasMigration b (spt_Name (GetType sp)) in
    if permissionChange then
      let! r := kube (KUpdate KBinding b) in
      match r with
      | Err err => Ret (failed "failed to update binding with migrated permission areas" err)
      | Ok _ => Ret done_ok
      end
    else Reconcile_finalize sp b
end.

Definition Reconcile (req : ObjectKey) : prog outcome :=
let! r := kube (KGet KBinding req) in
match r with
| Err err =>
    if IsNotFound err then Ret done_ok else Ret (failed "failed to read the object" err)
| Ok b =>
    let! p := assureProperValuesInBinding b in
    match p with
    | inl o => Ret o
    | inr b =>
        let! m := migrateFinalizers b in
        match m with
        | Err err => Ret (no_requeue, Some err)
        | Ok b => Reconcile_provider b
        end
    end
end.
End reconciler.

(** ** The finalizer of the dependent objects *)

Definition linkedObjectsFinalizer_Finalize (k : kind) (o : obj k) : prog (option goerr) :=
  match k as k return obj k -> prog (option goerr) with
  | KBinding => fun binding =>
      let! r := call (Sp (FromRepoUrl (b_RepoUrl binding) (b_Namespace binding))) in
      match r with
      | Err err =>
          Ret (Some (Errorf_w ("failed to determine the service provider for the binding "
                                +:+ b_Namespace binding +:+ "/" +:+ b_Name binding) err))
      | Ok sp =>
          let! e := call (Dep (DepCleanup binding)) in
          match e with
          | Some err => Ret (Some (Errorf_w "failed to clean up dependent objects in the finalizer" err))
          | None => Ret None
          end
      end
  | _ => fun _ => Ret (Some unexpectedObjectTypeError)
  end o.

(** ** Convergence of the normalisations *)

(** Normalising the repository URL is a fixed point: a URL the controller
    accepts has a host, is the given one or the given one with the [https]
    scheme, and is left alone by the next reconciliation, so that the requeue
    after the update does not repeat. *)
Theorem assureProperRepoUrl_stable u u' :
  assureProperRepoUrl u = Ok u' ->
  (u' = u \/ u' = "https://" +:+ u) /\
  (exists p, Parse u' = Ok p /\ Host p <> "") /\
  assureProperRepoUrl u' = Ok u'.
Proof.
  unfold assureProperRepoUrl at 1. intros H.
  assert (exists p, Parse u' = Ok p /\ Host p <> "" /\ (u' = u \/ u' = "https://" +:+ u)) as (p & Hp & Hh & Hu).
  { destruct (Parse u) as [p|] eqn:E; [|done].
    destruct (String.eqb_spec (Host p) ""); cbn [negb] in H.
    - destruct (Parse ("https://" +:+ u)) as [p'|] eqn:E'; [|done].
      destruct (String.eqb_spec (Host p') ""); cbn [negb] in H; [done|]. apply Ok_inj in H as <-. eauto 6.
    - apply Ok_inj in H as <-. eauto 6. }
  split; [done|]. split; [by exists p|]. unfold assureProperRepoUrl. rewrite Hp.
  apply String.eqb_neq in Hh. by rewrite Hh.
Qed.

Lemma assureProperRepoUrl_stable_witness :
  assureProperRepoUrl "quay.io/org/repo" = Ok "https://quay.io/org/repo" /\
  assureProperRepoUrl "https://quay.io/org/repo" = Ok "https://quay.io/org/repo".
Proof.
  split; [vm_compute; reflexivity|].
  apply (assureProperRepoUrl_stable "quay.io/org/repo"). vm_compute. reflexivity.
Defined.

Definition areas (b : SPIAccessTokenBinding) : list string := map perm_Area (perms_Required (bsp_Permissions (b_Spec b))).
Definition old_area (a : string) : Prop := a = PermissionAreaRepository \/ a = PermissionAreaRepositoryMetadata.

Lemma migrate_area_spec p :
  let q := (migrate_area p).2 in
  perm_Type q = perm_Type p /\ ~ old_area (perm_Area q) /\
  ((migrate_area p).1 = true <-> old_area (perm_Area p)) /\ (~ old_area (perm_Area p) -> q = p).
Proof.
  unfold migrate_area, old_area. destruct (String.eqb_spec (perm_Area p) PermissionAreaRepository) as [->|H1];
    [|destruct (String.eqb_spec (perm_Area p) PermissionAreaRepositoryMetadata) as [->|H2]]; cbn;
    repeat split; intuition (try discriminate; try congruence).
Qed.

(** The two migrations of a binding converge after one step: no old Quay
    permission area and no deprecated finalizer remains, permission types and
    everything else are kept, the change is reported exactly when there was
    something to migrate, and migrating again changes nothing. *)
Theorem migrations_converge {X : Externals} b spName :
  let '(changed, b') := checkQuayPermissionAreasMigration b spName in
  (spName = "Quay" ->
     (changed = true <-> Exists old_area (areas b)) /\ Forall (fun a => ~ old_area a) (areas b')) /\
  (spName <> "Quay" -> changed = false /\ b' = b) /\
  map perm_Type (perms_Required (bsp_Permissions (b_Spec b'))) =
    map perm_Type (perms_Required (bsp_Permissions (b_Spec b))) /\
  (changed = false -> b' = b) /\
  checkQuayPermissionAreasMigration b' spName = (false, b') /\
  (forall f, migrate_finalizer f <> deprecatedLinkedSecretsFinalizerName /\
             migrate_finalizer (migrate_finalizer f) = migrate_finalizer f).
Proof.
  destruct (checkQuayPermissionAreasMigration b spName) as [changed b'] eqn:E.
  assert (forall f, migrate_finalizer f <> deprecatedLinkedSecretsFinalizerName /\
             migrate_finalizer (migrate_finalizer f) = migrate_finalizer f) as Hfin.
  { intros f. unfold migrate_finalizer at 1 3 4. destruct (String.eqb_spec f deprecatedLinkedSecretsFinalizerName).
    - by split.
    - split; [done|]. apply String.eqb_neq in n. unfold migrate_finalizer. by rewrite n. }
  unfold checkQuayPermissionAreasMigration in *. change (spt_Name ServiceProviderTypeQuay) with "Quay" in *.
  destruct (String.eqb_spec spName "Quay") as [->|Hn]; [|injection E as <- <-; repeat split; done || apply Hfin].
  injection E as <- <-. destruct b as [meta [url [perms scopes] sec life] st]. unfold areas. cbn.
  assert (forall l, existsb fst (map migrate_area l) = true <-> Exists old_area (map perm_Area l)) as Hex.
  { induction l as [|p l IH]; cbn; [by rewrite List.Exists_nil|].
    rewrite orb_true_iff, List.Exists_cons, IH. pose proof (migrate_area_spec p) as (_ & _ & -> & _). done. }
  assert (forall l, existsb fst (map migrate_area l) = false -> map snd (map migrate_area l) = l) as Hid.
  { induction l as [|p l IH]; cbn; [done|]. rewrite orb_false_iff. intros [H1 H2]. f_equal; [|by apply IH].
    pose proof (migrate_area_spec p) as (_ & _ & Hc & Hp). apply Hp. rewrite <- Hc. by rewrite H1. }
  assert (forall l, Forall (fun a => ~ old_area a) (map perm_Area (map snd (map migrate_area l)))) as Hno.
  { induction l as [|p l IH]; cbn; [constructor|]. constructor; [apply migrate_area_spec|done]. }
  assert (existsb fst (map migrate_area (map snd (map migrate_area perms))) = false) as Hagain.
  { apply not_true_iff_false. rewrite Hex, List.Exists_exists. intros (a & Hin & Ha).
    by apply (proj1 (List.Forall_forall _ _) (Hno perms) a). }
  split; [intros _; split; [apply Hex|apply Hno]|]. split; [done|].
  split; [rewrite !map_map; apply map_ext; intros p; apply migrate_area_spec|].
  unfold set_b_Spec, set_bsp_Permissions, set_perms_Required. cbn.
  split; [intros H; by rewrite Hid|]. split; [|exact Hfin].
  rewrite Hagain. by rewrite Hid.
Qed.

(** ** Lifetime *)

(** The lifetime of a binding: the configured one when none is given, none
    at all for -1, and otherwise the given duration, which is an error unless
    it parses to at least a minute; so a lifetime that is given is within
    [60 s, 2^63 - 1 ns]. *)
Theorem bindingLifetime_correct cfg b :
  match bindingLifetime cfg b with
  | Ok None => bsp_Lifetime (b_Spec b) = "-1"
  | Ok (Some d) =>
      (bsp_Lifetime (b_Spec b) = "" /\ d = opc_AccessTokenBindingTtl cfg) \/
      (ParseDuration (bsp_Lifetime (b_Spec b)) = Ok d /\ (60000000000 <= d <= max_int64)%Z)
  | Err e => forall d, ParseDuration (bsp_Lifetime (b_Spec b)) = Ok d ->
      (d < 60000000000)%Z /\ e = minimalBindingLifetimeError
  end.
Proof.
  unfold bindingLifetime. destruct (String.eqb_spec (bsp_Lifetime (b_Spec b)) "") as [E|_]; [by left|].
  destruct (String.eqb_spec (bsp_Lifetime (b_Spec b)) "-1") as [E|_]; [done|].
  destruct (ParseDuration _) as [d|err] eqn:E; [|done].
  destruct (Z.ltb_spec d (60 * Second)) as [Hd|Hd]; unfold Second in Hd.
  - intros d' Hd'. apply Ok_inj in Hd' as <-. split; [lia|done].
  - right. split; [done|]. apply ParseDuration_bounds in E. lia.
Qed.

Example lifetime_ok : bindingLifetime sample_config
  (set_b_Spec (mkBindingSpec "https://quay.io/o/r" no_permissions sample_secret_spec "1h30m") (sample_binding "b" "" ""))
  = Ok (Some 5400000000000%Z).
Proof. vm_compute. reflexivity. Qed.

Definition exceeded (lifetime : option Z) (age : Z) : bool :=
  match lifetime with Some d => seconds_gt age d | None => false end.

(** ** What comes before the live part of a reconciliation *)

(** No call to the dependents handler *)
Definition no_dep (a : act) : Prop := obs_dep a = None.

Lemma no_dep_deps tr : Forall no_dep tr <-> deps tr = [].
Proof.
  induction tr as [|a tr IH]; [by split; constructor|].
  rewrite List.Forall_cons_iff, deps_cons. unfold no_dep at 1. destruct (obs_dep a); naive_solver.
Qed.

Section prefix.
Context {X : Externals} (cfg : OperatorConfiguration).

Lemma error_update_no_dep b reason err : sat no_dep (fun _ => True) (updateBindingStatusError b reason err).
Proof. unfold updateBindingStatusError. repeat sat_step; done. Qed.
Lemma fail_no_dep b reason err : sat no_dep (fun _ => True) (fail_binding b reason err).
Proof. apply error_update_no_dep. Qed.
Lemma success_update_no_dep b : sat no_dep (fun _ => True) (updateBindingStatusSuccess b).
Proof. unfold updateBindingStatusSuccess. repeat sat_step; done. Qed.

Lemma normalise_no_dep b : sat no_dep (fun _ => True) (assureProperValuesInBinding b).
Proof.
unfold assureProperValuesInBinding. repeat sat_step; try done. sat_seq; [apply fail_no_dep|by apply sat_Ret].
Qed.

Lemma migrate_no_dep b : sat no_dep (fun _ => True) (migrateFinalizers b).
Proof. unfold migrateFinalizers. cbv zeta. repeat sat_step; done. Qed.

Lemma provider_no_dep b : sat no_dep (fun _ => True) (getServiceProvider b).
Proof.
unfold getServiceProvider. repeat sat_step; try done; (sat_seq; [apply fail_no_dep|by apply sat_Ret]).
Qed.

(** A part of a trace without calls to the dependents handler *)
Ltac no_dep_of L H :=
let Hn := fresh "Hn" in apply L in H as [Hn _]; apply no_dep_deps in Hn.

Lemma Reconcile_finalize_exec sp b tr o :
exec (Reconcile_finalize cfg sp b) tr o ->
deps tr = [] \/ exists b' pre post, tr = pre ++ post /\ deps pre = [] /\ exec (Reconcile_live cfg sp b') post o.
Proof.
unfold Reconcile_finalize, update_if, status_update_if. intros H.
unfold call in H. cbn [bind] in H. destruct H as (fin & tr' & -> & H).
destruct (fin_err fin); [destruct H as [-> ->]; by left|].
apply exec_bind in H as (u & tr1 & tr2 & -> & H1 & H).
assert (deps tr1 = []) as Hd1 by (destruct (fin_Updated fin); exec_steps; done).
destruct u as [b1|err]; [|destruct H as [-> ->]; left; cbn; by rewrite app_nil_r].
apply exec_bind in H as (s & tr3 & tr4 & -> & H2 & H).
assert (deps tr3 = []) as Hd2 by (destruct (fin_StatusUpdated fin); exec_steps; done).
destruct s as [b2|err]; [|destruct H as [-> ->]; left; cbn; by rewrite app_nil_r, deps_app, Hd1, Hd2].
right. exists b2, (Act (Finalize KBinding b) fin :: tr1 ++ tr3), tr4.
split; [by rewrite <- app_comm_cons, app_assoc|]. split; [|done]. cbn. by rewrite deps_app, Hd1, Hd2.
Qed.

Lemma Reconcile_exec req tr o :
exec (Reconcile cfg req) tr o ->
deps tr = [] \/ exists sp b pre post, tr = pre ++ post /\ deps pre = [] /\ exec (Reconcile_live cfg sp b) post o.
Proof.
unfold Reconcile, kube, call. cbn [bind]. intros (r & tr' & -> & H).
destruct r as [b|err]; [|destruct (IsNotFound err); destruct H as [-> ->]; by left].
apply exec_bind in H as (n & tr1 & tr2 & -> & H1 & H). no_dep_of normalise_no_dep H1.
destruct n as [o'|b1]; [destruct H as [-> ->]; left; cbn; by rewrite app_nil_r|].
apply exec_bind in H as (m & tr3 & tr4 & -> & H2 & H). no_dep_of migrate_no_dep H2.
destruct m as [b2|err]; [|destruct H as [-> ->]; left; cbn; by rewrite app_nil_r, deps_app, Hn, Hn0].
unfold Reconcile_provider in H.
apply exec_bind in H as (p & tr5 & tr6 & -> & H3 & H). no_dep_of provider_no_dep H3.
assert (forall l, deps (Act (Kube (KGet KBinding req)) (Ok b) :: tr1 ++ tr3 ++ tr5 ++ l) = deps l) as Hpre.
{ intros l. cbn. by rewrite !deps_app, Hn, Hn0, Hn1. }
destruct p as [sp|err]; [|destruct H as [-> ->]; left; by rewrite Hpre].
destruct (checkQuayPermissionAreasMigration b2 _) as [[] b3].
- unfold kube, call in H. cbn [bind] in H. destruct H as (u & tr7 & -> & H). left. rewrite Hpre.
  destruct u; by destruct H as [-> ->].
- apply Reconcile_finalize_exec in H as [H|(b4 & pre & post & -> & Hd & H)]; [left; by rewrite Hpre|].
  right. exists sp, b4, (Act (Kube (KGet KBinding req)) (Ok b) :: tr1 ++ tr3 ++ tr5 ++ pre), post.
  split; [by rewrite <- app_comm_cons, <- !app_assoc|]. split; [by rewrite Hpre|done].
Qed.
End prefix.

(** ** Linking cleans up the token it created *)

(** The tokens a trace created, and those it asked to delete, with the answers *)
Definition created_of (w : kube_write) : option SPIAccessToken :=
  match w with
  | WCreate k _ r =>
      match k return res (obj k) -> option SPIAccessToken with KToken => ok_option | _ => fun _ => None end r
  | _ => None
  end.
Definition deleted_of (w : kube_write) : option (SPIAccessToken * option goerr) :=
  match w with
  | WDelete k o r =>
      match k return obj k -> option (SPIAccessToken * option goerr) with KToken => fun t => Some (t, r) | _ => fun _ => None end o
  | _ => None
  end.
Definition created_tokens (tr : list act) : list SPIAccessToken := omap created_of (writes tr).
Definition deleted_tokens (tr : list act) : list (SPIAccessToken * option goerr) := omap deleted_of (writes tr).

Lemma created_app tr1 tr2 : created_tokens (tr1 ++ tr2) = created_tokens tr1 ++ created_tokens tr2.
Proof. unfold created_tokens. by rewrite writes_app, omap_app. Qed.
Lemma deleted_app tr1 tr2 : deleted_tokens (tr1 ++ tr2) = deleted_tokens tr1 ++ deleted_tokens tr2.
Proof. unfold deleted_tokens. by rewrite writes_app, omap_app. Qed.

(** A call that concerns no token and no dependent object *)
Definition binding_only (a : act) : Prop :=
  no_dep a /\ on_writes (fun w => created_of w = None /\ deleted_of w = None) a.

Lemma binding_only_trace tr : Forall binding_only tr ->
  deps tr = [] /\ created_tokens tr = [] /\ deleted_tokens tr = [].
Proof.
  intros H. split; [apply no_dep_deps; eapply List.Forall_impl; [|exact H]; unfold binding_only; naive_solver|].
  assert (Forall (fun w => created_of w = None /\ deleted_of w = None) (writes tr)) as Hw.
  { apply on_writes_Forall. eapply List.Forall_impl; [|exact H]. unfold binding_only. naive_solver. }
  unfold created_tokens, deleted_tokens. induction Hw as [|w ws [H1 H2] _ IH]; cbn; [done|]. by rewrite H1, H2.
Qed.

Lemma error_update_binding_only b reason err : sat binding_only (fun _ => True) (updateBindingStatusError b reason err).
Proof. unfold updateBindingStatusError. repeat sat_step; done. Qed.

Lemma persist_binding_only b token : sat binding_only (fun _ => True) (persistWithMatchingLabels b token).
Proof.
  unfold persistWithMatchingLabels, persist_label, persist_status, updateBindingStatusSuccess.
  sat_seq.
  - repeat sat_step; try done. sat_seq; [apply error_update_binding_only|by apply sat_Ret].
  - repeat sat_step; try done. sat_seq; [repeat sat_step; done|]. repeat sat_step; try done.
    sat_seq; [apply error_update_binding_only|by apply sat_Ret].
Qed.

(** The token to link among those that match: the first with the name of the
    existing link, and the first of all when there is none with that name *)
Definition picked (b : SPIAccessTokenBinding) (tokens : list SPIAccessToken) (t : SPIAccessToken) : Prop :=
  let other t' := at_Name t' <> bst_LinkedAccessTokenName (b_Status b) in
  exists before after, tokens = before ++ t :: after /\ Forall other before /\ (other t -> before = [] /\ Forall other after).

Lemma picked_In b tokens t : picked b tokens t -> In t tokens.
Proof. intros (before & after & -> & _). apply in_app_iff. right. by left. Qed.

(** A failure of the link after a token was created: its deletion is requested,
    and it is left behind when that request fails, too. *)
Inductive cleaned_up : list SPIAccessToken -> list (SPIAccessToken * option goerr) -> Prop :=
| NothingCreated : cleaned_up [] []
| CreatedDeleted t answer : cleaned_up [t] [(t, answer)].

(** Where a linked token comes from *)
Inductive token_origin (b : SPIAccessTokenBinding) (tokens : list SPIAccessToken) (tr : list act)
  (t : SPIAccessToken) : bool -> Prop :=
| OriginFound : picked b tokens t -> created_tokens tr = [] -> token_origin b tokens tr t true
| OriginLinked : tokens = [] -> created_tokens tr = [] ->
    In (Act (Kube (KGet KToken (mkKey (b_Namespace b) (bst_LinkedAccessTokenName (b_Status b))))) (Ok t)) tr ->
    token_origin b tokens tr t false
| OriginCreated : tokens = [] -> bst_LinkedAccessTokenName (b_Status b) = "" -> created_tokens tr = [t] ->
    token_origin b tokens tr t true.

#[local] Arguments getLinkedTokenFromList : simpl never.

Lemma getLinked_spec b tokens :
  match getLinkedTokenFromList b tokens with
  | Some t => exists before after, tokens = before ++ t :: after /\
      Forall (fun t' => at_Name t' <> bst_LinkedAccessTokenName (b_Status b)) before /\
      at_Name t = bst_LinkedAccessTokenName (b_Status b)
  | None => Forall (fun t' => at_Name t' <> bst_LinkedAccessTokenName (b_Status b)) tokens
  end.
Proof.
  unfold getLinkedTokenFromList. induction tokens as [|t tokens IH]; cbn [List.find]; [constructor|].
  destruct (String.eqb_spec (at_Name t) (bst_LinkedAccessTokenName (b_Status b))) as [E|E]; [by exists [], tokens|].
  destruct (List.find _ tokens) as [t'|]; [|by constructor].
  destruct IH as (before & after & -> & Hb & Ht). exists (t :: before), after. repeat split; [by constructor|done].
Qed.
Lemma getLinked_picked b t0 tokens :
  picked b (t0 :: tokens) (match getLinkedTokenFromList b (t0 :: tokens) with Some t => t | None => t0 end).
Proof.
  pose proof (getLinked_spec b (t0 :: tokens)) as H. destruct (getLinkedTokenFromList b (t0 :: tokens)) as [t|].
  - destruct H as (before & after & E & Hb & Ht). by exists before, after.
  - exists [], tokens. by apply List.Forall_cons_iff in H as [_ H].
Qed.

Lemma choose_token_exec {X : Externals} sp b tokens tr b' r :
  exec (choose_token sp b tokens) tr (b', r) ->
  deps tr = [] /\ deleted_tokens tr = [] /\
  match r with
  | Err _ => created_tokens tr = []
  | Ok c => token_origin b tokens tr (ch_token c) (ch_matching c) /\
      created_tokens tr = if ch_created c then [ch_token c] else []
  end.
Proof.
  unfold choose_token. intros H. destruct tokens as [|t0 tokens].
  - destruct (String.eqb_spec (bst_LinkedAccessTokenName (b_Status b)) "") as [Hl|Hl]; cbn [negb] in H.
    + destruct (validateServiceProviderUrl (GetBaseUrl_sp sp)) as [err|].
      * apply exec_bind in H as (b1 & tr1 & tr2 & -> & H1 & [-> [= -> ->]]). rewrite app_nil_r.
        apply error_update_binding_only in H1 as [H1 _]. apply binding_only_trace in H1 as (-> & -> & ->). done.
      * unfold kube, call in H. cbn [bind] in H. destruct H as ([token|err] & tr' & -> & H).
        -- destruct H as [-> [= -> ->]]. split; [done|]. split; [done|]. split; [|done]. by apply OriginCreated.
        -- apply exec_bind in H as (b1 & tr1 & tr2 & -> & H1 & [-> [= -> ->]]). rewrite app_nil_r.
           apply error_update_binding_only in H1 as [H1 _]. apply binding_only_trace in H1 as (Hd & Hc & Hdel).
           change (created_tokens (?a :: tr1)) with (created_tokens tr1).
           change (deleted_tokens (?a :: tr1)) with (deleted_tokens tr1).
           change (deps (?a :: tr1)) with (deps tr1). by rewrite Hd, Hc, Hdel.
    + exec_steps. destruct x as [token|err]; destruct H as [-> [= -> ->]]; (split; [done|]); (split; [done|]); [|done].
      split; [|done]. apply OriginLinked; [done|done|by left].
  - destruct H as [-> [= -> ->]]. split; [done|]. split; [done|]. split; [|done]. cbn [ch_token ch_matching].
    apply OriginFound; [apply getLinked_picked|done].
Qed.

Lemma linkToken_exec {X : Externals} sp b tr b' r :
  exec (linkToken sp b) tr (b', r) ->
  deps tr = [] /\
  exists answer tr', tr = Act (Sp (LookupTokens sp b)) answer :: tr' /\
  match r with
  | Ok (t, matching) => exists tokens, answer = Ok tokens /\ token_origin b tokens tr' t matching /\ deleted_tokens tr' = []
  | Err _ => cleaned_up (created_tokens tr') (deleted_tokens tr')
  end.
Proof.
  unfold linkToken. intros H. unfold call at 1 in H. cbn [bind] in H. destruct H as (answer & tr' & -> & H).
  assert (deps tr' = [] /\ match r with
    | Ok (t, matching) => exists tokens, answer = Ok tokens /\ token_origin b tokens tr' t matching /\ deleted_tokens tr' = []
    | Err _ => cleaned_up (created_tokens tr') (deleted_tokens tr') end) as [Hd Hr].
  2: { split; [done|]. by exists answer, tr'. }
  destruct answer as [tokens|err].
  2: { apply exec_bind in H as (b1 & tr1 & tr2 & -> & H1 & [-> [= -> ->]]). rewrite app_nil_r.
       apply error_update_binding_only in H1 as [H1 _]. apply binding_only_trace in H1 as (-> & -> & ->). by split; [|constructor]. }
  apply exec_bind in H as ([b1 c] & tr1 & tr2 & -> & H1 & H). apply choose_token_exec in H1 as (Hd1 & Hdel1 & H1).
  rewrite deps_app, created_app, deleted_app, Hd1, Hdel1.
  destruct c as [c|err]; [|destruct H as [-> [= -> ->]]; rewrite H1; by split; [|constructor]].
  apply exec_bind in H as ([b2 e] & tr3 & tr4 & -> & H2 & H).
  apply persist_binding_only in H2 as [H2 _]. apply binding_only_trace in H2 as (Hd2 & Hc2 & Hdel2).
  rewrite deps_app, created_app, deleted_app, Hd2, Hc2, Hdel2. destruct H1 as [Ho Hc].
  destruct e as [err|].
  - rewrite Hc. destruct (ch_created c).
    + exec_steps. injection H as -> ->. split; [done|]. apply (CreatedDeleted (ch_token c)).
    + destruct H as [-> [= -> ->]]. split; [done|constructor].
  - destruct H as [-> [= -> ->]]. split; [done|]. exists tokens. split; [done|]. split; [|done].
    assert (forall tr0, created_tokens tr0 = [] -> created_tokens (tr1 ++ tr0) = created_tokens tr1) as Happ
      by (intros tr0 H0; by rewrite created_app, H0, app_nil_r).
    rewrite app_nil_r. destruct Ho as [Hp Hcr|Ht Hcr Hg|Ht Hl Hcr].
    + apply OriginFound; [done|by rewrite Happ].
    + apply OriginLinked; [done|by rewrite Happ|]. apply in_app_iff. by left.
    + apply OriginCreated; [done|done|by rewrite Happ].
Qed.

(** C8 Linking a token, on every branch: the provider is asked for the matching
    tokens; a linked token is the first of them that the binding is linked to
    already, or else the first of all, or, when there is none, the token of the
    existing link, which then does not count as matching, or one newly created
    for a binding without a link.  After a success nothing is deleted.  After a
    failure nothing was created, or one token was, and its deletion, once, is
    the only one that was requested; the token is left behind when the answer to
    that request is an error, which the code does not report. *)
Theorem linkToken_cleans_up {X : Externals} sp b tr b' r :
  exec (linkToken sp b) tr (b', r) ->
  deps tr = [] /\
  exists answer tr', tr = Act (Sp (LookupTokens sp b)) answer :: tr' /\
  match r with
  | Ok (t, matching) => exists tokens, answer = Ok tokens /\ token_origin b tokens tr' t matching /\ deleted_tokens tr' = []
  | Err _ => cleaned_up (created_tokens tr') (deleted_tokens tr')
  end.
Proof. apply linkToken_exec. Qed.

Definition linking_script : script :=
  mkScript (Err not_found) (Err not_found) (Err not_found) (Err not_found)
      (Err not_found) (Err not_found) (Err not_found) (Err not_found) [] [] [] []
      (Some (ErrorString "conflict")) None None
      (Ok sample_sp) (Ok [sample_token "other" "Ready" None; sample_token "tok" "Ready" None]) (Ok []) None
      (Ok None) (Ok None) (Ok None) (Ok "")
      (Ok (mkDependents (sample_secret "dep" ∅ ∅) [])) None 0.

Lemma linkToken_cleans_up_witness :
  let b := sample_binding "b" "https://quay.io/o/r" "tok" in
  deps (trace_of linking_script (linkToken sample_sp b)) = [] /\
  is_ok (result_of linking_script (linkToken sample_sp b)).2 = false.
Proof.
  intros b. pose proof (scripted_exec linking_script (linkToken sample_sp b)) as H.
  rewrite (surjective_pairing (result_of linking_script (linkToken sample_sp b))) in H.
  split; [exact (proj1 (linkToken_cleans_up _ _ _ _ _ H))|]. vm_compute. reflexivity.
Defined.

(** ** The transaction around the dependent objects *)

Definition show_urls (b : SPIAccessTokenBinding) (token : SPIAccessToken) : SPIAccessTokenBinding :=
  with_status (fun st => set_bst_UploadUrl (atst_UploadUrl (at_Status token))
    (set_bst_OAuthUrl (atst_OAuthUrl (at_Status token)) st)) b.
Definition no_error (b : SPIAccessTokenBinding) : SPIAccessTokenBinding :=
  with_status (fun st => set_bst_ErrorReason "" (set_bst_ErrorMessage "" st)) b.
Definition is_injected (b : SPIAccessTokenBinding) : bool :=
  String.eqb (bst_Phase (b_Status b)) SPIAccessTokenBindingPhaseInjected.

(** What the synchronisation of the dependents comes to *)
Inductive sync_result (sp : ServiceProvider) (b : SPIAccessTokenBinding) (token : SPIAccessToken)
  : list dep_call -> SPIAccessTokenBinding + goerr -> Prop :=
| SyncNotReady : is_ready_phase token = false ->
    sync_result sp b token [] (inl (awaiting_without_objects b))
| SyncInjected ds : is_ready_phase token = true ->
    sync_result sp b token [DcSync b sp token (Ok ds)] (inl (injected b ds))
| SyncNoData reason err : is_ready_phase token = true -> errors_Is err SecretDataNotFoundError = true ->
    sync_result sp b token [DcSync b sp token (Err (reason, err))] (inl (awaiting_without_objects b))
| SyncFailed reason err : is_ready_phase token = true -> errors_Is err SecretDataNotFoundError = false ->
    sync_result sp b token [DcSync b sp token (Err (reason, err))] (inr err).

Lemma sync_dependents_exec sp b token cp tr r :
  exec (sync_dependents sp b token cp) tr r ->
  exists calls x, sync_result sp b token calls x /\
    match x with
    | inl b' => deps tr = calls /\ writes tr = [] /\ r = inr b'
    | inr err => (exists b' rr, deps tr = calls ++ [DcRevertTo b' cp rr]) /\
        r = inl (failed "failed to sync the dependent objects" err) /\
        exists b' u, writes tr = [WStatusUpdate KBinding b' u] /\ bst_Phase (b_Status b') = SPIAccessTokenBindingPhaseError
    end.
Proof.
  unfold sync_dependents. intros H. destruct (is_ready_phase token) eqn:E.
  2: { destruct H as [-> ->]. eexists _, _. split; [by apply SyncNotReady|done]. }
  unfold call at 1 in H. cbn [bind] in H. destruct H as (s & tr' & -> & H).
  destruct s as [ds|[reason err]].
  - destruct H as [-> ->]. eexists _, _. split; [by apply SyncInjected|done].
  - destruct (errors_Is err SecretDataNotFoundError) eqn:Es.
    + destruct H as [-> ->]. eexists _, _. split; [by eapply SyncNoData|done].
    + eexists _, (inr err). split; [by eapply SyncFailed|].
      unfold fail_binding, updateBindingStatusError in H. exec_steps. split; [by eexists _, _|]. split; [done|].
      by eexists _, _.
Qed.

Lemma requeue_exec cfg b lifetime tr o :
  exec (requeue_after_lifetime cfg b lifetime) tr o -> deps tr = [] /\ writes tr = [] /\ o.2 = None.
Proof. unfold requeue_after_lifetime. intros H. destruct lifetime; exec_steps; done. Qed.

Lemma sync_exec {X : Externals} cfg sp b token lifetime tr o :
  exec (Reconcile_sync cfg sp b token lifetime) tr o ->
  let b0 := show_urls b token in
  exists c rest, deps tr = DcCheckPoint b0 c :: rest /\
  match c with
  | Err _ => rest = [] /\ o.2 <> None
  | Ok cp => exists calls x more, rest = calls ++ more /\ sync_result sp b0 token calls x /\
      match x with
      | inr _ => (exists b' rr, more = [DcRevertTo b' cp rr]) /\ o.2 <> None
      | inl b1 => exists u ws, writes tr = WStatusUpdate KBinding (no_error b1) u :: ws /\
          match u with
          | Err _ => ws = [] /\ (exists rr, more = [DcRevertTo (no_error b1) cp rr]) /\ o.2 <> None
          | Ok b2 =>
              if is_injected b2 then more = [] /\ ws = [] /\ o.2 = None
              else exists e, more = [DcCleanup b2 e] /\ (o.2 = None <-> e = None)
          end
      end
  end.
Proof.
  intros H b0. unfold Reconcile_sync in H. fold (show_urls b token) in H. fold b0 in H.
  unfold call at 1 in H. cbn [bind] in H. destruct H as (c & tr' & -> & H).
  destruct c as [cp|err].
  2: { apply exec_bind in H as (b1 & tr1 & tr2 & -> & H1 & [-> ->]).
       apply fail_no_dep in H1 as [H1 _]. apply no_dep_deps in H1.
       exists (Err err), []. rewrite app_nil_r, deps_cons, H1. done. }
  apply exec_bind in H as (s & tr1 & tr2 & -> & H1 & H).
  apply sync_dependents_exec in H1 as (calls & x & Hs & H1).
  exists (Ok cp), (deps tr1 ++ deps tr2). split; [by rewrite deps_cons, deps_app|].
  destruct x as [b1|err].
  2: { destruct H1 as ((b' & rr & Hd) & -> & _). destruct H as [-> ->]. rewrite Hd.
       exists calls, (inr err), [DcRevertTo b' cp rr]. cbn. rewrite app_nil_r. split; [done|].
       split; [done|]. split; [by exists b', rr|done]. }
  destruct H1 as (Hd & Hw & ->). rewrite Hd. exists calls, (inl b1), (deps tr2).
  split; [done|]. split; [done|].
  assert (writes (Act (Dep (DepCheckPoint b0)) (Ok cp) :: tr1 ++ tr2) = writes tr2) as ->
    by (rewrite writes_cons, writes_app, Hw; done).
  apply exec_bind in H as ([b2 e] & tr3 & tr4 & -> & H2 & H).
  unfold updateBindingStatusSuccess in H2. fold (no_error b1) in H2.
  unfold kube, call in H2. cbn [bind] in H2. destruct H2 as (u & tr5 & -> & H2).
  exists u. destruct u as [b3|err]; destruct H2 as [-> [= -> ->]]; cbn [app].
  2: { unfold call in H. cbn [bind] in H. destruct H as (rr & tr6 & -> & [-> ->]).
       exists []. split; [done|]. split; [done|]. split; [by exists rr|done]. }
  fold (is_injected b3) in H. destruct (is_injected b3) eqn:Ei; cbn [negb] in H.
  - apply requeue_exec in H as (Hd4 & Hw4 & Ho). exists []. rewrite deps_cons, writes_cons, Hd4, Hw4. done.
  - unfold call in H. cbn [bind] in H. destruct H as (e & tr6 & -> & H).
    destruct e as [err|].
    + apply exec_bind in H as (b4 & tr7 & tr8 & -> & H3 & [-> ->]). rewrite app_nil_r.
      apply error_update_no_dep in H3 as [H3 _]. apply no_dep_deps in H3.
      eexists. split; [done|]. exists (Some err). rewrite !deps_cons, H3. split; done.
    + apply requeue_exec in H as (Hd6 & Hw6 & Ho). eexists. split; [done|]. exists None. rewrite !deps_cons, Hd6. split; done.
Qed.

(** C2 Changing the dependent objects is a transaction with the status: the
    state of the cluster is recorded first, and when the synchronisation fails
    or its result cannot be written to the status, the last thing done is the
    return to exactly that checkpoint and the failure is reported.  Otherwise
    the status written says what is there - Injected with the synchronised
    secret and service accounts, or awaiting data with none - and unless the
    stored phase is Injected the dependent objects are cleaned up. *)
Theorem sync_is_transactional {X : Externals} cfg sp b token lifetime tr o :
  exec (Reconcile_sync cfg sp b token lifetime) tr o ->
  let b0 := show_urls b token in
  exists c rest, deps tr = DcCheckPoint b0 c :: rest /\
  match c with
  | Err _ => rest = [] /\ o.2 <> None
  | Ok cp => exists calls x more, rest = calls ++ more /\ sync_result sp b0 token calls x /\
      match x with
      | inr _ => (exists b' rr, more = [DcRevertTo b' cp rr]) /\ o.2 <> None
      | inl b1 => exists u ws, writes tr = WStatusUpdate KBinding (no_error b1) u :: ws /\
          match u with
          | Err _ => ws = [] /\ (exists rr, more = [DcRevertTo (no_error b1) cp rr]) /\ o.2 <> None
          | Ok b2 =>
              if is_injected b2 then more = [] /\ ws = [] /\ o.2 = None
              else exists e, more = [DcCleanup b2 e] /\ (o.2 = None <-> e = None)
          end
      end
  end.
Proof. apply sync_exec. Qed.

(** A ready token, and a status update that fails *)
Definition failing_status_script : script :=
  mkScript (Err not_found) (Ok (sample_binding "b" "https://quay.io/o/r" "tok")) (Err not_found) (Err not_found)
      (Err not_found) (Err not_found) (Err not_found) (Err not_found) [] [] [] []
      None (Some (ErrorString "conflict")) None
      (Ok sample_sp) (Ok [sample_token "tok" "Ready" (Some sample_metadata)]) (Ok []) None
      (Ok None) (Ok None) (Ok None) (Ok "")
      (Ok (mkDependents (sample_secret "dep" ∅ ∅) [])) None 5000000000.

Lemma sync_is_transactional_witness :
  let b := sample_binding "b" "https://quay.io/o/r" "tok" in
  let token := sample_token "tok" "Ready" (Some sample_metadata) in
  let p := Reconcile_sync sample_config sample_sp b token None in
  List.last (deps (trace_of failing_status_script p)) (DcCleanup b None) =
    DcRevertTo (no_error (injected (show_urls b token) (mkDependents (sample_secret "dep" ∅ ∅) []))) 7 None /\
  exists c rest, deps (trace_of failing_status_script p) = DcCheckPoint (show_urls b token) c :: rest.
Proof.
  intros b token p. split; [vm_compute; reflexivity|].
  destruct (sync_is_transactional sample_config sample_sp b token None _ _ (scripted_exec failing_status_script p))
    as (c & rest & H & _).
  exists c, rest. exact H.
Defined.

(** ** When the dependent objects are touched at all *)

Lemma Reconcile_link_exec {X : Externals} cfg sp b lifetime tr o :
  exec (Reconcile_link cfg sp b lifetime) tr o ->
  deps tr = [] \/
  exists tokens mid post token matching b',
    tr = Act (Sp (LookupTokens sp b)) (Ok tokens) :: mid ++ post /\ deps mid = [] /\
    token_origin b tokens mid token matching /\
    (matching = true \/ is_ready_phase token = false) /\
    exec (Reconcile_sync cfg sp b' token lifetime) post o.
Proof.
  unfold Reconcile_link. intros H. apply exec_bind in H as ([b' l] & tr1 & tr2 & -> & H1 & H).
  apply linkToken_exec in H1 as (Hd & answer & tr' & -> & Hr).
  change (deps (Act (Sp (LookupTokens sp b)) answer :: tr')) with (deps tr') in Hd.
  assert (forall l, deps ((Act (Sp (LookupTokens sp b)) answer :: tr') ++ l) = deps l) as Hpre
    by (intros l'; cbn [app]; rewrite deps_cons, deps_app, Hd; done).
  destruct l as [[token matching]|err].
  2: { destruct H as [-> ->]. left. by rewrite Hpre. }
  destruct Hr as (tokens & -> & Ho & _).
  destruct (negb matching && is_ready_phase token) eqn:E.
  - apply exec_bind in H as (b1 & tr3 & tr4 & -> & H2 & [-> ->]).
    apply error_update_no_dep in H2 as [H2 _]. apply no_dep_deps in H2. left. by rewrite Hpre, app_nil_r.
  - right. exists tokens, tr', tr2, token, matching, b'. split; [done|]. split; [done|]. split; [done|].
    split; [|done]. destruct matching; [by left|]. right. exact E.
Qed.

Lemma sync_calls_ready sp b token calls x b' sp' t r :
  sync_result sp b token calls x -> In (DcSync b' sp' t r) calls -> t = token /\ is_ready_phase token = true.
Proof. destruct 1; cbn; naive_solver. Qed.

Lemma Reconcile_sync_calls {X : Externals} cfg sp b token lifetime tr o b' sp' t r :
  exec (Reconcile_sync cfg sp b token lifetime) tr o -> In (DcSync b' sp' t r) (deps tr) ->
  t = token /\ is_ready_phase token = true.
Proof.
  intros H Hin. apply sync_exec in H as (c & rest & Hd & H). rewrite Hd in Hin.
  destruct Hin as [Hin|Hin]; [discriminate Hin|].
  destruct c as [cp|err]; [|by destruct H as [-> _]].
  destruct H as (calls & x & more & -> & Hs & H). apply in_app_iff in Hin as [Hin|Hin];
    [by eapply sync_calls_ready|]. exfalso.
  destruct x as [b1|err].
  - destruct H as (u & ws & _ & H). destruct u as [b2|err].
    + destruct (is_injected b2); [by destruct H as [-> _]|].
      destruct H as (e & -> & _). by destruct Hin.
    + destruct H as (_ & (rr & ->) & _). by destruct Hin.
  - destruct H as [(b2 & rr & ->) _]. by destruct Hin.
Qed.

(** The binding as it enters the validation *)
Definition with_initial_phase (b : SPIAccessTokenBinding) : SPIAccessTokenBinding :=
  if String.eqb (bst_Phase (b_Status b)) "" then set_phase SPIAccessTokenBindingPhaseAwaitingTokenData b else b.

(** C1 Nothing is injected without all its preconditions: whenever the
    dependent objects are synchronised, the binding was not being deleted, its
    lifetime was valid and not exceeded, its spec was consistent and accepted
    by the provider, and the token used is Ready and was reported by the
    provider as matching, or was created for this binding in this very
    reconciliation. *)
Theorem sync_is_guarded {X : Externals} cfg req tr o b' sp' t r :
  exec (Reconcile cfg req) tr o -> In (DcSync b' sp' t r) (deps tr) ->
  exists sp b now lifetime tokens pre mid post,
    tr = pre ++ [Act Now now; Act (Sp (SpValidate sp (bsp_Permissions (b_Spec b)))) (Ok []);
                 Act (Sp (LookupTokens sp (with_initial_phase b))) (Ok tokens)] ++ mid ++ post /\
    om_DeletionTimestamp (b_Meta b) = None /\
    bindingLifetime cfg b = Ok lifetime /\
    exceeded lifetime (time_Since now (om_CreationTimestamp (b_Meta b))) = false /\
    Binding_Validate b = [] /\
    is_ready_phase t = true /\
    token_origin (with_initial_phase b) tokens mid t true.
Proof.
  intros H Hin. apply Reconcile_exec in H as [H|(sp & b & pre & post & -> & Hpre & H)]; [by rewrite H in Hin|].
  rewrite deps_app, Hpre in Hin. cbn [app] in Hin. unfold Reconcile_live in H.
  destruct (om_DeletionTimestamp (b_Meta b)) eqn:Ed; [by destruct H as [-> ->]|].
  destruct (bindingLifetime cfg b) as [lifetime|err] eqn:El.
  2: { apply exec_bind in H as (b1 & tr1 & tr2 & -> & H1 & [-> ->]).
       apply fail_no_dep in H1 as [H1 _]. apply no_dep_deps in H1. by rewrite app_nil_r, H1 in Hin. }
  unfold call at 1 in H. cbn [bind] in H. destruct H as (now & tr1 & -> & H).
  change (match lifetime with Some d => seconds_gt ?a d | None => false end) with (exceeded lifetime a) in H.
  destruct (exceeded lifetime _) eqn:Ex; [exec_steps; destruct x; exec_steps; done|].
  unfold Reconcile_validate in H. fold (with_initial_phase b) in H.
  assert (b_Spec (with_initial_phase b) = b_Spec b) as Hspec
    by (unfold with_initial_phase; by destruct (String.eqb _ _)).
  unfold Binding_Validate in H. rewrite Hspec in H. fold (Binding_Validate b) in H.
  destruct (Binding_Validate b) as [|e es] eqn:Ev.
  2: { apply exec_bind in H as (b1 & tr2 & tr3 & -> & H1 & [-> ->]).
       apply fail_no_dep in H1 as [H1 _]. apply no_dep_deps in H1. by rewrite app_nil_r, deps_cons, H1 in Hin. }
  unfold call at 1 in H. cbn [bind] in H. destruct H as (v & tr2 & -> & H).
  destruct v as [[|e es]|err].
  - apply Reconcile_link_exec in H as [H|(tokens & mid & post & token & matching & b1 & -> & Hm & Ho & Hr & H)].
    { by rewrite !deps_cons, H in Hin. }
    rewrite !deps_cons, deps_app, Hm in Hin. cbn [app obs_dep act_ev act_res] in Hin.
    destruct (Reconcile_sync_calls _ _ _ _ _ _ _ _ _ _ _ H Hin) as [-> Hready].
    exists sp, b, now, lifetime, tokens, pre, mid, post. repeat split; try done.
    destruct Hr as [->|Hr]; [done|by rewrite Hr in Hready].
  - apply exec_bind in H as (b1 & tr3 & tr4 & -> & H1 & [-> ->]).
    apply fail_no_dep in H1 as [H1 _]. apply no_dep_deps in H1. by rewrite app_nil_r, !deps_cons, H1 in Hin.
  - by destruct H as [-> ->].
Qed.

Lemma sync_is_guarded_witness :
  let p := Reconcile sample_config (mkKey "ns" "b") in
  exists b' sp' t r, In (DcSync b' sp' t r) (deps (trace_of failing_status_script p)) /\ is_ready_phase t = true.
Proof.
  intros p.
  assert (exists b' sp' t r, In (DcSync b' sp' t r) (deps (trace_of failing_status_script p))) as (b' & sp' & t & r & H).
  { vm_compute. eexists _, _, _, _. right. left. reflexivity. }
  exists b', sp', t, r. split; [exact H|].
  destruct (sync_is_guarded sample_config (mkKey "ns" "b") _ _ b' sp' t r (scripted_exec failing_status_script p) H)
    as (sp & b & now & lt & tokens & pre & mid & post & _ & _ & _ & _ & _ & Hr & _).
  exact Hr.
Defined.
