(* ===== verification/RequestControllers.v ===== *)
(** * Access checks and file content requests

    controllers/spiaccesscheck_controller.go and
    controllers/spifilecontentrequest_controller.go: two controllers of
    one-shot requests.  A user creates an object, the controller answers in
    its status and deletes it when its time to live has passed. *)

From S2P Require Import Prelude GoStd GoBase64 Api Externals SpErrors Effects Samples Enqueue.
Local Open Scope string_scope.
Local Open Scope list_scope.
Local Open Scope spi_scope.

(** [now.After(created.Add(ttl))] *)
Definition past_ttl (now : Z) (m : ObjectMeta) (ttl : Z) : bool :=
  (om_CreationTimestamp m + ttl <? now)%Z.

(** ** spiaccesscheck_controller.go *)

Module Check.
(** The status when the service provider cannot be determined: the other
  fields stay as the object has them. *)
Definition report_unknown_provider (ac : SPIAccessCheck) (spErr : goerr) : SPIAccessCheck :=
let reason :=
  match errors_As_validation spErr with
  | Some _ => SPIAccessCheckErrorUnsupportedServiceProviderConfiguration
  | None => SPIAccessCheckErrorUnknownServiceProvider
  end in
set_ac_Status (set_acst_ErrorMessage (Error spErr) (set_acst_ErrorReason reason (ac_Status ac))) ac.

(** The part that fills in the status *)
Definition examine (req : ObjectKey) (ac : SPIAccessCheck) : prog (res SPIAccessCheck) :=
let! r := call (Sp (FromRepoUrl (acsp_RepoUrl (ac_Spec ac)) (key_Namespace req))) in
match r with
| Ok sp =>
    let! s := call (Sp (CheckRepositoryAccess sp ac)) in
    match s with
    | Ok status => Ret (Ok (set_ac_Status status ac))
    | Err repoCheckErr => Ret (Err (Errorf_w "failed to check repository access" repoCheckErr))
    end
| Err spErr => Ret (Ok (report_unknown_provider ac spErr))
end.

Definition Reconcile_live (cfg : OperatorConfiguration) (req : ObjectKey) (ac : SPIAccessCheck) : prog outcome :=
let! e := examine req ac in
match e with
| Err err => Ret (no_requeue, Some err)
| Ok ac =>
    let! u := kube (KStatusUpdate KCheck ac) in
    match u with
    | Err updateErr => Ret (failed "failed to update status" updateErr)
    | Ok _ => Ret (mkResult false (opc_AccessCheckTtl cfg), None)
    end
end.

Definition Reconcile (cfg : OperatorConfiguration) (req : ObjectKey) : prog outcome :=
let! r := kube (KGet KCheck req) in
match r with
| Err err =>
    if IsNotFound err then Ret done_ok
    else Ret (failed "failed to load the SPIAccessCheck from the cluster" err)
| Ok ac =>
    let! now := call Now in
    if past_ttl now (ac_Meta ac) (opc_AccessCheckTtl cfg) then
      let! d := kube (KDelete KCheck ac) in
      match d with
      | Some deleteError =>
          Ret (mkResult true 0, Some (Errorf_w "error while deleting accesscheck" deleteError))
      | None => Ret done_ok
      end
    else Reconcile_live cfg req ac
end.
End Check.

(** ** spifilecontentrequest_controller.go *)

Module File.
Definition linkedFileRequestBindingsFinalizerName := "spi.appstudio.redhat.com/file-linked-bindings".
Definition noSuitableServiceProviderFound : goerr :=
ErrorString "unable to find a matching service provider for the given URL".
Definition unableToValidateServiceProvider : goerr :=
ErrorString "unable to validate service provider for the given URL".
Definition noCredentialsFoundError : goerr :=
ErrorString "no suitable credentials found, please create SPIAccessToken or RemoteSecret".
Definition FileDownloadNotSupportedError : goerr :=
ExtError "provided repository URL does not supports file downloading" [].

(** controllerutil.RemoveFinalizer: every occurrence is removed *)
Definition RemoveFinalizer (f : SPIFileContentRequest) (finalizer : string) : bool * SPIFileContentRequest :=
let fs := om_Finalizers (f_Meta f) in
let kept := List.filter (fun x => negb (String.eqb x finalizer)) fs in
(negb (length fs =? length kept)%nat, set_f_Meta (set_om_Finalizers kept (f_Meta f)) f).

Definition durationUntilNextReconcile (cfg : OperatorConfiguration) (f : SPIFileContentRequest) (now : Z) : Z :=
time_Until now (om_CreationTimestamp (f_Meta f) + opc_FileContentRequestTtl cfg).

Definition error_status (f : SPIFileContentRequest) (err : goerr) : SPIFileContentRequest :=
set_f_Status (mkFileStatus SPIFileContentRequestPhaseError (Error err) "" "") f.
Definition delivered_status (f : SPIFileContentRequest) (contents : string) : SPIFileContentRequest :=
set_f_Status (mkFileStatus SPIFileContentRequestPhaseDelivered ""
  (EncodeToString StdEncoding contents) "base64") f.

(** A status update, and the delay to the end of the request's life *)
Definition update_status (cfg : OperatorConfiguration) (f : SPIFileContentRequest) (text : string) : prog outcome :=
let! u := kube (KStatusUpdate KFile f) in
match u with
| Err err => Ret (failed text err)
| Ok f =>
    let! now := call Now in
    Ret (mkResult false (durationUntilNextReconcile cfg f now), None)
end.

Definition updateFileRequestStatusError (cfg : OperatorConfiguration) (f : SPIFileContentRequest) (err : goerr)
: prog outcome :=
update_status cfg (error_status f err) "failed to update SPIFileContentRequest status with error".

Definition requeueErrorWithStatusUpdate (cfg : OperatorConfiguration) (f : SPIFileContentRequest) (err : goerr)
: prog outcome :=
let! o := updateFileRequestStatusError cfg f err in
match o.2 with
| Some updateErr => Ret (no_requeue, Some updateErr)
| None => Ret (no_requeue, Some err)
end.

(** From the determination of the service provider on *)
Definition Reconcile_download (cfg : OperatorConfiguration) (f : SPIFileContentRequest) : prog outcome :=
let! r := call (Sp (FromRepoUrl (fsp_RepoUrl (f_Spec f)) (om_Namespace (f_Meta f)))) in
match r with
| Err err =>
    match errors_As_validation err with
    | Some _ => updateFileRequestStatusError cfg f unableToValidateServiceProvider
    | None => updateFileRequestStatusError cfg f noSuitableServiceProviderFound
    end
| Ok sp =>
    if negb (has_DownloadFileCapability sp) then
      updateFileRequestStatusError cfg f FileDownloadNotSupportedError
    else
      let! c := call (Sp (LookupCredentials sp (Matchable_of_file f))) in
      match c with
      | Err err =>
          requeueErrorWithStatusUpdate cfg f
            (Errorf_w "error in credentials lookup for SPIFileContentRequest" err)
      | Ok None => updateFileRequestStatusError cfg f noCredentialsFoundError
      | Ok (Some credentials) =>
          let! d := call (Sp (DownloadFile sp (f_Spec f) credentials (opc_MaxFileDownloadSize cfg))) in
          match d with
          | Err err => requeueErrorWithStatusUpdate cfg f (Errorf_w "error fetching file content" err)
          | Ok contents =>
              update_status cfg (delivered_status f contents) "failed to update the file request status"
          end
      end
end.

(** After the removal of the old finalizer *)
Definition Reconcile_live (cfg : OperatorConfiguration) (f : SPIFileContentRequest) : prog outcome :=
match om_DeletionTimestamp (f_Meta f) with
| Some _ => Ret done_ok
| None =>
    let! now := call Now in
    if past_ttl now (f_Meta f) (opc_FileContentRequestTtl cfg) then
      let! d := kube (KDelete KFile f) in
      match d with
      | Some err =>
          Ret (failed "failed to cleanup file content request on reaching the max lifetime" err)
      | None => Ret done_ok
      end
    else if String.eqb (fst_Phase (f_Status f)) SPIFileContentRequestPhaseDelivered then Ret done_ok
    else Reconcile_download cfg f
end.

Definition Reconcile (cfg : OperatorConfiguration) (req : ObjectKey) : prog outcome :=
let! r := kube (KGet KFile req) in
match r with
| Err err =>
    if IsNotFound err then Ret done_ok else Ret (failed "failed to read the object" err)
| Ok f =>
    let '(removed, f) := RemoveFinalizer f linkedFileRequestBindingsFinalizerName in
    let! u := if removed : bool then kube (KUpdate KFile f) else Ret (Ok f) in
    match u with
    | Err err => Ret (failed "failed to cleanup old linkedBinding finalizer" err)
    | Ok f => Reconcile_live cfg f
    end
end.
End File.

(** ** Access checks *)

(** The status that answers a check, given the provider's answers *)
Definition check_answer (req : ObjectKey) (ac : SPIAccessCheck) (tr : list act) (st : SPIAccessCheckStatus) : Prop :=
  (exists sp, tr = [Act (Sp (FromRepoUrl (acsp_RepoUrl (ac_Spec ac)) (key_Namespace req))) (Ok sp);
                    Act (Sp (CheckRepositoryAccess sp ac)) (Ok st)]) \/
  (exists err, tr = [Act (Sp (FromRepoUrl (acsp_RepoUrl (ac_Spec ac)) (key_Namespace req))) (Err err)] /\
     acst_Accessible st = acst_Accessible (ac_Status ac) /\ acst_ErrorMessage st = Error err /\
     acst_ErrorReason st = if errors_As_validation err
       then SPIAccessCheckErrorUnsupportedServiceProviderConfiguration
       else SPIAccessCheckErrorUnknownServiceProvider).

(** The provider was determined and its check failed. *)
Definition check_failed (req : ObjectKey) (ac : SPIAccessCheck) (tr : list act) : Prop :=
  exists sp err, tr = [Act (Sp (FromRepoUrl (acsp_RepoUrl (ac_Spec ac)) (key_Namespace req))) (Ok sp);
                       Act (Sp (CheckRepositoryAccess sp ac)) (Err err)].

Lemma examine_exec req ac tr r :
  exec (Check.examine req ac) tr r ->
  match r with
  | Ok ac' => exists st, ac' = set_ac_Status st ac /\ check_answer req ac tr st
  | Err _ => check_failed req ac tr
  end.
Proof.
  intros H. unfold Check.examine in H. exec_steps. destruct x as [sp|err]; exec_steps.
  - destruct x as [st|err]; exec_steps; [|by exists sp, err]. exists st. split; [done|]. left. by exists sp.
  - eexists. split; [done|]. right. exists err. repeat split.
Qed.

Lemma live_check_exec cfg req ac tr o :
  exec (Check.Reconcile_live cfg req ac) tr o ->
  (check_failed req ac tr /\ o.1 = no_requeue /\ o.2 <> None) \/
  exists asked st u, tr = asked ++ [Act (Kube (KStatusUpdate KCheck (set_ac_Status st ac))) u] /\
    check_answer req ac asked st /\
    match u with
    | Ok _ => o = (mkResult false (opc_AccessCheckTtl cfg), None)
    | Err _ => o.1 = no_requeue /\ o.2 <> None
    end.
Proof.
  intros (r & tr1 & tr2 & -> & H1 & H2)%exec_bind. apply examine_exec in H1.
  destruct r as [ac'|err]; [|destruct H2 as [-> ->]; left; by rewrite app_nil_r].
  destruct H1 as (st & -> & Hst). right. exists tr1, st. exec_steps. exists x.
  destruct x; exec_steps; done.
Qed.

(** A reconciliation up to the part that answers a live check *)
Lemma check_exec cfg req tr o :
  exec (Check.Reconcile cfg req) tr o ->
  exists r rest, tr = Act (Kube (KGet KCheck req)) r :: rest /\
  match r with
  | Err err => rest = [] /\ o.1 = no_requeue /\ (o.2 = None <-> IsNotFound err = true)
  | Ok ac => exists now rest', rest = Act Now now :: rest' /\
      if past_ttl now (ac_Meta ac) (opc_AccessCheckTtl cfg) then
        exists d, rest' = [Act (Kube (KDelete KCheck ac)) d] /\
          (d = None /\ o = done_ok \/ d <> None /\ res_Requeue o.1 = true /\ o.2 <> None)
      else exec (Check.Reconcile_live cfg req ac) rest' o
  end.
Proof.
  intros H. unfold Check.Reconcile in H. unfold kube, call at 1 in H. cbn [bind] in H.
  destruct H as (r & rest & -> & H). exists r, rest. split; [done|]. destruct r as [ac|err].
  2: { destruct (IsNotFound err) eqn:E; exec_steps; by rewrite ?E. }
  unfold call at 1 in H. cbn [bind] in H. destruct H as (now & rest' & -> & H).
  exists now, rest'. split; [done|]. destruct (past_ttl now _ _); [|done].
  exec_steps. exists x. destruct x; exec_steps; (split; [done|]); [right|left]; done.
Qed.

(** An access check lives exactly as long as its time to live.  A check
    found past it is deleted, and the reconciliation is retried if that fails.
    Before that the only write is the status that answers the check, either the
    status the service provider reports or the unknown or misconfigured provider
    with the error's text, and the next reconciliation is asked for after the
    time to live, when every clock shows the check as expired; without an
    answer nothing is written and the error is returned. *)
Theorem access_check_lifecycle cfg req tr o :
  exec (Check.Reconcile cfg req) tr o ->
  exists r rest, tr = Act (Kube (KGet KCheck req)) r :: rest /\
  match r with
  | Err err => rest = [] /\ o.1 = no_requeue /\ (o.2 = None <-> IsNotFound err = true)
  | Ok ac => exists now rest', rest = Act Now now :: rest' /\
      if past_ttl now (ac_Meta ac) (opc_AccessCheckTtl cfg) then
        exists d, rest' = [Act (Kube (KDelete KCheck ac)) d] /\
          (d = None /\ o = done_ok \/ d <> None /\ res_Requeue o.1 = true /\ o.2 <> None)
      else
        (writes rest' = [] /\ o.1 = no_requeue /\ o.2 <> None) \/
        exists asked st u, rest' = asked ++ [Act (Kube (KStatusUpdate KCheck (set_ac_Status st ac))) u] /\
          check_answer req ac asked st /\
          match u with
          | Err _ => o.1 = no_requeue /\ o.2 <> None
          | Ok _ => o.2 = None /\ res_RequeueAfter o.1 = opc_AccessCheckTtl cfg /\
              ((om_CreationTimestamp (ac_Meta ac) < now)%Z -> forall later,
                 (now + res_RequeueAfter o.1 <= later)%Z ->
                 past_ttl later (ac_Meta ac) (opc_AccessCheckTtl cfg) = true)
          end
  end.
Proof.
  intros (r & rest & -> & H)%check_exec. exists r, rest. split; [done|]. destruct r as [ac|err]; [|done].
  destruct H as (now & rest' & -> & H). exists now, rest'. split; [done|].
  destruct (past_ttl now _ _) eqn:E; [done|].
  apply live_check_exec in H as [[(sp & err & ->) H]|(asked & st & u & -> & Hst & Hu)]; [by left|].
  right. exists asked, st, u. repeat split; [done|]. destruct u; [|done]. rewrite Hu.
  repeat split. cbn. unfold past_ttl in *. intros Hc later Hl. apply Z.ltb_lt. lia.
Qed.

Definition sample_check : SPIAccessCheck :=
  mkCheck (sample_meta "check") (mkCheckSpec "https://quay.io/o/r" no_permissions)
    (mkCheckStatus true SPIAccessCheckAccessibilityPublic SPIRepoTypeContainerRegistry "Quay" "" "").
Definition request_script (now : Z) (phase : string) : script :=
  mkScript (Err not_found) (Err not_found) (Ok sample_check)
    (Ok (mkFileRequest (sample_meta "file") (mkFileSpec "README.md" "https://github.com/o/r" "")
       (mkFileStatus phase "" "" "")))
    (Err not_found) (Err not_found) (Err not_found) (Err not_found) [] [] [] [] None None None
    (Ok (mkSP "https://github.com" sample_sp_type None true false)) (Ok []) (Ok []) None (Ok None) (Ok None)
    (Ok (Some (mkCredentials "alois" "secret"))) (Ok "hello")
    (Ok (mkDependents (sample_secret "dep" ∅ ∅) [])) None now.

Lemma access_check_lifecycle_witness :
  let s := request_script 1000 "" in
  let tr := trace_of s (Check.Reconcile sample_config (mkKey "ns" "check")) in
  length (writes tr) = 1 /\
  exists r rest, tr = Act (Kube (KGet KCheck (mkKey "ns" "check"))) r :: rest.
Proof.
  intros s tr. split; [vm_compute; reflexivity|].
  destruct (access_check_lifecycle sample_config (mkKey "ns" "check") tr _ (scripted_exec s _)) as (r & rest & H & _).
  exists r, rest. exact H.
Defined.

(** ** File content requests *)

(** Nothing but the clock is read after the status update. *)
Definition after_update (post : list act) : Prop := post = [] \/ exists now, post = [Act Now now].
Lemma after_update_writes post : after_update post -> writes post = [].
Proof. by intros [->|[now ->]]. Qed.

Lemma update_status_exec cfg f text tr o :
  exec (File.update_status cfg f text) tr o ->
  exists u tr', tr = Act (Kube (KStatusUpdate KFile f)) u :: tr' /\ after_update tr' /\
    match u with
    | Err _ => o.1 = no_requeue /\ o.2 <> None
    | Ok f' => exists now, o = (mkResult false (File.durationUntilNextReconcile cfg f' now), None)
    end.
Proof.
  intros H. unfold File.update_status in H. exec_steps. destruct x as [f'|err]; exec_steps.
  - eexists _, _. split; [done|]. split; [right; by eexists|]. by eexists.
  - eexists _, _. split; [done|]. split; [by left|done].
Qed.

Lemma requeue_error_exec cfg f err tr o :
  exec (File.requeueErrorWithStatusUpdate cfg f err) tr o ->
  exists u tr', tr = Act (Kube (KStatusUpdate KFile (File.error_status f err))) u :: tr' /\ after_update tr' /\
    o.1 = no_requeue /\ o.2 <> None.
Proof.
  intros (o1 & tr1 & tr2 & -> & H1 & H2)%exec_bind.
  apply update_status_exec in H1 as (u & tr' & -> & Hw & _). exists u, (tr' ++ tr2).
  assert (tr2 = [] /\ o.1 = no_requeue /\ o.2 <> None) as (-> & Ho & He)
    by (destruct (o1.2); destruct H2 as [-> ->]; done).
  rewrite !app_nil_r. done.
Qed.

(** The calls of a download that succeeds *)
Definition delivered_calls (cfg : OperatorConfiguration) (f : SPIFileContentRequest) (sp : ServiceProvider)
  (c : Credentials) (contents : string) : list act :=
  [Act (Sp (FromRepoUrl (fsp_RepoUrl (f_Spec f)) (om_Namespace (f_Meta f)))) (Ok sp);
   Act (Sp (LookupCredentials sp (Matchable_of_file f))) (Ok (Some c));
   Act (Sp (DownloadFile sp (f_Spec f) c (opc_MaxFileDownloadSize cfg))) (Ok contents)].

(** The status update of a live reconciliation, and what it leads to *)
Definition answered (cfg : OperatorConfiguration) (f : SPIFileContentRequest) (tr : list act) (o : outcome) : Prop :=
  exists g u pre post, tr = pre ++ Act (Kube (KStatusUpdate KFile g)) u :: post /\
    writes pre = [] /\ after_update post /\
    (match u with
     | Ok f' => o.2 <> None \/ exists now, o = (mkResult false (File.durationUntilNextReconcile cfg f' now), None)
     | Err _ => o.2 <> None
     end) /\
    ((exists err, g = File.error_status f err) \/
     exists sp c contents, g = File.delivered_status f contents /\ has_DownloadFileCapability sp = true /\
       pre = delivered_calls cfg f sp c contents).

Lemma error_answered cfg f err text pre tr o :
  writes pre = [] -> exec (File.update_status cfg (File.error_status f err) text) tr o ->
  answered cfg f (pre ++ tr) o.
Proof.
  intros Hp (u & tr' & -> & Hw & Hu)%update_status_exec. exists (File.error_status f err), u, pre, tr'.
  do 3 (split; [done|]). split; [|left; by exists err]. destruct u; [by right|tauto].
Qed.

Lemma retry_answered cfg f err pre tr o :
  writes pre = [] -> exec (File.requeueErrorWithStatusUpdate cfg f err) tr o ->
  answered cfg f (pre ++ tr) o.
Proof.
  intros Hp (u & tr' & -> & Hw & _ & Ho)%requeue_error_exec. exists (File.error_status f err), u, pre, tr'.
  do 3 (split; [done|]). split; [|left; by exists err]. destruct u; [by left|done].
Qed.

Lemma download_exec cfg f tr o :
  exec (File.Reconcile_download cfg f) tr o -> answered cfg f tr o.
Proof.
  intros H. unfold File.Reconcile_download in H. unfold call at 1 in H. cbn [bind] in H.
  destruct H as (r & tr' & -> & H). change (Act ?e ?r :: tr') with ([Act e r] ++ tr').
  destruct r as [sp|err]; [|destruct (errors_As_validation err); by eapply error_answered, H].
  destruct (has_DownloadFileCapability sp) eqn:Hcap; cbn [negb] in H; [|by eapply error_answered, H].
  unfold call at 1 in H. cbn [bind] in H. destruct H as (c & tr2 & -> & H).
  rewrite (cons_middle _ _ tr2), app_assoc.
  destruct c as [[c|]|err]; [|by eapply error_answered, H|by eapply retry_answered, H].
  unfold call at 1 in H. cbn [bind] in H. destruct H as (d & tr3 & -> & H).
  rewrite (cons_middle _ _ tr3), app_assoc.
  destruct d as [contents|err]; [|by eapply retry_answered, H].
  apply update_status_exec in H as (u & tr4 & -> & Hw & Hu).
  exists (File.delivered_status f contents), u, (delivered_calls cfg f sp c contents), tr4.
  do 3 (split; [done|]). split; [destruct u; [by right|tauto]|]. right. by exists sp, c, contents.
Qed.

Lemma answered_writes cfg f tr o : answered cfg f tr o ->
  exists g u, writes tr = [WStatusUpdate KFile g u] /\
    match u with
    | Ok f' => o.2 <> None \/ exists now, o = (mkResult false (File.durationUntilNextReconcile cfg f' now), None)
    | Err _ => o.2 <> None
    end.
Proof.
  intros (g & u & pre & post & -> & H1 & H2%after_update_writes & Hu & _). exists g, u. rewrite writes_app, writes_cons, H1. cbn. by rewrite H2.
Qed.

(** A delivered file is the downloaded file.  Reconciling a request before
    the end of its life and before its delivery writes exactly one status.  It
    is either an error with a message and no content, or Delivered with no
    message and a base64 content that decodes to what the provider returned for
    the requested path, downloaded with credentials that the provider found
    for this very request. *)
Theorem file_content_faithful cfg f tr o :
  exec (File.Reconcile_download cfg f) tr o ->
  exists g u, writes tr = [WStatusUpdate KFile g u] /\ f_Meta g = f_Meta f /\ f_Spec g = f_Spec f /\
    let st := f_Status g in
    (fst_Phase st = SPIFileContentRequestPhaseError /\ fst_Content st = "" /\ fst_ContentEncoding st = "") \/
    (fst_Phase st = SPIFileContentRequestPhaseDelivered /\ fst_ErrorMessage st = "" /\
     fst_ContentEncoding st = "base64" /\
     exists sp c contents, DecodeString StdEncoding (fst_Content st) = Ok contents /\
       In (Act (Sp (LookupCredentials sp (Matchable_of_file f))) (Ok (Some c))) tr /\
       In (Act (Sp (DownloadFile sp (f_Spec f) c (opc_MaxFileDownloadSize cfg))) (Ok contents)) tr).
Proof.
  intros (g & u & pre & post & -> & Hpre & Hpost%after_update_writes & _ & Hg)%download_exec. exists g, u.
  split; [rewrite writes_app, writes_cons, Hpre; cbn; by rewrite Hpost|].
  destruct Hg as [[err ->]|(sp & c & contents & -> & _ & ->)]; cbn; split_and!; try done.
  - by left.
  - right. split_and!; try done. exists sp, c, contents. split; [apply base64_roundtrip|]. cbn. tauto.
Qed.

Definition sample_file : SPIFileContentRequest :=
  mkFileRequest (sample_meta "file") (mkFileSpec "README.md" "https://github.com/o/r" "")
    (mkFileStatus "" "" "" "").
Lemma file_content_faithful_witness :
  let s := request_script 1000 "" in
  let tr := trace_of s (File.Reconcile_download sample_config sample_file) in
  writes tr = [WStatusUpdate KFile (File.delivered_status sample_file "hello")
                 (Ok (File.delivered_status sample_file "hello"))] /\
  exists g u, writes tr = [WStatusUpdate KFile g u] /\ f_Meta g = f_Meta sample_file.
Proof.
  intros s tr. split; [vm_compute; reflexivity|].
  destruct (file_content_faithful sample_config sample_file tr _ (scripted_exec s _)) as (g & u & H1 & H2 & _).
  exists g, u. exact (conj H1 H2).
Defined.

(** C39 The life of a file content request that is not being deleted: past its
    time to live it is deleted and nothing else happens; a delivered one is
    left alone without another call to the provider; any other one is answered
    by a single status update, and when the reconciliation succeeds the next
    one is asked for at the end of the request's life, when (the instants
    being within the range of a duration) it is past its time to live. *)
Theorem file_request_lifecycle cfg f tr o :
  om_DeletionTimestamp (f_Meta f) = None ->
  exec (File.Reconcile_live cfg f) tr o ->
  exists now rest, tr = Act Now now :: rest /\
  if past_ttl now (f_Meta f) (opc_FileContentRequestTtl cfg) then
    exists d, rest = [Act (Kube (KDelete KFile f)) d] /\ o.1 = no_requeue /\ (o.2 = None <-> d = None)
  else if String.eqb (fst_Phase (f_Status f)) SPIFileContentRequestPhaseDelivered then
    rest = [] /\ o = done_ok
  else exists g u, writes rest = [WStatusUpdate KFile g u] /\
    (o.2 = None -> exists f' now', u = Ok f' /\
       o.1 = mkResult false (time_Until now' (om_CreationTimestamp (f_Meta f') + opc_FileContentRequestTtl cfg)) /\
       forall later, (res_RequeueAfter o.1 < max_int64)%Z -> (now' + res_RequeueAfter o.1 < later)%Z ->
         past_ttl later (f_Meta f') (opc_FileContentRequestTtl cfg) = true).
Proof.
  intros Hd H. unfold File.Reconcile_live in H. rewrite Hd in H. unfold call at 1 in H. cbn [bind] in H.
  destruct H as (now & rest & -> & H). exists now, rest. split; [done|]. destruct (past_ttl now _ _).
  { exec_steps. exists x. destruct x; exec_steps; done. }
  destruct (String.eqb _ _); [by destruct H as [-> ->]|].
  apply download_exec, answered_writes in H as (g & u & Hw & Hu). exists g, u. split; [done|].
  intros Ho. destruct u as [f'|err]; [|done]. destruct Hu as [Hu|(now' & ->)]; [done|].
  exists f', now'. repeat split. intros later. cbn.
  unfold File.durationUntilNextReconcile, time_Until, time_Sub, past_ttl.
  intros H1 H2. apply Z.ltb_lt. unfold min_int64, max_int64 in *. lia.
Qed.

Lemma file_request_lifecycle_witness :
  let s := request_script 1000 "" in
  let tr := trace_of s (File.Reconcile_live sample_config sample_file) in
  length (writes tr) = 1 /\ exists now rest, tr = Act Now now :: rest.
Proof.
  intros s tr. split; [vm_compute; reflexivity|].
  destruct (file_request_lifecycle sample_config sample_file tr _ eq_refl (scripted_exec s _)) as (now & rest & H & _).
  exists now, rest. exact H.
Defined.
