(* ===== verification/TokenUpload.v ===== *)
(** * controllers/tokenupload_controller.go: manual upload of tokens

    A labelled secret holds token data.  The controller deletes the secret at
    once, finds or creates the token object, stores the data and reports the
    outcome by an event of the secret's name.  [EventStore] gives the events
    of the cluster their server-side semantics, so that the contract of the
    controller on events can be stated. *)

From S2P Require Import Prelude GoStd Api Externals SpErrors Effects Samples Enqueue.
Local Open Scope string_scope.
Local Open Scope list_scope.
Local Open Scope spi_scope.

Definition tokenSecretLabel := "spi.appstudio.redhat.com/upload-secret".
Definition uploadSecretToken := "token".
Definition spiTokenNameField := "spiTokenName".
Definition providerUrlField := "providerUrl".
Definition invalidSecretTypeError : goerr := ErrorString "invalid secret type".

Definition sec_Name (s : Secret) : string := om_Name (sec_Meta s).
Definition sec_Namespace (s : Secret) : string := om_Namespace (sec_Meta s).

(** The label selector of the watch *)
Definition watched (s : Secret) : bool :=
  match om_Labels (sec_Meta s) !! tokenSecretLabel with
  | Some v => String.eqb v uploadSecretToken
  | None => false
  end.

Definition findSpiAccessToken (s : Secret) : prog (res (option SPIAccessToken)) :=
  let spiTokenName := map_get (sec_Data s) spiTokenNameField in
  if String.eqb spiTokenName "" then Ret (Ok None)
  else
    let! r := kube (KGet KToken (mkKey (sec_Namespace s) spiTokenName)) in
    match r with
    | Err err =>
        if IsNotFound err then Ret (Ok None)
        else Ret (Err (WrapError ("can not find SPI access token " +:+ spiTokenName +:+ ": " +:+ Error err +:+ " ") err))
    | Ok t => Ret (Ok (Some t))
    end.

(** The token object to create *)
Definition token_to_create (s : Secret) : SPIAccessToken :=
  let spiTokenName := map_get (sec_Data s) spiTokenNameField in
  mkSPIAccessToken ""
    (mkMeta spiTokenName (if String.eqb spiTokenName "" then "generated-" else "") (sec_Namespace s) ∅ ∅ [] 0 None)
    (mkTokenSpec (mkPermissions [] []) (map_get (sec_Data s) providerUrlField))
    (mkTokenStatus "" "" "" "" "" None).

Definition createSpiAccessToken (s : Secret) : prog (res SPIAccessToken) :=
  let! r := kube (KCreate KToken (token_to_create s)) in
  match r with
  | Ok t => Ret (Ok t)
  | Err err =>
      Ret (Err (WrapError ("can not create SPIAccessToken " +:+ at_Name (token_to_create s)
                            +:+ ". Reason: " +:+ Error err) err))
  end.

Definition uploaded_token (s : Secret) : Token :=
  mkToken (map_get (sec_Data s) "userName") (map_get (sec_Data s) "tokenData") "" "" 0.

(** The token object of an upload: the existing one or a new one *)
Definition find_or_create (s : Secret) : prog (res SPIAccessToken) :=
  let! f := findSpiAccessToken s in
  match f with
  | Err err => Ret (Err (Errorf_w "cannot find SPI access token" err))
  | Ok (Some t) => Ret (Ok t)
  | Ok None =>
      let! c := createSpiAccessToken s in
      match c with
      | Err err => Ret (Err (WrapError ("can not create SPI access token: " +:+ Error err +:+ " ") err))
      | Ok t => Ret (Ok t)
      end
  end.

Definition reconcileToken (s : Secret) : prog (option goerr) :=
  let! f := find_or_create s in
  match f with
  | Err err => Ret (Some err)
  | Ok accessToken =>
      let! e := call (Ts (TsStore accessToken (uploaded_token s))) in
      match e with
      | Some err => Ret (Some (Errorf_w "failed to store the token" err))
      | None => Ret None
      end
  end.

Definition tryDeleteEvent (secretName ns : string) : prog unit :=
  let! r := kube (KGet KEvent (mkKey ns secretName)) in
  match r with
  | Err _ => Ret tt
  | Ok stored => let! _ := kube (KDelete KEvent stored) in Ret tt
  end.

Definition error_event (s : Secret) (err : goerr) (now : Z) : Event :=
  mkEvent (mkMeta (sec_Name s) "" (sec_Namespace s) ∅ ∅ [] 0 None) (Error err) "cannot process upload secret"
    (sec_Namespace s, sec_Name s, sec_Kind s, sec_APIVersion s) "Error" now.

Definition createErrorEvent (s : Secret) (err : goerr) : prog unit :=
  let! _ := tryDeleteEvent (sec_Name s) (sec_Namespace s) in
  let! now := call Now in
  let! _ := kube (KCreate KEvent (error_event s err now)) in
  Ret tt.

(** The switch on the secret's type *)
Definition process (s : Secret) : prog (option goerr) :=
  let secretType := map_get (om_Labels (sec_Meta s)) tokenSecretLabel in
  if String.eqb secretType "token" then reconcileToken s
  else Ret (Some (WrapError (Error invalidSecretTypeError +:+ ": " +:+ secretType) invalidSecretTypeError)).

(** After the deletion of the secret *)
Definition Reconcile_deleted (req : ObjectKey) (s : Secret) : prog outcome :=
  let! e := process s in
  match e with
  | Some err => let! _ := createErrorEvent s err in Ret done_ok
  | None => let! _ := tryDeleteEvent (sec_Name s) (key_Namespace req) in Ret done_ok
  end.

Definition Reconcile (req : ObjectKey) : prog outcome :=
  let! r := kube (KGet KSecret req) in
  match r with
  | Err err =>
      if IsNotFound err then Ret done_ok
      else Ret (failed "failed to load the upload secret from the cluster" err)
  | Ok uploadSecret =>
      match om_DeletionTimestamp (sec_Meta uploadSecret) with
      | Some _ => Ret done_ok
      | None =>
          let! d := kube (KDelete KSecret uploadSecret) in
          match d with
          | Some err => Ret (failed "cannot delete the Secret" err)
          | None => Reconcile_deleted req uploadSecret
          end
      end
  end.

(** ** The events of the cluster *)

Module EventStore.
Abbreviation events := (gmap ObjectKey Event).
Definition ev_Key (e : Event) : ObjectKey := ObjectKeyFromObject (ev_Meta e).

(** Every event is stored under its own key. *)
Definition keyed (s : events) : Prop := forall k e, s !! k = Some e -> ev_Key e = k.

(** One call and its answer, when the API server serves the calls on events:
  reads and deletions find what is there, a creation fails exactly when the
  name is taken. *)
Definition kube_step (s s' : events) {X} (e : KubeE X) : X -> Prop :=
match e in KubeE X return X -> Prop with
| KGet k key =>
    match k return res (obj k) -> Prop with
    | KEvent => fun r => s' = s /\
        match s !! key with Some ev => r = Ok ev | None => exists err, r = Err err end
    | _ => fun _ => s' = s
    end
| KCreate k o =>
    match k return obj k -> res (obj k) -> Prop with
    | KEvent => fun o r =>
        match s !! ev_Key o with
        | Some _ => s' = s /\ exists err, r = Err err
        | None => s' = <[ev_Key o := o]> s /\ r = Ok o
        end
    | _ => fun _ _ => s' = s
    end o
| KDelete k o =>
    match k return obj k -> option goerr -> Prop with
    | KEvent => fun o r =>
        match s !! ev_Key o with
        | Some _ => s' = delete (ev_Key o) s /\ r = None
        | None => s' = s /\ exists err, r = Some err
        end
    | _ => fun _ _ => s' = s
    end o
| _ => fun _ => s' = s
end.

Definition step (s : events) (a : act) (s' : events) : Prop :=
match act_ev a in Ev X return X -> Prop with
| Kube e => kube_step s s' e
| _ => fun _ => s' = s
end (act_res a).

Definition run : events -> list act -> events -> Prop := run_store step.
End EventStore.

(** ** Lemmas *)

Import EventStore.

Lemma process_silent s : sat (silent step) (fun _ => True) (process s).
Proof.
  unfold process, reconcileToken, find_or_create, findSpiAccessToken, createSpiAccessToken.
  repeat (sat_step || sat_seq); try done; by intros ? ?.
Qed.

(** [tryDeleteEvent] leaves no event of the name. *)
Lemma tryDeleteEvent_run name ns tr u s s' :
  keyed s -> exec (tryDeleteEvent name ns) tr u -> run s tr s' -> s' = delete (mkKey ns name) s.
Proof.
  intros Hk H Hr. unfold tryDeleteEvent in H. exec_steps. destruct x as [stored|err]; exec_steps.
  - destruct Hr as (s1 & [-> H1] & s2 & H2 & ->). cbn in *.
    destruct (s !! mkKey ns name) as [ev|] eqn:E; [|by destruct H1]. injection H1 as ->.
    unfold step in H2. cbn in H2. rewrite (Hk _ _ E), E in H2. tauto.
  - destruct Hr as (s1 & [-> H1] & ->). destruct (s !! mkKey ns name) eqn:E; [done|].
    symmetry. by apply delete_id.
Qed.

(** Whatever was there before, [createErrorEvent] leaves exactly its event. *)
Lemma createErrorEvent_run sec err tr u s s' :
  keyed s -> exec (createErrorEvent sec err) tr u -> run s tr s' ->
  exists now, s' = <[ObjectKeyFromObject (sec_Meta sec) := error_event sec err now]> s.
Proof.
  intros Hk (u' & tr1 & tr2 & -> & H1 & H2)%exec_bind (s1 & Hr1 & Hr2)%run_store_app.
  apply (tryDeleteEvent_run _ _ _ _ _ _ Hk H1) in Hr1. subst s1. exec_steps. exists x.
  destruct Hr2 as (s1 & -> & s2 & Hc & ->). unfold step in Hc. cbn in Hc.
  change (ev_Key _) with (ObjectKeyFromObject (sec_Meta sec)) in Hc.
  change (mkKey (sec_Namespace sec) (sec_Name sec)) with (ObjectKeyFromObject (sec_Meta sec)) in Hc.
  rewrite lookup_delete_eq in Hc. destruct Hc as [-> _]. by rewrite insert_delete_eq.
Qed.

(** The shape of a reconciliation that deleted its secret *)
Lemma Reconcile_deleted_exec req sec tr o :
  exec (Reconcile_deleted req sec) tr o ->
  o = done_ok /\ exists e tr1 tr2, tr = tr1 ++ tr2 /\ exec (process sec) tr1 e /\
    exec (match e with
          | Some err => createErrorEvent sec err
          | None => tryDeleteEvent (sec_Name sec) (key_Namespace req)
          end) tr2 tt.
Proof.
  intros (e & tr1 & tr2 & -> & H1 & H2)%exec_bind.
  destruct e as [err|]; apply exec_bind_ret in H2 as ([] & H2 & ->); (split; [done|]); eauto 7.
Qed.

(** ** Properties *)

(** The contract on events: in a cluster that serves the calls on events,
    and whatever events of the secret's name earlier attempts left behind, a
    processed upload leaves exactly one event of the secret's name, with the
    error, when it failed, and none when it succeeded; every other event of
    the cluster stays as it was. *)
Theorem upload_event_contract req sec tr o s s' :
  keyed s -> ObjectKeyFromObject (sec_Meta sec) = req ->
  exec (Reconcile_deleted req sec) tr o -> run s tr s' ->
  exists e tr1 tr2, tr = tr1 ++ tr2 /\ exec (process sec) tr1 e /\
    match e with
    | Some err => exists ev, s' = <[req := ev]> s /\ ev_Message ev = Error err /\ ev_Type ev = "Error"
    | None => s' = delete req s
    end.
Proof.
  intros Hk Hreq (_ & e & tr1 & tr2 & -> & H1 & H2)%Reconcile_deleted_exec (s1 & Hr1 & Hr2)%run_store_app.
  exists e, tr1, tr2. split; [done|]. split; [done|].
  apply run_store_silent in Hr1; [subst s1|by eapply process_silent]. destruct e as [err|].
  - apply (createErrorEvent_run _ _ _ _ _ _ Hk H2) in Hr2 as [now ->]. rewrite Hreq. by eexists.
  - apply (tryDeleteEvent_run _ _ _ _ _ _ Hk H2) in Hr2. rewrite Hr2. by rewrite <- Hreq.
Qed.

Definition bad_secret : Secret := sample_secret "up" {[ tokenSecretLabel := "other" ]} ∅.
Definition bad_error : goerr := WrapError "invalid secret type: other" invalidSecretTypeError.
Definition bad_trace : list act :=
  [Act (Kube (KGet KEvent (mkKey "ns" "up"))) (Err not_found); Act Now 5%Z;
   Act (Kube (KCreate KEvent (error_event bad_secret bad_error 5))) (Ok (error_event bad_secret bad_error 5))].

Lemma upload_event_contract_witness :
  exists s', exec (Reconcile_deleted (mkKey "ns" "up") bad_secret) bad_trace done_ok /\ run ∅ bad_trace s' /\
  exists e tr1 tr2, bad_trace = tr1 ++ tr2 /\ exec (process bad_secret) tr1 e /\
    match e with
    | Some err => exists ev, s' = <[mkKey "ns" "up" := ev]> ∅ /\ ev_Message ev = Error err /\ ev_Type ev = "Error"
    | None => s' = delete (mkKey "ns" "up") ∅
    end.
Proof.
  exists {[ mkKey "ns" "up" := error_event bad_secret bad_error 5 ]}.
  assert (exec (Reconcile_deleted (mkKey "ns" "up") bad_secret) bad_trace done_ok) as He.
  { unfold Reconcile_deleted. cbn -[Errorf_w]. do 3 (apply exec_Vis; cbn). done. }
  assert (run ∅ bad_trace {[ mkKey "ns" "up" := error_event bad_secret bad_error 5 ]}) as Hr.
  { exists ∅. split; [split; [done|]; cbn; by eexists|]. exists ∅. split; [done|].
    eexists. split; [|done]. split; [reflexivity|done]. }
  split; [exact He|]. split; [exact Hr|].
  exact (upload_event_contract (mkKey "ns" "up") bad_secret bad_trace done_ok ∅ _
    (fun k e (H : ∅ !! k = Some e) => match eq_trans (eq_sym H) (lookup_empty k) with end) eq_refl He Hr).
Defined.

(** The token object that the data of [s] belongs to, as the trace shows it:
    an existing one of the requested name or one the controller created, in
    the namespace of the secret either way *)
Definition upload_owner (s : Secret) (tr : list act) (t : SPIAccessToken) : Prop :=
  let name := map_get (sec_Data s) spiTokenNameField in
  (name <> "" /\ tr = [Act (Kube (KGet KToken (mkKey (sec_Namespace s) name))) (Ok t)]) \/
  (exists pre, tr = pre ++ [Act (Kube (KCreate KToken (token_to_create s))) (Ok t)] /\
     (pre = [] /\ name = "" \/ name <> "" /\ exists err, IsNotFound err = true /\
        pre = [Act (Kube (KGet KToken (mkKey (sec_Namespace s) name))) (Err err)])).

Lemma find_or_create_exec s tr r :
  exec (find_or_create s) tr r ->
  match r with
  | Ok t => upload_owner s tr t
  | Err _ => ts_writes tr = []
  end.
Proof.
  intros H. unfold find_or_create, findSpiAccessToken, createSpiAccessToken in H.
  destruct (String.eqb_spec (map_get (sec_Data s) spiTokenNameField) "") as [E|E]; cbn [bind] in H; exec_steps.
  - destruct x as [t|err]; exec_steps; [|done]. right. exists []. tauto.
  - destruct x as [t|err]; exec_steps; [by left|]. destruct (IsNotFound err) eqn:En; exec_steps; [|done].
    destruct x as [t|err']; exec_steps; [|done].
    right. eexists [_]. split; [done|]. right. split; [done|]. by exists err.
Qed.

Lemma process_exec s tr e :
  exec (process s) tr e ->
  (ts_writes tr = [] /\ e <> None) \/
  exists pre t r, tr = pre ++ [Act (Ts (TsStore t (uploaded_token s))) r] /\ upload_owner s pre t /\
    map_get (om_Labels (sec_Meta s)) tokenSecretLabel = "token" /\ (e = None <-> r = None).
Proof.
  intros H. unfold process in H. destruct (String.eqb_spec (map_get (om_Labels (sec_Meta s)) tokenSecretLabel) "token") as [El|];
    [|left; destruct H as [-> ->]; done].
  apply exec_bind in H as (f & tr1 & tr2 & -> & H1 & H2). apply find_or_create_exec in H1.
  destruct f as [t|err]; [|left; destruct H2 as [-> ->]; by rewrite app_nil_r].
  right. exec_steps. exists tr1, t, x. split; [by destruct x; exec_steps|].
  split; [done|]. split; [done|]. by destruct x; exec_steps.
Qed.

(** C32 An upload secret does not outlive its processing.  The only call
    before the deletion of the secret is the one that reads it; nothing else
    happens when the secret is gone, is already being deleted, or cannot be
    deleted; after the deletion no error is returned, and token data reaches
    the token storage at most once: the data of this secret, stored for a
    token object of the secret's namespace that was found under the requested
    name or created for it, and only if the secret is labelled as a token. *)
Theorem upload_secret_consumed req tr o :
  exec (Reconcile req) tr o ->
  exists r rest, tr = Act (Kube (KGet KSecret req)) r :: rest /\
  match r with
  | Err err => rest = [] /\ o.1 = no_requeue /\ (o.2 = None <-> IsNotFound err = true)
  | Ok sec =>
      if om_DeletionTimestamp (sec_Meta sec) then rest = [] /\ o = done_ok
      else exists d rest', rest = Act (Kube (KDelete KSecret sec)) d :: rest' /\
        match d with
        | Some _ => rest' = [] /\ o.2 <> None
        | None => o = done_ok /\ exists asked reported, rest' = asked ++ reported /\ ts_writes reported = [] /\
            (ts_writes asked = [] \/
             exists pre t stored, asked = pre ++ [Act (Ts (TsStore t (uploaded_token sec))) stored] /\
               upload_owner sec pre t /\
               map_get (om_Labels (sec_Meta sec)) tokenSecretLabel = "token")
        end
  end.
Proof.
  intros H. unfold Reconcile in H. unfold kube, call at 1 in H. cbn [bind] in H.
  destruct H as (r & rest & -> & H). exists r, rest. split; [done|]. destruct r as [sec|err].
  2: { destruct (IsNotFound err) eqn:E; exec_steps; by rewrite ?E. }
  destruct (om_DeletionTimestamp (sec_Meta sec)); [by destruct H as [-> ->]|].
  unfold call at 1 in H. cbn [bind] in H. destruct H as (d & rest' & -> & H). exists d, rest'.
  split; [done|]. destruct d as [err|]; [by destruct H as [-> ->]|].
  apply Reconcile_deleted_exec in H as (-> & e & tr1 & tr2 & -> & H1 & H2). split; [done|].
  exists tr1, tr2. split; [done|]. split.
  - destruct e; unfold createErrorEvent, tryDeleteEvent in H2; exec_steps; destruct x; by exec_steps.
  - apply process_exec in H1 as [[H1 _]|(pre & t & st & -> & H1 & H3 & _)]; [by left|].
    right. by exists pre, t, st.
Qed.

Definition upload_script : script :=
  mkScript (Err not_found) (Err not_found) (Err not_found) (Err not_found) (Err not_found)
    (Ok (sample_secret "up" {[ tokenSecretLabel := "token" ]} (<["spiTokenName" := "tok"]> {[ "tokenData" := "s3cr3t" ]})))
    (Err not_found) (Err not_found) [] [] [] [] None None None
    (Ok sample_sp) (Ok []) (Ok []) None (Ok None) (Ok None) (Ok None) (Ok "")
    (Ok (mkDependents (sample_secret "dep" ∅ ∅) [])) None 0.

Lemma upload_secret_consumed_witness :
  let tr := trace_of upload_script (Reconcile (mkKey "ns" "up")) in
  length (ts_writes tr) = 1 /\
  exists r rest, tr = Act (Kube (KGet KSecret (mkKey "ns" "up"))) r :: rest.
Proof.
  intros tr. split; [vm_compute; reflexivity|].
  destruct (upload_secret_consumed (mkKey "ns" "up") tr _ (scripted_exec upload_script _)) as (r & rest & H & _).
  exists r, rest. exact H.
Defined.
