(* ===== verification/RemoteSecretOAuth.v ===== *)
(** * controllers/remotesecret_oauth_controller.go: OAuth URLs of remote secrets

    A remote secret labelled with the host of a service provider gets an
    annotation with the URL that starts the OAuth flow and a condition that
    says how that went; without the label both are removed.  Patches are
    computed against the object as it was loaded.  The functions on conditions
    come from apimachinery: [Conditions] are the functions, [ConditionLaws]
    what their documentation says. *)

From S2P Require Import Prelude GoStd GoUrl GoJson GoBase64 Api Externals SpErrors OAuthState Effects Samples SpConfig Enqueue.
Local Open Scope string_scope.
Local Open Scope list_scope.
Local Open Scope spi_scope.

Class Conditions := {
  SetStatusCondition : list Condition -> Condition -> list Condition;
  RemoveStatusCondition : list Condition -> string -> list Condition;
  FindStatusCondition : list Condition -> string -> option Condition }.

Class ConditionLaws {C : Conditions} : Prop := {
  find_set cs c : FindStatusCondition (SetStatusCondition cs c) (cond_Type c) = Some c;
  find_set_ne cs c t : t <> cond_Type c ->
    FindStatusCondition (SetStatusCondition cs c) t = FindStatusCondition cs t;
  find_remove cs t : FindStatusCondition (RemoveStatusCondition cs t) t = None;
  find_remove_ne cs t u : t <> u ->
    FindStatusCondition (RemoveStatusCondition cs t) u = FindStatusCondition cs u }.

Definition OAuthUrlAnnotation := "appstudio.redhat.com/sp.oauthurl".
Definition OAuthConditionType := "OAuthURLGenerated".
Definition OAuthConditionReasonNotSupported := "NotSupported".
Definition OAuthConditionReasonSuccess := "Success".
Definition OAuthConditionReasonError := "Error".

Definition rs_Labels (r : RemoteSecret) : gmap string string := om_Labels (rs_Meta r).
Definition rs_Annotations (r : RemoteSecret) : gmap string string := om_Annotations (rs_Meta r).

(** ** The predicates of the watch *)

Definition create_pred (r : RemoteSecret) : bool :=
  negb (String.eqb (map_get (rs_Labels r) RSServiceProviderHostLabel) "").
Definition update_pred (old new : RemoteSecret) : bool :=
  if negb (String.eqb (map_get (rs_Labels old) RSServiceProviderHostLabel)
                      (map_get (rs_Labels new) RSServiceProviderHostLabel)) then true
  else negb (String.eqb (map_get (rs_Annotations old) OAuthUrlAnnotation)
                        (map_get (rs_Annotations new) OAuthUrlAnnotation)).

(** ** Reconciliation *)

Definition getFixedPermissionsForProvider (spType : ServiceProviderType) : Permissions :=
  if String.eqb (spt_Name spType) (spt_Name ServiceProviderTypeQuay) then
    mkPermissions [mkPermission PermissionTypeReadWrite PermissionAreaRegistry;
                   mkPermission PermissionTypeReadWrite PermissionAreaUser] []
  else
    mkPermissions [mkPermission PermissionTypeReadWrite PermissionAreaRepository;
                   mkPermission PermissionTypeReadWrite PermissionAreaUser] [].

Definition conditionFromError (err : goerr) : Condition :=
  mkCondition OAuthConditionType "False" OAuthConditionReasonError (Error err).
Definition not_supported_condition (repoHost : string) : Condition :=
  mkCondition OAuthConditionType "False" OAuthConditionReasonNotSupported
    ("Service provider with host '" +:+ repoHost +:+ "' does not support OAuth flow.").
Definition success_condition : Condition :=
  mkCondition OAuthConditionType "True" OAuthConditionReasonSuccess "OAuth URL successfully generated.".

Definition set_annotations (a : gmap string string) (r : RemoteSecret) : RemoteSecret :=
  set_rs_Meta (set_om_Annotations a (rs_Meta r)) r.
Definition without_url (r : RemoteSecret) : RemoteSecret :=
  set_annotations (delete OAuthUrlAnnotation (rs_Annotations r)) r.

Definition oauth_info_for (r : RemoteSecret) (sp : ServiceProvider) (c : OAuthCapability) : OAuthInfo :=
  mkOAuthInfo (om_Name (rs_Meta r)) (om_Namespace (rs_Meta r)) (rs_Kind r)
    (Some (OAuthScopesFor c (getFixedPermissionsForProvider (GetType sp))))
    (spt_Name (GetType sp)) (GetBaseUrl_sp sp).
Definition with_url (c : OAuthCapability) (state : string) (r : RemoteSecret) : RemoteSecret :=
  set_annotations (<[OAuthUrlAnnotation := GetOAuthEndpoint c +:+ "?state=" +:+ state]> (rs_Annotations r)) r.

Section reconciler.
Context {C : Conditions}.

Definition with_condition (c : Condition) (r : RemoteSecret) : RemoteSecret :=
set_rs_Conditions (SetStatusCondition (rs_Conditions r) c) r.
Definition without_condition (r : RemoteSecret) : RemoteSecret :=
set_rs_Conditions (RemoveStatusCondition (rs_Conditions r) OAuthConditionType) r.

(** Patch the status of [o] against [base]; [after] is the outcome when that
  succeeds. *)
Definition patch_status (o base : RemoteSecret) (text : string) (after : outcome) : prog outcome :=
let! u := kube (KStatusPatch KRemoteSecret o base) in
match u with Err err => Ret (failed text err) | Ok _ => Ret after end.

(** Without the label: both leftovers are removed, the annotation first *)
Definition Reconcile_unlabelled (base : RemoteSecret) : prog outcome :=
let! r :=
  match rs_Annotations base !! OAuthUrlAnnotation with
  | Some _ => kube (KPatch KRemoteSecret (without_url base) base)
  | None => Ret (Ok base)
  end in
match r with
| Err err => Ret (failed "failed to remove oauth annotation by patching remoteSecret" err)
| Ok rs =>
    match FindStatusCondition (rs_Conditions rs) OAuthConditionType with
    | Some _ =>
        patch_status (without_condition rs) base
          "failed to remove oauth condition by patching remoteSecret" done_ok
    | None => Ret done_ok
    end
end.

(** With a provider that supports OAuth *)
Definition Reconcile_oauth (base : RemoteSecret) (sp : ServiceProvider) (c : OAuthCapability) : prog outcome :=
match Encode (oauth_info_for base sp c) with
| Err err =>
    patch_status (with_condition (conditionFromError err) base) base
      "failed to add oauth error condition by patching remoteSecret"
      (failed "failed to encode the OAuth state, this might indicate that some part of OAuth state is malformed" err)
| Ok state =>
    let! r := kube (KPatch KRemoteSecret (with_url c state base) base) in
    match r with
    | Err err => Ret (failed "failed to add oauth annotation by patching remoteSecret" err)
    | Ok rs =>
        patch_status (with_condition success_condition rs) base
          "failed to add oauth success condition by patching remoteSecret" done_ok
    end
end.

(** With the label *)
Definition Reconcile_labelled (base : RemoteSecret) (repoHost : string) : prog outcome :=
let serviceProviderUrl := "https://" +:+ repoHost in
let! r := call (Sp (FromRepoUrl serviceProviderUrl (om_Namespace (rs_Meta base)))) in
match r with
| Err err =>
    match errors_As_validation err with
    | Some validationErr =>
        patch_status (with_condition (conditionFromError validationErr) base) base
          "failed to add oauth error condition by patching remoteSecret" done_ok
    | None =>
        patch_status (with_condition (conditionFromError err) base) base
          "failed to add oauth error condition by patching remoteSecret"
          (failed ("failed to determine the service provider from URL " +:+ serviceProviderUrl) err)
    end
| Ok sp =>
    match GetOAuthCapability sp with
    | None =>
        patch_status (with_condition (not_supported_condition repoHost) base) base
          "failed to add oauth not supported condition by patching remoteSecret" done_ok
    | Some c => Reconcile_oauth base sp c
    end
end.

Definition Reconcile (req : ObjectKey) : prog outcome :=
let! r := kube (KGet KRemoteSecret req) in
match r with
| Err err =>
    if IsNotFound err then Ret done_ok else Ret (failed "failed to get the RemoteSecret" err)
| Ok remoteSecret =>
    match om_DeletionTimestamp (rs_Meta remoteSecret) with
    | Some _ => Ret done_ok
    | None =>
        match rs_Labels remoteSecret !! RSServiceProviderHostLabel with
        | None => Reconcile_unlabelled remoteSecret
        | Some repoHost => Reconcile_labelled remoteSecret repoHost
        end
    end
end.
End reconciler.

(** ** A concrete instance of the functions on conditions *)

#[export] Instance sample_conditions : Conditions := {|
  SetStatusCondition := fun cs c =>
    List.filter (fun d => negb (String.eqb (cond_Type d) (cond_Type c))) cs ++ [c];
  RemoveStatusCondition := fun cs t => List.filter (fun d => negb (String.eqb (cond_Type d) t)) cs;
  FindStatusCondition := fun cs t => List.find (fun d => String.eqb (cond_Type d) t) cs |}.

Lemma find_filtered (cs : list Condition) t u :
  List.find (fun d => String.eqb (cond_Type d) u) (List.filter (fun d => negb (String.eqb (cond_Type d) t)) cs) =
  if String.eqb t u then None else List.find (fun d => String.eqb (cond_Type d) u) cs.
Proof.
  induction cs as [|d cs IH]; cbn; [by destruct (String.eqb t u)|].
  destruct (String.eqb_spec (cond_Type d) t) as [Hd|Hd]; cbn; rewrite IH;
    destruct (String.eqb_spec t u), (String.eqb_spec (cond_Type d) u); congruence.
Qed.

Lemma find_app (p : Condition -> bool) l1 l2 :
  List.find p (l1 ++ l2) = match List.find p l1 with Some x => Some x | None => List.find p l2 end.
Proof. induction l1 as [|x l1 IH]; cbn; [done|]. by destruct (p x). Qed.

#[export] Instance sample_condition_laws : @ConditionLaws sample_conditions.
Proof.
  constructor; cbn; intros *.
  - by rewrite find_app, find_filtered, String.eqb_refl; cbn; rewrite String.eqb_refl.
  - intros H. rewrite find_app, find_filtered. cbn.
    destruct (String.eqb_spec (cond_Type c) t); [congruence|]. by destruct (List.find _ cs).
  - by rewrite find_filtered, String.eqb_refl.
  - intros H. rewrite find_filtered. by destruct (String.eqb_spec t u).
Qed.

(** ** Properties *)

#[local] Arguments Encode : simpl never.

Section properties.
Context {C : Conditions} {L : ConditionLaws}.

Lemma patch_status_exec o base text after tr r :
exec (patch_status o base text after) tr r ->
exists u, tr = [Act (Kube (KStatusPatch KRemoteSecret o base)) u] /\
  match u with Ok _ => r = after | Err _ => r.1 = no_requeue /\ r.2 <> None end.
Proof. intros H. unfold patch_status in H. exec_steps. exists x. by destruct x; exec_steps. Qed.

(** C38 A labelled remote secret on every branch.  The provider is that of the
  labelled host over https.  Without a provider, or without OAuth support,
  the only write is a False condition, with the reason Error and the message of
  the failure, or with the reason NotSupported and a message that names the host.
  When that is written, the reconciliation ends without an error for a
  configuration that is not valid and for a provider without OAuth, which another
  attempt would not repair, and with the failure otherwise; when it is not, an
  error is returned.  With OAuth support the annotation is
  patched first and the True condition only after that succeeded; the
  annotation is the provider's endpoint with a [state] parameter that needs
  no escaping and that the OAuth service parses to the name, namespace and
  kind of this remote secret and the provider's name and URL; every other
  annotation stays. *)
Theorem labelled_remote_secret base repoHost tr o :
exec (Reconcile_labelled base repoHost) tr o ->
exists r rest,
  tr = Act (Sp (FromRepoUrl ("https://" +:+ repoHost) (om_Namespace (rs_Meta base)))) r :: rest /\
  let reports reason message (after : outcome) := exists u,
    rest = [Act (Kube (KStatusPatch KRemoteSecret
              (with_condition (mkCondition "OAuthURLGenerated" "False" reason message) base) base)) u] /\
    if is_ok u then o = after else o.2 <> None in
  match r with
  | Err err =>
      match errors_As_validation err with
      | Some v => reports "Error" (Error v) (no_requeue, None)
      | None => reports "Error" (Error err)
          (no_requeue, Some (Errorf_w ("failed to determine the service provider from URL https://" +:+ repoHost) err))
      end
  | Ok sp =>
      match GetOAuthCapability sp with
      | None => reports "NotSupported" ("Service provider with host '" +:+ repoHost +:+ "' does not support OAuth flow.")
                  (no_requeue, None)
      | Some c => exists state p rest',
          rest = Act (Kube (KPatch KRemoteSecret (with_url c state base) base)) p :: rest' /\
          url_safe state = true /\ ParseOAuthInfo state = Ok (valid_info (oauth_info_for base sp c)) /\
          rs_Annotations (with_url c state base) !! "appstudio.redhat.com/sp.oauthurl" =
            Some (GetOAuthEndpoint c +:+ "?state=" +:+ state) /\
          (forall a, a <> OAuthUrlAnnotation ->
             rs_Annotations (with_url c state base) !! a = rs_Annotations base !! a) /\
          match p with
          | Err _ => rest' = [] /\ o.2 <> None
          | Ok rs => exists u,
              rest' = [Act (Kube (KStatusPatch KRemoteSecret (with_condition
                 (mkCondition "OAuthURLGenerated" "True" "Success" "OAuth URL successfully generated.") rs) base)) u] /\
              (o.2 = None <-> is_ok u = true)
          end
      end
  end.
Proof.
intros H. unfold Reconcile_labelled in H. unfold call at 1 in H. cbn [bind] in H.
destruct H as (r & rest & -> & H). exists r, rest. split; [done|]. cbv zeta. destruct r as [sp|err].
2: { destruct (errors_As_validation err); apply patch_status_exec in H as (u & -> & Hu);
       exists u; (split; [reflexivity|]); destruct u; [done|by apply Hu|done|by apply Hu]. }
destruct (GetOAuthCapability sp) as [c|].
2: { apply patch_status_exec in H as (u & -> & Hu). exists u. split; [reflexivity|]. destruct u; [done|by apply Hu]. }
unfold Reconcile_oauth in H. destruct (Encode _) as [state|err] eqn:E; [|discriminate E].
apply Encode_parses in E as (Hurl & Hparse & _).
unfold kube, call at 1 in H. cbn [bind] in H. destruct H as (p & rest' & -> & H).
exists state, p, rest'. split; [done|]. split; [done|]. split; [done|].
split; [apply lookup_insert_eq|]. split; [intros a Ha; by apply lookup_insert_ne|]. destruct p as [rs|err].
- apply patch_status_exec in H as (u & -> & Hu). exists u. split; [done|].
  destruct u; [by rewrite Hu|]. cbn. split; [tauto|done].
- by destruct H as [-> ->].
Qed.

(** The object that a write leaves in the cluster when the server stores what
  it was sent *)
Definition stored (w : kube_write) : option RemoteSecret :=
match w with
| WPatch k o _ r | WStatusPatch k o _ r =>
    match k return obj k -> res (obj k) -> option RemoteSecret with
    | KRemoteSecret => fun o r => if is_ok r then Some o else None
    | _ => fun _ _ => None
    end o r
| _ => None
end.
Definition echoes (w : kube_write) : Prop :=
match w with
| WPatch k o _ r | WStatusPatch k o _ r => r = Ok o
| _ => True
end.
Definition last_version (base : RemoteSecret) (ws : list kube_write) : RemoteSecret :=
fold_left (fun _ v => v) (omap stored ws) base.

(** The label removed, nothing is left behind: when the server stores what
  it is sent, reconciling an unlabelled remote secret succeeds and leaves it
  without the URL annotation and without the OAuth condition; every other
  annotation and condition, and everything else, is as before.  A remote
  secret that has neither is not written at all. *)
Theorem unlabelled_remote_secret base tr o :
exec (Reconcile_unlabelled base) tr o -> Forall echoes (writes tr) ->
let final := last_version base (writes tr) in
o = done_ok /\
rs_Annotations final = delete OAuthUrlAnnotation (rs_Annotations base) /\
FindStatusCondition (rs_Conditions final) OAuthConditionType = None /\
(forall t, t <> OAuthConditionType ->
   FindStatusCondition (rs_Conditions final) t = FindStatusCondition (rs_Conditions base) t) /\
rs_Labels final = rs_Labels base /\ rs_Targets final = rs_Targets base /\
(rs_Annotations base !! OAuthUrlAnnotation = None ->
 FindStatusCondition (rs_Conditions base) OAuthConditionType = None -> tr = []).
Proof using L.
intros H He. unfold Reconcile_unlabelled in H.
destruct (rs_Annotations base !! OAuthUrlAnnotation) eqn:Ea.
- unfold kube, call at 1 in H. cbn [bind] in H. destruct H as (r & tr' & -> & H).
  rewrite writes_cons in *. cbn [obs_write act_ev act_res kube_write_of] in *.
  apply List.Forall_cons_iff in He as [Hr He]. cbn in Hr. subst r.
  destruct (FindStatusCondition _ _) eqn:Ef; cbn in Ef.
  + apply patch_status_exec in H as (u & -> & Hu). cbn in He. apply List.Forall_cons_iff in He as [Hr _].
    cbn in Hr. subst u. cbn. split_and!; try done; [apply find_remove|].
    intros t Ht. apply find_remove_ne. congruence.
  + destruct H as [-> ->]. cbn. by split_and!.
- cbn [bind] in H. rewrite delete_id by done. destruct (FindStatusCondition _ _) eqn:Ef.
  + apply patch_status_exec in H as (u & -> & Hu). cbn in He. apply List.Forall_cons_iff in He as [Hr _].
    cbn in Hr. subst u. cbn. split_and!; try done; [apply find_remove|].
    intros t Ht. apply find_remove_ne. congruence.
  + destruct H as [-> ->]. by split_and!.
Qed.

(** The providers a trace determined *)
Definition provider_of {X} (e : SpE X) : X -> option (res ServiceProvider) :=
match e in SpE X return X -> option (res ServiceProvider) with
| FromRepoUrl _ _ => fun r => Some r
| _ => fun _ => None
end.
Definition obs_provider (a : act) : option (res ServiceProvider) :=
match act_ev a in Ev X return X -> option (res ServiceProvider) with
| Sp e => provider_of e
| _ => fun _ => None
end (act_res a).

Lemma update_pred_meta a b :
om_Labels (rs_Meta a) = om_Labels (rs_Meta b) -> om_Annotations (rs_Meta a) = om_Annotations (rs_Meta b) ->
update_pred a b = false.
Proof.
intros H1 H2. unfold update_pred, rs_Labels, rs_Annotations. by rewrite H1, H2, !String.eqb_refl.
Qed.

(** The controller does not trigger itself forever: once a remote secret
  carries the URL the controller computes for it, reconciling it again with
  the same answer from the provider succeeds and leaves only versions that
  the predicate of the watch ignores, so no further reconciliation follows. *)
Theorem oauth_reconcile_quiesces base repoHost sp c state tr o :
GetOAuthCapability sp = Some c -> Encode (oauth_info_for base sp c) = Ok state ->
let settled := with_url c state base in
exec (Reconcile_labelled settled repoHost) tr o ->
omap obs_provider tr = [Ok sp] -> Forall echoes (writes tr) ->
o = done_ok /\
Forall (fun w => exists v, stored w = Some v /\ update_pred settled v = false) (writes tr).
Proof.
intros Hc Hs settled H Hp He.
assert (with_url c state settled = settled) as Hid.
{ unfold settled, with_url, set_annotations, rs_Annotations. destruct base as [k [] t d cs ts]. cbn.
  by rewrite insert_insert_eq. }
unfold Reconcile_labelled in H. unfold call at 1 in H. cbn [bind] in H.
destruct H as (r & tr1 & -> & H). injection Hp as Hr _. subst r.
rewrite Hc in H. unfold Reconcile_oauth in H.
change (oauth_info_for settled sp c) with (oauth_info_for base sp c) in H. rewrite Hs, Hid in H.
unfold kube, call at 1 in H. cbn [bind] in H. destruct H as (r & tr2 & -> & H).
rewrite !writes_cons in *. cbn [obs_write act_ev act_res kube_write_of] in *.
apply List.Forall_cons_iff in He as [Hr He]. cbn in Hr. subst r.
apply patch_status_exec in H as (u & -> & Hu). cbn in He. apply List.Forall_cons_iff in He as [Hr _].
cbn in Hr. subst u. split; [done|]. repeat constructor; eexists; (split; [reflexivity|]);
  by apply update_pred_meta.
Qed.
End properties.

(** ** Witnesses *)

Definition oauth_sp : ServiceProvider :=
  mkSP "https://quay.io" sample_sp_type (Some (mkOAuthCapability "https://spi/oauth/authenticate" (fun _ => ["repo:read"]))) false false.
Definition sample_rs : RemoteSecret :=
  mkRemoteSecret "RemoteSecret"
    (mkMeta "rs" "" "ns" {[ RSServiceProviderHostLabel := "quay.io" ]} ∅ [] 0 None) "Opaque" ∅ [] [] [].
Definition left_over_rs : RemoteSecret :=
  mkRemoteSecret "RemoteSecret"
    (mkMeta "rs" "" "ns" ∅ (<[OAuthUrlAnnotation := "u"]> {[ "other" := "x" ]}) [] 0 None) "Opaque" ∅
    [success_condition; mkCondition "Deployed" "True" "r" "m"] [] [].
Definition oauth_script : script :=
  mkScript (Err not_found) (Err not_found) (Err not_found) (Err not_found) (Err not_found)
    (Err not_found) (Err not_found) (Ok sample_rs) [] [] [] [] None None None
    (Ok oauth_sp) (Ok []) (Ok []) None (Ok None) (Ok None) (Ok None) (Ok "")
    (Ok (mkDependents (sample_secret "dep" ∅ ∅) [])) None 0.

Lemma labelled_remote_secret_witness :
  let tr := trace_of oauth_script (Reconcile_labelled sample_rs "quay.io") in
  length (writes tr) = 2 /\
  exists r rest, tr = Act (Sp (FromRepoUrl "https://quay.io" "ns")) r :: rest.
Proof.
  intros tr. split; [vm_compute; reflexivity|].
  destruct (labelled_remote_secret sample_rs "quay.io" tr _ (scripted_exec oauth_script _)) as (r & rest & H & _).
  exists r, rest. exact H.
Defined.

Lemma unlabelled_remote_secret_witness :
  let tr := trace_of oauth_script (Reconcile_unlabelled left_over_rs) in
  length (writes tr) = 2 /\
  rs_Annotations (last_version left_over_rs (writes tr)) =
    delete OAuthUrlAnnotation (rs_Annotations left_over_rs).
Proof.
  intros tr. split; [vm_compute; reflexivity|].
  apply (unlabelled_remote_secret left_over_rs tr _ (scripted_exec oauth_script _)).
  repeat constructor.
Defined.

Lemma oauth_reconcile_quiesces_witness :
  exists state, Encode (oauth_info_for sample_rs oauth_sp (mkOAuthCapability "https://spi/oauth/authenticate" (fun _ => ["repo:read"]))) = Ok state /\
  let c := mkOAuthCapability "https://spi/oauth/authenticate" (fun _ => ["repo:read"]) in
  let settled := with_url c state sample_rs in
  result_of oauth_script (Reconcile_labelled settled "quay.io") = done_ok.
Proof.
  eexists. split; [reflexivity|]. intros c settled.
  apply (oauth_reconcile_quiesces sample_rs "quay.io" oauth_sp c _
    (trace_of oauth_script (Reconcile_labelled settled "quay.io")) _ eq_refl eq_refl (scripted_exec oauth_script _)).
  - reflexivity.
  - repeat constructor.
Defined.
