(* ===== verification/OAuthSync.v ===== *)
(** * oauth/: requests, sessions, authentication and the storing of tokens

    The parts of the OAuth service below its router: HTTP requests and
    responses as the handlers see them, statestorage.go, authenticator.go, the
    two synchronization strategies (spi_syncstrategy.go, rs_syncstrategy.go),
    token_upload.go with its handler (handlers.go), and the choice of a
    workspace (clientfactory/).  Sessions are those of the session manager:
    [SessGet] finds what [SessPut] put in the session of the same browser. *)

From S2P Require Import Prelude GoStd GoUrl Api Externals SpErrors Effects Samples.
Local Open Scope string_scope.
Local Open Scope list_scope.
Local Open Scope spi_scope.

(** Third-party functions and constants of the OAuth service *)
Class OAuthExternals := {
  (** oauth2.Config.AuthCodeURL, with the redirect URL and the scopes set on it *)
  AuthCodeURL : OAuth2Config -> string -> list string -> string -> string;
  (** the group and version of remote-secret's API *)
  rs_Group : string; rs_Version : string;
  (** retry.DefaultRetry.Steps of client-go *)
  DefaultRetry_Steps : nat;
  (** validation.IsValidLabelValue, validation.IsDNS1123Label: the complaints *)
  IsValidLabelValue : string -> list string;
  IsDNS1123Label : string -> list string;
  (** the token in a JSON request body (go-jose's decoder) *)
  DecodeToken : string -> res Token }.

(** ** HTTP *)

Record Request := mkRequest {
  rq_Query : list (string * string);
  rq_PostForm : list (string * string);
  rq_Authorization : string;
  rq_Body : string }.

Definition values_Get (vs : list (string * string)) (k : string) : string :=
  match List.find (fun p => String.eqb p.1 k) vs with Some p => p.2 | None => "" end.
Definition Query_Get (r : Request) (k : string) : string := values_Get (rq_Query r) k.
Definition PostFormValue (r : Request) (k : string) : string := values_Get (rq_PostForm r) k.
(** Parameters of the body precede those of the URL. *)
Definition FormValue (r : Request) (k : string) : string := values_Get (rq_PostForm r ++ rq_Query r) k.

Definition StatusOK : Z := 200.
Definition StatusNoContent : Z := 204.
Definition StatusFound : Z := 302.
Definition StatusBadRequest : Z := 400.
Definition StatusUnauthorized : Z := 401.
Definition StatusForbidden : Z := 403.
Definition StatusNotFound : Z := 404.
Definition StatusInternalServerError : Z := 500.

(** What a handler writes; the first response decides the status. *)
Inductive response :=
| Respond (status : Z) (body : string)
| RedirectNotice (url : string)
| RedirectTo (location : string) (status : Z).

(** ** statestorage.go *)

Definition noStateError : goerr := ErrorString "request has no `state` parameter".
Definition randomStringGenerationError : goerr := ErrorString "not able to generate new random string".
Definition letterBytes := "abcdefghijklmnopqrstuvwxyz1234567890".

(** [letterBytes[i]]; rand.Int answers below the length *)
Definition letter (i : nat) : ascii := default zero (String.get i letterBytes).

Fixpoint randStringBytes (n : nat) : prog (res string) :=
  match n with
  | O => Ret (Ok "")
  | S n' =>
      let! i := call (Oa (RandInt (Z.of_nat (String.length letterBytes)))) in
      match i with
      | None => Ret (Err randomStringGenerationError)
      | Some i =>
          let! rest := randStringBytes n' in
          match rest with
          | Err err => Ret (Err err)
          | Ok s => Ret (Ok (String (letter (Z.to_nat i)) s))
          end
      end
  end.

(** scs.SessionManager.GetString and GetInt64: the zero value when the key is
    absent or holds a value of another type *)
Definition GetString (key : string) : prog string :=
  let! v := call (Oa (SessGet key)) in
  Ret (match v with Some (SessString s) => s | _ => "" end).
Definition GetInt64 (key : string) : prog Z :=
  let! v := call (Oa (SessGet key)) in
  Ret (match v with Some (SessInt64 n) => n | _ => 0%Z end).

Definition VeilRealState (req : Request) : prog (res string) :=
  let state := Query_Get req "state" in
  if String.eqb state "" then Ret (Err noStateError)
  else
    let! r := randStringBytes 32 in
    match r with
    | Err err => Ret (Err err)
    | Ok newState =>
        let! _ := call (Oa (SessPut newState (SessString state))) in
        let! now := call Now in
        let! _ := call (Oa (SessPut (newState +:+ "-createdAt") (SessInt64 (Unix now)))) in
        Ret (Ok newState)
    end.

Definition UnveilState (req : Request) : prog (res string) :=
  let state := Query_Get req "state" in
  if String.eqb state "" then Ret (Err noStateError)
  else let! s := GetString state in Ret (Ok s).

(** The whole seconds of the veiling *)
Definition StateVeiledAt (req : Request) : prog (res Z) :=
  let state := Query_Get req "state" in
  if String.eqb state "" then Ret (Err noStateError)
  else
    let! createdAt := GetInt64 (state +:+ "-createdAt") in
    if (createdAt =? 0)%Z then Ret (Err noStateError) else Ret (Ok createdAt).

(** ** authenticator.go *)

Definition noTokenFoundError : goerr :=
  ErrorString "no token associated with the given session or provided as a `k8s_token` POST form body parameter".
Definition noTokenInSessionError : goerr := ErrorString "no token associated with the given session".
Definition k8sTokenParameterKey := "k8s_token".

Definition GetToken (r : Request) : prog (res string) :=
  let token := PostFormValue r k8sTokenParameterKey in
  let! token :=
    if String.eqb token "" then GetString k8sTokenParameterKey
    else
      let! _ := call (Oa (SessPut k8sTokenParameterKey (SessString token))) in
      Ret token in
  if String.eqb token "" then Ret (Err noTokenFoundError) else Ret (Ok token).

Definition GetTokenFromSession : prog (res string) :=
  let! token := GetString k8sTokenParameterKey in
  if String.eqb token "" then Ret (Err noTokenInSessionError) else Ret (Ok token).

(** clientfactory/auth_provider.go *)
Definition noBearerTokenError : goerr := ErrorString "no bearer token found".
Definition ExtractTokenFromAuthorizationHeader (authHeader : string) : string :=
  if HasPrefix (ToLower authHeader) "bearer " then drop_str (String.length "Bearer ") authHeader else "".
Definition AuthFromRequest (r : Request) : res string :=
  let token := ExtractTokenFromAuthorizationHeader (rq_Authorization r) in
  if String.eqb token "" then Err noBearerTokenError else Ok token.

(** The review of tokens is disabled: it accepts every token. *)
Definition tokenReview (token : string) : res bool := Ok true.

Definition Login (r : Request) : prog (list response) :=
  let token := PostFormValue r k8sTokenParameterKey in
  let token := if String.eqb token "" then ExtractTokenFromAuthorizationHeader (rq_Authorization r) else token in
  if String.eqb token "" then
    Ret [Respond StatusUnauthorized "failed extract authorization info either from headers or form parameters"]
  else
    match tokenReview token with
    | Err _ => Ret [Respond StatusUnauthorized "failed to determine if the authenticated user has access"]
    | Ok false => Ret [Respond StatusUnauthorized "authenticating the request in Kubernetes unsuccessful"]
    | Ok true =>
        let! _ := call (Oa (SessPut k8sTokenParameterKey (SessString token))) in
        Ret [Respond StatusOK ""]
    end.

Definition Logout : prog (list response) :=
  let! e := call (Oa SessDestroy) in
  match e with
  | Some _ => Ret [Respond StatusInternalServerError "failed to destroy the user session"]
  | None => Ret [Respond StatusOK ""]
  end.

(** ** The synchronization strategies *)

(** exchangeResult: the fields that describe a finished exchange *)
Record Exchange := mkExchange {
  ex_ObjectName : string; ex_ObjectNamespace : string; ex_token : OAuth2Token; ex_authorizationHeader : string }.

Definition create_client_text (namespace : string) : string :=
  "failed to create K8S client for namespace " +:+ namespace.

Section externals.
Context {E : OAuthExternals}.

Definition spi_checkIdentityHasAccess (auth namespace : string) : prog (res bool) :=
let! c := call (Oa (CreateUserClient auth namespace)) in
match c with
| Some err => Ret (Err (Errorf_w (create_client_text namespace) err))
| None =>
    let! a := call (Oa (AccessReview auth namespace "create" GroupVersion_Group GroupVersion_Version
                         "spiaccesstokendataupdates")) in
    Ret (map_err (Errorf_w "failed to create SelfSubjectAccessReview") a)
end.

Definition rs_checkIdentityHasAccess (auth namespace : string) : prog (res bool) :=
let! c := call (Oa (CreateUserClient auth namespace)) in
match c with
| Some err => Ret (Err (Errorf_w (create_client_text namespace) err))
| None =>
    let! g := call (Oa (AccessReview auth namespace "get" rs_Group rs_Version "remotesecrets")) in
    match g with
    | Err err => Ret (Err (Errorf_w "failed to create SelfSubjectAccessReview" err))
    | Ok false => Ret (Ok false)
    | Ok true =>
        let! u := call (Oa (AccessReview auth namespace "update" rs_Group rs_Version "remotesecrets")) in
        Ret (map_err (Errorf_w "failed to create SelfSubjectAccessReview") u)
    end
end.

Definition checkIdentityHasAccess (s : SyncStrategy) (auth namespace : string) : prog (res bool) :=
match s with
| SpiSync => spi_checkIdentityHasAccess auth namespace
| RsSync => rs_checkIdentityHasAccess auth namespace
end.

(** [uint64(t.Unix())] *)
Definition expiry_seconds (expiry : Z) : Z := (Unix expiry mod two64)%Z.

Definition api_token (t : OAuth2Token) : Token :=
mkToken "" (ot_AccessToken t) (ot_TokenType t) (ot_RefreshToken t) (expiry_seconds (ot_Expiry t)).

Definition spi_syncTokenData (x : Exchange) : prog (option goerr) :=
let auth := ex_authorizationHeader x in
let ns := ex_ObjectNamespace x in
let! c := call (Oa (CreateUserClient auth ns)) in
match c with
| Some err => Ret (Some (Errorf_w (create_client_text ns) err))
| None =>
    let! r := call (Oa (UserGet auth KToken (mkKey ns (ex_ObjectName x)))) in
    match r with
    | Err err =>
        Ret (Some (Errorf_w ("failed to get the SPIAccessToken object " +:+ ns +:+ "/" +:+ ex_ObjectName x) err))
    | Ok accessToken =>
        let! s := call (Oa (UserStore auth ns accessToken (api_token (ex_token x)))) in
        match s with
        | Some err => Ret (Some (Errorf_w "failed to persist the token to storage" err))
        | None => Ret None
        end
    end
end.

Definition oAuthAssociatedUsername := "$oauthtoken".
Definition upload_data (t : OAuth2Token) : gmap string string :=
<["password" := ot_AccessToken t]> (<["username" := oAuthAssociatedUsername]>
  (<["tokenType" := ot_TokenType t]> {[ "expiry" := FormatUint (expiry_seconds (ot_Expiry t)) ]})).

Definition IsConflict : goerr -> bool := has_reason ReasonConflict.

(** retry.RetryOnConflict: at most [steps] attempts, another one only after a
  conflict; the error of the last attempt *)
Fixpoint RetryOnConflict (steps : nat) (fn : prog (option goerr)) : prog (option goerr) :=
let! e := fn in
match e with
| None => Ret None
| Some err =>
    match steps with
    | S (S _ as steps') => if IsConflict err then RetryOnConflict steps' fn else Ret (Some err)
    | _ => Ret (Some err)
    end
end.

(** One attempt to write the data into the remote secret *)
Definition upload_attempt (auth : string) (key : ObjectKey) (data : gmap string string) : prog (option goerr) :=
let! r := call (Oa (UserGet auth KRemoteSecret key)) in
match r with
| Err err =>
    Ret (Some (Errorf_w ("failed to get the RemoteSecret object " +:+ key_Namespace key +:+ "/" +:+ key_Name key) err))
| Ok remoteSecret =>
    let! u := call (Oa (UserUpdate auth KRemoteSecret (set_rs_StringUploadData data remoteSecret))) in
    match u with
    | Err err => Ret (Some (Errorf_w "failed to persist token to RemoteSecret" err))
    | Ok _ => Ret None
    end
end.

Definition rs_syncTokenData (x : Exchange) : prog (option goerr) :=
let auth := ex_authorizationHeader x in
let ns := ex_ObjectNamespace x in
let! c := call (Oa (CreateUserClient auth ns)) in
match c with
| Some err => Ret (Some (Errorf_w (create_client_text ns) err))
| None =>
    let! e := RetryOnConflict DefaultRetry_Steps
                (upload_attempt auth (mkKey ns (ex_ObjectName x)) (upload_data (ex_token x))) in
    match e with
    | Some err => Ret (Some (Errorf_w "failed to persist the token to RemoteSecret after multiple retries" err))
    | None => Ret None
    end
end.

Definition syncTokenData (s : SyncStrategy) (x : Exchange) : prog (option goerr) :=
match s with SpiSync => spi_syncTokenData x | RsSync => rs_syncTokenData x end.

(** ** token_upload.go and its handler *)

Definition Upload (auth name namespace : string) (data : Token) : prog (option goerr) :=
let! c := call (Oa (CreateUserClient auth namespace)) in
match c with
| Some err => Ret (Some (Errorf_w (create_client_text namespace) err))
| None =>
    let! r := call (Oa (UserGet auth KToken (mkKey namespace name))) in
    match r with
    | Err err => Ret (Some (Errorf_w ("failed to get SPIAccessToken object " +:+ namespace +:+ "/" +:+ name) err))
    | Ok token =>
        let! s := call (Oa (UserStore auth namespace token data)) in
        match s with
        | Some err => Ret (Some (Errorf_w "failed to store the token data into storage" err))
        | None => Ret None
        end
    end
end.

Definition upload_failure (err : goerr) : response :=
match ReasonForError err with
| Some ReasonNotFound => Respond StatusNotFound "specified SPIAccessToken does not exist"
| Some ReasonForbidden =>
    Respond StatusForbidden "authorization token does not have permission to update SPIAccessToken"
| Some ReasonUnauthorized =>
    Respond StatusUnauthorized "invalid authorization token, cannot update SPIAccessToken"
| _ => Respond StatusInternalServerError "failed to upload the token"
end.

(** [name] and [namespace] are the variables of the route. *)
Definition HandleUpload (name namespace : string) (r : Request) : prog (list response) :=
match AuthFromRequest r with
| Err _ => Ret [Respond StatusUnauthorized "failed extract authorization information from headers"]
| Ok auth =>
    if (String.length name <? 1)%nat || (String.length namespace <? 1)%nat then
      Ret [Respond StatusInternalServerError
             "Incorrect service deployment. Token name and namespace can't be omitted or empty."]
    else
      match IsValidLabelValue name with
      | _ :: _ as errs =>
          Ret [Respond StatusBadRequest
                 ("Incorrect token name parameter. Must comply with common label value format. Details: " +:+ Join errs ";")]
      | [] =>
          match IsDNS1123Label namespace with
          | _ :: _ as errs =>
              Ret [Respond StatusBadRequest
                     ("Incorrect token namespace parameter. Must comply with RFC 1123 label format. Details: " +:+ Join errs ";")]
          | [] =>
              match DecodeToken (rq_Body r) with
              | Err _ => Ret [Respond StatusBadRequest "failed to decode request body as token JSON"]
              | Ok data =>
                  if String.eqb (td_AccessToken data) "" then
                    Ret [Respond StatusBadRequest "access token can't be omitted or empty"]
                  else
                    let! e := Upload auth name namespace data in
                    match e with
                    | Some err => Ret [upload_failure err]
                    | None => Ret [Respond StatusNoContent ""]
                    end
              end
          end
      end
end.
End externals.


(** ** Sessions *)

Module Session.
Abbreviation session := (gmap string session_value).

Definition oauth_step (s s' : session) {X} (e : OauthE X) : X -> Prop :=
match e in OauthE X return X -> Prop with
| SessGet k => fun v => s' = s /\ v = s !! k
| SessPut k v => fun _ => s' = <[k := v]> s
| SessDestroy => fun r => s' = match r with None => ∅ | Some _ => s end
| _ => fun _ => s' = s
end.
Definition step (s : session) (a : act) (s' : session) : Prop :=
match act_ev a in Ev X return X -> Prop with
| Oa e => oauth_step s s' e
| _ => fun _ => s' = s
end (act_res a).
Definition run : session -> list act -> session -> Prop := run_store step.
End Session.

Lemma randStringBytes_sat n :
  sat (silent Session.step) (fun r => match r with Ok s => String.length s = n | Err _ => True end)
    (randStringBytes n).
Proof.
  induction n as [|n IH]; cbn [randStringBytes]; [by apply sat_Ret|].
  repeat sat_step; [by intros ? ?| |done].
  eapply sat_bind; [exact IH|]. intros [s|err] H; repeat sat_step; [cbn; congruence|done].
Qed.

Lemma str_app_neq (s t : string) : t <> "" -> s <> s +:+ t.
Proof.
  intros Ht H. induction s as [|c s IH]; [by rewrite str_app_nil_l in H|].
  rewrite str_app_cons in H. injection H as H. auto.
Qed.

Lemma VeilRealState_exec req tr veil s s' :
  exec (VeilRealState req) tr (Ok veil) -> Session.run s tr s' ->
  String.length veil = 32 /\ Query_Get req "state" <> "" /\
  exists now, In (Act Now now) tr /\
    s' = <[veil +:+ "-createdAt" := SessInt64 (Unix now)]> (<[veil := SessString (Query_Get req "state")]> s).
Proof.
  intros H Hr. unfold VeilRealState in H.
  destruct (String.eqb_spec (Query_Get req "state") "") as [|Hne]; [by destruct H as [_ H]|].
  apply exec_bind in H as (r & tr1 & tr2 & -> & H1 & H2). apply run_store_app in Hr as (s1 & Hr1 & Hr2).
  apply randStringBytes_sat in H1 as [Hs Hlen]. apply run_store_silent in Hr1; [subst s1|done].
  destruct r as [v|err]; exec_steps. split; [done|]. split; [done|].
  destruct Hr2 as (s1 & H1 & s2 & -> & s3 & H3 & ->). unfold Session.step in *. cbn in H1, H3. subst s1 s3.
  eexists. split; [|reflexivity]. apply in_app_iff. right. cbn. tauto.
Qed.

(** A veiled state comes back.  Veiling puts the state under a fresh name
    of 32 characters, with the time, and changes nothing else in the session,
    in particular not the Kubernetes token; a later request of the same session
    whose [state] parameter is that name unveils exactly the original state and
    the second it was veiled at; a name the session does not hold unveils to
    the empty string, whatever it is. *)
Theorem veil_unveil req tr veil s s1 s2 req2 tr2 v s3 tr3 t s4 :
  exec (VeilRealState req) tr (Ok veil) -> Session.run s tr s1 ->
  exec (UnveilState req2) tr2 v -> Session.run s2 tr2 s3 ->
  exec (StateVeiledAt req2) tr3 t -> Session.run s2 tr3 s4 ->
  String.length veil = 32 /\ Query_Get req "state" <> "" /\
  (forall k, k <> veil -> k <> veil +:+ "-createdAt" -> s1 !! k = s !! k) /\
  s1 !! k8sTokenParameterKey = s !! k8sTokenParameterKey /\
  (Query_Get req2 "state" = veil ->
   s2 !! veil = s1 !! veil -> s2 !! (veil +:+ "-createdAt") = s1 !! (veil +:+ "-createdAt") ->
   v = Ok (Query_Get req "state") /\ s3 = s2 /\
   exists now, In (Act Now now) tr /\ (Unix now <> 0%Z -> t = Ok (Unix now))) /\
  (Query_Get req2 "state" <> "" -> s2 !! Query_Get req2 "state" = None -> v = Ok "").
Proof.
  intros H Hr H2 Hr2 H3 Hr3. destruct (VeilRealState_exec _ _ _ _ _ H Hr) as (Hlen & Hne & now & Hnow & ->).
  assert (veil <> veil +:+ "-createdAt") as Hd by by apply str_app_neq.
  assert (forall k, k <> veil -> k <> veil +:+ "-createdAt" ->
    <[veil +:+ "-createdAt" := SessInt64 (Unix now)]> (<[veil := SessString (Query_Get req "state")]> s) !! k = s !! k) as Hk.
  { intros k H4 H5. by rewrite !lookup_insert_ne by congruence. }
  split; [done|]. split; [done|]. split; [exact Hk|]. split.
  { apply Hk; intros He; rewrite <- ?He in Hlen; [discriminate Hlen|].
    apply (f_equal String.length) in He. rewrite str_length_app in He. cbn in He. lia. }
  unfold UnveilState, GetString in H2. unfold StateVeiledAt, GetInt64 in H3. split.
  - intros Hq Hs Hs'. rewrite Hq in H2, H3. rewrite lookup_insert_ne, lookup_insert_eq in Hs by congruence.
    rewrite lookup_insert_eq in Hs'.
    destruct (String.eqb_spec veil "") as [He|_]; [by rewrite He in Hlen|]. exec_steps.
    destruct Hr2 as (w & [Hw Hx] & Hs3), Hr3 as (w' & [Hw' Hx'] & _). cbn in Hx, Hx'.
    rewrite Hs in Hx. rewrite Hs' in Hx'. subst.
    split; [done|]. split; [done|]. exists now. split; [done|]. intros Hn.
    destruct (Z.eqb_spec (Unix now) 0); [done|]. by exec_steps.
  - intros Hq Hs. destruct (String.eqb_spec (Query_Get req2 "state") ""); [done|]. exec_steps.
    destruct Hr2 as (w & [Hw Hx] & _). cbn in Hx. rewrite Hs in Hx. by subst.
Qed.

(** ** Tokens reach the cluster only on behalf of the user *)

Section storing.
Context {E : OAuthExternals}.

Lemma Upload_exec auth name namespace data tr e :
exec (Upload auth name namespace data) tr e ->
(user_writes tr = [] /\ e <> None) \/
exists owner r, user_writes tr = [UwStore auth namespace owner data r] /\
  In (Act (Oa (UserGet auth KToken (mkKey namespace name))) (Ok owner)) tr /\ (e = None <-> r = None).
Proof.
intros H. unfold Upload in H. exec_steps. destruct x as [err|]; exec_steps; [by left|].
destruct x as [owner|err]; exec_steps; [|by left]. right. exists owner, x.
destruct x; exec_steps; (split; [done|]); (split; [cbn; tauto|done]).
Qed.

(** A branch that answers without any call *)
Ltac refuse H :=
destruct H as [-> ->]; eexists _, _; split; [reflexivity|]; split; [left; by split|done].

(** The upload over HTTP: every request gets exactly one response.  Token
  data is stored at most once, on behalf of the bearer of the request's
  token, for the token object that exists under the name and namespace of
  the route, and only if both are well-formed and the body decodes to that
  data with a non-empty access token; 204 is answered exactly when it was
  stored.  A request without a bearer token makes no call at all and gets
  401. *)
Theorem upload_handler_guarded name namespace r tr out :
exec (HandleUpload name namespace r) tr out ->
exists st body, out = [Respond st body] /\
((user_writes tr = [] /\ st <> StatusNoContent) \/
 exists auth owner data stored,
   user_writes tr = [UwStore auth namespace owner data stored] /\
   AuthFromRequest r = Ok auth /\ name <> "" /\ namespace <> "" /\
   IsValidLabelValue name = [] /\ IsDNS1123Label namespace = [] /\
   DecodeToken (rq_Body r) = Ok data /\ td_AccessToken data <> "" /\
   In (Act (Oa (UserGet auth KToken (mkKey namespace name))) (Ok owner)) tr /\
   (st = StatusNoContent <-> stored = None)) /\
(is_ok (AuthFromRequest r) = false -> tr = [] /\ st = StatusUnauthorized).
Proof.
intros H. unfold HandleUpload in H.
assert (forall err, exists st body, upload_failure err = Respond st body /\ st <> StatusNoContent) as Hf.
{ intros err. unfold upload_failure. destruct (ReasonForError err) as [[]|]; by repeat eexists. }
destruct (AuthFromRequest r) as [auth|err].
2: by refuse H.
destruct (String.length name <? 1)%nat eqn:En; [by refuse H|].
destruct (String.length namespace <? 1)%nat eqn:Ens; [by refuse H|].
cbn [orb] in H. apply Nat.ltb_ge in En, Ens.
destruct (IsValidLabelValue name) as [|? ?]; [|by refuse H].
destruct (IsDNS1123Label namespace) as [|? ?]; [|by refuse H].
destruct (DecodeToken _) as [data|?]; [|by refuse H].
destruct (String.eqb_spec (td_AccessToken data) "") as [|Ht]; [by refuse H|].
apply exec_bind in H as (e & tr1 & tr2 & -> & H1 & H2). apply Upload_exec in H1.
assert (exists st body, out = [Respond st body] /\ tr2 = [] /\ (st = StatusNoContent <-> e = None))
  as (st & body & -> & -> & Hst).
{ destruct e as [err|]; destruct H2 as [-> ->]; [|by repeat eexists].
  destruct (Hf err) as (st & body & -> & Hn). exists st, body. repeat split; done. }
exists st, body. rewrite app_nil_r. split; [done|]. split; [|done].
destruct H1 as [[Hw He]|(owner & stored & Hw & Hin & He)]; [left; tauto|].
right. exists auth, owner, data, stored.
assert (forall s : string, (1 <= String.length s)%nat -> s <> "") as Hs by (intros [] ?; [cbn in *; lia|done]).
split_and!; try done; [by apply Hs|by apply Hs|tauto].
Qed.

(** The writes of an attempt to update a remote secret *)
Definition attempt_write (auth : string) (key : ObjectKey) (data : gmap string string) (tr : list act)
(rs : RemoteSecret) (w : user_write) (r : res RemoteSecret) : Prop :=
w = UwUpdate auth KRemoteSecret (set_rs_StringUploadData data rs) r /\
In (Act (Oa (UserGet auth KRemoteSecret key)) (Ok rs)) tr.

Lemma attempt_exec auth key data tr e :
exec (upload_attempt auth key data) tr e ->
(user_writes tr = [] /\ exists err0 p, e = Some (Errorf_w p err0)) \/
exists rs r, user_writes tr = [UwUpdate auth KRemoteSecret (set_rs_StringUploadData data rs) r] /\
  In (Act (Oa (UserGet auth KRemoteSecret key)) (Ok rs)) tr /\
  e = match r with Ok _ => None | Err err => Some (Errorf_w "failed to persist token to RemoteSecret" err) end.
Proof.
intros H. unfold upload_attempt in H. exec_steps. destruct x as [rs|err]; exec_steps; [|left; eauto].
right. exists rs, x. destruct x; exec_steps; (split; [done|]); (split; [cbn; tauto|done]).
Qed.

(** All attempts but the last failed with a conflict; what the last one did *)
Definition retried (auth : string) (key : ObjectKey) (data : gmap string string) (bound : nat)
(tr : list act) (e : option goerr) : Prop :=
exists failed final, user_writes tr = failed ++ final /\ length failed < bound /\
  Forall (fun w => exists rs err, IsConflict err = true /\ attempt_write auth key data tr rs w (Err err)) failed /\
  match e with
  | None => exists rs rs' w, final = [w] /\ attempt_write auth key data tr rs w (Ok rs')
  | Some _ => final = [] \/ exists rs err w, final = [w] /\ attempt_write auth key data tr rs w (Err err)
  end.

Lemma attempt_write_app auth key data tr1 tr2 rs w r :
attempt_write auth key data tr1 rs w r \/ attempt_write auth key data tr2 rs w r ->
attempt_write auth key data (tr1 ++ tr2) rs w r.
Proof. unfold attempt_write. rewrite in_app_iff. tauto. Qed.

Lemma retried_last auth key data bound tr e :
0 < bound -> exec (upload_attempt auth key data) tr e -> retried auth key data bound tr e.
Proof.
intros Hb H%attempt_exec. exists [], (user_writes tr). split; [done|]. split; [done|]. split; [constructor|].
destruct H as [[-> (err0 & p & ->)]|(rs & r & -> & Hin & ->)]; [by left|].
destruct r as [rs'|err]; [exists rs, rs'|right; exists rs, err]; eexists; (split; [done|]); by split.
Qed.

Lemma retried_again auth key data bound tr1 tr2 err e :
exec (upload_attempt auth key data) tr1 (Some err) -> IsConflict err = true ->
retried auth key data bound tr2 e -> retried auth key data (S bound) (tr1 ++ tr2) e.
Proof.
intros H%attempt_exec Hc (failed & final & Hw & Hlen & Hf & He).
unfold retried. rewrite user_writes_app, Hw.
assert (Forall (fun w => exists rs err, IsConflict err = true /\
  attempt_write auth key data (tr1 ++ tr2) rs w (Err err)) failed) as Hf'.
{ eapply List.Forall_impl; [|exact Hf]. intros w (rs & err0 & H1 & H2). exists rs, err0.
  split; [done|]. apply attempt_write_app. by right. }
assert (match e with
  | None => exists rs rs' w, final = [w] /\ attempt_write auth key data (tr1 ++ tr2) rs w (Ok rs')
  | Some _ => final = [] \/ exists rs err w, final = [w] /\ attempt_write auth key data (tr1 ++ tr2) rs w (Err err)
  end) as He'.
{ destruct e; [destruct He as [->|(rs & err0 & w & -> & Ha)]; [by left|right; exists rs, err0, w]
              |destruct He as (rs & rs' & w & -> & Ha); exists rs, rs', w];
    (split; [done|]); apply attempt_write_app; by right. }
destruct H as [[-> _]|(rs & r & -> & Hin & Hr)].
- exists failed, final. split; [done|]. split; [lia|]. by split.
- destruct r as [|err1]; [done|]. injection Hr as ->. eexists (_ :: failed), final.
  split; [reflexivity|]. split; [cbn; lia|]. split; [|done]. constructor; [|done].
  exists rs, err1. split; [exact Hc|]. apply attempt_write_app. left. by split.
Qed.

Lemma retry_exec auth key data steps : forall tr e,
exec (RetryOnConflict steps (upload_attempt auth key data)) tr e ->
retried auth key data (Nat.max 1 steps) tr e.
Proof.
assert (forall n tr1 tr2 e1 e, 0 < n -> exec (upload_attempt auth key data) tr1 e1 ->
  exec (match e1 with None => Ret None | Some err => Ret (Some err) end) tr2 e ->
  retried auth key data n (tr1 ++ tr2) e) as Hstop.
{ intros n tr1 tr2 e1 e Hn H1 H2.
  assert (tr2 = [] /\ e = e1) as [-> ->] by (destruct e1; by destruct H2 as [-> ->]).
  rewrite app_nil_r. by apply retried_last. }
induction steps as [|[|n] IH]; intros tr e H; apply exec_bind in H as (e1 & tr1 & tr2 & -> & H1 & H2).
- eapply Hstop; [lia|exact H1|exact H2].
- eapply Hstop; [lia|exact H1|exact H2].
- destruct e1 as [err|]; [|by eapply (Hstop _ _ _ None); [lia|exact H1|]].
  destruct (IsConflict err) eqn:Ec; [|by eapply (Hstop _ _ _ (Some err)); [lia|exact H1|]].
  eapply retried_again; [exact H1|exact Ec|]. apply IH in H2. exact H2.
Qed.

Lemma rs_sync_exec x tr e :
exec (rs_syncTokenData x) tr e ->
retried (ex_authorizationHeader x) (mkKey (ex_ObjectNamespace x) (ex_ObjectName x))
  (upload_data (ex_token x)) (Nat.max 1 DefaultRetry_Steps) tr e.
Proof.
intros H. unfold retried.
unfold rs_syncTokenData in H. unfold call at 1 in H. cbn [bind] in H. destruct H as (c & tr1 & -> & H).
rewrite user_writes_cons. cbn [obs_user act_ev act_res]. destruct c as [err|].
- destruct H as [-> ->]. exists [], []. split; [done|]. split; [cbn; lia|]. split; [constructor|by left].
- apply exec_bind in H as (e1 & tr2 & tr3 & -> & H1 & H2). apply retry_exec in H1. unfold retried in H1.
  assert (tr3 = [] /\ (e = None <-> e1 = None)) as [-> He] by (destruct e1; destruct H2 as [-> ->]; by split).
  rewrite app_nil_r. destruct H1 as (failed & final & -> & Hlen & Hf & Hfin).
  assert (forall rs w r, attempt_write (ex_authorizationHeader x) (mkKey (ex_ObjectNamespace x) (ex_ObjectName x))
    (upload_data (ex_token x)) tr2 rs w r -> attempt_write (ex_authorizationHeader x)
    (mkKey (ex_ObjectNamespace x) (ex_ObjectName x)) (upload_data (ex_token x))
    (Act (Oa (CreateUserClient (ex_authorizationHeader x) (ex_ObjectNamespace x))) None :: tr2) rs w r) as Hm
    by (intros rs w r [-> Hin]; split; [done|by right]).
  exists failed, final. split; [done|]. split; [done|]. split.
  + eapply List.Forall_impl; [|exact Hf]. intros w (rs & err & H3 & H4). exists rs, err. auto.
  + destruct e, e1; try (exfalso; naive_solver); naive_solver.
Qed.

(** Saving a token in a remote secret, on every schedule of conflicting
  writers: each write is made on behalf of the user, puts the data of this
  exchange into a version of the remote secret that was just read, and all
  writes but the last failed with a conflict; there are at most as many as
  the retry policy has steps.  Success is reported exactly when the last
  write succeeded.  The data are the access token as the password, a fixed
  user name, the token type and the expiry in seconds; the refresh token is
  not among them. *)
Theorem rs_sync_bounded x tr e :
exec (rs_syncTokenData x) tr e ->
(exists failed final, user_writes tr = failed ++ final /\ length failed < Nat.max 1 DefaultRetry_Steps /\
  Forall (fun w => exists rs err, IsConflict err = true /\
    attempt_write (ex_authorizationHeader x) (mkKey (ex_ObjectNamespace x) (ex_ObjectName x))
      (upload_data (ex_token x)) tr rs w (Err err)) failed /\
  match e with
  | None => exists rs rs' w, final = [w] /\
      attempt_write (ex_authorizationHeader x) (mkKey (ex_ObjectNamespace x) (ex_ObjectName x))
        (upload_data (ex_token x)) tr rs w (Ok rs')
  | Some _ => final = [] \/ exists rs err w, final = [w] /\
      attempt_write (ex_authorizationHeader x) (mkKey (ex_ObjectNamespace x) (ex_ObjectName x))
        (upload_data (ex_token x)) tr rs w (Err err)
  end) /\
upload_data (ex_token x) !! "password" = Some (ot_AccessToken (ex_token x)) /\
(forall k v, upload_data (ex_token x) !! k = Some v -> In k ["password"; "username"; "tokenType"; "expiry"]) /\
(forall refresh, upload_data (mkOAuth2Token (ot_AccessToken (ex_token x)) (ot_TokenType (ex_token x)) refresh
   (ot_Expiry (ex_token x))) = upload_data (ex_token x)).
Proof.
intros H. split.
2: { split; [done|]. split; [|done]. intros k v Hv. unfold upload_data in Hv.
     repeat (apply lookup_insert_Some in Hv as [[<- _]|[_ Hv]]; [cbn; tauto|]).
     apply lookup_singleton_Some in Hv as [<- _]. cbn. tauto. }
exact (rs_sync_exec x tr e H).
Qed.

(** What the strategies write, without its number *)
Lemma syncTokenData_exec s x tr e :
exec (syncTokenData s x) tr e ->
Forall (fun w =>
  match w with
  | UwStore auth ns owner t _ => auth = ex_authorizationHeader x /\ ns = ex_ObjectNamespace x /\
      t = api_token (ex_token x) /\
      In (Act (Oa (UserGet auth KToken (mkKey ns (ex_ObjectName x)))) (Ok owner)) tr
  | UwUpdate _ _ _ _ => exists rs r,
      attempt_write (ex_authorizationHeader x) (mkKey (ex_ObjectNamespace x) (ex_ObjectName x))
        (upload_data (ex_token x)) tr rs w r
  end) (user_writes tr).
Proof.
destruct s; intros H.
- cbn in H. unfold spi_syncTokenData in H. exec_steps. destruct x0; exec_steps; [constructor|].
  destruct x0 as [owner|err]; exec_steps; [|constructor].
  destruct x0; exec_steps; repeat constructor; cbn; tauto.
- apply rs_sync_exec in H as (failed & final & -> & _ & Hf & Hfin). apply Forall_app. split.
  + eapply List.Forall_impl; [|exact Hf]. intros w (rs & err & _ & Ha). pose proof Ha as [-> _]. by exists rs, (Err err).
  + destruct e; [destruct Hfin as [->|(rs & err & w & -> & Ha)]; [constructor|]|destruct Hfin as (rs & rs' & w & -> & Ha)];
      (constructor; [|constructor]); pose proof Ha as [-> _]; eauto.
Qed.
End storing.

(** ** A concrete service, and the witnesses *)

#[export] Instance sample_oauth_externals : OAuthExternals := {|
  AuthCodeURL := fun c redirect scopes state =>
    AuthURL (oc_Endpoint c) +:+ "?client_id=" +:+ oc_ClientID c +:+ "&redirect_uri=" +:+ QueryEscape redirect
      +:+ "&scope=" +:+ QueryEscape (Join scopes " ") +:+ "&state=" +:+ QueryEscape state;
  rs_Group := "appstudio.redhat.com"; rs_Version := "v1beta1"; DefaultRetry_Steps := 5;
  IsValidLabelValue := fun s => if (63 <? String.length s)%nat then ["too long"] else [];
  IsDNS1123Label := fun s => if (63 <? String.length s)%nat then ["too long"] else [];
  DecodeToken := fun body => if String.eqb body "" then Err noBearerTokenError else Ok (mkToken "alois" body "" "" 0) |}.

(** One browser session and the controllers, with every write and review
    granted *)
Definition session_world : Type := gmap string session_value * gmap string SyncStrategy.
Definition serve : handler session_world := fun T e =>
  match e in Ev T return session_world -> session_world * T with
  | Oa oe =>
      match oe in OauthE T return session_world -> session_world * T with
      | SetSyncStrategy n st => fun w => ((w.1, <[n := st]> w.2), tt)
      | GetSyncStrategy n => fun w => (w, default SpiSync (w.2 !! n))
      | SessGet k => fun w => (w, w.1 !! k)
      | SessPut k v => fun w => ((<[k := v]> w.1, w.2), tt)
      | SessDestroy => fun w => ((∅, w.2), None)
      | UserGet _ k _ => fun w =>
          (w, match k return res (obj k) with
              | KToken => Ok (sample_token "obj" "" None)
              | KRemoteSecret => Ok (mkRemoteSecret "RemoteSecret" (sample_meta "obj") "Opaque" ∅ [] [] [])
              | _ => Err not_found
              end)
      | other => fun w => (w, (scripted empty_script _ (Oa other) tt).2)
      end
  | other => fun w => (w, (scripted empty_script _ other tt).2)
  end.
Definition serve_trace {A} (p : prog A) (w : session_world) : list act := (run_trace serve p w).1.1.
Definition serve_result {A} (p : prog A) (w : session_world) : A := (run_trace serve p w).1.2.

Definition serve_session {A} (p : prog A) (w : session_world) : gmap string session_value := (run_trace serve p w).2.1.

Lemma serve_step X (e : Ev X) w : Session.step w.1 (Act e (serve X e w).2) (serve X e w).1.1.
Proof. destruct e; try (match goal with e : OauthE _ |- _ => destruct e end); reflexivity || by split. Qed.

Lemma serve_session_run {A} (p : prog A) : forall w, Session.run w.1 (serve_trace p w) (serve_session p w).
Proof.
  unfold serve_trace, serve_session. induction p as [a|X e k IH]; intros w; cbn; [done|].
  pose proof (serve_step X e w) as Hs. destruct (serve X e w) as [w1 x]. specialize (IH x w1).
  destruct (run_trace serve (k x) w1) as [[tr a] w2]. exists w1.1. split; [exact Hs|exact IH].
Qed.

Lemma veil_unveil_witness :
  let r := mkRequest [("state", "s3cret")] [] "" "" in
  let w : session_world := ({[ "k8s_token" := SessString "t0ken" ]}, ∅) in
  let veil := "aaaaaaaaaaaaaaaaaaaaaaaaaaaaaaaa" in
  let r2 := mkRequest [("state", veil)] [] "" "" in
  let w1 : session_world := (serve_session (VeilRealState r) w, ∅) in
  String.length veil = 32 /\ serve_result (UnveilState r2) w1 = Ok "s3cret".
Proof.
  intros r w veil r2 w1.
  edestruct (veil_unveil r (serve_trace (VeilRealState r) w) veil w.1 w1.1 w1.1 r2
    (serve_trace (UnveilState r2) w1) (serve_result (UnveilState r2) w1) (serve_session (UnveilState r2) w1)
    (serve_trace (StateVeiledAt r2) w1) (serve_result (StateVeiledAt r2) w1) (serve_session (StateVeiledAt r2) w1))
    as (H1 & _ & _ & _ & H2 & _).
  - apply (run_trace_exec serve (VeilRealState r) w).
  - apply serve_session_run.
  - apply run_trace_exec.
  - apply serve_session_run.
  - apply run_trace_exec.
  - apply serve_session_run.
  - destruct (H2 eq_refl eq_refl eq_refl) as (H3 & _). split; [exact H1|]. exact H3.
Defined.

Lemma upload_handler_guarded_witness :
  let r := mkRequest [] [] "Bearer t0ken" "d4ta" in
  exists st body, serve_result (HandleUpload "obj" "ns" r) (∅, ∅) = [Respond st body] /\ st = StatusNoContent.
Proof.
  intros r.
  edestruct (upload_handler_guarded "obj" "ns" r (serve_trace (HandleUpload "obj" "ns" r) (∅, ∅)))
    as (st & body & H1 & H2 & _); [apply (run_trace_exec serve)|].
  exists st, body. split; [exact H1|]. vm_compute in H1. injection H1 as <- _. reflexivity.
Defined.

Lemma rs_sync_bounded_witness :
  let x := mkExchange "obj" "ns" (mkOAuth2Token "access" "bearer" "refresh" 0) "t0ken" in
  length (user_writes (serve_trace (rs_syncTokenData x) (∅, ∅))) = 1 /\
  upload_data (ex_token x) !! "password" = Some "access".
Proof.
  intros x. split; [vm_compute; reflexivity|].
  exact (proj1 (proj2 (rs_sync_bounded x _ _ (run_trace_exec serve (rs_syncTokenData x) (∅, ∅))))).
Defined.
