(* ===== verification/OAuthService.v ===== *)
(** * oauth/: the router and the controllers of the OAuth flow

    router.go, controller.go, common.go and oauth_config.go.  The router holds
    one controller per service provider type; handling a request reads and
    writes what all requests share: the synchronization strategy of the
    controller and the scopes of a global OAuth configuration are calls
    ([SetSyncStrategy], [GetSyncStrategy], [SetScopes], [GetScopes]) whose
    answers may be influenced by other requests.  [Concurrent] runs two
    requests against one shared state under any schedule. *)

From S2P Require Import Prelude GoStd GoUrl GoJson GoUnmarshal GoBase64 Api Externals SpErrors OAuthState Effects Samples SpConfig OAuthSync.
Local Open Scope string_scope.
Local Open Scope list_scope.
Local Open Scope spi_scope.

Definition spiAccessTokenKind := "SPIAccessToken".
Definition remoteSecretKind := "RemoteSecret".
Definition errUnknownServiceProviderType : goerr := ErrorString "unknown service provider type".
Definition errUnknownObjectKind : goerr := ErrorString "unknown object kind for which OAuth flow is requested".
Definition noActiveSessionError : goerr := ErrorString "no active oauth session found".
Definition errNoOAuthConfiguration : goerr := ErrorString "no OAuth configuration found for the service provider".
Definition errConfigNoOAuth : goerr :=
  ErrorString "found sp configuration has no OAuth information. This should never happen, because Operator should find same configuration and thus not generate OAuth URL and we should not get to the OAuth service at all".
Definition errMultipleConfigsForSameHost : goerr :=
  ErrorString "failed to initialize - multiple configurations for one service provider host".


Record OAuthServiceConfiguration := mkServiceConfig {
  osc_Shared : SharedConfiguration; osc_RedirectProxyUrl : string }.

(** [fmt.Errorf("%w: ...", sentinel)] *)
Definition Errorf_sentinel (e : goerr) (rest : string) : goerr := WrapError (Error e +:+ rest) e.

(** ** controller.go: the configurations of one type must have distinct hosts *)

Fixpoint check_hosts (spType : ServiceProviderType) (seen : list string) (sps : list ServiceProviderConfiguration)
  : option goerr :=
  match sps with
  | [] => None
  | sp :: rest =>
      if negb (String.eqb (spt_Name (spc_Type sp)) (spt_Name spType)) then check_hosts spType seen rest
      else
        match (if String.eqb (spc_BaseUrl sp) "" then Ok (spt_DefaultHost spType)
               else match Parse (spc_BaseUrl sp) with Ok u => Ok (Host u) | Err err => Err err end) with
        | Err err => Some (Errorf_w "failed to parse service provider url" err)
        | Ok spHost =>
            if existsb (String.eqb spHost) seen then
              Some (Errorf_sentinel errMultipleConfigsForSameHost
                      (" '" +:+ spt_Name spType +:+ "' base url '" +:+ spHost +:+ "'"))
            else check_hosts spType (spHost :: seen) rest
        end
  end.

(** InitController: the controller of a type is determined by the type. *)
Definition InitController (cfg : OAuthServiceConfiguration) (spType : ServiceProviderType) : res ServiceProviderType :=
  match check_hosts spType [] (sc_ServiceProviders (osc_Shared cfg)) with
  | Some err => Err err
  | None => Ok spType
  end.

(** NewRouter: the types with a controller *)
Fixpoint NewRouter (cfg : OAuthServiceConfiguration) (spDefaults : list ServiceProviderType)
  : res (list ServiceProviderType) :=
  match spDefaults with
  | [] => Ok []
  | sp :: rest =>
      match InitController cfg sp with
      | Err err => Err (Errorf_w ("failed to initialize controller '" +:+ spt_Name sp +:+ "'") err)
      | Ok c => let? cs := NewRouter cfg rest in Ok (c :: cs)
      end
  end.

Section service.
Context {X : Externals} {E : OAuthExternals} (cfg : OAuthServiceConfiguration).

(** ** oauth_config.go *)

(** The OAuth configuration of a user's secret is made for the request, that
  of the global configuration is shared by all requests. *)
Inductive config_ref := UserConfig (c : OAuth2Config) | GlobalConfig (c : OAuth2Config).

Definition own_callback : string := TrimSuffix (sc_BaseUrl (osc_Shared cfg)) "/" +:+ CallBackRoutePath.
Definition redirectUrl : string :=
if negb (String.eqb (osc_RedirectProxyUrl cfg) "") then osc_RedirectProxyUrl cfg else own_callback.

Definition obtainOauthConfig (spType : ServiceProviderType) (info : OAuthInfo) : prog (res config_ref) :=
match Parse (oi_ServiceProviderUrl info) with
| Err err => Ret (Err (Errorf_w "failed to parse serviceprovider url" err))
| Ok spUrl =>
    let! u := SpConfigFromUserSecret (oi_ObjectNamespace info) spType spUrl in
    match u with
    | Err err => Ret (Err (Errorf_w "failed to create service provider config from user config secret" err))
    | Ok (Some spConfig) =>
        match spc_OAuth2Config spConfig with
        | None => Ret (Err (Errorf_w "user config error" errConfigNoOAuth))
        | Some c => Ret (Ok (UserConfig c))
        end
    | Ok None =>
        match SpConfigFromGlobalConfig (osc_Shared cfg) spType (GetBaseUrl (Some spUrl)) with
        | Some g =>
            match spc_OAuth2Config g with
            | None => Ret (Err (Errorf_w "global config error" errConfigNoOAuth))
            | Some c => Ret (Ok (GlobalConfig c))
            end
        | None =>
            Ret (Err (Errorf_sentinel errNoOAuthConfiguration
              (" '" +:+ oi_ServiceProviderName info +:+ "' url: '" +:+ oi_ServiceProviderUrl info +:+ "'")))
        end
    end
end.

Definition ref_config (r : config_ref) : OAuth2Config := match r with UserConfig c | GlobalConfig c => c end.

(** [oauthCfg.Scopes = scopes] and the later read of the scopes *)
Definition set_scopes (r : config_ref) (scopes : list string) : prog (list string) :=
match r with
| UserConfig _ => Ret scopes
| GlobalConfig c =>
    let! _ := call (Oa (SetScopes c scopes)) in
    call (Oa (GetScopes c))
end.

(** ** common.go: Authenticate *)

(** The state parameter for the provider, with the callback when redirected
  through a proxy ([url.Values.Encode] sorts by name) *)
Definition outer_state (newState : string) : string :=
if negb (String.eqb (osc_RedirectProxyUrl cfg) "") then
  "callback=" +:+ QueryEscape own_callback +:+ "&state=" +:+ QueryEscape newState
else newState.

(** After a successful veiling *)
Definition render_redirect (spType : ServiceProviderType) (state : OAuthInfo) (newState : string)
: prog (list response) :=
let! o := obtainOauthConfig spType state in
match o with
| Err _ => Ret [Respond StatusInternalServerError "failed to create oauth confgiuration"]
| Ok ref =>
    let! scopes := set_scopes ref (default [] (oi_Scopes state)) in
    let url := AuthCodeURL (ref_config ref) redirectUrl scopes (outer_state newState) in
    let! e := call (Oa (RenderRedirect url)) in
    match e with
    | Some _ => Ret [Respond StatusInternalServerError "failed to return redirect notice HTML page"]
    | None => Ret [RedirectNotice url]
    end
end.

Definition Authenticate (spType : ServiceProviderType) (r : Request) (state : OAuthInfo) : prog (list response) :=
let! t := GetToken r in
match t with
| Err _ =>
    Ret [Respond StatusUnauthorized "No active session was found. Please use `/login` method to authorize your request and try again. Or provide the token as a `k8s_token` POST form body parameter."]
| Ok token =>
    let! s := call (Oa (GetSyncStrategy (spt_Name spType))) in
    let! a := checkIdentityHasAccess s token (oi_ObjectNamespace state) in
    match a with
    | Err _ => Ret [Respond StatusInternalServerError "failed to determine if the authenticated user has access"]
    | Ok false => Ret [Respond StatusUnauthorized "authenticating the request in Kubernetes unsuccessful"]
    | Ok true =>
        let! v := VeilRealState r in
        match v with
        | Err err => Ret [Respond StatusBadRequest (Error err)]
        | Ok newState => render_redirect spType state newState
        end
    end
end.

(** ** common.go: Callback *)

Inductive oauthFinishResult := oauthFinishAuthenticated | oauthFinishK8sAuthRequired | oauthFinishError.

(** What finishOAuthExchange returns: the kind of result, the exchange with
  the state it was made for when there is one, and the error *)
Record exchangeResult := mkExchangeResult {
er_result : oauthFinishResult; er_exchange : option (OAuthInfo * Exchange) }.

Definition finishOAuthExchange (spType : ServiceProviderType) (r : Request) (state : OAuthInfo)
: prog (exchangeResult * option goerr) :=
let fail k err := Ret (mkExchangeResult k None, Some err) in
let! u := UnveilState r in
match u with
| Err err => fail oauthFinishError (Errorf_w "failed to unveil token state" err)
| Ok stateString =>
    match ParseInto stateString state with
    | Err err => fail oauthFinishError (Errorf_w "failed to parse JWT state string" err)
    | Ok state =>
        let! t := GetTokenFromSession in
        match t with
        | Err _ => fail oauthFinishK8sAuthRequired noActiveSessionError
        | Ok k8sToken =>
            let! o := obtainOauthConfig spType state in
            match o with
            | Err err => fail oauthFinishError (Errorf_w "failed to obtain oauth configuration" err)
            | Ok ref =>
                let! x := call (Oa (ExchangeCode (ref_config ref) redirectUrl (FormValue r "code") (FormValue r "scope"))) in
                match x with
                | Err err => fail oauthFinishError (Errorf_w "failed to finish the OAuth exchange" err)
                | Ok token =>
                    Ret (mkExchangeResult oauthFinishAuthenticated
                           (Some (state, mkExchange (oi_ObjectName state) (oi_ObjectNamespace state) token k8sToken)), None)
                end
            end
        end
    end
end.

Definition Callback (spType : ServiceProviderType) (r : Request) (state : OAuthInfo) : prog (list response) :=
let! (exchange, err) := finishOAuthExchange spType r state in
match err with
| Some _ => Ret [Respond StatusBadRequest "error in Service Provider token exchange"]
| None =>
    match er_result exchange, er_exchange exchange with
    | oauthFinishK8sAuthRequired, _ => Ret [Respond StatusUnauthorized "could not authenticate to Kubernetes"]
    | _, None => Ret []
    | _, Some (_, x) =>
        let! s := call (Oa (GetSyncStrategy (spt_Name spType))) in
        let! e := syncTokenData s x in
        match e with
        | Some _ => Ret [Respond StatusInternalServerError "failed to store token data to cluster"]
        | None =>
            Ret [RedirectTo (TrimSuffix (sc_BaseUrl (osc_Shared cfg)) "/" +:+ "/" +:+ "callback_success") StatusFound]
        end
    end
end.

(** ** router.go *)

(** The strategy for the kind of object a state names *)
Definition strategy_of_kind (kind : string) : option SyncStrategy :=
if String.eqb kind remoteSecretKind then Some RsSync
else if String.eqb kind spiAccessTokenKind then Some SpiSync else None.

Definition findController (controllers : list ServiceProviderType) (r : Request) (veiled : bool)
: prog (res (ServiceProviderType * OAuthInfo)) :=
let! s :=
  if veiled then
    let! u := UnveilState r in
    Ret (map_err (Errorf_w "unknown or invalid state") u)
  else Ret (Ok (FormValue r "state")) in
match s with
| Err err => Ret (Err err)
| Ok stateString =>
    match ParseInto stateString empty_info with
    | Err err => Ret (Err (Errorf_w "failed to parse state string" err))
    | Ok state =>
        match List.find (spt_is (oi_ServiceProviderName state)) controllers with
        | None =>
            Ret (Err (Errorf_sentinel errUnknownServiceProviderType
              (": type '" +:+ oi_ServiceProviderName state +:+ "', base URL '" +:+ oi_ServiceProviderUrl state
               +:+ "', state parameter: " +:+ stateString)))
        | Some controller =>
            match strategy_of_kind (oi_ObjectKind state) with
            | None =>
                Ret (Err (Errorf_sentinel errUnknownObjectKind (": kind '" +:+ oi_ObjectKind state +:+ "'")))
            | Some strategy =>
                let! _ := call (Oa (SetSyncStrategy (spt_Name controller) strategy)) in
                Ret (Ok (controller, state))
            end
        end
    end
end.

Definition not_found_response : response := Respond StatusBadRequest "failed to find the service provider".

(** Without the observation of the duration of the flow *)
Definition Callback_ServeHTTP (controllers : list ServiceProviderType) (r : Request) : prog (list response) :=
let! f := findController controllers r true in
match f with
| Err _ => Ret [not_found_response]
| Ok (ctrl, state) =>
    let! written := Callback ctrl r state in
    let! v := StateVeiledAt r in
    match v with
    | Err _ => Ret (written ++ [not_found_response])
    | Ok _ => Ret written
    end
end.

Definition Authenticate_ServeHTTP (controllers : list ServiceProviderType) (r : Request) : prog (list response) :=
let! f := findController controllers r false in
match f with
| Err _ => Ret [not_found_response]
| Ok (ctrl, state) => Authenticate ctrl r state
end.
End service.

(** ** Lemmas on the parts of the handlers *)

(** The reviews a strategy makes before it trusts the bearer of [auth] *)
Definition granted {E : OAuthExternals} (s : SyncStrategy) (auth ns : string) (tr : list act) : Prop :=
  match s with
  | SpiSync =>
      In (Act (Oa (AccessReview auth ns "create" GroupVersion_Group GroupVersion_Version "spiaccesstokendataupdates")) (Ok true)) tr
  | RsSync =>
      In (Act (Oa (AccessReview auth ns "get" rs_Group rs_Version "remotesecrets")) (Ok true)) tr /\
      In (Act (Oa (AccessReview auth ns "update" rs_Group rs_Version "remotesecrets")) (Ok true)) tr
  end.

(** The bearer token of a request: from its form, remembered in the session,
    or from the session *)
Definition user_token (r : Request) (auth : string) (tr : list act) : Prop :=
  auth <> "" /\
  (auth = PostFormValue r k8sTokenParameterKey \/
   In (Act (Oa (SessGet k8sTokenParameterKey)) (Some (SessString auth))) tr).

(** Calls that write nothing on behalf of a user, exchange no code and show
    no redirect *)
Definition harmless (a : act) : Prop :=
  match act_ev a in Ev X return X -> Prop with
  | Oa e =>
      match e in OauthE X return X -> Prop with
      | UserUpdate _ _ _ => fun _ => False
      | UserStore _ _ _ _ => fun _ => False
      | ExchangeCode _ _ _ _ => fun _ => False
      | _ => fun _ => True
      end
  | _ => fun _ => True
  end (act_res a).

Lemma harmless_user_writes tr : Forall harmless tr -> user_writes tr = [].
Proof.
  induction 1 as [|a tr Ha _ IH]; [done|]. rewrite user_writes_cons, IH.
  destruct a as [T [] x]; try done. cbn in *. by destruct e.
Qed.

Lemma GetToken_exec r tr auth : exec (GetToken r) tr (Ok auth) -> user_token r auth tr.
Proof.
  intros H. unfold GetToken, GetString in H. unfold user_token.
  destruct (String.eqb_spec (PostFormValue r k8sTokenParameterKey) "") as [E|E]; exec_steps.
  - destruct x as [[s|n]|]; cbn in H; try (by destruct H as [_ H]).
    destruct (String.eqb_spec s ""); exec_steps. split; [done|]. right. by left.
  - destruct (String.eqb_spec (PostFormValue r k8sTokenParameterKey) ""); exec_steps. split; [done|by left].
Qed.

(** The empty string, which unveiling answers for unknown names, is no state. *)
Lemma ParseInto_empty d : ParseInto "" d = Err (Errorf_w "failed to unmarshal the state JSON" jsonSyntaxError).
Proof. reflexivity. Qed.

Section lemmas.
Context {X : Externals} {E : OAuthExternals} (cfg : OAuthServiceConfiguration).

Lemma check_granted s auth ns tr :
exec (checkIdentityHasAccess s auth ns) tr (Ok true) -> granted s auth ns tr.
Proof.
intros H. destruct s; cbn [checkIdentityHasAccess] in H;
  unfold spi_checkIdentityHasAccess, rs_checkIdentityHasAccess in H; exec_steps;
  (destruct x as [err|]; [by exec_steps|]); exec_steps.
- destruct x as [b|err]; [|discriminate H]. apply Ok_inj in H. subst b. cbn. tauto.
- destruct x as [[]|err]; exec_steps. destruct x as [b|err]; [|discriminate H]. apply Ok_inj in H. subst b. cbn. tauto.
Qed.

Lemma VeilRealState_puts r tr veil :
exec (VeilRealState r) tr (Ok veil) ->
Query_Get r "state" <> "" /\ In (Act (Oa (SessPut veil (SessString (Query_Get r "state")))) tt) tr.
Proof.
intros H. unfold VeilRealState in H.
destruct (String.eqb_spec (Query_Get r "state") "") as [|Hne]; [by destruct H as [_ H]|].
apply exec_bind in H as (v & tr1 & tr2 & -> & H1 & H2). destruct v as [v|err]; exec_steps.
split; [done|]. destruct x. apply in_app_iff. right. by left.
Qed.

Lemma render_redirect_exec spType state veil tr out :
exec (render_redirect cfg spType state veil) tr out ->
(exists body, out = [Respond StatusInternalServerError body]) \/
exists c scopes, out = [RedirectNotice (AuthCodeURL c (redirectUrl cfg) scopes (outer_state cfg veil))].
Proof.
intros (o & tr1 & tr2 & -> & _ & H)%exec_bind. destruct o as [ref|err]; [|destruct H as [-> ->]; left; eauto].
apply exec_bind in H as (scopes & tr3 & tr4 & -> & _ & H). exec_steps.
destruct x as [err|]; exec_steps; [left|right]; eauto.
Qed.

(** What a found controller says about the request *)
Lemma findController_exec controllers r veiled tr ctrl state :
exec (findController controllers r veiled) tr (Ok (ctrl, state)) ->
exists stateString strategy,
  ParseInto stateString empty_info = Ok state /\
  In ctrl controllers /\ spt_Name ctrl = oi_ServiceProviderName state /\
  strategy_of_kind (oi_ObjectKind state) = Some strategy /\
  (if veiled : bool then exists v, tr = [Act (Oa (SessGet (Query_Get r "state"))) v;
                                 Act (Oa (SetSyncStrategy (spt_Name ctrl) strategy)) tt] /\
                    stateString = match v with Some (SessString s) => s | _ => "" end
   else tr = [Act (Oa (SetSyncStrategy (spt_Name ctrl) strategy)) tt] /\ stateString = FormValue r "state").
Proof.
intros (s & tr1 & tr2 & -> & H1 & H)%exec_bind. destruct s as [stateString|err]; [|by destruct H as [_ H]].
destruct (ParseInto stateString empty_info) as [st|err] eqn:Ep; [|by destruct H as [_ H]].
destruct (List.find _ controllers) as [c|] eqn:Ec; [|by destruct H as [_ H]].
destruct (strategy_of_kind (oi_ObjectKind st)) as [strategy|] eqn:Es; [|by destruct H as [_ H]].
exec_steps. injection H as -> ->. apply find_some in Ec as [Hin Hname]. apply String.eqb_eq in Hname.
exists stateString, strategy. destruct x. split_and!; try done.
destruct veiled; [|by destruct H1 as [-> H1]; apply Ok_inj in H1; subst].
unfold UnveilState, GetString in H1. destruct (String.eqb _ _); exec_steps.
eexists. by split.
Qed.

Lemma findController_harmless controllers r veiled :
sat harmless (fun _ => True) (findController controllers r veiled).
Proof. unfold findController, UnveilState, GetString. repeat (sat_step || sat_seq); done. Qed.

Lemma obtain_harmless spType info : sat harmless (fun _ => True) (obtainOauthConfig cfg spType info).
Proof.
unfold obtainOauthConfig, SpConfigFromUserSecret, findUserServiceProviderConfigSecret.
repeat (sat_step || sat_seq); done.
Qed.

(** The successful exchange: what it was made from *)
Lemma finish_exec spType r state tr er err :
exec (finishOAuthExchange cfg spType r state) tr (er, err) ->
match err with
| Some _ => user_writes tr = []
| None => exists stateString info auth token c,
    er = mkExchangeResult oauthFinishAuthenticated
           (Some (info, mkExchange (oi_ObjectName info) (oi_ObjectNamespace info) token auth)) /\
    user_writes tr = [] /\
    In (Act (Oa (SessGet (Query_Get r "state"))) (Some (SessString stateString))) tr /\
    ParseInto stateString state = Ok info /\
    auth <> "" /\ In (Act (Oa (SessGet k8sTokenParameterKey)) (Some (SessString auth))) tr /\
    In (Act (Oa (ExchangeCode c (redirectUrl cfg) (FormValue r "code") (FormValue r "scope"))) (Ok token)) tr
end.
Proof.
intros H. unfold finishOAuthExchange, UnveilState, GetTokenFromSession, GetString in H.
destruct (String.eqb (Query_Get r "state") ""); [by destruct H as [-> [= -> ->]]|].
cbn [bind] in H. unfold call at 1 in H. cbn [bind] in H. destruct H as (v & tr1 & -> & H).
destruct (ParseInto _ state) as [info|perr] eqn:Ep; [|by destruct H as [-> [= -> ->]]].
unfold call at 1 in H. cbn [bind] in H. destruct H as (w & tr2 & -> & H).
destruct (String.eqb_spec (match w with Some (SessString s) => s | _ => "" end) "") as [|Hne];
  [by destruct H as [-> [= -> ->]]|].
destruct w as [[auth|n]|]; try done. cbn [bind] in H.
apply exec_bind in H as (o & tr3 & tr4 & -> & H1 & H).
apply obtain_harmless in H1 as [H1%harmless_user_writes _].
rewrite !user_writes_cons, user_writes_app, H1. cbn [obs_user act_ev act_res app].
destruct o as [ref|oerr]; [|by destruct H as [-> [= -> ->]]].
unfold call in H. cbn [bind] in H. destruct H as (x & tr5 & -> & H).
destruct x as [token|xerr]; destruct H as [-> [= -> ->]]; [|done].
eexists _, info, auth, token, _. split; [reflexivity|]. split; [done|].
split; [|split; [exact Ep|split; [exact Hne|split; [by right; left|]]]].
2: { right; right. apply in_app_iff. right. by left. }
left. destruct v as [[s|n]|]; [done|by rewrite ParseInto_empty in Ep..].
Qed.

(** What the callback of a found controller writes *)
Definition stores_for (r : Request) (state : OAuthInfo) (tr : list act) (w : user_write) : Prop :=
exists stateString info auth token c,
  In (Act (Oa (SessGet (Query_Get r "state"))) (Some (SessString stateString))) tr /\
  ParseInto stateString state = Ok info /\
  auth <> "" /\ In (Act (Oa (SessGet k8sTokenParameterKey)) (Some (SessString auth))) tr /\
  In (Act (Oa (ExchangeCode c (redirectUrl cfg) (FormValue r "code") (FormValue r "scope"))) (Ok token)) tr /\
  match w with
  | UwStore a ns owner t _ =>
      a = auth /\ ns = oi_ObjectNamespace info /\ t = api_token token /\
      In (Act (Oa (UserGet auth KToken (mkKey ns (oi_ObjectName info)))) (Ok owner)) tr
  | UwUpdate _ _ _ _ => exists rs res,
      attempt_write auth (mkKey (oi_ObjectNamespace info) (oi_ObjectName info)) (upload_data token) tr rs w res
  end.

Lemma Callback_exec spType r state tr out :
exec (Callback cfg spType r state) tr out -> Forall (stores_for r state tr) (user_writes tr).
Proof.
intros ([er err] & tr1 & tr2 & -> & H1 & H)%exec_bind. apply finish_exec in H1.
destruct err as [err|]; [destruct H as [-> ->]; rewrite app_nil_r, H1; constructor|].
destruct H1 as (s & info & auth & token & c & -> & Hw & Hs & Hp & Hne & Ha & Hx).
cbn [er_result er_exchange] in H. unfold call at 1 in H. cbn [bind] in H. destruct H as (strategy & tr3 & -> & H).
apply exec_bind in H as (e & tr4 & tr5 & -> & H1 & H).
assert (tr5 = []) as -> by (destruct e; by destruct H as [-> _]).
apply syncTokenData_exec in H1. rewrite app_nil_r, user_writes_app, user_writes_cons, Hw. cbn [obs_user act_ev act_res app].
eapply List.Forall_impl; [|exact H1]. cbn [ex_authorizationHeader ex_ObjectNamespace ex_ObjectName ex_token].
intros w Hw'. exists s, info, auth, token, c. repeat rewrite in_app_iff. split_and!; try tauto.
destruct w as [a k o res|a ns owner t res].
- destruct Hw' as (rs & res' & Hw'). exists rs, res'. apply attempt_write_app. right.
  destruct Hw' as [-> Hin]. split; [done|by right].
- destruct Hw' as (-> & -> & -> & Hin). split_and!; try done. apply in_app_iff. right. by right.
Qed.
End lemmas.


(** ** Properties *)

Section properties.
Context {X : Externals} {E : OAuthExternals} (cfg : OAuthServiceConfiguration).

Lemma FormValue_query r k :
(forall v, ~ In (k, v) (rq_PostForm r)) -> FormValue r k = Query_Get r k.
Proof.
intros H. unfold FormValue, Query_Get, values_Get. induction (rq_PostForm r) as [|[k' v'] l IH]; [done|].
cbn. destruct (String.eqb_spec k' k) as [->|]; [by destruct (H v'); left|].
apply IH. intros v Hv. apply (H v). by right.
Qed.

Lemma Authenticate_exec spType r state tr out url :
exec (Authenticate cfg spType r state) tr out -> In (RedirectNotice url) out ->
exists strategy auth veil c scopes,
  out = [RedirectNotice url] /\
  In (Act (Oa (GetSyncStrategy (spt_Name spType))) strategy) tr /\
  granted strategy auth (oi_ObjectNamespace state) tr /\ user_token r auth tr /\
  In (Act (Oa (SessPut veil (SessString (Query_Get r "state")))) tt) tr /\ Query_Get r "state" <> "" /\
  url = AuthCodeURL c (redirectUrl cfg) scopes (outer_state cfg veil).
Proof.
intros (t & tr1 & tr2 & -> & H1 & H)%exec_bind Hin.
destruct t as [auth|err]; [|destruct H as [-> ->]; cbn in Hin; naive_solver].
apply GetToken_exec in H1 as [Hne Ht]. unfold call at 1 in H. cbn [bind] in H.
destruct H as (strategy & tr3 & -> & H). apply exec_bind in H as (a & tr4 & tr5 & -> & H1 & H).
destruct a as [[]|err]; try (destruct H as [-> ->]; cbn in Hin; naive_solver).
apply check_granted in H1. apply exec_bind in H as (v & tr6 & tr7 & -> & H2 & H).
destruct v as [veil|err]; [|destruct H as [-> ->]; cbn in Hin; naive_solver].
apply VeilRealState_puts in H2 as [Hq Hp].
apply render_redirect_exec in H as [[body ->]|(c & scopes & ->)]; [cbn in Hin; naive_solver|].
destruct Hin as [[= <-]|[]]. exists strategy, auth, veil, c, scopes.
assert (forall x, In x tr4 -> In x (tr1 ++ Act (Oa (GetSyncStrategy (spt_Name spType))) strategy :: tr4 ++ tr6 ++ tr7)) as Hi.
{ intros x Hx. apply in_app_iff. right. right. apply in_app_iff. by left. }
split_and!; try done.
- apply in_app_iff. right. by left.
- destruct strategy; cbn in *; [by apply Hi|]. destruct H1. split; by apply Hi.
- split; [done|]. destruct Ht as [Ht|Ht]; [by left|right]. apply in_app_iff. by left.
- apply in_app_iff. right. right. apply in_app_iff. right. apply in_app_iff. by left.
Qed.

(** C17 The OAuth flow starts only for an authorized user.  When a request is
  shown the redirect to the provider, this is its only response, and: its
  [state] parses and names a provider with a controller and a known kind of
  object; the strategy the controller had at that moment granted the bearer
  of the request's (or session's) token access to the namespace of that
  state; and the redirect carries the name under which the session now keeps
  the [state] of the request's URL, which is the state that was checked
  whenever the body of the request brings no [state] parameter of its own. *)
Theorem authenticate_authorized controllers r tr out url :
exec (Authenticate_ServeHTTP cfg controllers r) tr out -> In (RedirectNotice url) out ->
exists state ctrl own strategy auth veil c scopes,
  out = [RedirectNotice url] /\
  ParseInto (FormValue r "state") empty_info = Ok state /\
  In ctrl controllers /\ spt_Name ctrl = oi_ServiceProviderName state /\
  strategy_of_kind (oi_ObjectKind state) = Some own /\
  In (Act (Oa (SetSyncStrategy (spt_Name ctrl) own)) tt) tr /\
  In (Act (Oa (GetSyncStrategy (spt_Name ctrl))) strategy) tr /\
  granted strategy auth (oi_ObjectNamespace state) tr /\ user_token r auth tr /\
  In (Act (Oa (SessPut veil (SessString (Query_Get r "state")))) tt) tr /\ Query_Get r "state" <> "" /\
  url = AuthCodeURL c (redirectUrl cfg) scopes (outer_state cfg veil) /\
  ((forall v, ~ In ("state", v) (rq_PostForm r)) -> FormValue r "state" = Query_Get r "state").
Proof.
intros (f & tr1 & tr2 & -> & H1 & H)%exec_bind Hin.
destruct f as [[ctrl state]|err]; [|destruct H as [-> ->]; cbn in Hin; naive_solver].
apply findController_exec in H1 as (s & own & Hp & Hc & Hn & Hk & -> & ->).
apply (Authenticate_exec _ _ _ _ _ url) in H as (strategy & auth & veil & c & scopes & -> & H1 & H2 & H3 & H4 & H5 & ->); [|done].
exists state, ctrl, own, strategy, auth, veil, c, scopes. split_and!; try done.
- by left.
- by right.
- destruct strategy; cbn in *; [by right|]. destruct H2. split; by right.
- destruct H3 as [Hne Ht]. split; [done|]. destruct Ht; [by left|right]. by right.
- by right.
- apply FormValue_query.
Qed.

(** C16 The callback saves tokens only for states veiled in the same session.
  Whatever the callback writes to the cluster is written on behalf of the
  Kubernetes token of the session; it is the token the provider exchanged for
  the code of this request, for the object that is named by a state which the
  session keeps under the request's [state] parameter and which parses.  When
  the session keeps no such state, the answer is 400, no code is exchanged
  and nothing is written. *)
Theorem callback_saves_only_veiled controllers r tr out :
exec (Callback_ServeHTTP cfg controllers r) tr out ->
Forall (fun w => exists first, stores_for cfg r first tr w) (user_writes tr) /\
((forall s, In (Act (Oa (SessGet (Query_Get r "state"))) (Some (SessString s))) tr ->
    is_ok (ParseInto s empty_info) = false) ->
 out = [not_found_response] /\ Forall harmless tr).
Proof.
intros (f & tr1 & tr2 & -> & H1 & H)%exec_bind.
destruct f as [[ctrl state]|err].
- apply findController_exec in H1 as (s & own & Hp & Hc & Hn & Hk & v & -> & ->). split.
  + apply exec_bind in H as (written & tr3 & tr4 & -> & H1 & H).
    assert (Forall harmless tr4) as H4%harmless_user_writes.
    { apply exec_bind in H as (w & tr5 & tr6 & -> & H2 & H).
      assert (tr6 = []) as -> by (destruct w; by destruct H as [-> _]). rewrite app_nil_r.
      unfold StateVeiledAt, GetInt64 in H2. destruct (String.eqb _ _); exec_steps; [constructor|].
      destruct (_ =? 0)%Z; exec_steps; repeat constructor. }
    apply Callback_exec in H1.
    assert (user_writes ([Act (Oa (SessGet (Query_Get r "state"))) v; Act (Oa (SetSyncStrategy (spt_Name ctrl) own)) tt]
      ++ tr3) = user_writes tr3) as Hw by done.
    rewrite app_assoc, user_writes_app, H4, app_nil_r, Hw.
    eapply List.Forall_impl; [|exact H1]. intros w Hs. exists state.
    destruct Hs as (s & info & auth & token & c & Hs). exists s, info, auth, token, c.
    repeat rewrite in_app_iff. destruct Hs as (G1 & G2 & G3 & G4 & G5 & G6). split_and!; try tauto.
    destruct w as [a k o res|a ns owner t res].
    * destruct G6 as (rs & res' & G6). exists rs, res'. apply attempt_write_app. left. apply attempt_write_app. by right.
    * destruct G6 as (-> & -> & -> & Hin). split_and!; try done. apply in_app_iff. left. apply in_app_iff. by right.
  + intros Hs. exfalso. destruct v as [[s|n]|]; try (by rewrite ParseInto_empty in Hp).
    specialize (Hs s (or_introl eq_refl)). by rewrite Hp in Hs.
- destruct H as [-> ->]. rewrite app_nil_r. apply findController_harmless in H1 as [H1 _].
  by rewrite (harmless_user_writes _ H1).
Qed.
End properties.

(** ** Requests share their controllers *)

Module Concurrent.
(** The strategy of each controller; the strategy for tokens at the start *)
Abbreviation strategies := (gmap string SyncStrategy).
Definition oauth_step (s : strategies) {X} (e : OauthE X) : X -> option strategies :=
match e in OauthE X return X -> option strategies with
| SetSyncStrategy n st => fun _ => Some (<[n := st]> s)
| GetSyncStrategy n => fun st =>
    match st, default SpiSync (s !! n) with
    | SpiSync, SpiSync | RsSync, RsSync => Some s
    | _, _ => None
    end
| _ => fun _ => Some s
end.
Definition next (s : strategies) (a : act) : option strategies :=
match act_ev a in Ev X return X -> option strategies with
| Oa e => oauth_step s e
| _ => fun _ => Some s
end (act_res a).
Definition step (s : strategies) (a : act) (s' : strategies) : Prop := next s a = Some s'.
Definition run : strategies -> list act -> strategies -> Prop := run_store step.

Fixpoint run_fun (s : strategies) (tr : list act) : option strategies :=
match tr with
| [] => Some s
| a :: rest => match next s a with Some s1 => run_fun s1 rest | None => None end
end.
Lemma run_fun_run tr : forall s s', run_fun s tr = Some s' -> run s tr s'.
Proof.
induction tr as [|a tr IH]; cbn; intros s s'; [by intros [= ->]|].
destruct (next s a) as [s1|] eqn:E; [|done]. intros H. exists s1. split; [exact E|by apply IH].
Qed.

(** Interleavings of the calls of two requests *)
Inductive merge {A} : list A -> list A -> list A -> Prop :=
| merge_nil : merge [] [] []
| merge_l a l1 l2 l : merge l1 l2 l -> merge (a :: l1) l2 (a :: l)
| merge_r a l1 l2 l : merge l1 l2 l -> merge l1 (a :: l2) (a :: l).

Lemma merge_all_r {A} (l2 : list A) : forall l1 l, merge l1 [] l -> merge l1 l2 (l2 ++ l).
Proof. induction l2 as [|a l2 IH]; intros l1 l H; cbn; [done|]. constructor. by apply IH. Qed.
Lemma merge_refl {A} (l : list A) : merge l [] l.
Proof. induction l; by constructor. Qed.
End Concurrent.

Lemma GetToken_quiet r : sat (silent Concurrent.step) (fun _ => True) (GetToken r).
Proof. unfold GetToken, GetString. repeat (sat_step || sat_seq); try done; intros s s' H; by injection H. Qed.

Section alone.
Context {X : Externals} {E : OAuthExternals} (cfg : OAuthServiceConfiguration).

(** Without interference a request is checked by the strategy of its own
  kind: when the calls of an authentication run against the shared state
  with no other request in between, a redirect means that the strategy for
  the kind of object its state names granted access to the state's
  namespace. *)
Theorem strategy_alone controllers r tr out url s s' :
exec (Authenticate_ServeHTTP cfg controllers r) tr out -> In (RedirectNotice url) out ->
Concurrent.run s tr s' ->
exists state own auth, ParseInto (FormValue r "state") empty_info = Ok state /\
  strategy_of_kind (oi_ObjectKind state) = Some own /\
  user_token r auth tr /\ granted own auth (oi_ObjectNamespace state) tr.
Proof.
intros (f & tr1 & tr2 & -> & H1 & H)%exec_bind Hin Hrun.
destruct f as [[ctrl state]|err]; [|destruct H as [-> ->]; cbn in Hin; naive_solver].
apply findController_exec in H1 as (str & own & Hp & _ & _ & Hk & -> & ->).
destruct Hrun as (s1 & Hset & Hrun). injection Hset as <-. cbn [app] in Hrun.
apply exec_bind in H as (t & tr3 & tr4 & -> & H1 & H).
destruct t as [auth|err]; [|destruct H as [-> ->]; cbn in Hin; naive_solver].
apply run_store_app in Hrun as (s2 & Hr1 & Hr2).
pose proof H1 as [Hq _]%GetToken_quiet. apply run_store_silent in Hr1; [subst s2|exact Hq].
apply GetToken_exec in H1. unfold call at 1 in H. cbn [bind] in H. destruct H as (strategy & tr5 & -> & H).
destruct Hr2 as (s3 & Hget & _). unfold Concurrent.step, Concurrent.next in Hget.
cbn [act_ev act_res Concurrent.oauth_step] in Hget. rewrite lookup_insert_eq in Hget.
assert (strategy = own) as -> by (destruct strategy, own; cbn in Hget; congruence).
apply exec_bind in H as (a & tr6 & tr7 & -> & H2 & H).
destruct a as [[]|err]; try (destruct H as [-> ->]; cbn in Hin; naive_solver).
apply check_granted in H2. exists state, own, auth. split_and!; try done.
- destruct H1 as [Hne H1]. split; [done|]. destruct H1 as [H1|H1]; [by left|right].
  cbn [app]. right. apply in_app_iff. by left.
- assert (forall x, In x tr6 -> In x (Act (Oa (SetSyncStrategy (spt_Name ctrl) own)) tt
    :: tr3 ++ Act (Oa (GetSyncStrategy (spt_Name ctrl))) own :: tr6 ++ tr7)) as Hi.
  { intros x Hx. right. apply in_app_iff. right. right. apply in_app_iff. by left. }
  destruct own; cbn in *; [by apply Hi|]. destruct H2. split; by apply Hi.
Qed.
End alone.

(** ** Concrete services *)

Definition quay_oauth : OAuth2Config :=
  mkOAuth2Config "id" "secret" (mkEndpoint "https://quay.io/oauth/authorize" "https://quay.io/oauth/token").
Definition service_config : OAuthServiceConfiguration :=
  mkServiceConfig (mkSharedConfig
    [mkSPConfig ServiceProviderTypeQuay "https://quay.io" ∅ (Some quay_oauth)] "https://spi/") "".

Definition info_of (kind : string) : OAuthInfo :=
  mkOAuthInfo "obj" "ns" kind (Some ["repo:read"]) "Quay" "https://quay.io".
Definition state_of (kind : string) : string := EncodeToString RawURLEncoding (marshal_info (info_of kind)).
Definition authenticate_request (kind : string) : Request :=
  mkRequest [("state", state_of kind)] [("k8s_token", "t0ken")] "" "".

(** The observable reviews of a trace *)
Definition review_of (a : act) : option (string * bool) :=
  match act_ev a in Ev X return X -> option (string * bool) with
  | Oa e =>
      match e in OauthE X return X -> option (string * bool) with
      | AccessReview _ _ verb _ _ resource => fun r => Some (verb +:+ " " +:+ resource, match r with Ok b => b | Err _ => false end)
      | _ => fun _ => None
      end
  | _ => fun _ => None
  end (act_res a).
Definition reviews (tr : list act) : list (string * bool) := omap review_of tr.

Lemma granted_reviews auth ns tr :
  granted RsSync auth ns tr -> In ("get remotesecrets", true) (reviews tr).
Proof.
  intros [H _]. unfold reviews. induction tr as [|a tr IH]; [done|]. destruct H as [->|H].
  - by left.
  - cbn. destruct (review_of a); [right|]; by apply IH.
Qed.

Definition controllers : list ServiceProviderType := SupportedServiceProviderTypes.
Definition rs_trace : list act :=
  trace_of empty_script (Authenticate_ServeHTTP service_config controllers (authenticate_request "RemoteSecret")).
Definition spi_trace : list act :=
  trace_of empty_script (Authenticate_ServeHTTP service_config controllers (authenticate_request "SPIAccessToken")).
Definition redirect_of (l : list response) : option string :=
  match l with [RedirectNotice url] => Some url | _ => None end.

(** C40 Two requests can be checked by each other's strategy.  The strategy is
    a field of the controller that all requests of a provider share, so there
    are two authentication requests, one for a remote secret and one for a
    token, and an interleaving of their calls against the shared state, in
    which the user is shown the redirect for the remote secret although no
    access to remote secrets was ever reviewed for the request. *)
Theorem shared_strategy_race :
  exists ra rb tra trb tr outa outb url s',
    ParseInto (FormValue ra "state") empty_info = Ok (info_of remoteSecretKind) /\
    strategy_of_kind remoteSecretKind = Some RsSync /\
    exec (Authenticate_ServeHTTP service_config controllers ra) tra outa /\
    exec (Authenticate_ServeHTTP service_config controllers rb) trb outb /\
    Concurrent.merge tra trb tr /\ Concurrent.run ∅ tr s' /\
    outa = [RedirectNotice url] /\
    forall auth ns, ~ granted RsSync auth ns tra.
Proof.
  exists (authenticate_request "RemoteSecret"), (authenticate_request "SPIAccessToken"), rs_trace, spi_trace.
  exists (Act (Oa (SetSyncStrategy "Quay" RsSync)) tt :: spi_trace ++ tl rs_trace).
  eexists (result_of empty_script _), (result_of empty_script _), _, _.
  split; [vm_compute; reflexivity|]. split; [done|].
  split; [apply scripted_exec|]. split; [apply scripted_exec|]. split.
  { change rs_trace with (Act (Oa (SetSyncStrategy "Quay" RsSync)) tt :: tl rs_trace) at 1.
    constructor. apply Concurrent.merge_all_r, Concurrent.merge_refl. }
  split; [apply Concurrent.run_fun_run; vm_compute; reflexivity|].
  split; [vm_compute; reflexivity|].
  intros auth ns H%granted_reviews. vm_compute in H. destruct H as [H|[]]. discriminate H.
Qed.

(** ** Witnesses *)

Definition sample_redirect : string :=
  "https://quay.io/oauth/authorize?client_id=id&redirect_uri=https%3A%2F%2Fspi%2Foauth%2Fcallback&scope=&state=aaaaaaaaaaaaaaaaaaaaaaaaaaaaaaaa".

Lemma authenticate_authorized_witness :
  let r := authenticate_request "RemoteSecret" in
  let p := Authenticate_ServeHTTP service_config controllers r in
  exists url state own,
    serve_result p (∅, ∅) = [RedirectNotice url] /\
    ParseInto (FormValue r "state") empty_info = Ok state /\
    strategy_of_kind (oi_ObjectKind state) = Some own.
Proof.
  intros r p.
  pose (url := sample_redirect).
  assert (serve_result p (∅, ∅) = [RedirectNotice url]) as Hurl by (vm_compute; reflexivity).
  edestruct (authenticate_authorized service_config controllers r (serve_trace p (∅, ∅)) (serve_result p (∅, ∅)) url)
    as (state & ctrl & own & strategy & auth & veil & c & scopes & H1 & H2 & _ & _ & H3 & _).
  - apply run_trace_exec.
  - rewrite Hurl. by left.
  - exists url, state, own. by split_and!.
Defined.

Lemma strategy_alone_witness :
  let r := authenticate_request "RemoteSecret" in
  let p := Authenticate_ServeHTTP service_config controllers r in
  exists state auth, ParseInto (FormValue r "state") empty_info = Ok state /\
    granted RsSync auth (oi_ObjectNamespace state) (serve_trace p (∅, ∅)).
Proof.
  intros r p.
  pose (url := sample_redirect).
  assert (serve_result p (∅, ∅) = [RedirectNotice url]) as Hurl by (vm_compute; reflexivity).
  edestruct (strategy_alone service_config controllers r (serve_trace p (∅, ∅)) (serve_result p (∅, ∅)) url ∅ (<["Quay" := RsSync]> ∅))
    as (state & own & auth & H1 & H2 & _ & H3).
  - apply run_trace_exec.
  - rewrite Hurl. by left.
  - apply Concurrent.run_fun_run. vm_compute. reflexivity.
  - exists state, auth. split; [exact H1|].
    assert (ParseInto (FormValue r "state") empty_info = Ok (info_of "RemoteSecret")) as Hp by (vm_compute; reflexivity).
    rewrite Hp in H1. injection H1 as <-. injection H2 as <-. exact H3.
Defined.

(** A session that veiled a state and holds a Kubernetes token *)
Definition veiled_session : session_world :=
  (<["veil" := SessString (state_of "SPIAccessToken")]>
    (<["veil-createdAt" := SessInt64 5]> {[ "k8s_token" := SessString "t0ken" ]}), ∅).
Definition callback_request (state : string) : Request :=
  mkRequest [("state", state); ("code", "c0de")] [] "" "".

Lemma callback_saves_only_veiled_witness :
  let p := Callback_ServeHTTP service_config controllers (callback_request "veil") in
  let q := Callback_ServeHTTP service_config controllers (callback_request "forged") in
  length (user_writes (serve_trace p veiled_session)) = 1 /\
  Forall (fun w => exists first, stores_for service_config (callback_request "veil") first
            (serve_trace p veiled_session) w) (user_writes (serve_trace p veiled_session)) /\
  serve_result q veiled_session = [not_found_response].
Proof.
  intros p q. split; [vm_compute; reflexivity|]. split.
  - exact (proj1 (callback_saves_only_veiled service_config controllers (callback_request "veil")
      (serve_trace p veiled_session) _ (run_trace_exec serve p veiled_session))).
  - vm_compute. reflexivity.
Defined.

(** ** Two behaviours of the handlers that surprise *)

(** Without a Kubernetes token in the session the callback answers 400: the
    error that comes with [oauthFinishK8sAuthRequired] is handled first. *)
Example unauthenticated_callback :
  serve_result (Callback_ServeHTTP service_config controllers (callback_request "veil"))
    (delete "k8s_token" veiled_session.1, ∅) =
  [Respond StatusBadRequest "error in Service Provider token exchange"].
Proof. vm_compute. reflexivity. Qed.

(** A body parameter [state] is the one that is checked, the URL parameter the
    one that is kept for the callback. *)
Definition two_states : Request :=
  mkRequest [("state", state_of "RemoteSecret")] [("state", state_of "SPIAccessToken"); ("k8s_token", "t0ken")] "" "".
Example checked_state_is_not_kept :
  let p := Authenticate_ServeHTTP service_config controllers two_states in
  reviews (serve_trace p (∅, ∅)) = [("create spiaccesstokendataupdates", true)] /\
  serve_session p (∅, ∅) !! "aaaaaaaaaaaaaaaaaaaaaaaaaaaaaaaa" = Some (SessString (state_of "RemoteSecret")).
Proof. vm_compute. split; reflexivity. Qed.
