(* ===== verification/GoPath.v ===== *)
(** * path.Clean, path.Join and url.JoinPath of the Go standard library (1.20)

    [JoinPath] parses its base with [Parse] and prints the URL again.  The
    record [URL] has no user information and no escaped form of the path or the
    fragment: the definitions are those of the library for bases without them
    ([https://] and a host is what the repository passes). *)

From S2P Require Import Prelude GoStd GoUrl.
Local Open Scope string_scope.
Local Open Scope spi_scope.

(** [strings.HasSuffix] *)
Fixpoint HasSuffix (s suffix : string) : bool :=
  String.eqb s suffix || match s with EmptyString => false | String _ s' => HasSuffix s' suffix end.

(** ** path *)

(** The loop of [Clean] on a rooted path: the segments kept so far, the last
    one first *)
Fixpoint clean_segments (kept segs : list string) : list string :=
  match segs with
  | [] => rev kept
  | s :: rest =>
      if String.eqb s "" || String.eqb s "." then clean_segments kept rest
      else if String.eqb s ".." then clean_segments (tail kept) rest
      else clean_segments (s :: kept) rest
  end.

(** [path.Clean] of a path that begins with a slash *)
Definition Clean_rooted (p : string) : string :=
  "/" +:+ Join (clean_segments [] (Split p ch_slash)) "/".

(** [path.Join] when the first element begins with a slash *)
Definition Join_rooted (elem : list string) : string := Clean_rooted (Join elem "/").

(** ** net/url *)

(** [shouldEscape] with [encodePath] *)
Definition shouldEscape_path (c : ascii) : bool :=
  negb (is_alnum c || char_in c "-_.~" || char_in c "$&+,/:;=@").

Fixpoint escape_with (should : ascii -> bool) (s : string) : string :=
  match s with
  | EmptyString => EmptyString
  | String c rest =>
      if should c then
        String ch_percent (String (hex_upper (N_of_ascii c / 16)) (String (hex_upper (N_of_ascii c mod 16))
          (escape_with should rest)))
      else String c (escape_with should rest)
  end.

(** [validEncoded] with [encodePath] *)
Definition validEncoded (s : string) : bool :=
  negb (any_char (fun c => negb (char_in c "!$&'()*+,;=:@[]%") && shouldEscape_path c) s).

(** [setPath]: the path and the raw path; a path that cannot be unescaped is
    not set. *)
Definition setPath (old p : string) : string * string :=
  match unescape encodePath p with
  | Err _ => (old, "")
  | Ok path => (path, if String.eqb p (escape_with shouldEscape_path path) then "" else p)
  end.

(** [EscapedPath] *)
Definition EscapedPath (Path RawPath : string) : string :=
  if negb (String.eqb RawPath "") && validEncoded RawPath &&
     match unescape encodePath RawPath with Ok p => String.eqb p Path | Err _ => false end
  then RawPath
  else if String.eqb Path "*" then "*" else escape_with shouldEscape_path Path.

(** [URL.String] of [u] with the path [Path] and the raw path [RawPath] *)
Definition URL_String (u : URL) (Path RawPath : string) : string :=
  let scheme := if String.eqb (Scheme u) "" then "" else Scheme u +:+ ":" in
  let body :=
    if negb (String.eqb (Opaque u) "") then Opaque u
    else
      let host :=
        if negb (String.eqb (Scheme u) "") || negb (String.eqb (Host u) "") then
          (if negb (String.eqb (Host u) "") || negb (String.eqb Path "") then "//" else "")
          +:+ escape_with shouldEscape_host (Host u)
        else "" in
      let path := EscapedPath Path RawPath in
      let sep :=
        if negb (String.eqb path "") && negb (HasPrefix path "/") && negb (String.eqb (Host u) "") then "/" else "" in
      let dot :=
        if String.eqb (scheme +:+ host +:+ sep) "" && Contains (fst (Cut ch_slash path)) ":" then "./" else "" in
      host +:+ sep +:+ dot +:+ path in
  scheme +:+ body
  +:+ (if String.eqb (RawQuery u) "" then "" else "?" +:+ RawQuery u)
  +:+ (if String.eqb (Fragment u) "" then "" else "#" +:+ Fragment u).

(** The path [URL.JoinPath] sets *)
Definition joined_path (escaped : string) (elem : list string) : string :=
  let p :=
    if HasPrefix escaped "/" then Join_rooted (escaped :: elem)
    else drop_str 1 (Join_rooted (("/" +:+ escaped) :: elem)) in
  if HasSuffix (List.last elem escaped) "/" && negb (HasSuffix p "/") then p +:+ "/" else p.

(** [url.JoinPath] *)
Definition JoinPath (base : string) (elem : list string) : res string :=
  let? u := Parse base in
  let '(path, raw) := setPath (Path u) (joined_path (EscapedPath (Path u) "") elem) in
  Ok (URL_String u path raw).

(** ** Examples *)

Definition workspace_url (base ws : string) : res string := JoinPath base ["workspaces"; ws].

Example join_1 : workspace_url "https://api.example.com:6443" "ws-1" = Ok "https://api.example.com:6443/workspaces/ws-1".
Proof. reflexivity. Qed.
(** A name with dots leaves the directory of the workspaces. *)
Example join_2 : workspace_url "https://api.example.com/base/" "../x" = Ok "https://api.example.com/base/x".
Proof. reflexivity. Qed.
Example join_3 : workspace_url "https://host" "a b/" = Ok "https://host/workspaces/a%20b/".
Proof. reflexivity. Qed.
(** Without a host the first segment of the path takes its place. *)
Example join_4 : workspace_url "https://" "ws" = Ok "https://workspaces/ws".
Proof. reflexivity. Qed.
Example join_5 : workspace_url "https://host" "a%2Fb" = Ok "https://host/workspaces/a%2Fb".
Proof. reflexivity. Qed.
Example join_6 : workspace_url "https://host" "a%2" = Ok "https://host".
Proof. reflexivity. Qed.

(** ** One plain segment below a base *)

(** The characters that no part of a URL escapes *)
Definition unreserved (s : string) : bool := negb (any_char (fun c => negb (is_alnum c || char_in c "-_.~")) s).

(** A name that [Clean] keeps *)
Definition plain_segment (s : string) : bool :=
  unreserved s && negb (String.eqb s "" || String.eqb s "." || String.eqb s "..").

Lemma unreserved_cons c s :
  unreserved (String c s) = true -> is_alnum c || char_in c "-_.~" = true /\ unreserved s = true.
Proof.
  unfold unreserved. cbn. rewrite negb_orb, negb_involutive. apply andb_true_iff.
Qed.

Lemma unreserved_app a b : unreserved a = true -> unreserved b = true -> unreserved (a +:+ b) = true.
Proof.
  unfold unreserved. induction a as [|c a IH]; [by rewrite str_app_nil_l|].
  rewrite str_app_cons. cbn. rewrite !negb_orb, !andb_true_iff. intros [??] ?. auto.
Qed.

Lemma unreserved_char c : is_alnum c || char_in c "-_.~" = true ->
  shouldEscape_path c = false /\ Ascii.eqb c ch_slash = false /\ Ascii.eqb c ch_percent = false.
Proof.
  destruct c as [b0 b1 b2 b3 b4 b5 b6 b7].
  destruct b0, b1, b2, b3, b4, b5, b6, b7; cbn; (discriminate || by repeat split).
Qed.

Lemma unreserved_lacks s : unreserved s = true -> lacks ch_slash s = true.
Proof.
  induction s as [|c s IH]; [done|]. intros [Hc Hs]%unreserved_cons.
  apply unreserved_char in Hc as (_ & Hc & _). cbn. by rewrite Hc, IH.
Qed.

Lemma escape_unreserved s : unreserved s = true -> escape_with shouldEscape_path s = s.
Proof.
  induction s as [|c s IH]; [done|]. intros [Hc Hs]%unreserved_cons.
  apply unreserved_char in Hc as (Hc & _). cbn [escape_with]. by rewrite Hc, IH.
Qed.

Lemma unescape_unreserved s : unreserved s = true -> unescape encodePath s = Ok s.
Proof.
  induction s as [|c s IH]; [done|]. intros [Hc Hs]%unreserved_cons.
  apply unreserved_char in Hc as (_ & _ & Hc). cbn [unescape is_host_mode andb]. by rewrite Hc, IH.
Qed.

Lemma HasSuffix_slash s : lacks ch_slash s = true -> HasSuffix s "/" = false.
Proof.
  induction s as [|c s IH]; [done|]. cbn [lacks HasSuffix].
  intros [Hc%negb_true_iff Hs]%andb_true_iff. rewrite IH by done. rewrite orb_false_r.
  apply String.eqb_neq. intros [= -> _]. discriminate Hc.
Qed.

Lemma escape_prefix_workspaces ws : unreserved ws = true ->
  escape_with shouldEscape_path ("workspaces/" +:+ ws) = "workspaces/" +:+ ws /\
  unescape encodePath ("workspaces/" +:+ ws) = Ok ("workspaces/" +:+ ws).
Proof.
  intros H. pose proof (escape_unreserved ws H) as He. pose proof (unescape_unreserved ws H) as Hu.
  unfold String.append at 1 2 3 4. cbn. by rewrite He, Hu.
Qed.

Lemma joined_segment ws : plain_segment ws = true ->
  joined_path "" ["workspaces"; ws] = "workspaces/" +:+ ws.
Proof.
  intros [Hu Hd%negb_true_iff]%andb_true_iff.
  apply orb_false_iff in Hd as [Hd H2]. apply orb_false_iff in Hd as [H0 H1].
  pose proof (unreserved_lacks ws Hu) as Hl.
  unfold joined_path, Join_rooted, Clean_rooted. cbn [HasPrefix List.last].
  rewrite (HasSuffix_slash ws Hl). cbn [andb].
  change (Join ["/" +:+ ""; "workspaces"; ws] "/") with ("//workspaces" +:+ String ch_slash ws).
  change ("//workspaces" +:+ String ch_slash ws) with
    ("" +:+ String ch_slash ("" +:+ String ch_slash ("workspaces" +:+ String ch_slash ws))).
  rewrite !Split_first, Split_only by done. cbn [clean_segments]. rewrite H0, H1, H2. done.
Qed.

(** On a base that is only a scheme and a host, the name of a workspace becomes
    the last segment of the path. *)
Lemma JoinPath_workspace base host ws :
  Parse base = Ok (mkURL "https" "" host "" "" "") -> host <> "" ->
  escape_with shouldEscape_host host = host -> plain_segment ws = true ->
  JoinPath base ["workspaces"; ws] = Ok ("https://" +:+ host +:+ "/workspaces/" +:+ ws).
Proof.
  intros HP Hh He Hw. unfold JoinPath. rewrite HP. cbn [Path rbind].
  change (EscapedPath "" "") with "". rewrite joined_segment by done.
  apply andb_true_iff in Hw as [Hu _]. destruct (escape_prefix_workspaces ws Hu) as [E1 E2].
  unfold setPath. rewrite E2, E1, String.eqb_refl. f_equal.
  unfold URL_String, EscapedPath. cbn [Scheme Opaque Host RawQuery Fragment]. rewrite He, E1.
  apply String.eqb_neq in Hh. rewrite Hh. cbn. by rewrite !str_app_nil_r.
Qed.
