(* ===== verification/ClientFactory.v ===== *)
(** * The Kubernetes clients of the OAuth service (oauth/clientfactory)

    The service has one client of its own and creates a client for every
    request that acts for a user.  Behind an API server with workspaces the
    client of a user is bound to the workspace that holds the namespace of the
    request.  The handlers of [OAuthSync] and [OAuthService] ask for such a
    client with [CreateUserClient]; [with_user_clients] puts the factory in its
    place. *)

From S2P Require Import Prelude GoStd GoUrl GoPath Api Externals SpErrors Effects SpConfig Samples.
From S2P Require Import OAuthSync OAuthService.
Local Open Scope string_scope.
Local Open Scope list_scope.
Local Open Scope spi_scope.

(** ** cmd/oauth/oauthcli: the service's own arguments *)

Record OAuthServiceCliArgs := mkOAuthArgs {
  ServiceAddr : string; AllowedOrigins : string; KubeConfig : string; KubeInsecureTLS : bool;
  ApiServer : string; ApiServerCAPath : string; OAuthRedirectProxyUrl : string }.

(** ** namespace_context.go and auth_provider.go: the values of a context *)

Record Context := mkContext { ctx_BearerToken : option string; ctx_Namespace : option string }.
Definition Background : Context := mkContext None None.

Definition NamespaceFromContext (ctx : Context) : option string := ctx_Namespace ctx.
Definition NamespaceIntoContext (ctx : Context) (namespace : string) : Context :=
  mkContext (ctx_BearerToken ctx) (Some namespace).
Definition WithAuthIntoContext (bearerToken : string) (ctx : Context) : Context :=
  mkContext (Some bearerToken) (ctx_Namespace ctx).
Definition WithAuthFromRequestIntoContext (r : Request) (ctx : Context) : res Context :=
  let? token := AuthFromRequest r in Ok (WithAuthIntoContext token ctx).

Definition authPluginName := "spi.appstudio.redhat.com/auth-from-request".

Definition set_rc_Host (v : string) (c : RestConfig) : RestConfig :=
  mkRestConfig v (rc_CAFile c) (rc_Insecure c) (rc_AuthProvider c) (rc_BearerToken c).
Definition set_rc_Insecure (v : bool) (c : RestConfig) : RestConfig :=
  mkRestConfig (rc_Host c) (rc_CAFile c) v (rc_AuthProvider c) (rc_BearerToken c).
Definition set_rc_AuthProvider (v : option string) (c : RestConfig) : RestConfig :=
  mkRestConfig (rc_Host c) (rc_CAFile c) (rc_Insecure c) v (rc_BearerToken c).

(** A nil configuration is dereferenced. *)
Definition AugmentConfiguration (config : option RestConfig) : go (option RestConfig) :=
  match config with
  | None => Panics "config.AuthProvider"
  | Some c => Returns (Some (set_rc_AuthProvider (Some authPluginName) c))
  end.

(** ** The factories *)

Inductive K8sClientFactory :=
| InClusterK8sClientFactory (opts : ClientOptions) (cfg : option RestConfig)
| UserAuthK8sClientFactory (opts : ClientOptions) (cfg : option RestConfig)
| WorkspaceAwareK8sClientFactory (opts : ClientOptions) (cfg : RestConfig) (ApiServer : string).

(** A client: what client.New got *)
Record Client := mkClient { cl_Config : option RestConfig; cl_Options : ClientOptions }.

(** client.New, with the text of the error that wraps a failure *)
Definition new_client (text : string) (cfg : option RestConfig) (opts : ClientOptions) : prog (res Client) :=
  let! e := call (Cl (ClientNew cfg opts)) in
  match e with
  | Some err => Ret (Err (Errorf_w text err))
  | None => Ret (Ok (mkClient cfg opts))
  end.

(** *** workspace_aware_client_factory.go *)

Definition wsApiPath := "/apis/toolchain.dev.openshift.com/v1alpha1/workspaces".
Definition errUnableToParseWorkspaceResponse : goerr :=
  ErrorString "unable to parse response from workspace API requested for namespace".
Definition errWorkspaceNotFound : goerr := ErrorString "target workspace not found for namespace".

(** toolchain's v1alpha1.Workspace, with the names of Status.Namespaces, and
    json.Unmarshal of a WorkspaceList *)
Record Workspace := mkWorkspace { ws_Name : string; ws_Namespaces : list string }.
Class WorkspaceApi := { decode_WorkspaceList : string -> res (list Workspace) }.

Section factories.
Context {W : WorkspaceApi}.

Definition list_request (apiServer : string) : HttpRequest :=
  mkHttpRequest "GET" (apiServer +:+ wsApiPath) [] "".

(** The answer to a bad status wraps the nil error of the request. *)
Definition bad_status (code : Z) (wsEndpoint : string) : goerr :=
  ErrorString ("bad status (" +:+ FormatInt code +:+ ") when performing HTTP request for workspace context to "
               +:+ wsEndpoint +:+ ": %!w(<nil>)").

Definition fetchAllAvailableWorkspaces (ctx : Context) (apiServer namespace : string)
  : prog (res (list Workspace)) :=
  let wsEndpoint := apiServer +:+ wsApiPath in
  match Parse wsEndpoint with
  | Err reqErr =>
      Ret (Err (Errorf_w ("error while constructing HTTP request for workspace context to " +:+ wsEndpoint) reqErr))
  | Ok _ =>
      let! resp := call (Cl (AuthenticatedDo (ctx_BearerToken ctx) (list_request apiServer))) in
      match resp with
      | Err err => Ret (Err (Errorf_w ("error performing HTTP request for workspace context to " +:+ wsEndpoint) err))
      | Ok resp =>
          if negb (hr_StatusCode resp =? StatusOK)%Z then Ret (Err (bad_status (hr_StatusCode resp) wsEndpoint))
          else
            match hr_Body resp with
            | Err err => Ret (Err (Errorf_w "failed to read the workspace API response" err))
            | Ok bodyBytes =>
                match decode_WorkspaceList bodyBytes with
                | Err err =>
                    Ret (Err (Errorf_sentinel errUnableToParseWorkspaceResponse
                                (" '" +:+ namespace +:+ "': " +:+ Error err)))
                | Ok wsList => Ret (Ok wsList)
                end
            end
      end
  end.

(** The two loops of [fetchWorkspaceName] *)
Fixpoint workspace_of (namespace : string) (items : list Workspace) : option string :=
  match items with
  | [] => None
  | ws :: rest =>
      if existsb (fun ns => String.eqb ns namespace) (ws_Namespaces ws) then Some (ws_Name ws)
      else workspace_of namespace rest
  end.

Definition fetchWorkspaceName (ctx : Context) (apiServer namespace : string) : prog (res string) :=
  let! l := fetchAllAvailableWorkspaces ctx apiServer namespace in
  match l with
  | Err err =>
      Ret (Err (WrapError ("unable to list available workspaces foe namespace " +:+ namespace +:+ ", error:"
                           +:+ Error err) err))
  | Ok wsList =>
      match workspace_of namespace wsList with
      | Some name => Ret (Ok name)
      | None => Ret (Err (Errorf_sentinel errWorkspaceNotFound (": " +:+ namespace)))
      end
  end.

Definition doCreateClient (cfg : option RestConfig) (opts : ClientOptions) : prog (res Client) :=
  new_client "failed to create a user kubernetes client" cfg opts.

(** [CreateClient] of the three factories *)
Definition CreateClient (f : K8sClientFactory) (ctx : Context) : prog (res Client) :=
  match f with
  | InClusterK8sClientFactory opts cfg =>
      new_client "failed to create a in-cluster kubernetesclient client" cfg opts
  | UserAuthK8sClientFactory opts cfg =>
      new_client "failed to create a user auth kubernetesclient client" cfg opts
  | WorkspaceAwareK8sClientFactory opts cfg apiServer =>
      match NamespaceFromContext ctx with
      | None => doCreateClient (Some cfg) opts
      | Some namespace =>
          let! n := fetchWorkspaceName ctx apiServer namespace in
          match n with
          | Err err => Ret (Err (Errorf_w "unable to fetch workspace name via API" err))
          | Ok wsName =>
              match JoinPath (rc_Host cfg) ["workspaces"; wsName] with
              | Err err =>
                  Ret (Err (Errorf_w ("failed to create the K8S API path from URL " +:+ rc_Host cfg
                                      +:+ " and workspace " +:+ wsName) err))
              | Ok host => doCreateClient (Some (set_rc_Host host cfg)) opts
              end
          end
      end
  end.
End factories.

(** ** client_factory_builder.go *)

(** The kinds a mapper knows, with their scope *)
Definition in_cluster_mapper : list (string * bool) := [("Secret", true); ("SPIAccessTokenDataUpdate", true)].
Definition user_auth_mapper : list (string * bool) :=
  [("SelfSubjectAccessReview", false); ("SPIAccessToken", true); ("SPIAccessTokenDataUpdate", true);
   ("RemoteSecret", true)].

Definition add_schemes : list (string * string) :=
  [("corev1", "failed to add corev1 to scheme"); ("api", "failed to add api to the scheme");
   ("rsapi", "failed to add RemoteSecret api to the scheme"); ("authz", "failed to add authz to the scheme")].

Fixpoint add_all (schemes : list (string * string)) : prog (option goerr) :=
  match schemes with
  | [] => Ret None
  | (api, text) :: rest =>
      let! e := call (Cl (AddToScheme api)) in
      match e with
      | Some err => Ret (Some (Errorf_w text err))
      | None => add_all rest
      end
  end.

Definition clientOptions (mapper : list (string * bool)) : prog (res ClientOptions) :=
  let! e := add_all add_schemes in
  Ret (match e with Some err => Err err | None => Ok (mkClientOptions mapper) end).

(** The insecure mode writes through the pointer it is given. *)
Definition setInsecure (args : OAuthServiceCliArgs) (cfg : option RestConfig) : go (option RestConfig) :=
  if KubeInsecureTLS args && String.eqb (ApiServerCAPath args) "" then
    match cfg with
    | None => Panics "cfg.Insecure"
    | Some c => Returns (Some (set_rc_Insecure true c))
    end
  else Returns cfg.

(** The service's own factory: [setInsecure] runs before the error is looked at. *)
Definition in_cluster_factory (args : OAuthServiceCliArgs) (opts : ClientOptions) (text : string)
  (answer : option RestConfig * option goerr) : go (res K8sClientFactory) :=
  match setInsecure args (fst answer) with
  | Panics w => Panics w
  | Returns restConfig =>
      match snd answer with
      | Some err => Returns (Err (Errorf_w text err))
      | None => Returns (Ok (InClusterK8sClientFactory opts restConfig))
      end
  end.

Definition CreateInClusterClientFactory (args : OAuthServiceCliArgs) : prog (go (res K8sClientFactory)) :=
  let! o := clientOptions in_cluster_mapper in
  match o with
  | Err errClientOptions => Ret (Returns (Err errClientOptions))
  | Ok opts =>
      if negb (String.eqb (KubeConfig args) "") then
        let! a := call (Cl (BuildConfigFromFlags "" (KubeConfig args))) in
        Ret (in_cluster_factory args opts "failed to create rest configuration" a)
      else
        let! a := call (Cl InClusterConfig) in
        Ret (in_cluster_factory args opts "failed to initialize in-cluster config" a)
  end.

(** [setInsecure] and then [AugmentConfiguration] *)
Definition user_config (args : OAuthServiceCliArgs) (cfg : option RestConfig) : go (option RestConfig) :=
  match setInsecure args cfg with
  | Panics w => Panics w
  | Returns cfg => AugmentConfiguration cfg
  end.

(** The certificate of the API server: only loaded to see that it can be *)
Definition load_ca (args : OAuthServiceCliArgs) : prog (res string) :=
  if negb (String.eqb (ApiServerCAPath args) "") then
    let! e := call (Cl (CertPool (ApiServerCAPath args))) in
    match e with
    | Some err =>
        Ret (Err (Errorf_w ("expected to load root CA config from " +:+ ApiServerCAPath args +:+ ", but got err") err))
    | None => Ret (Ok (ApiServerCAPath args))
    end
  else Ret (Ok "").

(** The factory for an API server of the configuration *)
Definition api_server_factory (args : OAuthServiceCliArgs) (opts : ClientOptions) (CAFile : string)
  : go (res K8sClientFactory) :=
  match user_config args (Some (mkRestConfig "" CAFile false None "")) with
  | Panics w => Panics w
  | Returns None => Panics "cfg.Host"
  | Returns (Some cfg) =>
      match Parse (ApiServer args) with
      | Err err => Returns (Err (Errorf_w "failed to parse the API server URL" err))
      | Ok apiServerUrl =>
          Returns (Ok (WorkspaceAwareK8sClientFactory opts (set_rc_Host ("https://" +:+ Host apiServerUrl) cfg)
                         (ApiServer args)))
      end
  end.

Definition CreateUserAuthClientFactory (args : OAuthServiceCliArgs) : prog (go (res K8sClientFactory)) :=
  let! o := clientOptions user_auth_mapper in
  match o with
  | Err errClientOptions => Ret (Returns (Err errClientOptions))
  | Ok opts =>
      if String.eqb (ApiServer args) "" then
        let! (cfg, e) := call (Cl InClusterConfig) in
        match e with
        | Some err => Ret (Returns (Err (Errorf_w "failed to initialize in-cluster config" err)))
        | None =>
            match user_config args cfg with
            | Panics w => Ret (Panics w)
            | Returns cfg => Ret (Returns (Ok (UserAuthK8sClientFactory opts cfg)))
            end
        end
      else
        let! ca := load_ca args in
        match ca with
        | Err err => Ret (Returns (Err err))
        | Ok CAFile => Ret (api_server_factory args opts CAFile)
        end
  end.

(** ** The factory behind the handlers *)

Section composition.
Context {W : WorkspaceApi} (f : K8sClientFactory).

(** The context in which a handler asks for the client of a user *)
Definition user_context (auth namespace : string) : Context :=
  NamespaceIntoContext (WithAuthIntoContext auth Background) namespace.

Definition user_client (auth namespace : string) : prog (res Client) :=
  CreateClient f (user_context auth namespace).

Definition client_error (r : res Client) : option goerr :=
  match r with Ok _ => None | Err err => Some err end.

(** Every request for the client of a user is answered by the factory. *)
Fixpoint with_user_clients {A} (p : prog A) : prog A :=
  match p with
  | Ret a => Ret a
  | Vis e k =>
      match e in Ev X return (X -> prog A) -> prog A with
      | Oa oe =>
          match oe in OauthE X return (X -> prog A) -> prog A with
          | CreateUserClient auth ns => fun k' => bind (user_client auth ns) (fun r => k' (client_error r))
          | oe' => fun k' => Vis (Oa oe') k'
          end
      | e' => fun k' => Vis e' k'
      end (fun x => with_user_clients (k x))
  end.

Definition asks_client (a : act) : option (string * string * option goerr) :=
  match act_ev a in Ev X return X -> option (string * string * option goerr) with
  | Oa e =>
      match e in OauthE X return X -> option (string * string * option goerr) with
      | CreateUserClient auth ns => fun r => Some (auth, ns, r)
      | _ => fun _ => None
      end
  | _ => fun _ => None
  end (act_res a).

(** [implements tr tr']: [tr] is [tr'] with a run of the factory in place of
    every request for a client of a user. *)
Fixpoint implements (tr tr' : list act) : Prop :=
  match tr' with
  | [] => tr = []
  | a :: rest' =>
      match asks_client a with
      | Some (auth, ns, e) =>
          exists r seg rest, tr = seg ++ rest /\ exec (user_client auth ns) seg r /\ client_error r = e /\
            implements rest rest'
      | None => exists rest, tr = a :: rest /\ implements rest rest'
      end
  end.

Lemma with_user_clients_exec {A} (p : prog A) tr a :
  exec (with_user_clients p) tr a <-> exists tr', exec p tr' a /\ implements tr tr'.
Proof.
  revert tr. induction p as [a'|X e k IH]; intros tr.
  { split; [intros [-> ->]; by exists []|]. intros (tr' & [-> ->] & H). by rewrite H. }
  assert ((forall x, asks_client (Act e x) = None) ->
          exec (Vis e (fun x => with_user_clients (k x))) tr a <->
          exists tr', exec (Vis e k) tr' a /\ implements tr tr') as Hother.
  { intros Hn. split.
    - intros (x & tr1 & -> & (tr' & H1 & H2)%IH). exists (Act e x :: tr').
      split; [by apply exec_Vis|]. cbn [implements]. rewrite Hn. by exists tr1.
    - intros (tr' & (x & tr2 & -> & H1) & H2). cbn [implements] in H2. rewrite Hn in H2.
      destruct H2 as (tr1 & -> & H2). apply exec_Vis, IH. by exists tr2. }
  destruct e as [Y e|Y e|Y e|Y e|Y e|Y e|Y e|Y e|Y e|Y e|Y e|kd o|]; try by apply Hother.
  destruct e; try by apply Hother.
  cbn [with_user_clients]. rewrite exec_bind. clear Hother. split.
  - intros (r & tr1 & tr2 & -> & H1 & (tr' & H2 & H3)%IH).
    exists (Act (Oa (CreateUserClient auth namespace)) (client_error r) :: tr').
    split; [by apply exec_Vis|]. cbn. by exists r, tr1, tr2.
  - intros (tr' & (x & tr2 & -> & H1) & (r & seg & rest & -> & H2 & E & H3)).
    cbn in E. subst x. exists r, seg, rest. split_and!; [done..|]. apply IH. by exists tr2.
Qed.
End composition.

(** ** What a factory does *)

Section lemmas.
Context {W : WorkspaceApi}.

(** The first workspace with the namespace, among those the server listed *)
Definition first_with (ns : string) (items : list Workspace) (name : string) : Prop :=
  exists before ws after, items = before ++ ws :: after /\ ws_Name ws = name /\
    In ns (ws_Namespaces ws) /\ Forall (fun w => ~ In ns (ws_Namespaces w)) before.

Lemma has_namespace ns ws :
  existsb (fun n => String.eqb n ns) (ws_Namespaces ws) = true <-> In ns (ws_Namespaces ws).
Proof.
  rewrite existsb_exists. split; [intros (n & H & ->%String.eqb_eq); done|].
  intros H. exists ns. by rewrite String.eqb_refl.
Qed.

Lemma workspace_of_first ns items :
  match workspace_of ns items with
  | Some name => first_with ns items name
  | None => Forall (fun w => ~ In ns (ws_Namespaces w)) items
  end.
Proof.
  induction items as [|ws items IH]; [constructor|]. cbn [workspace_of].
  pose proof (has_namespace ns ws) as Hn.
  destruct (existsb (fun n => String.eqb n ns) (ws_Namespaces ws)).
  - exists [], ws, items. split_and!; [done..|by apply Hn|constructor].
  - assert (~ In ns (ws_Namespaces ws)) as Hw by (intros H; by apply Hn in H).
    destruct (workspace_of ns items) as [name|]; [|by constructor].
    destruct IH as (before & w & after & -> & <- & Hin & Hb).
    exists (ws :: before), w, after. split_and!; [done..|by constructor].
Qed.

(** A workspace found: one authenticated listing, answered with success *)
Definition listed (apiServer : string) (bearer : option string) (ns name : string) (seg : list act) : Prop :=
  exists resp body items,
    seg = [Act (Cl (AuthenticatedDo bearer (list_request apiServer))) (Ok resp)] /\
    hr_StatusCode resp = StatusOK /\ hr_Body resp = Ok body /\ decode_WorkspaceList body = Ok items /\
    first_with ns items name.

(** Calls that create no client *)
Definition creates (a : act) : option (option RestConfig * ClientOptions * option goerr) :=
  match act_ev a in Ev X return X -> option (option RestConfig * ClientOptions * option goerr) with
  | Cl e =>
      match e in ClientE X return X -> option (option RestConfig * ClientOptions * option goerr) with
      | ClientNew cfg opts => fun r => Some (cfg, opts, r)
      | _ => fun _ => None
      end
  | _ => fun _ => None
  end (act_res a).

Lemma fetchWorkspaceName_exec ctx apiServer ns tr r :
  exec (fetchWorkspaceName ctx apiServer ns) tr r ->
  match r with
  | Ok name => listed apiServer (ctx_BearerToken ctx) ns name tr
  | Err _ => Forall (fun a => creates a = None) tr
  end.
Proof.
  unfold fetchWorkspaceName, fetchAllAvailableWorkspaces. intros H.
  destruct (Parse (apiServer +:+ wsApiPath)) as [u|e]; [|exec_steps; constructor].
  unfold call at 1 in H. cbn [bind] in H. destruct H as (resp & tr' & -> & H).
  destruct resp as [resp|e]; [|exec_steps; by repeat constructor].
  destruct (Z.eqb_spec (hr_StatusCode resp) StatusOK) as [Hc|Hc]; cbn [negb] in H; [|exec_steps; by repeat constructor].
  destruct (hr_Body resp) as [body|e] eqn:Hbody; [|exec_steps; by repeat constructor].
  destruct (decode_WorkspaceList body) as [items|e] eqn:Hd; [|exec_steps; by repeat constructor].
  cbn [bind] in H. pose proof (workspace_of_first ns items) as Hf.
  destruct (workspace_of ns items) as [name|]; destruct H as [-> ->]; [|by repeat constructor].
  by exists resp, body, items.
Qed.
End lemmas.

(** ** The theorems *)

Lemma clientOptions_exec mapper tr r :
  exec (clientOptions mapper) tr r ->
  match r with Ok opts => opts = mkClientOptions mapper | Err _ => True end.
Proof.
  unfold clientOptions. intros ([err|] & tr1 & tr2 & -> & _ & [-> ->])%exec_bind; [done|done].
Qed.

(** The configuration of a client that acts for a user *)
Definition user_rest_config (args : OAuthServiceCliArgs) (url : string) : RestConfig :=
  mkRestConfig url (ApiServerCAPath args) (KubeInsecureTLS args && String.eqb (ApiServerCAPath args) "")
    (Some authPluginName) "".

Lemma api_server_factory_ok args tr f :
  ApiServer args <> "" -> exec (CreateUserAuthClientFactory args) tr (Returns (Ok f)) ->
  exists u, Parse (ApiServer args) = Ok u /\
    f = WorkspaceAwareK8sClientFactory (mkClientOptions user_auth_mapper)
          (user_rest_config args ("https://" +:+ Host u)) (ApiServer args).
Proof.
  intros Ha (o & tr1 & tr2 & -> & H1%clientOptions_exec & H2)%exec_bind.
  destruct o as [opts|e]; [subst opts|by destruct H2].
  apply String.eqb_neq in Ha. rewrite Ha in H2.
  apply exec_bind in H2 as (ca & tr3 & tr4 & -> & H3 & H4).
  destruct ca as [CAFile|e]; [|by destruct H4].
  assert (CAFile = ApiServerCAPath args) as ->.
  { unfold load_ca in H3. destruct (String.eqb_spec (ApiServerCAPath args) "") as [E|E]; cbn [negb] in H3.
    - destruct H3 as [_ [= ->]]. done.
    - unfold call in H3. cbn [bind] in H3. destruct H3 as ([e|] & tr5 & -> & [-> [=]]). done. }
  destruct H4 as [_ H4]. unfold api_server_factory, user_config, setInsecure in H4. unfold user_rest_config.
  destruct (KubeInsecureTLS args && String.eqb (ApiServerCAPath args) ""); cbn [AugmentConfiguration] in H4;
    (destruct (Parse (ApiServer args)) as [u|e]; [|discriminate H4]); injection H4 as ->; by exists u.
Qed.

Section theorems.
Context {W : WorkspaceApi}.

(** A call that creates a client *)
Definition no_client (a : act) : Prop := match creates a with Some (_, _, None) => False | _ => True end.

(** [confined args host tr tr']: for every request of [tr'] for a client of a
    user that is answered with a client, [tr] lists the workspaces with the
    bearer token of that user and creates the client for the path of the
    workspace of the namespace; for a request that is refused it creates none. *)
Fixpoint confined (args : OAuthServiceCliArgs) (host : string) (tr tr' : list act) : Prop :=
  match tr' with
  | [] => tr = []
  | a :: rest' =>
      match asks_client a with
      | Some (auth, ns, None) =>
          exists name url seg rest,
            tr = seg ++ Act (Cl (ClientNew (Some (user_rest_config args url)) (mkClientOptions user_auth_mapper))) None :: rest /\
            listed (ApiServer args) (Some auth) ns name seg /\
            JoinPath ("https://" +:+ host) ["workspaces"; name] = Ok url /\ confined args host rest rest'
      | Some (_, _, Some _) =>
          exists seg rest, tr = seg ++ rest /\ Forall no_client seg /\ confined args host rest rest'
      | None => exists rest, tr = a :: rest /\ confined args host rest rest'
      end
  end.

Lemma creates_none tr : Forall (fun a => creates a = None) tr -> Forall no_client tr.
Proof. apply Forall_impl. intros a H. unfold no_client. by rewrite H. Qed.

(** One request to the factory of an API server *)
Lemma user_client_exec args host auth ns tr r :
  exec (user_client (WorkspaceAwareK8sClientFactory (mkClientOptions user_auth_mapper)
          (user_rest_config args ("https://" +:+ host)) (ApiServer args)) auth ns) tr r ->
  match r with
  | Ok _ => exists name url seg,
      tr = seg ++ [Act (Cl (ClientNew (Some (user_rest_config args url)) (mkClientOptions user_auth_mapper))) None] /\
      listed (ApiServer args) (Some auth) ns name seg /\
      JoinPath ("https://" +:+ host) ["workspaces"; name] = Ok url
  | Err _ => Forall no_client tr
  end.
Proof.
  unfold user_client, user_context. cbn [CreateClient NamespaceFromContext ctx_Namespace NamespaceIntoContext].
  intros (n & tr1 & tr2 & -> & H1%fetchWorkspaceName_exec & H2)%exec_bind.
  destruct n as [name|e]; [|destruct H2 as [-> ->]; rewrite app_nil_r; by apply creates_none].
  assert (Forall no_client tr1) as Hl.
  { destruct H1 as (resp & body & items & -> & _). by repeat constructor. }
  cbn [rc_Host user_rest_config] in H2.
  destruct (JoinPath ("https://" +:+ host) ["workspaces"; name]) as [url|e] eqn:E;
    [|destruct H2 as [-> ->]; by rewrite app_nil_r].
  unfold doCreateClient, new_client, call in H2. cbn [bind] in H2.
  destruct H2 as ([err|] & tr3 & -> & [-> ->]); [apply Forall_app_2; [done|by repeat constructor]|].
  by exists name, url, tr1.
Qed.

(** C23 Isolation of the users' clients.  When the service is started with an
    API server, whatever a handler does (any program of the requests a handler
    makes), the run of the handler with the factory behind it is a run of the
    handler in which every client that acts for a user was created without
    credentials of the service, for the path of the first workspace that the
    API server listed with the namespace of the request, and the listing was
    made with the bearer token of that same user; a refused request creates no
    client. *)
Theorem user_clients_confined {A} (args : OAuthServiceCliArgs) f (p : prog A) tr0 tr a :
  ApiServer args <> "" ->
  exec (CreateUserAuthClientFactory args) tr0 (Returns (Ok f)) ->
  exec (with_user_clients f p) tr a ->
  exists u tr', Parse (ApiServer args) = Ok u /\ exec p tr' a /\ confined args (Host u) tr tr'.
Proof.
  intros Ha (u & Hu & ->)%api_server_factory_ok Hp; [|done].
  apply with_user_clients_exec in Hp as (tr' & Hp & Hi). exists u, tr'. split_and!; [done..|].
  clear Hp. revert tr Hi. induction tr' as [|b tr' IH]; intros tr; [done|]. cbn [implements confined].
  destruct (asks_client b) as [[[auth ns] e]|].
  - intros (r & seg & rest & -> & Hs%user_client_exec & <- & Hi).
    destruct r as [c|err]; cbn [client_error].
    + destruct Hs as (name & url & seg1 & -> & Hl & Hj). exists name, url, seg1, rest.
      rewrite <- app_assoc. split_and!; try done. by apply IH.
    + exists seg, rest. split_and!; try done. by apply IH.
  - intros (rest & -> & Hi). exists rest. split; [done|by apply IH].
Qed.
End theorems.

(** The service's own factory looks at the error only after [setInsecure]
    wrote through the configuration: a configuration that cannot be loaded
    crashes the service instead of being reported exactly in the insecure mode
    without a certificate. *)
Lemma in_cluster_factory_panics args opts text e w :
  in_cluster_factory args opts text (None, Some e) = Panics w <->
  KubeInsecureTLS args = true /\ ApiServerCAPath args = "" /\ w = "cfg.Insecure".
Proof.
  unfold in_cluster_factory, setInsecure. cbn [fst snd].
  destruct (String.eqb_spec (ApiServerCAPath args) "") as [->|Hn], (KubeInsecureTLS args); cbn [andb];
    (split; [intros [=]; by subst|intros (? & ? & ?); by subst]).
Qed.

(** ** The kinds of the mappers

    A mapper that is built from a list cannot find any other kind: every
    object the handlers touch must be listed. *)

Definition kind_name (k : kind) : string :=
  match k with
  | KToken => "SPIAccessToken" | KBinding => "SPIAccessTokenBinding" | KCheck => "SPIAccessCheck"
  | KFile => "SPIFileContentRequest" | KDataUpdate => "SPIAccessTokenDataUpdate" | KSecret => "Secret"
  | KEvent => "Event" | KRemoteSecret => "RemoteSecret" | KEnvironment => "Environment"
  | KApplication => "Application"
  end.

Definition kube_kind {X} (e : KubeE X) : kind :=
  match e with
  | KGet k _ | KList k _ _ _ | KListNotIn k _ _ _ | KCreate k _ | KUpdate k _ | KStatusUpdate k _
  | KPatch k _ _ | KStatusPatch k _ _ | KDelete k _ => k
  end.

Definition knows (mapper : list (string * bool)) (name : string) : bool :=
  existsb (fun m => String.eqb (fst m) name) mapper.

(** What a call needs of the clients: the service's own client for the calls on
    the cluster, the user's client for the calls on behalf of a user.  The token
    storage announces a stored token with an SPIAccessTokenDataUpdate.  Calls of
    the operator alone are not served. *)
Definition served (a : act) : Prop :=
  match act_ev a with
  | Kube e => knows in_cluster_mapper (kind_name (kube_kind e)) = true
  | Oa e =>
      match e with
      | AccessReview _ _ _ _ _ _ => knows user_auth_mapper "SelfSubjectAccessReview" = true
      | UserGet _ k _ | UserUpdate _ k _ => knows user_auth_mapper (kind_name k) = true
      | UserStore _ _ _ _ => knows user_auth_mapper (kind_name KDataUpdate) = true
      | _ => True
      end
  | Now => True
  | _ => False
  end.

Section kinds.
Context {X : Externals} {E : OAuthExternals} (cfg : OAuthServiceConfiguration).

Ltac all_served :=
  repeat (sat_step || lazymatch goal with |- sat _ _ (bind _ _) => sat_seq end); try exact I; try reflexivity.

Lemma random_served n : every served (randStringBytes n).
Proof. unfold every. induction n as [|n IH]; cbn [randStringBytes]; all_served; exact IH. Qed.

Lemma veil_served r : every served (VeilRealState r).
Proof. unfold every, VeilRealState. all_served. apply random_served. Qed.

Lemma check_served s auth ns : every served (checkIdentityHasAccess s auth ns).
Proof.
  destruct s; unfold every; cbn [checkIdentityHasAccess];
    unfold spi_checkIdentityHasAccess, rs_checkIdentityHasAccess; all_served.
Qed.

Lemma obtain_served spType info : every served (obtainOauthConfig cfg spType info).
Proof.
  unfold every, obtainOauthConfig, SpConfigFromUserSecret, findUserServiceProviderConfigSecret. all_served.
Qed.

Lemma find_served cs r veiled : every served (findController cs r veiled).
Proof. unfold every, findController, UnveilState, GetString. all_served. Qed.

Lemma retry_served fn : every served fn -> forall n, every served (RetryOnConflict n fn).
Proof.
  intros Hf n. induction n as [|n IH]; cbn [RetryOnConflict]; (apply every_bind; [exact Hf|]); intros e;
    unfold every in *; all_served; exact IH.
Qed.

Lemma attempt_served auth key data : every served (upload_attempt auth key data).
Proof. unfold every, upload_attempt. all_served. Qed.

Lemma sync_served s x : every served (syncTokenData s x).
Proof.
  destruct s; unfold every; cbn [syncTokenData]; unfold spi_syncTokenData, rs_syncTokenData; all_served.
  apply retry_served, attempt_served.
Qed.

Lemma authenticate_served spType r state : every served (Authenticate cfg spType r state).
Proof.
  unfold Authenticate, GetToken, GetString, render_redirect, set_scopes. unfold every. all_served;
    first [apply check_served|apply veil_served|apply obtain_served].
Qed.

Lemma callback_served spType r state : every served (Callback cfg spType r state).
Proof.
  unfold Callback, finishOAuthExchange, UnveilState, GetTokenFromSession, GetString. unfold every. all_served;
    first [apply sync_served|apply obtain_served].
Qed.

(** C34 The mappers are complete: whatever the environment answers, every call that
    a handler of the service makes is on a kind that the client it uses knows,
    and no handler makes a call that only the operator can serve. *)
Theorem mappers_complete cs name namespace r :
  every served (Authenticate_ServeHTTP cfg cs r) /\ every served (Callback_ServeHTTP cfg cs r) /\
  every served (HandleUpload name namespace r) /\ every served (Login r) /\ every served Logout.
Proof.
  split_and!; unfold every.
  - unfold Authenticate_ServeHTTP. sat_seq; [apply find_served|]. all_served. apply authenticate_served.
  - unfold Callback_ServeHTTP, StateVeiledAt, GetInt64. sat_seq; [apply find_served|]. all_served.
    apply callback_served.
  - unfold HandleUpload, Upload. all_served.
  - unfold Login. all_served.
  - unfold Logout. all_served.
Qed.
End kinds.

(** ** Concrete runs *)

(** A cluster whose API server lists one workspace *)
#[export] Instance one_workspace : WorkspaceApi :=
  { decode_WorkspaceList := fun body => Ok [mkWorkspace "other" []; mkWorkspace body ["dev"; "ns"]] }.
Definition sample_args : OAuthServiceCliArgs :=
  mkOAuthArgs "0.0.0.0:8000" "" "" true "https://api.example.com:6443" "" "".
Definition sample_factory : K8sClientFactory :=
  WorkspaceAwareK8sClientFactory (mkClientOptions user_auth_mapper)
    (user_rest_config sample_args "https://api.example.com:6443") "https://api.example.com:6443".

Definition with_workspaces : handler (gmap string session_value * gmap string SyncStrategy) := fun T e =>
  match e in Ev T return _ -> _ * T with
  | Cl ce =>
      match ce in ClientE T return _ -> _ * T with
      | AuthenticatedDo _ _ => fun w => (w, Ok (mkHttpResponse 200 (Ok "team")))
      | ce' => fun w => (w, client_answer ce')
      end
  | e' => serve _ e'
  end.
Definition ws_trace {A} (p : prog A) : list act := (run_trace with_workspaces p (∅, ∅)).1.1.
Definition ws_result {A} (p : prog A) : A := (run_trace with_workspaces p (∅, ∅)).1.2.

Lemma user_clients_confined_witness :
  let p := Upload "t0ken" "obj" "ns" (mkToken "" "secret" "" "" 0) in
  exists u tr', Parse (ApiServer sample_args) = Ok u /\ exec p tr' None /\
    confined sample_args (Host u) (ws_trace (with_user_clients sample_factory p)) tr'.
Proof.
  intros p. apply (user_clients_confined sample_args sample_factory p (ws_trace (CreateUserAuthClientFactory sample_args))).
  - discriminate.
  - exact (run_trace_exec with_workspaces (CreateUserAuthClientFactory sample_args) (∅, ∅)).
  - exact (run_trace_exec with_workspaces (with_user_clients sample_factory p) (∅, ∅)).
Defined.

(** The client of that upload *)
Example upload_client :
  omap creates (ws_trace (with_user_clients sample_factory (Upload "t0ken" "obj" "ns" (mkToken "" "secret" "" "" 0)))) =
  [(Some (mkRestConfig "https://api.example.com:6443/workspaces/team" "" true (Some authPluginName) ""),
    mkClientOptions user_auth_mapper, None)].
Proof. vm_compute. reflexivity. Qed.

(** The help text of the argument says host:port: its host part is then read as
    the scheme of the URL, and the clients address no host. *)
Definition host_port_args : OAuthServiceCliArgs := mkOAuthArgs "" "" "" false "api.example.com:6443" "" "".
Lemma api_server_needs_scheme :
  exec (CreateUserAuthClientFactory host_port_args) (ws_trace (CreateUserAuthClientFactory host_port_args))
    (Returns (Ok (WorkspaceAwareK8sClientFactory (mkClientOptions user_auth_mapper)
      (user_rest_config host_port_args "https://") "api.example.com:6443"))).
Proof. exact (run_trace_exec with_workspaces (CreateUserAuthClientFactory host_port_args) (∅, ∅)). Qed.
