(* ===== verification/StartUp.v ===== *)
(** * Starting the two processes

    The configuration is read from a file and the command line; the OAuth
    service builds its clients, storages and router before it listens
    (cmd/oauth), and the operator registers its controllers with the manager
    (controllers/starter.go).  The server and the manager themselves are
    third-party: [main] answers what it hands over to them. *)

From S2P Require Import Prelude GoStd GoUrl Api Externals SpErrors Effects SpConfig Samples TokenStorage.
From S2P Require Import OAuthSync OAuthService ClientFactory.
Local Open Scope string_scope.
Local Open Scope list_scope.
Local Open Scope spi_scope.

(** ** Command lines: the arguments of cmd/, cmd/operator/operatorcli and the
    configuration file of remote-secret's arguments *)

Record CommonCliArgs := mkCommonArgs {
  ConfigFile : string; AllowInsecureURLs : bool; MetricsAddr : string; ProbeAddr : string;
  BaseUrl : string; DisableHTTP2 : bool }.

Record OperatorCliArgs := mkOperatorArgs {
  oca_Common : CommonCliArgs;
  EnableLeaderElection : bool; TokenMetadataCacheTtl : Z; TokenLifetimeDuration : Z;
  BindingLifetimeDuration : Z; AccessCheckLifetimeDuration : Z; FileRequestLifetimeDuration : Z;
  TokenMatchPolicy : string; DeletionGracePeriod : Z; MaxFileDownloadSize : Z; EnableTokenUpload : bool }.

(** Third-party: yaml.Unmarshal into a persistedConfiguration, and
    rconfig.ValidateStruct of the service's configuration *)
Class StartExternals := {
  decode_yaml : string -> res persistedConfiguration;
  ValidateService : OAuthServiceConfiguration -> option goerr }.

Section startup.
Context {X : Externals} {S : StartExternals} {E : OAuthExternals} {W : WorkspaceApi}.

(** ** pkg/spi-shared/config/config.go: reading the file *)

Definition readFrom (path : string) : prog (res persistedConfiguration) :=
  let! bytes := call (St (OsReadAll path)) in
  match bytes with
  | Err err => Ret (Err (Errorf_w "error reading the config file" err))
  | Ok bytes =>
      match decode_yaml bytes with
      | Err err => Ret (Err (Errorf_w "error parsing the config file as YAML" err))
      | Ok conf => Ret (Ok conf)
      end
  end.

Definition loadFrom (path : string) : prog (res persistedConfiguration) :=
  let! err := call (St (OsOpen path)) in
  match err with
  | Some err => Ret (Err (Errorf_w ("error opening the config file from " +:+ path) err))
  | None => readFrom path
  end.

(** config.LoadFrom *)
Definition config_LoadFrom (configFilePath baseUrl : string) : prog (res SharedConfiguration) :=
  let! pcfg := loadFrom configFilePath in Ret (SpConfig.LoadFrom pcfg baseUrl).

(** cmd/operator/operator.go: LoadFrom *)
Definition operator_LoadFrom (args : OperatorCliArgs) : prog (res OperatorConfiguration) :=
  let! baseCfg := config_LoadFrom (ConfigFile (oca_Common args)) (BaseUrl (oca_Common args)) in
  match baseCfg with
  | Err err =>
      Ret (Err (Errorf_w ("failed to load the configuration file from " +:+ ConfigFile (oca_Common args)) err))
  | Ok baseCfg =>
      Ret (Ok (mkOpConfig baseCfg (TokenMetadataCacheTtl args) (AccessCheckLifetimeDuration args)
        (TokenLifetimeDuration args) (BindingLifetimeDuration args) (FileRequestLifetimeDuration args)
        (TokenMatchPolicy args) (DeletionGracePeriod args) (MaxFileDownloadSize args) (EnableTokenUpload args)))
  end.

(** ** cmd/oauth/oauth.go *)

Definition loadOAuthServiceConfiguration (common : CommonCliArgs) (args : OAuthServiceCliArgs)
  : prog (res OAuthServiceConfiguration) :=
  let! baseCfg := config_LoadFrom (ConfigFile common) (BaseUrl common) in
  match baseCfg with
  | Err err => Ret (Err (Errorf_w ("failed to load the configuration from file " +:+ ConfigFile common) err))
  | Ok baseCfg =>
      let cfg := mkServiceConfig baseCfg (OAuthRedirectProxyUrl args) in
      match ValidateService cfg with
      | Some err => Ret (Err (Errorf_w "oauth service configuration validation failed" err))
      | None => Ret (Ok cfg)
      end
  end.

(** The handlers of the routes; [CSP] is CSPHandler around one. *)
Inductive target :=
| OkHandler | LoginRoute | LogoutRoute | UploadRoute | CallbackSuccessHandler | CallbackErrorHandler
| CallbackRoute | AuthenticateRoute | CSPHandler (h : target).

(** A route: its path, the pairs its query must match, its handler and its
    methods (none: every method) *)
Record route := mkRoute {
  rt_Path : string; rt_Queries : list (string * string); rt_Handler : target; rt_Methods : list string }.

Definition routes : list route :=
  [mkRoute "/health" [] OkHandler ["GET"];
   mkRoute "/ready" [] OkHandler ["GET"];
   mkRoute "/login" [] LoginRoute ["POST"];
   mkRoute "/logout" [] LogoutRoute ["POST"];
   mkRoute "/token/{namespace}/{name}" [] UploadRoute ["POST"];
   mkRoute "/callback_success" [] (CSPHandler CallbackSuccessHandler) ["GET"];
   mkRoute CallBackRoutePath [("error", ""); ("error_description", "")] (CSPHandler CallbackErrorHandler) [];
   mkRoute CallBackRoutePath [] CallbackRoute [];
   mkRoute AuthenticateRoutePath [] (CSPHandler AuthenticateRoute) ["GET"; "POST"]].

(** What [main] serves *)
Record Server := mkServer {
  sv_Addr : string; sv_AllowedOrigins : list string; sv_Configuration : OAuthServiceConfiguration;
  sv_InCluster : Client; sv_UserClients : K8sClientFactory; sv_Controllers : list ServiceProviderType;
  sv_Routes : list route; sv_DisableHTTP2 : bool }.

(** Where [main] gets to: it crashes, exits with a code, or serves *)
Inductive started := Crashed (what : string) | Exited (code : Z) | Serving (s : Server).

(** A step of [main] that exits on an error *)
Definition or_exit {A} (p : prog (res A)) (k : A -> prog started) : prog started :=
  let! r := p in
  match r with Err _ => Ret (Exited 1) | Ok a => k a end.

Definition unless_error (e : option goerr) : res unit := match e with Some err => Err err | None => Ok tt end.

(** [unless_error] of a call *)
Definition checked (e : Ev (option goerr)) : prog (res unit) :=
  let! r := call e in Ret (unless_error r).

(** A factory that may crash the process *)
Definition or_crash {A} (p : prog (go (res A))) (k : A -> prog started) : prog started :=
  let! r := p in
  match r with
  | Panics w => Ret (Crashed w)
  | Returns (Err _) => Ret (Exited 1)
  | Returns (Ok a) => k a
  end.

Definition main (common : CommonCliArgs) (args : OAuthServiceCliArgs) : prog started :=
  or_exit (checked (St (SetupCustomValidations (AllowInsecureURLs common)))) (fun _ =>
  or_exit (loadOAuthServiceConfiguration common args) (fun cfg =>
  or_crash (CreateInClusterClientFactory args) (fun inClusterK8sClientFactory =>
  or_exit (CreateClient inClusterK8sClientFactory Background) (fun inClusterK8sClient =>
  or_exit (checked (St CreateInitializedSecretStorage)) (fun _ =>
  or_exit (let! e := DefaultTokenStorage.Initialize in Ret (unless_error e)) (fun _ =>
  or_crash (CreateUserAuthClientFactory args) (fun userAuthK8sClientFactory =>
  or_exit (checked (St (ParseFiles "static/redirect_notice.html"))) (fun _ =>
  or_exit (Ret (NewRouter cfg SupportedServiceProviderTypes)) (fun controllers =>
    Ret (Serving (mkServer (ServiceAddr args) (Split (AllowedOrigins args) ",") cfg inClusterK8sClient
      userAuthK8sClientFactory controllers routes (DisableHTTP2 common)))))))))))).

(** ** oauth/handlers.go: what is common to all routes *)

(** BypassHandler: a request whose path has one of the prefixes goes to the
    second handler *)
Fixpoint bypassed (path : string) (bypassPathPrefixes : list string) : bool :=
  match bypassPathPrefixes with
  | [] => false
  | p :: rest => if HasPrefix path p then true else bypassed path rest
  end.
Definition BypassHandler {H} (mainHandler : H) (bypassPathPrefixes : list string) (bypassHandler : H)
  (path : string) : H :=
  if bypassed path bypassPathPrefixes then bypassHandler else mainHandler.

(** MiddlewareHandler: metrics, logging and CORS for all but the probes; the
    third-party handlers are [middleware] *)
Definition MiddlewareHandler {H} (middleware : H -> H) (h : H) (path : string) : H :=
  BypassHandler (middleware h) ["/health"; "/ready"] h path.

Definition csp : string :=
  "default-src 'none'; style-src 'unsafe-inline'; img-src https://*.redhat.com; frame-ancestors 'none';".
Fixpoint csp_headers (h : target) : list (string * string) :=
  match h with CSPHandler h => ("Content-Security-Policy", csp) :: csp_headers h | _ => [] end.

(** ** controllers/starter.go

    The token storage of a controller is the default one, or the one that
    announces what is written for objects of a kind. *)
Definition default_storage := "token".
Definition notifying (kind : string) := "notifying " +:+ kind.

(** The steps after the first failure are not made. *)
Fixpoint in_order (steps : list (prog (option goerr))) : prog (option goerr) :=
  match steps with
  | [] => Ret None
  | p :: rest => let! e := p in match e with Some err => Ret (Some err) | None => in_order rest end
  end.

Definition wrapping (text : string) (p : prog (option goerr)) : prog (option goerr) :=
  let! e := p in Ret (option_map (Errorf_w text) e).

Definition setup (controller : string) (storage : option string) : prog (option goerr) :=
  call (St (SetupWithManager controller storage)).

Definition setup_upload : list (prog (option goerr)) :=
  [wrapping "failed to initialize the notifying token storage" DefaultTokenStorage.Initialize;
   wrapping "failed to initialize the notifying remote secret storage"
     (call (St (InitializeStorage (notifying "RemoteSecret"))));
   setup "TokenUpload" (Some (notifying "SPIAccessToken"))].

Definition SetupAllReconcilers (cfg : OperatorConfiguration) : prog (option goerr) :=
  in_order
    ([wrapping "failed to initialize the token storage" DefaultTokenStorage.Initialize;
      wrapping "failed to initialize the remote secret storage" (call (St (InitializeStorage "RemoteSecret")));
      wrapping "failed to register the metrics with k8s metrics registry" (call (St RegisterCommonMetrics));
      setup "SPIAccessToken" (Some default_storage);
      setup "SPIAccessTokenBinding" (Some default_storage);
      setup "SPIAccessTokenDataUpdate" None;
      setup "SPIAccessCheck" None;
      setup "SPIFileContentRequest" None;
      setup "Application" None;
      setup "Environment" None;
      setup "RemoteSecretOAuth" None]
     ++ (if opc_EnableTokenUpload cfg then setup_upload else [])).
End startup.

(** ** Lemmas *)

Section lemmas.
Context {X : Externals} {S : StartExternals} {E : OAuthExternals} {W : WorkspaceApi}.

Lemma or_exit_serving {A} (p : prog (res A)) k tr s :
  exec (or_exit p k) tr (Serving s) ->
  exists a tr1 tr2, tr = tr1 ++ tr2 /\ exec p tr1 (Ok a) /\ exec (k a) tr2 (Serving s).
Proof.
  intros (r & tr1 & tr2 & -> & H1 & H2)%exec_bind. destruct r as [a|e]; [eauto 6|by destruct H2].
Qed.

Lemma or_crash_serving {A} (p : prog (go (res A))) k tr s :
  exec (or_crash p k) tr (Serving s) ->
  exists a tr1 tr2, tr = tr1 ++ tr2 /\ exec p tr1 (Returns (Ok a)) /\ exec (k a) tr2 (Serving s).
Proof.
  intros (r & tr1 & tr2 & -> & H1 & H2)%exec_bind.
  destruct r as [[a|e]|w]; [eauto 6|by destruct H2|by destruct H2].
Qed.

(** The host of a configuration of the type [t] *)
Definition provider_host (t : ServiceProviderType) (sp : ServiceProviderConfiguration) : res string :=
  if String.eqb (spc_BaseUrl sp) "" then Ok (spt_DefaultHost t)
  else match Parse (spc_BaseUrl sp) with Ok u => Ok (Host u) | Err err => Err err end.
Definition of_type (t : ServiceProviderType) (sp : ServiceProviderConfiguration) : bool :=
  String.eqb (spt_Name (spc_Type sp)) (spt_Name t).

(** Distinct hosts, none of them among [seen] *)
Definition distinct_hosts (t : ServiceProviderType) (seen : list string) (sps : list ServiceProviderConfiguration) : Prop :=
  exists hosts, map (provider_host t) (List.filter (of_type t) sps) = map Ok hosts /\
    List.NoDup hosts /\ forall h, In h hosts -> ~ In h seen.

Lemma check_hosts_distinct t sps : forall seen, check_hosts t seen sps = None -> distinct_hosts t seen sps.
Proof.
  induction sps as [|sp sps IH]; intros seen; cbn [check_hosts].
  { intros _. exists []. split_and!; [done|constructor|done]. }
  unfold distinct_hosts. cbn [List.filter]. unfold of_type at 1.
  destruct (String.eqb (spt_Name (spc_Type sp)) (spt_Name t)); cbn [negb]; [|apply IH].
  change (if String.eqb (spc_BaseUrl sp) "" then Ok (spt_DefaultHost t)
          else match Parse (spc_BaseUrl sp) with Ok u => Ok (Host u) | Err err => Err err end)
    with (provider_host t sp).
  destruct (provider_host t sp) as [h|e] eqn:Eh; [|done].
  destruct (existsb (String.eqb h) seen) eqn:Es; [done|]. intros (hosts & H1 & H2 & H3)%IH.
  exists (h :: hosts). split_and!.
  - cbn [map]. by rewrite Eh, H1.
  - constructor; [|done]. intros Hin. by apply (H3 h Hin); left.
  - intros h' [<-|Hin] Hs; [|by apply (H3 h' Hin); right].
    assert (existsb (String.eqb h) seen = true); [|congruence].
    apply existsb_exists. exists h. by rewrite String.eqb_refl.
Qed.

Lemma NewRouter_ok cfg ts cs : NewRouter cfg ts = Ok cs ->
  cs = ts /\ Forall (fun t => distinct_hosts t [] (sc_ServiceProviders (osc_Shared cfg))) ts.
Proof.
  revert cs. induction ts as [|t ts IH]; intros cs; cbn [NewRouter].
  { intros [= <-]. split; [done|constructor]. }
  unfold InitController. destruct (check_hosts t [] _) as [e|] eqn:Ec; [done|].
  destruct (NewRouter cfg ts) as [cs'|e]; cbn [rbind]; [|done]. intros [= <-].
  destruct (IH cs' eq_refl) as [-> HF]. split; [done|]. constructor; [|done]. by apply check_hosts_distinct.
Qed.

Lemma config_LoadFrom_exec path baseUrl tr cfg :
  exec (config_LoadFrom path baseUrl) tr (Ok cfg) ->
  exists bytes pcfg, In (Act (St (OsReadAll path)) (Ok bytes)) tr /\ decode_yaml bytes = Ok pcfg /\
    SpConfig.LoadFrom (Ok pcfg) baseUrl = Ok cfg.
Proof.
  intros (r & tr1 & tr2 & -> & H1 & [-> H2])%exec_bind. rewrite app_nil_r.
  unfold loadFrom, readFrom, call in H1. cbn [bind] in H1.
  destruct H1 as ([e|] & tr3 & -> & H1); [destruct H1 as [-> ->]; discriminate H2|].
  destruct H1 as ([bytes|e] & tr4 & -> & H1); [|destruct H1 as [-> ->]; discriminate H2].
  destruct (decode_yaml bytes) as [pcfg|e] eqn:Ey; destruct H1 as [-> ->]; [|discriminate H2].
  exists bytes, pcfg. split_and!; [right; by left|done|by symmetry].
Qed.

Lemma loadOAuth_exec common args tr cfg :
  exec (loadOAuthServiceConfiguration common args) tr (Ok cfg) ->
  ValidateService cfg = None /\ osc_RedirectProxyUrl cfg = OAuthRedirectProxyUrl args /\
  exists bytes pcfg, In (Act (St (OsReadAll (ConfigFile common))) (Ok bytes)) tr /\ decode_yaml bytes = Ok pcfg /\
    SpConfig.LoadFrom (Ok pcfg) (BaseUrl common) = Ok (osc_Shared cfg).
Proof.
  intros (r & tr1 & tr2 & -> & H1 & H2)%exec_bind. destruct r as [base|e]; [|by destruct H2].
  cbn zeta in H2. destruct (ValidateService _) as [e|] eqn:Ev; destruct H2 as [-> H2]; [discriminate H2|].
  apply Ok_inj in H2. subst cfg. rewrite app_nil_r.
  split_and!; [done..|]. by apply config_LoadFrom_exec.
Qed.

(** The factory without an API server: the configuration of the cluster,
    augmented *)
Lemma user_factory_in_cluster args tr f :
  ApiServer args = "" -> exec (CreateUserAuthClientFactory args) tr (Returns (Ok f)) ->
  exists cfg, f = UserAuthK8sClientFactory (mkClientOptions user_auth_mapper) (Some cfg) /\
    rc_AuthProvider cfg = Some authPluginName.
Proof.
  intros Ha (o & tr1 & tr2 & -> & H1%clientOptions_exec & H2)%exec_bind.
  destruct o as [opts|e]; [subst opts|by destruct H2]. rewrite Ha in H2.
  cbn [String.eqb] in H2. change (String.eqb "" "") with true in H2. cbv iota in H2.
  unfold call in H2. cbn [bind] in H2. destruct H2 as ([cfg e] & tr3 & -> & H2).
  destruct e as [e|]; [by destruct H2|].
  unfold user_config in H2. destruct (setInsecure args cfg) as [[c|]|w]; cbn [AugmentConfiguration] in H2;
    [|by destruct H2..].
  destruct H2 as [_ [= ->]]. by eexists.
Qed.
End lemmas.

(** ** Theorems *)

Section theorems.
Context {X : Externals} {S : StartExternals} {E : OAuthExternals} {W : WorkspaceApi}.

(** What a service that serves was started with *)
Record well_started (common : CommonCliArgs) (args : OAuthServiceCliArgs) (tr : list act) (s : Server) : Prop := {
  ws_file : exists bytes pcfg, In (Act (St (OsReadAll (ConfigFile common))) (Ok bytes)) tr /\
    decode_yaml bytes = Ok pcfg /\ SpConfig.LoadFrom (Ok pcfg) (BaseUrl common) = Ok (osc_Shared (sv_Configuration s));
  ws_valid : ValidateService (sv_Configuration s) = None;
  ws_types : sv_Controllers s = SupportedServiceProviderTypes;
  ws_hosts : Forall (fun t => distinct_hosts t [] (sc_ServiceProviders (osc_Shared (sv_Configuration s))))
    SupportedServiceProviderTypes;
  ws_service_client : exists cfg, cl_Options (sv_InCluster s) = mkClientOptions in_cluster_mapper /\
    cl_Config (sv_InCluster s) = cfg /\ In (Act (Cl (ClientNew cfg (mkClientOptions in_cluster_mapper))) None) tr;
  ws_user_clients :
    (ApiServer args = "" /\ exists cfg, rc_AuthProvider cfg = Some authPluginName /\
       sv_UserClients s = UserAuthK8sClientFactory (mkClientOptions user_auth_mapper) (Some cfg)) \/
    (ApiServer args <> "" /\ exists u, Parse (ApiServer args) = Ok u /\
       sv_UserClients s = WorkspaceAwareK8sClientFactory (mkClientOptions user_auth_mapper)
         (user_rest_config args ("https://" +:+ Host u)) (ApiServer args)) }.

Lemma in_cluster_exec args tr f :
  exec (CreateInClusterClientFactory args) tr (Returns (Ok f)) ->
  exists cfg, f = InClusterK8sClientFactory (mkClientOptions in_cluster_mapper) cfg.
Proof.
  intros (o & tr1 & tr2 & -> & H1%clientOptions_exec & H2)%exec_bind.
  destruct o as [opts|e]; [subst opts|by destruct H2].
  assert (forall text a, in_cluster_factory args (mkClientOptions in_cluster_mapper) text a = Returns (Ok f) ->
            exists cfg, f = InClusterK8sClientFactory (mkClientOptions in_cluster_mapper) cfg) as Hf.
  { intros text a. unfold in_cluster_factory. destruct (setInsecure args a.1) as [c|w]; [|done].
    destruct a.2; [done|]. intros [= <-]. by eexists. }
  destruct (negb _); unfold call in H2; cbn [bind] in H2; destruct H2 as (a & tr3 & -> & [_ H2]);
    symmetry in H2; by apply Hf in H2.
Qed.

(** C35 The service listens only when it is completely configured.  Whenever [main]
    reaches the server, the configuration it serves with was read from the file
    of the arguments, converted and validated; there is a controller for every
    supported provider and for none of them do two configurations share a host;
    the service's own client knows only the kinds of the service; and the
    clients of users come from the factory that fits the arguments, always with
    the authentication of the request. *)
Theorem main_well_started common args tr s :
  exec (main common args) tr (Serving s) -> well_started common args tr s.
Proof.
  unfold main. intros H.
  apply or_exit_serving in H as (u1 & t1 & r1 & -> & _ & H).
  apply or_exit_serving in H as (cfg & t2 & r2 & -> & Hcfg & H).
  apply or_crash_serving in H as (fac & t3 & r3 & -> & Hfac & H).
  apply or_exit_serving in H as (cl & t4 & r4 & -> & Hcl & H).
  apply or_exit_serving in H as (u2 & t5 & r5 & -> & _ & H).
  apply or_exit_serving in H as (u3 & t6 & r6 & -> & _ & H).
  apply or_crash_serving in H as (uf & t7 & r7 & -> & Huf & H).
  apply or_exit_serving in H as (u4 & t8 & r8 & -> & _ & H).
  apply or_exit_serving in H as (cs & t9 & r9 & -> & [_ Hcs] & H).
  destruct H as [_ [= ->]]. symmetry in Hcs. apply NewRouter_ok in Hcs as [-> Hd].
  apply loadOAuth_exec in Hcfg as (Hv & _ & bytes & pcfg & Hr & Hy & Hl).
  apply in_cluster_exec in Hfac as (c & ->). constructor; cbn; try done.
  - exists bytes, pcfg. split_and!; try done. apply in_app_iff. right. apply in_app_iff. by left.
  - unfold CreateClient, new_client, call in Hcl. cbn [bind] in Hcl.
    destruct Hcl as ([e|] & tr' & -> & [-> Hcl]); [discriminate Hcl|]. apply Ok_inj in Hcl. subst cl.
    exists c. split_and!; try done. rewrite !in_app_iff. right. right. right. left. by left.
  - destruct (String.eqb_spec (ApiServer args) "") as [Ea|Ea]; [left|right]; (split; [done|]).
    + destruct (user_factory_in_cluster args t7 uf Ea Huf) as (c' & -> & Hp). by exists c'.
    + destruct (api_server_factory_ok args t7 uf Ea Huf) as (u & Hu & ->). by exists u.
Qed.

(** The controllers the operator registers, in order *)
Definition registered (tr : list act) : list (string * option string) :=
  omap (fun a => match act_ev a in Ev Y return Y -> option (string * option string) with
                 | St e => match e in StartE Y return Y -> option (string * option string) with
                           | SetupWithManager c s => fun r => match r with None => Some (c, s) | Some _ => None end
                           | _ => fun _ => None
                           end
                 | _ => fun _ => None
                 end (act_res a)) tr.
End theorems.

(** A run of the steps that fails with no step *)
Lemma in_order_None steps tr :
  exec (in_order steps) tr None ->
  exists trs, tr = concat trs /\ Forall2 (fun p t => exec p t None) steps trs.
Proof.
  revert tr. induction steps as [|p steps IH]; intros tr; cbn [in_order].
  { intros [-> _]. exists []. by split. }
  intros (e & tr1 & tr2 & -> & H1 & H2)%exec_bind. destruct e as [e|]; [by destruct H2|].
  destruct (IH _ H2) as (trs & -> & HF). exists (tr1 :: trs). split; [done|]. by constructor.
Qed.

Lemma registered_app t1 t2 : registered (t1 ++ t2) = registered t1 ++ registered t2.
Proof. apply omap_app. Qed.

(** What a step of the operator's start registers *)
Inductive step_registers : prog (option goerr) -> list (string * option string) -> Prop :=
| registers_one c s : step_registers (setup c s) [(c, s)]
| registers_call text e : (forall r, registered [Act (St e) r] = []) ->
    step_registers (wrapping text (call (St e))) []
| registers_nothing text : step_registers (wrapping text DefaultTokenStorage.Initialize) [].

Lemma step_registers_exec p t l : step_registers p l -> exec p t None -> registered t = l.
Proof.
  intros [c s|text e He|text] H.
  - destruct H as (r & t' & -> & [-> <-]). done.
  - apply exec_bind_ret in H as (r & H & Hr). destruct H as (r' & t' & -> & [-> <-]). apply He.
  - apply exec_bind_ret in H as (r & [-> _] & Hr). done.
Qed.

Definition core_controllers : list (string * option string) :=
  [("SPIAccessToken", Some default_storage); ("SPIAccessTokenBinding", Some default_storage);
   ("SPIAccessTokenDataUpdate", None); ("SPIAccessCheck", None); ("SPIFileContentRequest", None);
   ("Application", None); ("Environment", None); ("RemoteSecretOAuth", None)].

(** All controllers or an error: when the registration succeeds, every
    controller of the operator is registered, once and in this order; the upload
    controller exactly when uploads are enabled, and it is the only one whose
    token storage announces its writes. *)
Theorem all_reconcilers {X : Externals} cfg tr :
  exec (SetupAllReconcilers cfg) tr None ->
  registered tr =
    core_controllers ++ (if opc_EnableTokenUpload cfg then [("TokenUpload", Some (notifying "SPIAccessToken"))] else []).
Proof.
  intros (trs & -> & HF)%in_order_None.
  assert (forall ps ts, Forall2 (fun p t => exec p t None) ps ts -> forall ls,
            Forall2 step_registers ps ls -> registered (concat ts) = concat ls) as Hall.
  { induction 1 as [|p t ps ts Hp _ IH]; intros ls HF2; inversion HF2 as [|? l ? ls' Hl Hls]; subst; [done|].
    cbn [concat]. by rewrite registered_app, (step_registers_exec p t l), (IH ls'). }
  assert (forall c s, step_registers (setup c s) [(c, s)]) as Hset by constructor.
  set (core := map (fun x => [x]) core_controllers).
  destruct (opc_EnableTokenUpload cfg).
  - rewrite (Hall _ _ HF ([[]; []; []] ++ core ++ [[]; []; [("TokenUpload", Some (notifying "SPIAccessToken"))]]));
      [done|]. repeat (constructor; [first [apply Hset|by constructor]|]). constructor.
  - rewrite (Hall _ _ HF ([[]; []; []] ++ core)); [done|].
    repeat (constructor; [first [apply Hset|by constructor]|]). constructor.
Qed.

(** ** A concrete start *)

#[export] Instance sample_start : StartExternals :=
  {| decode_yaml := fun _ => Ok sample_persisted; ValidateService := fun _ => None |}.
Definition sample_common : CommonCliArgs := mkCommonArgs "/etc/spi/config.yaml" false ":8080" ":8081" "https://spi.example.com/" true.

Definition start_result : started := ws_result (main sample_common sample_args).

Lemma main_well_started_witness :
  exists s, start_result = Serving s /\
    well_started sample_common sample_args (ws_trace (main sample_common sample_args)) s.
Proof.
  destruct start_result as [w|c|s] eqn:Es; [exfalso; vm_compute in Es; discriminate Es..|].
  exists s. split; [reflexivity|]. apply (main_well_started sample_common sample_args).
  rewrite <- Es. exact (run_trace_exec with_workspaces (main sample_common sample_args) (∅, ∅)).
Defined.

Lemma all_reconcilers_witness :
  registered (ws_trace (SetupAllReconcilers (mkOpConfig (mkSharedConfig [] "") 0 0 0 0 0 "" 0 0 true))) !! 8 =
  Some ("TokenUpload", Some (notifying "SPIAccessToken")).
Proof.
  rewrite (all_reconcilers (mkOpConfig (mkSharedConfig [] "") 0 0 0 0 0 "" 0 0 true)
    (ws_trace (SetupAllReconcilers (mkOpConfig (mkSharedConfig [] "") 0 0 0 0 0 "" 0 0 true))));
    [reflexivity|].
  exact (run_trace_exec with_workspaces
    (SetupAllReconcilers (mkOpConfig (mkSharedConfig [] "") 0 0 0 0 0 "" 0 0 true)) (∅, ∅)).
Defined.
