(* ===== verification/Processes.v ===== *)
(** * The two processes

    main and createManager of cmd/operator/operator.go, and the end of main of
    cmd/oauth/oauth.go, where the server of [StartUp] listens and is shut down.
    The result of a process is its exit code. *)

From S2P Require Import Prelude GoStd GoUrl Api Externals SpErrors Effects Samples SpConfig TokenStorage OAuthSync OAuthService ClientFactory StartUp.
Local Open Scope string_scope.
Local Open Scope list_scope.
Local Open Scope spi_scope.

(** ** cmd/cli.go *)

Definition http1_only : list string := ["http/1.1"].
Definition TLSConfigWithDisabledHTTP2 : option (list string) := Some http1_only.

Section processes.
Context {X : Externals} {S : StartExternals}.

(** ** cmd/operator/operator.go *)

Definition manager_options (args : OperatorCliArgs) : ManagerOptions :=
mkManagerOptions (MetricsAddr (oca_Common args)) (ProbeAddr (oca_Common args)) (EnableLeaderElection args)
  "f5c55e16.appstudio.redhat.org"
  (if DisableHTTP2 (oca_Common args) then http1_only else []).

(** [None]: GetConfigOrDie ended the process *)
Definition createManager (args : OperatorCliArgs) : prog (option (res unit)) :=
let! restConfig := call (St GetConfigOrDie) in
match restConfig with
| None => Ret None
| Some restConfig =>
    let! err := call (St (NewManager restConfig (manager_options args))) in
    Ret (Some match err with Some err => Err (Errorf_w "failed to create manager" err) | None => Ok tt end)
end.

(** An error is logged and ends the process. *)
Definition step (p : prog (option goerr)) (k : prog Z) : prog Z :=
let! err := p in match err with Some _ => Ret 1%Z | None => k end.

Definition operator_main (args : OperatorCliArgs) : prog Z :=
step (call (St (SetupCustomValidations (AllowInsecureURLs (oca_Common args))))) (
let! mgr := createManager args in
match mgr with
| None | Some (Err _) => Ret 1%Z
| Some (Ok _) =>
    let! cfg := operator_LoadFrom args in
    match cfg with
    | Err _ => Ret 1%Z
    | Ok cfg =>
        step (call (St CreateInitializedSecretStorage)) (
        step (SetupAllReconcilers cfg) (
        step (call (St (AddHealthzCheck "healthz"))) (
        step (call (St (AddReadyzCheck "readyz"))) (
        step (call (St ManagerStart)) (Ret 0%Z)))))
    end
end).

(** ** cmd/oauth/oauth.go: the server *)

Definition os_ErrNotExist : string := "file does not exist".

(** The goroutine that listens: with TLS unless there is no certificate *)
Definition listen (s : Server) : prog (option goerr) :=
let! err := call (St (OsStat "/etc/spi/tls.crt")) in
let plain := match err with Some err => errors_Is err os_ErrNotExist | None => false end in
call (St (ListenAndServe (sv_Addr s) (if plain then None else Some ("/etc/spi/tls.crt", "/etc/spi/tls.key"))
  (if sv_DisableHTTP2 s then TLSConfigWithDisabledHTTP2 else None))).

(** What main does meanwhile *)
Definition await_shutdown : prog Z :=
let! _ := call (St AwaitInterrupt) in
let! err := call (St (Shutdown (5 * Second))) in
Ret match err with Some _ => 1%Z | None => 0%Z end.

(** ** oauth/metrics/server.go: the server of the metrics, beside the other one

    The goroutine that listens, and the one that waits for the interrupt; a
    failure of either is only logged. *)
Definition metrics_listen (address : string) : prog (option goerr) := call (St (ListenAndServe address None None)).
Definition ServeMetrics : prog unit :=
let! _ := call (St AwaitInterrupt) in
let! _ := call (St (Shutdown (5 * Second))) in
Ret tt.
End processes.

(** ** What the operator's process does *)

Definition started_manager (a : act) : option (option goerr) :=
  match act_ev a in Ev Y return Y -> option (option goerr) with
  | St e => match e in StartE Y return Y -> option (option goerr) with ManagerStart => fun r => Some r | _ => fun _ => None end
  | _ => fun _ => None
  end (act_res a).
Definition starts (tr : list act) : list (option goerr) := omap started_manager tr.
Lemma starts_app t1 t2 : starts (t1 ++ t2) = starts t1 ++ starts t2.
Proof. apply omap_app. Qed.

(** Calls that neither register a controller nor start the manager, and those
    that do not start it *)
Definition idle (a : act) : Prop := registered [a] = [] /\ starts [a] = [].
Definition unstarted (a : act) : Prop := starts [a] = [].
Lemma idle_trace tr : Forall idle tr -> registered tr = [] /\ starts tr = [].
Proof.
  induction 1 as [|a tr [H1 H2] _ [IH1 IH2]]; [done|]. change (a :: tr) with ([a] ++ tr).
  by rewrite registered_app, starts_app, H1, H2, IH1, IH2.
Qed.
Lemma unstarted_trace tr : Forall unstarted tr -> starts tr = [].
Proof.
  induction 1 as [|a tr H _ IH]; [done|]. change (a :: tr) with ([a] ++ tr). unfold unstarted in H. by rewrite starts_app, H.
Qed.

Lemma starts_plain a tr : unstarted a -> starts (a :: tr) = starts tr.
Proof. intros H. change (a :: tr) with ([a] ++ tr). by rewrite starts_app, H. Qed.
Lemma registered_plain a tr : registered [a] = [] -> registered (a :: tr) = registered tr.
Proof. intros H. change (a :: tr) with ([a] ++ tr). by rewrite registered_app, H. Qed.

Lemma in_order_every P steps : Forall (every P) steps -> every P (in_order steps).
Proof.
  induction 1 as [|p steps Hp _ IH]; cbn [in_order]; [by apply sat_Ret|].
  apply every_bind; [done|]. intros [err|]; [by apply sat_Ret|done].
Qed.
Lemma wrapping_every P text p : every P p -> every P (wrapping text p).
Proof. intros H. apply every_bind; [done|]. intros e. by apply sat_Ret. Qed.

Section lemmas.
Context {X : Externals} {S : StartExternals}.

Lemma step_exec p k tr code : exec (step p k) tr code ->
(exists err, exec p tr (Some err) /\ code = 1%Z) \/ exists tr1 tr2, tr = tr1 ++ tr2 /\ exec p tr1 None /\ exec k tr2 code.
Proof.
intros (e & tr1 & tr2 & -> & H1 & H2)%exec_bind. destruct e as [err|]; [left|right; eauto].
destruct H2 as [-> ->]. exists err. by rewrite app_nil_r.
Qed.
(** A step that is one call *)
Lemma step_call (e : Ev (option goerr)) k tr code : exec (step (call e) k) tr code ->
(exists err, tr = [Act e (Some err)] /\ code = 1%Z) \/ exists tr2, tr = Act e None :: tr2 /\ exec k tr2 code.
Proof.
intros [(err & (x & t & -> & [-> <-]) & ->)|(tr1 & tr2 & -> & (x & t & -> & [-> <-]) & H)]%step_exec;
  [left; eauto|right; by exists tr2].
Qed.

Lemma LoadFrom_idle args : every idle (operator_LoadFrom args).
Proof.
unfold operator_LoadFrom, config_LoadFrom, loadFrom, readFrom, every.
repeat (sat_step || lazymatch goal with |- sat _ _ (bind _ _) => sat_seq end); done.
Qed.
Lemma createManager_exec args tr r : exec (createManager args) tr r ->
(starts tr = [] /\ registered tr = [] /\ r <> Some (Ok tt)) \/
exists restConfig, tr = [Act (St GetConfigOrDie) (Some restConfig);
  Act (St (NewManager restConfig (manager_options args))) None] /\ r = Some (Ok tt).
Proof.
intros H. unfold createManager in H. exec_steps. destruct x as [restConfig|]; exec_steps; [|by left].
destruct x as [err|]; [by left|]. right. by exists restConfig.
Qed.
Lemma SetupAllReconcilers_unstarted cfg : every unstarted (SetupAllReconcilers cfg).
Proof.
assert (forall c s, every unstarted (setup c s)) as Hsetup by (intros c s; apply sat_Vis; [done|intros x; by apply sat_Ret]).
assert (forall n, every unstarted (call (St (InitializeStorage n)))) as Hinit
  by (intros n; apply sat_Vis; [done|intros x; by apply sat_Ret]).
assert (forall e : Ev (option goerr), unstarted (Act e None) -> (forall x, unstarted (Act e x)) -> every unstarted (call e)) as Hcall
  by (intros e _ H; apply sat_Vis; [exact H|intros x; by apply sat_Ret]).
unfold SetupAllReconcilers. apply in_order_every.
destruct (opc_EnableTokenUpload cfg); cbn [app setup_upload];
  repeat (apply List.Forall_cons; [first [apply Hsetup|apply wrapping_every; first [by apply sat_Ret|apply Hinit|by apply Hcall]]|]);
  apply List.Forall_nil; exact I.
Qed.
Lemma LoadFrom_upload args tr cfg : exec (operator_LoadFrom args) tr (Ok cfg) ->
opc_EnableTokenUpload cfg = EnableTokenUpload args.
Proof.
intros (r & tr1 & tr2 & _ & _ & H)%exec_bind. destruct r; destruct H as [_ H]; [|done]. by apply Ok_inj in H as ->.
Qed.
End lemmas.

(** What the manager was started with *)
Record operator_ready {X : Externals} {S : StartExternals} (args : OperatorCliArgs) (pre : list act) : Prop := {
  or_manager : exists restConfig, In (Act (St (NewManager restConfig (manager_options args))) None) pre;
  or_configuration : exists cfg seg, incl seg pre /\ exec (operator_LoadFrom args) seg (Ok cfg) /\
    opc_EnableTokenUpload cfg = EnableTokenUpload args;
  or_storage : In (Act (St CreateInitializedSecretStorage) None) pre;
  or_controllers : registered pre =
    core_controllers ++ (if EnableTokenUpload args then [("TokenUpload", Some (notifying "SPIAccessToken"))] else []);
  or_probes : In (Act (St (AddHealthzCheck "healthz")) None) pre /\ In (Act (St (AddReadyzCheck "readyz")) None) pre }.

(** C36 The operator runs only when it is complete.  Its process ends with 1 and
    without starting the manager, or it starts the manager once, as the last
    thing it does: with the options of the arguments, after the
    configuration was loaded from the file of the arguments, the secret storage
    was initialised, every controller was registered (the upload controller
    exactly when the arguments enable it) and both probes were added; its
    exit code then tells whether the manager failed. *)
Theorem operator_started {X : Externals} {S : StartExternals} args tr code :
  exec (operator_main args) tr code ->
  (code = 1%Z /\ starts tr = []) \/
  exists pre r, tr = pre ++ [Act (St ManagerStart) r] /\ starts pre = [] /\
    code = (if r then 1%Z else 0%Z) /\ operator_ready args pre.
Proof.
  intros H. unfold operator_main in H.
  apply step_call in H as [(err & -> & ->)|(t1 & -> & H)]; [by left|].
  apply exec_bind in H as (mgr & t2 & t3 & -> & Hm & H).
  apply createManager_exec in Hm as [(Hs & _ & Hne)|(restConfig & -> & ->)].
  { left. rewrite starts_plain, starts_app, Hs by done. destruct mgr as [[[]|err]|]; [done| |]; by destruct H as [-> ->]. }
  apply exec_bind in H as (cfg & t4 & t5 & -> & Hcfg & H).
  pose proof (every_exec _ _ _ _ (LoadFrom_idle args) Hcfg) as [Hr4 Hs4]%idle_trace.
  cbn [app]. rewrite !starts_plain, starts_app, Hs4 by done. cbn [app].
  destruct cfg as [cfg|err]; [|left; by destruct H as [-> ->]].
  apply step_call in H as [(err & -> & ->)|(t6 & -> & H)]; [by left|]. rewrite starts_plain by done.
  apply step_exec in H as [(err & Ha & ->)|(t7 & t8 & -> & Ha & H)];
    pose proof (every_exec _ _ _ _ (SetupAllReconcilers_unstarted cfg) Ha) as Hs7%unstarted_trace; [by left|].
  rewrite starts_app, Hs7. cbn [app]. apply all_reconcilers in Ha.
  apply step_call in H as [(err & -> & ->)|(t9 & -> & H)]; [by left|]. rewrite starts_plain by done.
  apply step_call in H as [(err & -> & ->)|(t10 & -> & H)]; [by left|]. rewrite starts_plain by done.
  assert (exists r, t10 = [Act (St ManagerStart) r] /\ code = if r then 1%Z else 0%Z) as (r & -> & ->).
  { apply step_call in H as [(err & -> & ->)|(t11 & -> & [-> ->])]; by eexists. }
  right. pose proof (LoadFrom_upload _ _ _ Hcfg) as Hu.
  exists (Act (St (SetupCustomValidations (AllowInsecureURLs (oca_Common args)))) None ::
    Act (St GetConfigOrDie) (Some restConfig) :: Act (St (NewManager restConfig (manager_options args))) None ::
    t4 ++ Act (St CreateInitializedSecretStorage) None :: t7 ++
    [Act (St (AddHealthzCheck "healthz")) None; Act (St (AddReadyzCheck "readyz")) None]), r.
  split; [by cbn; rewrite <- !app_assoc; cbn; rewrite <- app_assoc|]. split; [|split; [done|]].
  - rewrite !starts_plain, starts_app, Hs4 by done. cbn [app]. rewrite starts_plain, starts_app, Hs7 by done. done.
  - constructor.
    + exists restConfig. cbn. tauto.
    + exists cfg, t4. split; [|done]. intros a Hin. do 3 right. apply in_app_iff. by left.
    + do 3 right. apply in_app_iff. right. by left.
    + rewrite !registered_plain, registered_app, Hr4 by done. cbn [app]. rewrite registered_plain, registered_app, Ha, Hu by done. apply app_nil_r.
    + split; do 3 right; apply in_app_iff; right; right; apply in_app_iff; right; cbn; tauto.
Qed.

(** The run in which nothing fails *)
Definition sample_operator_args : OperatorCliArgs :=
  mkOperatorArgs sample_common true 3600000000000 432000000000000 7200000000000 1800000000000 1800000000000
    "any" 2000000000 2097152 true.
Definition operator_run := operator_main (X := sample_externals) (S := sample_start) sample_operator_args.

Lemma operator_started_witness :
  result_of empty_script operator_run = 0%Z /\
  exists pre, trace_of empty_script operator_run = pre ++ [Act (St ManagerStart) None] /\
    operator_ready (X := sample_externals) (S := sample_start) sample_operator_args pre.
Proof.
  assert (result_of empty_script operator_run = 0%Z) as E by (vm_compute; reflexivity). split; [exact E|].
  pose proof (scripted_exec empty_script operator_run) as H. rewrite E in H.
  destruct (operator_started sample_operator_args _ _ H) as [[Hc _]|(pre & r & Ht & _ & Hc & Hready)]; [discriminate Hc|].
  destruct r as [err|]; [discriminate Hc|]. exists pre. exact (conj Ht Hready).
Defined.

(** ** The server of the OAuth service

    It listens without TLS exactly when there is no certificate: one that
    cannot be examined for another reason is used, and the listening fails. *)
Lemma listen_tls {X : Externals} {S : StartExternals} s tr r : exec (listen s) tr r ->
  exists found, tr = [Act (St (OsStat "/etc/spi/tls.crt")) found;
    Act (St (ListenAndServe (sv_Addr s)
      (match found with
       | Some err => if errors_Is err os_ErrNotExist then None else Some ("/etc/spi/tls.crt", "/etc/spi/tls.key")
       | None => Some ("/etc/spi/tls.crt", "/etc/spi/tls.key")
       end)
      (if sv_DisableHTTP2 s then Some http1_only else None))) r].
Proof.
  intros (found & t & -> & (x & t2 & -> & [-> ->])). exists found. destruct found as [err|]; [|done].
  by destruct (errors_Is err os_ErrNotExist).
Qed.

(** The service ends only after the interrupt, with 1 when the requests in
    progress do not end within five seconds. *)
Lemma await_shutdown_exec {X : Externals} {S : StartExternals} tr code : exec await_shutdown tr code ->
  exists x r, tr = [Act (St AwaitInterrupt) x; Act (St (Shutdown 5000000000)) r] /\ code = (if r then 1%Z else 0%Z).
Proof. intros (x & t & -> & (r & t2 & -> & [-> ->])). exists x, r. split; [done|]. by destruct r. Qed.
