(* ===== verification/Responses.v ===== *)
(** * What the OAuth service sends

    net/http's ResponseWriter as the handlers of oauth/ use it, html/template's
    rendering of the two pages, and the code that writes responses: logs.go,
    [OkHandler], [CallbackErrorHandler] and [CSPHandler] of handlers.go.  The
    handlers of [OAuthSync] and [OAuthService] answer the list of what they
    write ([response]); [send] is what a browser gets for such a list.  The
    templates are data of static/ and so arguments here. *)

From S2P Require Import Prelude GoStd GoUrl GoPath Api Externals SpErrors Effects Samples OAuthSync OAuthService ClientFactory StartUp.
Local Open Scope string_scope.
Local Open Scope list_scope.
Local Open Scope spi_scope.

(** ** net/http: ResponseWriter

    The headers are sent with the status, by the first [WriteHeader] or the first
    [Write]; later changes of the headers and later statuses are ignored.  A
    response without content ([bodyAllowedForStatus]) takes no body. *)

Notation headers := (gmap string string).
Record ResponseWriter := mkWriter {
  rw_Header : headers; rw_sent : option (Z * headers); rw_body : string }.

(** The writer a handler starts with, and the headers set around it *)
Definition writer (h : headers) : ResponseWriter := mkWriter h None "".

Definition Header_Set (key value : string) (w : ResponseWriter) : ResponseWriter :=
  mkWriter (<[key := value]> (rw_Header w)) (rw_sent w) (rw_body w).
Definition WriteHeader (code : Z) (w : ResponseWriter) : ResponseWriter :=
  match rw_sent w with
  | Some _ => w
  | None => mkWriter (rw_Header w) (Some (code, rw_Header w)) (rw_body w)
  end.
Definition bodyAllowedForStatus (code : Z) : bool := negb ((code =? 204) || (code =? 304))%Z.
Definition Write (data : string) (w : ResponseWriter) : ResponseWriter :=
  let w := WriteHeader StatusOK w in
  match rw_sent w with
  | Some (code, _) =>
      if bodyAllowedForStatus code then mkWriter (rw_Header w) (rw_sent w) (rw_body w +:+ data) else w
  | None => w
  end.

(** The status a browser sees; a handler that writes nothing answers 200. *)
Definition status (w : ResponseWriter) : Z := match rw_sent w with Some (code, _) => code | None => StatusOK end.

(** [hexEscapeNonASCII] and [htmlEscape] of net/http *)
Definition hex_lower (n : N) : ascii := ascii_of_N (if (n <? 10)%N then 48 + n else 87 + n).
Fixpoint hexEscapeNonASCII (s : string) : string :=
  match s with
  | EmptyString => EmptyString
  | String c rest =>
      if (128 <=? N_of_ascii c)%N then
        String ch_percent (String (hex_lower (N_of_ascii c / 16)) (String (hex_lower (N_of_ascii c mod 16))
          (hexEscapeNonASCII rest)))
      else String c (hexEscapeNonASCII rest)
  end.

(** Replace every character by the text that the table has for it *)
Definition entity_table : Type := ascii -> option string.
Fixpoint replace_chars (table : entity_table) (s : string) : string :=
  match s with
  | EmptyString => EmptyString
  | String c rest => match table c with Some t => t | None => String c EmptyString end +:+ replace_chars table rest
  end.

Definition quote_char : ascii := ascii_of_N 34.
Definition apostrophe : ascii := ascii_of_N 39.
Definition html_entity : entity_table := fun c =>
  if Ascii.eqb c "&" then Some "&amp;"
  else if Ascii.eqb c "<" then Some "&lt;"
  else if Ascii.eqb c ">" then Some "&gt;"
  else if Ascii.eqb c quote_char then Some "&#34;"
  else if Ascii.eqb c apostrophe then Some "&#39;"
  else None.
Definition htmlEscape : string -> string := replace_chars html_entity.

(** [http.Redirect] for a URL with a scheme: such a URL is not resolved against
    the request.  [method] is the method of the request. *)
Definition StatusText (code : Z) : string := if (code =? 302)%Z then "Found" else "".
Definition anchor (url : string) (code : Z) : string :=
  "<a href=" +:+ String quote_char (htmlEscape url) +:+ String quote_char (">" +:+ StatusText code +:+ "</a>."
    +:+ String (ascii_of_N 10) (String (ascii_of_N 10) EmptyString)).
Definition Redirect (method url : string) (code : Z) (w : ResponseWriter) : ResponseWriter :=
  let hadCT := match rw_Header w !! "Content-Type" with Some _ => true | None => false end in
  let w := Header_Set "Location" (hexEscapeNonASCII url) w in
  let w := if negb hadCT && one_of method ["GET"; "HEAD"]
           then Header_Set "Content-Type" "text/html; charset=utf-8" w else w in
  let w := WriteHeader code w in
  if negb hadCT && String.eqb method "GET" then Write (anchor url code) w else w.

(** ** html/template

    A template as it was parsed: its text and the fields it shows.  Both pages
    show their fields in the text of an element or in a quoted attribute, where
    html/template escapes the same characters ([htmlReplacementTable]). *)

Inductive segment := Text (s : string) | Field (name : string).
Definition template : Type := list segment.
(** U+FFFD *)
Definition replacement_char : string := String (ascii_of_N 239) (String (ascii_of_N 191) (String (ascii_of_N 189) EmptyString)).
Definition template_entity : entity_table := fun c =>
  if Ascii.eqb c zero then Some replacement_char
  else if Ascii.eqb c "+" then Some "&#43;"
  else html_entity c.
Definition HTMLEscape : string -> string := replace_chars template_entity.

(** What [Execute] writes for a segment *)
Definition render (data : list (string * string)) (s : segment) : string :=
  match s with Text t => t | Field f => HTMLEscape (values_Get data f) end.
Fixpoint page (t : template) (data : list (string * string)) : string :=
  match t with [] => "" | s :: rest => render data s +:+ page rest data end.

(** [Execute]: the contexts of the fields are worked out first, which may fail;
    then the segments are written one by one.  [broken] is the number of writes
    that succeed before the connection breaks and the error of the next one. *)
Record execution := mkExecution { ex_escape : option goerr; ex_broken : option (nat * goerr) }.
Fixpoint write_segments (t : template) (data : list (string * string)) (broken : option (nat * goerr))
  (w : ResponseWriter) : ResponseWriter * option goerr :=
  match t with
  | [] => (w, None)
  | s :: rest =>
      match broken with
      | Some (O, err) => (WriteHeader StatusOK w, Some err)
      | Some (S n, err) => write_segments rest data (Some (n, err)) (Write (render data s) w)
      | None => write_segments rest data None (Write (render data s) w)
      end
  end.
Definition Execute (t : template) (x : execution) (data : list (string * string)) (w : ResponseWriter)
  : ResponseWriter * option goerr :=
  match ex_escape x with
  | Some err => (w, Some err)
  | None => write_segments t data (ex_broken x) w
  end.

(** ** logs.go *)

Definition text_plain : string := "text/plain; charset=utf-8".
Definition LogErrorAndWriteResponse (st : Z) (msg : string) (w : ResponseWriter) : ResponseWriter :=
  let w := WriteHeader st w in
  let w := Header_Set "Content-Type" text_plain w in
  Write msg w.
Definition LogDebugAndWriteResponse (st : Z) (msg : string) (w : ResponseWriter) : ResponseWriter :=
  let w := WriteHeader st w in
  let w := Header_Set "Content-Type" text_plain w in
  Write msg w.

(** The fields of an audit record *)
Definition AuditLogWithTokenInfo (kind namespace name : string) (keysAndValues : list (string * string))
  : list (string * string) :=
  keysAndValues ++ [("kind", kind); ("namespace", namespace); ("name", name)].

(** ** handlers.go *)

Definition OkHandler_ServeHTTP : ResponseWriter -> ResponseWriter := WriteHeader StatusOK.

Record viewData := mkViewData { Title : string; Message : string }.
Definition fields_of (d : viewData) : list (string * string) := [("Title", Title d); ("Message", Message d)].

Definition template_error : string :=
  "Error processing the OAuth response template. This may be caused by malformed response parameters.".

(** [parsed] is the result of [template.ParseFiles]: its error is ignored, and
    a template that could not be parsed is nil. *)
Definition CallbackErrorHandler_ServeHTTP (parsed : option template) (x : execution) (r : Request) (w : ResponseWriter)
  : go ResponseWriter :=
  let data := mkViewData (Query_Get r "error") (Query_Get r "error_description") in
  match parsed with
  | None => Panics "tmpl"
  | Some tmpl =>
      match Execute tmpl x (fields_of data) w with
      | (w, None) => Returns (WriteHeader StatusOK w)
      | (w, Some _) => Returns (Write template_error (WriteHeader StatusInternalServerError w))
      end
  end.

Definition with_csp (h : ResponseWriter -> go ResponseWriter) (w : ResponseWriter) : go ResponseWriter :=
  h (Header_Set "Content-Security-Policy" csp w).

(** ** What is sent for the responses of the other handlers

    [notice] is the page of static/redirect_notice.html. *)

Definition perform (notice : template) (method : string) (r : response) (w : ResponseWriter) : ResponseWriter :=
  match r with
  | Respond st body => LogErrorAndWriteResponse st body w
  | RedirectNotice url => (Execute notice (mkExecution None None) [("Url", url)] w).1
  | RedirectTo url st => Redirect method url st w
  end.
Fixpoint send (notice : template) (method : string) (rs : list response) (w : ResponseWriter) : ResponseWriter :=
  match rs with [] => w | r :: rest => send notice method rest (perform notice method r w) end.

(** ** The writer *)

Lemma perform_sent notice method r w code h : rw_sent w = Some (code, h) ->
  rw_sent (perform notice method r w) = Some (code, h).
Proof.
  intros E. assert (forall w' d, rw_sent w' = Some (code, h) -> rw_sent (Write d w') = Some (code, h)) as HW.
  { intros w' d Hs. unfold Write, WriteHeader. rewrite Hs. cbn. rewrite Hs. by destruct (bodyAllowedForStatus code). }
  destruct r as [st body|url|url st]; cbn [perform].
  - unfold LogErrorAndWriteResponse, WriteHeader. rewrite E. by apply HW.
  - unfold Execute. cbn [ex_escape ex_broken]. revert w E. induction notice as [|s t IH]; intros w E; [done|].
    cbn [write_segments]. by apply IH, HW.
  - unfold Redirect. set (w1 := if negb _ && one_of _ _ then _ else _).
    assert (rw_sent w1 = Some (code, h)) as E1 by (unfold w1; by destruct (_ && _)).
    assert (rw_sent (WriteHeader st w1) = Some (code, h)) as E2 by (unfold WriteHeader; by rewrite E1).
    lazymatch goal with |- rw_sent (if ?b then _ else _) = _ => destruct b end; [by apply HW|done].
Qed.

Lemma send_sent notice method rs w code h : rw_sent w = Some (code, h) ->
  rw_sent (send notice method rs w) = Some (code, h).
Proof. revert w. induction rs as [|r rs IH]; intros w E; [done|]. by apply IH, perform_sent. Qed.

(** What was written stays in front of what is written later. *)
Lemma Write_body d w : exists more, rw_body (Write d w) = rw_body w +:+ more.
Proof.
  unfold Write, WriteHeader. destruct (rw_sent w) as [[code h]|] eqn:E; cbn; rewrite ?E; [|by exists d].
  destruct (bodyAllowedForStatus code); [by exists d|]. exists "". by rewrite str_app_nil_r.
Qed.
Lemma WriteHeader_body code w : rw_body (WriteHeader code w) = rw_body w.
Proof. unfold WriteHeader. by destruct (rw_sent w). Qed.

Lemma perform_body notice method r w : exists more, rw_body (perform notice method r w) = rw_body w +:+ more.
Proof.
  destruct r as [st body|url|url st]; cbn [perform].
  - unfold LogErrorAndWriteResponse. destruct (Write_body body (Header_Set "Content-Type" text_plain (WriteHeader st w))) as [m ->].
    cbn. rewrite WriteHeader_body. eauto.
  - unfold Execute. cbn [ex_escape ex_broken]. revert w. induction notice as [|s t IH]; intros w; cbn [write_segments].
    + exists "". by rewrite str_app_nil_r.
    + destruct (IH (Write (render [("Url", url)] s) w)) as [m ->]. destruct (Write_body (render [("Url", url)] s) w) as [m' ->].
      rewrite str_app_assoc. eauto.
  - unfold Redirect. set (w1 := if negb _ && one_of _ _ then _ else _).
    assert (rw_body w1 = rw_body w) as E1 by (unfold w1; by destruct (_ && _)).
    lazymatch goal with |- exists _, rw_body (if ?b then _ else _) = _ => destruct b end.
    + destruct (Write_body (anchor url st) (WriteHeader st w1)) as [m ->]. rewrite WriteHeader_body, E1. eauto.
    + exists "". by rewrite WriteHeader_body, E1, str_app_nil_r.
Qed.
Lemma send_body notice method rs w : exists more, rw_body (send notice method rs w) = rw_body w +:+ more.
Proof.
  revert w. induction rs as [|r rs IH]; intros w; cbn [send]; [exists ""; by rewrite str_app_nil_r|].
  destruct (IH (perform notice method r w)) as [m ->]. destruct (perform_body notice method r w) as [m' ->].
  rewrite str_app_assoc. eauto.
Qed.

(** Writing a template that is not broken off *)
Lemma Write_fresh d h code body : bodyAllowedForStatus code = true ->
  Write d (mkWriter h (Some (code, h)) body) = mkWriter h (Some (code, h)) (body +:+ d).
Proof. intros Hb. unfold Write. cbn. by rewrite Hb. Qed.
Lemma write_segments_sent t data h body :
  write_segments t data None (mkWriter h (Some (StatusOK, h)) body) =
  (mkWriter h (Some (StatusOK, h)) (body +:+ page t data), None).
Proof.
  revert body. induction t as [|s t IH]; intros body; cbn [write_segments page].
  - by rewrite str_app_nil_r.
  - rewrite Write_fresh by done. by rewrite IH, str_app_assoc.
Qed.

(** Broken off: what was written before, the header being sent in any case *)
Lemma write_segments_broken t data n err h body : n < length t ->
  write_segments t data (Some (n, err)) (mkWriter h (Some (StatusOK, h)) body) =
  (mkWriter h (Some (StatusOK, h)) (body +:+ page (take n t) data), Some err).
Proof.
  revert n body. induction t as [|s t IH]; intros n body Hn; cbn [length] in Hn; [lia|].
  destruct n as [|n]; cbn [write_segments take page]; [by rewrite str_app_nil_r|].
  rewrite Write_fresh by done. rewrite IH by lia. by rewrite str_app_assoc.
Qed.
Lemma write_segments_unbroken t data n err w : length t <= n ->
  write_segments t data (Some (n, err)) w = write_segments t data None w.
Proof.
  revert n w. induction t as [|s t IH]; intros n w Hn; [done|]. cbn [length] in Hn.
  destruct n as [|n]; [lia|]. cbn [write_segments]. apply IH. lia.
Qed.
(** The first write sends the header. *)
Lemma write_segments_start t data broken h : t <> [] ->
  write_segments t data broken (writer h) = write_segments t data broken (mkWriter h (Some (StatusOK, h)) "").
Proof. destruct t as [|s t]; [done|]. intros _. by destruct broken as [[[|n] err]|]. Qed.

(** ** The first response counts *)

(** What a browser gets for a response, with the headers set before it *)
Definition received (notice : template) (method : string) (h : headers) (r : response) : Z * headers * string :=
  match r with
  | Respond st body => (st, h, if bodyAllowedForStatus st then body else "")
  | RedirectNotice url => (StatusOK, h, page notice [("Url", url)])
  | RedirectTo url st =>
      let located := <["Location" := hexEscapeNonASCII url]> h in
      match h !! "Content-Type" with
      | Some _ => (st, located, "")
      | None =>
          (st, if one_of method ["GET"; "HEAD"] then <["Content-Type" := "text/html; charset=utf-8"]> located else located,
           if String.eqb method "GET" && bodyAllowedForStatus st then anchor url st else "")
      end
  end.

Lemma perform_first notice method h r : notice <> [] ->
  let w := perform notice method r (writer h) in
  let '(code, sent, body) := received notice method h r in
  rw_sent w = Some (code, sent) /\ rw_body w = body.
Proof.
  intros Hn. destruct r as [st body|url|url st]; cbn [perform received].
  - unfold LogErrorAndWriteResponse, Write, writer. cbn. by destruct (bodyAllowedForStatus st).
  - unfold Execute. cbn [ex_escape ex_broken]. rewrite write_segments_start by done.
    by rewrite write_segments_sent.
  - unfold Redirect, writer. cbn [rw_Header]. destruct (h !! "Content-Type") as [ct|]; [done|]. cbn [negb andb].
    destruct (String.eqb_spec method "GET") as [->|Hm].
    + change (one_of "GET" ["GET"; "HEAD"]) with true. cbv iota. unfold Write, WriteHeader, Header_Set.
      cbn [rw_sent rw_Header rw_body andb]. by destruct (bodyAllowedForStatus st).
    + destruct (one_of method ["GET"; "HEAD"]); done.
Qed.

(** The response of the OAuth service is the first one that its handler
    writes: for any list of responses, the browser gets the status and the headers of
    the first, and its body before everything that is written later.  The
    headers are those set before the handler ran: the content type that
    [LogErrorAndWriteResponse] sets comes too late and is never sent. *)
Theorem first_response_counts notice method h r rest :
  notice <> [] ->
  let w := send notice method (r :: rest) (writer h) in
  let '(code, sent, body) := received notice method h r in
  rw_sent w = Some (code, sent) /\ (exists more, rw_body w = body +:+ more /\ (rest = [] -> more = "")) /\
  (h !! "Content-Type" = None -> sent !! "Content-Type" <> Some text_plain).
Proof.
  intros Hn w. pose proof (perform_first notice method h r Hn) as H. cbn zeta in H.
  destruct (received notice method h r) as [[code sent] body] eqn:E. destruct H as [Hs Hb].
  split; [unfold w; cbn [send]; by apply send_sent|]. split.
  - unfold w. destruct rest as [|r2 rest]; [exists ""; by rewrite str_app_nil_r, <- Hb|].
    destruct (send_body notice method (r2 :: rest) (perform notice method r (writer h))) as [more Hm].
    exists more. split; [|done]. cbn [send] in *. by rewrite Hm, Hb.
  - intros Hct. destruct r as [st b|url|url st]; cbn [received] in E; [injection E as <- <- <-..|]; [congruence..|].
    rewrite Hct in E. injection E as <- <- <-. lazymatch goal with |- context [if ?b then _ else _] => destruct b end; [by rewrite lookup_insert_eq|].
    rewrite lookup_insert_ne by done. congruence.
Qed.

Definition sample_notice : template := [Text "2; url="; Field "Url"].
Lemma first_response_counts_witness :
  let w := send sample_notice "GET" [RedirectNotice "https://sp/?a&b"; not_found_response] (writer ∅) in
  rw_sent w = Some (StatusOK, ∅) /\ rw_body w = "2; url=https://sp/?a&amp;bfailed to find the service provider".
Proof.
  intros w. split; [|vm_compute; reflexivity].
  apply (first_response_counts sample_notice "GET" ∅ (RedirectNotice "https://sp/?a&b") [not_found_response]). discriminate.
Defined.

(** ** The error page *)

(** How a browser reads the entities back *)
Fixpoint decode_entities (s : string) : string :=
  match s with
  | EmptyString => EmptyString
  | String c rest =>
      if Ascii.eqb c "&" then
        match rest with
        | String "a" (String "m" (String "p" (String ";" t))) => String "&" (decode_entities t)
        | String "l" (String "t" (String ";" t)) => String "<" (decode_entities t)
        | String "g" (String "t" (String ";" t)) => String ">" (decode_entities t)
        | String "#" (String "3" (String "4" (String ";" t))) => String quote_char (decode_entities t)
        | String "#" (String "3" (String "9" (String ";" t))) => String apostrophe (decode_entities t)
        | String "#" (String "4" (String "3" (String ";" t))) => String "+" (decode_entities t)
        | _ => String c (decode_entities rest)
        end
      else String c (decode_entities rest)
  end.

Lemma escaped_char c : c <> zero -> match template_entity c with
  | Some e => forall t, decode_entities (e +:+ t) = String c (decode_entities t)
  | None => Ascii.eqb c "&" = false
  end.
Proof. destruct c as [[] [] [] [] [] [] [] []]; intros Hz; vm_compute; done. Qed.

Lemma decode_plain c t : Ascii.eqb c "&" = false -> decode_entities (String c t) = String c (decode_entities t).
Proof. intros H. cbn [decode_entities]. by rewrite H. Qed.

Lemma decode_HTMLEscape s : lacks zero s = true -> decode_entities (HTMLEscape s) = s.
Proof.
  unfold HTMLEscape. induction s as [|c s IH]; [done|]. cbn [lacks replace_chars]. rewrite andb_true_iff, negb_true_iff.
  intros [Hz Hs]. apply Ascii.eqb_neq in Hz. specialize (IH Hs). pose proof (escaped_char c) as H.
  destruct (template_entity c) as [e|].
  - rewrite H by done. by rewrite IH.
  - change (String c "" +:+ ?t) with (String c t). rewrite decode_plain by (by apply H). by rewrite IH.
Qed.

(** No character that could end or begin an element or an attribute *)
Definition markup : list ascii := ["<"%char; ">"%char; quote_char; apostrophe].
Lemma HTMLEscape_inert s c : In c markup -> lacks c (HTMLEscape s) = true.
Proof.
  intros Hc. unfold HTMLEscape. induction s as [|d s IH]; [done|]. cbn [replace_chars]. rewrite lacks_app, IH, andb_true_r.
  clear IH. repeat (destruct Hc as [<-|Hc]; [destruct d as [[] [] [] [] [] [] [] []]; reflexivity|]). destruct Hc.
Qed.

(** What the handler sends for a page that parsed *)
Lemma callback_error_exec t x r h : t <> [] ->
  let data := fields_of (mkViewData (Query_Get r "error") (Query_Get r "error_description")) in
  CallbackErrorHandler_ServeHTTP (Some t) x r (writer h) = Returns
    match ex_escape x, ex_broken x with
    | Some _, _ => mkWriter h (Some (StatusInternalServerError, h)) template_error
    | None, Some (n, _) =>
        mkWriter h (Some (StatusOK, h)) (if (n <? length t)%nat then page (take n t) data +:+ template_error else page t data)
    | None, None => mkWriter h (Some (StatusOK, h)) (page t data)
    end.
Proof.
  intros Ht data. unfold CallbackErrorHandler_ServeHTTP, Execute. fold data. destruct (ex_escape x) as [err|]; [done|].
  rewrite write_segments_start by done. destruct (ex_broken x) as [[n err]|].
  - destruct (Nat.ltb_spec n (length t)).
    + rewrite write_segments_broken by done. unfold WriteHeader. cbn [rw_sent]. by rewrite Write_fresh.
    + rewrite write_segments_unbroken by done. by rewrite write_segments_sent.
  - by rewrite write_segments_sent.
Qed.

(** The page for a failed login, whatever the provider put into the query.
    Nothing of the query can leave the text in which it is shown: no
    character that begins or ends an element or an attribute survives, and the
    browser reads back what the query said.  The page is sent with the
    headers of [CSPHandler].  A page that could not be parsed crashes the
    handler; one that breaks off is still answered with 200, since 500 is sent
    only when nothing was written before. *)
Theorem callback_error_page parsed x r h :
  let data := fields_of (mkViewData (Query_Get r "error") (Query_Get r "error_description")) in
  (forall f c, In c markup -> lacks c (HTMLEscape (values_Get data f)) = true) /\
  (forall f, lacks zero (values_Get data f) = true -> decode_entities (HTMLEscape (values_Get data f)) = values_Get data f) /\
  match with_csp (CallbackErrorHandler_ServeHTTP parsed x r) (writer h) with
  | Panics _ => parsed = None
  | Returns w => exists t, parsed = Some t /\
      (t <> [] -> let sent := <["Content-Security-Policy" := csp]> h in
        (status w = StatusInternalServerError <-> is_Some (ex_escape x)) /\
        rw_sent w = Some (status w, sent) /\
        (ex_escape x = None -> ex_broken x = None -> status w = StatusOK /\ rw_body w = page t data))
  end.
Proof.
  intros data. split; [intros f c; apply HTMLEscape_inert|]. split; [intros f; apply decode_HTMLEscape|].
  destruct parsed as [t|]; [|done]. unfold with_csp, Header_Set. cbn [writer rw_Header rw_sent rw_body].
  set (sent := <["Content-Security-Policy" := csp]> h). change (mkWriter sent None "") with (writer sent).
  destruct t as [|s t].
  - unfold CallbackErrorHandler_ServeHTTP, Execute. by destruct (ex_escape x) as [err|]; exists [].
  - rewrite callback_error_exec by done. exists (s :: t). split; [done|]. intros _. cbv zeta. unfold status.
    destruct (ex_escape x) as [err|]; [|destruct (ex_broken x) as [[n err]|]]; cbn [rw_sent rw_body];
      unfold is_Some, StatusOK, StatusInternalServerError; naive_solver.
Qed.

Definition sample_error_page : template := [Text "<h1>Error: "; Field "Title"; Text "</h1><p>"; Field "Message"; Text "</p>"].
Example error_page_shown :
  match CallbackErrorHandler_ServeHTTP (Some sample_error_page) (mkExecution None None)
    (mkRequest [("error", "<script>"); ("error_description", "no & never")] [] "" "") (writer ∅) with
  | Returns w => (status w, rw_body w)
  | Panics _ => (0%Z, "")
  end = (200%Z, "<h1>Error: &lt;script&gt;</h1><p>no &amp; never</p>").
Proof. vm_compute. reflexivity. Qed.
(** A page that breaks off after its first part *)
Example error_page_broken :
  match CallbackErrorHandler_ServeHTTP (Some sample_error_page) (mkExecution None (Some (1, ErrorString "broken pipe")))
    (mkRequest [] [] "" "") (writer ∅) with
  | Returns w => (status w, rw_body w)
  | Panics _ => (0%Z, "")
  end = (200%Z, "<h1>Error: " +:+ template_error).
Proof. vm_compute. reflexivity. Qed.
