(* ===== verification/GoRegexp.v ===== *)
(** * regexp: leftmost-first matching

    What the code uses of Go's regexp package: patterns built from literals
    ([regexp.QuoteMeta]), [.], negated classes, the anchors of multi-line mode,
    alternatives, captures, and the repetitions of the ungreedy mode ([U]),
    which try to stop before they try to go on.  Text is matched rune by rune;
    a byte that is not valid UTF-8 is a rune of its own that matches as U+FFFD.
    [find] is the first submatch that [FindAllStringSubmatch] returns: at the
    leftmost position, by the first choice that leads to a match. *)

From S2P Require Import Prelude GoStd GoUrl GoJson.
Local Open Scope string_scope.
Local Open Scope list_scope.

(** ** Runes *)

Abbreviation rune := string (only parsing).

Definition byte_rune (c : ascii) : rune := String c EmptyString.
Fixpoint runes (s : string) : list rune :=
  match s with
  | EmptyString => []
  | String c s1 =>
      if (N_of_ascii c <? 128)%N then byte_rune c :: runes s1
      else match rune_len c s1, s1 with
           | 2, String c2 s2 => String c (byte_rune c2) :: runes s2
           | 3, String c2 (String c3 s3) => String c (String c2 (byte_rune c3)) :: runes s3
           | 4, String c2 (String c3 (String c4 s4)) =>
               String c (String c2 (String c3 (byte_rune c4))) :: runes s4
           | _, _ => byte_rune c :: runes s1
           end
  end.
Fixpoint text (rs : list rune) : string :=
  match rs with [] => EmptyString | r :: rest => r +:+ text rest end.

Definition same_rune (a b : rune) : bool := String.eqb (to_valid_utf8 a) (to_valid_utf8 b).
Definition newline : rune := byte_rune (ascii_of_N 10).
Definition slash : rune := byte_rune ch_slash.

(** ** Patterns *)

Inductive regex :=
| REps
| RLit (r : rune)
| RAny                            (* . *)
| RNot (r : rune)                 (* [^r] *)
| RBol | REol                     (* ^ and $ of multi-line mode *)
| RCat (a b : regex)
| RAlt (a b : regex)
| ROpt (a : regex)                (* a? and a{0,1}, ungreedy *)
| RPlus (r : rune)                (* [^r]+, ungreedy *)
| RCap (name : string) (a : regex).

Definition captures := list (string * string).
Definition continuation := option rune -> list rune -> captures -> option captures.

Definition at_bol (prev : option rune) : bool :=
  match prev with None => true | Some r => String.eqb r newline end.
Definition at_eol (rest : list rune) : bool :=
  match rest with [] => true | r :: _ => String.eqb r newline end.

(** One rune that passes a test, then the rest *)
Definition one (test : rune -> bool) (k : continuation) (rest : list rune) (cs : captures) : option captures :=
  match rest with
  | x :: rest' => if test x then k (Some x) rest' cs else None
  | [] => None
  end.
Fixpoint plus (test : rune -> bool) (k : continuation) (rest : list rune) (cs : captures) : option captures :=
  match rest with
  | x :: rest' =>
      if test x then
        match k (Some x) rest' cs with Some r => Some r | None => plus test k rest' cs end
      else None
  | [] => None
  end.

(** What was consumed between two positions *)
Definition consumed (rest rest' : list rune) : string :=
  text (take (length rest - length rest') rest).

Fixpoint rmatch (e : regex) (k : continuation) (prev : option rune) (rest : list rune) (cs : captures)
  : option captures :=
  match e with
  | REps => k prev rest cs
  | RLit r => one (same_rune r) k rest cs
  | RAny => one (fun x => negb (String.eqb x newline)) k rest cs
  | RNot r => one (fun x => negb (same_rune r x)) k rest cs
  | RBol => if at_bol prev then k prev rest cs else None
  | REol => if at_eol rest then k prev rest cs else None
  | RCat a b => rmatch a (rmatch b k) prev rest cs
  | RAlt a b =>
      match rmatch a k prev rest cs with Some r => Some r | None => rmatch b k prev rest cs end
  | ROpt a => match k prev rest cs with Some r => Some r | None => rmatch a k prev rest cs end
  | RPlus r => plus (fun x => negb (same_rune r x)) k rest cs
  | RCap name a =>
      rmatch a (fun prev' rest' cs' => k prev' rest' ((name, consumed rest rest') :: cs')) prev rest cs
  end.

Definition accept : continuation := fun _ _ cs => Some cs.
Fixpoint find_from (e : regex) (prev : option rune) (rest : list rune) : option captures :=
  match rmatch e accept prev rest [] with
  | Some cs => Some cs
  | None => match rest with [] => None | x :: rest' => find_from e (Some x) rest' end
  end.
Definition find (e : regex) (s : string) : option captures := find_from e None (runes s).

(** The text of a group; a group that took no part is empty *)
Definition group (name : string) (cs : captures) : string :=
  match List.find (fun c => String.eqb c.1 name) cs with Some c => c.2 | None => "" end.

Fixpoint RLits (rs : list rune) (e : regex) : regex :=
  match rs with [] => e | r :: rest => RCat (RLit r) (RLits rest e) end.

(** ** The relation behind the matcher

    [matches e (prev, rest, cs) (prev', rest', cs')]: [e] can take the matcher
    from the first position and captures to the second. *)

Definition position : Type := option rune * list rune * captures.

Definition step_one (test : rune -> bool) (p q : position) : Prop :=
  exists x, p.1.2 = x :: q.1.2 /\ test x = true /\ q.1.1 = Some x /\ q.2 = p.2.

Fixpoint matches (e : regex) (p q : position) : Prop :=
  match e with
  | REps => q = p
  | RLit r => step_one (same_rune r) p q
  | RAny => step_one (fun x => negb (String.eqb x newline)) p q
  | RNot r => step_one (fun x => negb (same_rune r x)) p q
  | RBol => at_bol p.1.1 = true /\ q = p
  | REol => at_eol p.1.2 = true /\ q = p
  | RCat a b => exists m, matches a p m /\ matches b m q
  | RAlt a b => matches a p q \/ matches b p q
  | ROpt a => q = p \/ matches a p q
  | RPlus r => exists w x, p.1.2 = w ++ x :: q.1.2 /\ Forall (fun y => same_rune r y = false) (w ++ [x]) /\
                 q.1.1 = Some x /\ q.2 = p.2
  | RCap name a => exists cs', matches a p (q.1.1, q.1.2, cs') /\ q.2 = (name, consumed p.1.2 q.1.2) :: cs'
  end.

Definition apply_cont (k : continuation) (q : position) : option captures := k q.1.1 q.1.2 q.2.

Lemma one_sound test k prev rest cs r :
  one test k rest cs = Some r -> exists q, step_one test (prev, rest, cs) q /\ apply_cont k q = Some r.
Proof.
  destruct rest as [|x rest]; cbn; [done|]. destruct (test x) eqn:E; [|done].
  intros H. exists (Some x, rest, cs). split; [|done]. by exists x.
Qed.

Lemma plus_sound r k rest : forall prev cs res,
  plus (fun x => negb (same_rune r x)) k rest cs = Some res ->
  exists q, matches (RPlus r) (prev, rest, cs) q /\ apply_cont k q = Some res.
Proof.
  induction rest as [|x rest IH]; intros prev cs res; cbn; [done|].
  destruct (same_rune r x) eqn:E; [done|]. cbn [negb].
  destruct (k (Some x) rest cs) eqn:Ek.
  - intros [= <-]. exists (Some x, rest, cs). split; [|done]. exists [], x. cbn. split; [done|].
    split; [by repeat constructor|done].
  - intros H. destruct (IH (Some x) cs res H) as (q & (w & y & Hr & Hw & Hq & Hc) & Hk).
    exists q. split; [|done]. exists (x :: w), y. cbn in *. rewrite Hr.
    split; [done|]. split; [by constructor|done].
Qed.

(** What the matcher finds is a match. *)
Lemma rmatch_sound e : forall k prev rest cs res,
  rmatch e k prev rest cs = Some res ->
  exists q, matches e (prev, rest, cs) q /\ apply_cont k q = Some res.
Proof.
  induction e as [|r| |r| | |a IHa b IHb|a IHa b IHb|a IHa|r|name a IHa]; intros k prev rest cs res H; cbn in H.
  - by exists (prev, rest, cs).
  - by apply one_sound.
  - by apply one_sound.
  - by apply one_sound.
  - destruct (at_bol prev) eqn:E; [|done]. by exists (prev, rest, cs).
  - destruct (at_eol rest) eqn:E; [|done]. by exists (prev, rest, cs).
  - apply IHa in H as ([[p1 r1] c1] & Ha & Hk). apply IHb in Hk as (q & Hb & Hk).
    exists q. split; [|done]. by exists (p1, r1, c1).
  - destruct (rmatch a k prev rest cs) as [r|] eqn:E.
    + injection H as ->. apply IHa in E as (q & Ha & Hk). exists q. split; [by left|done].
    + apply IHb in H as (q & Hb & Hk). exists q. split; [by right|done].
  - destruct (k prev rest cs) as [r|] eqn:E.
    + injection H as ->. exists (prev, rest, cs). split; [by left|done].
    + apply IHa in H as (q & Ha & Hk). exists q. split; [by right|done].
  - by apply plus_sound.
  - apply IHa in H as ([[p1 r1] c1] & Ha & Hk). cbn in Hk.
    exists (p1, r1, (name, consumed rest r1) :: c1). split; [|done]. by exists c1.
Qed.

Lemma find_from_sound e rest : forall prev cs,
  find_from e prev rest = Some cs ->
  exists pre rest' q, rest = pre ++ rest' /\
    matches e (match List.rev pre with x :: _ => Some x | [] => prev end, rest', []) q /\ q.2 = cs.
Proof.
  induction rest as [|x rest IH]; intros prev cs H; cbn [find_from] in H;
    destruct (rmatch e accept prev _ []) as [c|] eqn:E; try discriminate H.
  1, 2: injection H as <-; apply rmatch_sound in E as (q & Hm & Hk); injection Hk as Hk;
    eexists [], _, q; by split.
  apply IH in H as (pre & rest' & q & -> & Hm & Hq). exists (x :: pre), rest', q.
  split; [done|]. split; [|done]. cbn [List.rev]. by destruct (List.rev pre).
Qed.

Lemma text_app a b : text (a ++ b) = text a +:+ text b.
Proof. induction a as [|x a IH]; cbn; [done|]. by rewrite IH, str_app_assoc. Qed.

Lemma text_runes s : text (runes s) = s.
Proof.
  enough (forall n s, String.length s <= n -> text (runes s) = s) as H by by apply (H (String.length s)).
  clear s. induction n as [|n IH]; intros [|c s1] Hn; cbn in Hn; try lia; try done. cbn [runes].
  destruct (N_of_ascii c <? 128)%N; [cbn; by rewrite IH by lia|].
  destruct (rune_len c s1) as [|[|[|[|[|m]]]]];
    destruct s1 as [|c2 [|c3 [|c4 s4]]]; cbn [text byte_rune String.length] in *;
    rewrite ?IH by (cbn [String.length]; lia); done.
Qed.

Lemma consumed_app w rest : consumed (w ++ rest) rest = text w.
Proof. unfold consumed. rewrite length_app, take_app_length'; [done|lia]. Qed.

Lemma same_rune_refl r : same_rune r r = true.
Proof. apply String.eqb_refl. Qed.

(** [plus] stops at the first position where the continuation succeeds. *)
Lemma plus_first test k w : forall x rest cs res,
  Forall (fun y => test y = true) (w ++ [x]) ->
  (forall w1 y w2, w = w1 ++ y :: w2 -> k (Some y) (w2 ++ x :: rest) cs = None) ->
  k (Some x) rest cs = Some res ->
  plus test k (w ++ x :: rest) cs = Some res.
Proof.
  induction w as [|y w IH]; intros x rest cs res Hall Hno Hk; cbn.
  - apply List.Forall_inv in Hall. by rewrite Hall, Hk.
  - pose proof (List.Forall_inv Hall) as Hy. cbn in Hy. rewrite Hy.
    rewrite (Hno [] y w eq_refl). apply IH; [by apply List.Forall_inv_tail in Hall|..|done].
    intros w1 z w2 ->. by apply (Hno (y :: w1)).
Qed.

(** Literals are matched rune by rune. *)
Lemma rmatch_lits rs : forall e k prev rest cs,
  rmatch (RLits rs e) k prev (rs ++ rest) cs =
  rmatch e k (match List.rev rs with x :: _ => Some x | [] => prev end) rest cs.
Proof.
  induction rs as [|r rs IH]; intros e k prev rest cs; cbn; [done|].
  rewrite same_rune_refl, IH. by destruct (List.rev rs).
Qed.

Definition same_runes (a b : list rune) : Prop := Forall2 (fun x y => same_rune x y = true) a b.

Lemma matches_lits rs : forall e p q,
  matches (RLits rs e) p q ->
  exists rs' m, p.1.2 = rs' ++ m.1.2 /\ same_runes rs rs' /\ m.2 = p.2 /\ matches e m q.
Proof.
  induction rs as [|r rs IH]; intros e p q H; cbn in H; [by exists [], p; split; [|split; [constructor|]]|].
  destruct H as (m & (x & Hr & Hx & Hp & Hc) & H). apply IH in H as (rs' & m' & Hm & Hs & Hc' & H).
  exists (x :: rs'), m'. rewrite Hr, Hm. split; [done|]. split; [by constructor|].
  split; [by rewrite Hc'|done].
Qed.

(** ** Runes of strings *)

Fixpoint valid_utf8 (s : string) : bool :=
  match s with
  | EmptyString => true
  | String c s1 =>
      if (N_of_ascii c <? 128)%N then valid_utf8 s1
      else match rune_len c s1, s1 with
           | 2, String c2 s2 => valid_utf8 s2
           | 3, String c2 (String c3 s3) => valid_utf8 s3
           | 4, String c2 (String c3 (String c4 s4)) => valid_utf8 s4
           | _, _ => false
           end
  end.

(** Induction over the runes of a string *)
Lemma rune_ind (P : string -> Prop) :
  P EmptyString ->
  (forall c s, (N_of_ascii c <? 128)%N = true -> P s -> P (String c s)) ->
  (forall c s, (N_of_ascii c <? 128)%N = false -> rune_len c s = 0 -> P s -> P (String c s)) ->
  (forall c c2 s, (N_of_ascii c <? 128)%N = false -> rune_len c (String c2 s) = 2 -> P s -> P (String c (String c2 s))) ->
  (forall c c2 c3 s, (N_of_ascii c <? 128)%N = false -> rune_len c (String c2 (String c3 s)) = 3 -> P s ->
     P (String c (String c2 (String c3 s)))) ->
  (forall c c2 c3 c4 s, (N_of_ascii c <? 128)%N = false -> rune_len c (String c2 (String c3 (String c4 s))) = 4 -> P s ->
     P (String c (String c2 (String c3 (String c4 s))))) ->
  forall s, P s.
Proof.
  intros H0 H1 Hbad H2 H3 H4 s. remember (String.length s) as n eqn:Hn.
  assert (String.length s <= n) as Hle by lia. clear Hn. revert s Hle.
  induction n as [|n IH]; intros [|c s] Hle; cbn in Hle; try lia; try done.
  destruct (N_of_ascii c <? 128)%N eqn:Hc; [by apply H1, IH; [|lia]|].
  destruct (rune_len_cases c s) as [H|[(H & c2 & u & ->)|[(H & c2 & c3 & u & ->)|(H & c2 & c3 & c4 & u & ->)]]];
    cbn in Hle.
  - by apply Hbad; [| |apply IH; lia].
  - by apply H2; [| |apply IH; lia].
  - by apply H3; [| |apply IH; lia].
  - by apply H4; [| |apply IH; lia].
Qed.

Lemma runes_app s : forall t, valid_utf8 s = true -> runes (s +:+ t) = runes s ++ runes t.
Proof.
  induction s as [|c s Hc IH|c s Hc H IH|c c2 s Hc H IH|c c2 c3 s Hc H IH|c c2 c3 c4 s Hc H IH] using rune_ind;
    intros t Hv; [done|..]; cbn [valid_utf8] in Hv; rewrite Hc, ?H in Hv;
    rewrite !str_app_cons; cbn [runes]; rewrite Hc.
  - by rewrite IH.
  - by destruct s.
  - by rewrite H, (rune_len_2 _ _ _ _ H), IH.
  - by rewrite H, (rune_len_3 _ _ _ _ _ H), IH.
  - by rewrite H, (rune_len_4 _ _ _ _ _ _ H), IH.
Qed.

(** A rune that is not the ASCII character [d] *)
Lemma to_valid_first c s d : (N_of_ascii c <? 128)%N = false -> (N_of_ascii d <? 128)%N = true ->
  to_valid_utf8 (String c s) <> byte_rune d.
Proof.
  intros Hc Hd H. assert (c <> d) as Hne by (intros ->; congruence).
  destruct (rune_len_cases c s) as [H0|[(H0 & c2 & u & ->)|[(H0 & c2 & c3 & u & ->)|(H0 & c2 & c3 & c4 & u & ->)]]];
    cbn [to_valid_utf8] in H; rewrite Hc, H0 in H; [|by injection H as H..].
  assert (exists t, replacement +:+ t = byte_rune d) as [t Ht] by (destruct s; by eexists).
  injection Ht as Ht _. by subst d.
Qed.

Lemma same_rune_byte c d : (N_of_ascii d <? 128)%N = true -> (N_of_ascii c <? 128)%N = true ->
  same_rune (byte_rune d) (byte_rune c) = Ascii.eqb d c.
Proof.
  intros Hd Hc. unfold same_rune, byte_rune. cbn [to_valid_utf8]. rewrite Hd, Hc. cbn.
  destruct (Ascii.eqb_spec d c) as [->|Hne]; [apply String.eqb_refl|].
  apply String.eqb_neq. congruence.
Qed.

Lemma same_rune_high c s d : (N_of_ascii d <? 128)%N = true -> (N_of_ascii c <? 128)%N = false ->
  same_rune (byte_rune d) (String c s) = false.
Proof.
  intros Hd Hc. unfold same_rune. apply String.eqb_neq. intros H.
  assert (to_valid_utf8 (byte_rune d) = byte_rune d) as E by (unfold byte_rune; cbn [to_valid_utf8]; by rewrite Hd).
  rewrite E in H. symmetry in H. by apply to_valid_first in H.
Qed.

(** The runes of a string without the character [d] *)
Lemma runes_lack d s : (N_of_ascii d <? 128)%N = true -> lacks d s = true ->
  Forall (fun r => same_rune (byte_rune d) r = false) (runes s).
Proof.
  intros Hd. induction s as [|c s Hc IH|c s Hc H IH|c c2 s Hc H IH|c c2 c3 s Hc H IH|c c2 c3 c4 s Hc H IH] using rune_ind;
    cbn [lacks runes]; [constructor|..]; rewrite Hc, ?H, !andb_true_iff.
  - intros [Hne Hl]. constructor; [|by apply IH]. rewrite same_rune_byte by done.
    rewrite negb_true_iff, Ascii.eqb_sym in Hne. exact Hne.
  - intros [_ Hl]. destruct s; (constructor; [by apply same_rune_high|by apply IH]).
  - intros (_ & _ & Hl). constructor; [by apply same_rune_high|by apply IH].
  - intros (_ & _ & _ & Hl). constructor; [by apply same_rune_high|by apply IH].
  - intros (_ & _ & _ & _ & Hl). constructor; [by apply same_rune_high|by apply IH].
Qed.

Lemma same_rune_byte_eq d r : (N_of_ascii d <? 128)%N = true -> same_rune (byte_rune d) r = true -> r = byte_rune d.
Proof.
  intros Hd H. destruct r as [|c r].
  - unfold same_rune, byte_rune in H. cbn [to_valid_utf8] in H. rewrite Hd in H. discriminate H.
  - destruct (N_of_ascii c <? 128)%N eqn:Hc; [|by rewrite same_rune_high in H].
    unfold same_rune in H. apply String.eqb_eq in H. unfold byte_rune in *. cbn [to_valid_utf8] in H.
    rewrite Hd, Hc in H. injection H as -> H. destruct r as [|c2 r]; [done|]. exfalso.
    cbn [to_valid_utf8] in H. destruct (N_of_ascii c2 <? 128)%N; [discriminate H|].
    destruct (rune_len c2 r) as [|[|[|[|[|n]]]]]; destruct r as [|c3 [|c4 [|c5 s5]]]; discriminate H.
Qed.

Lemma runes_nonempty s : s <> EmptyString -> runes s <> [].
Proof. intros H E. apply H. by rewrite <- (text_runes s), E. Qed.

(** The text of runes none of which is the character [d] *)
Lemma text_not_empty rs x : Forall (fun r => r <> EmptyString) (rs ++ [x]) -> text (rs ++ [x]) <> EmptyString.
Proof.
  intros H. rewrite text_app. apply List.Forall_app in H as [_ H]. apply List.Forall_inv in H.
  cbn. rewrite str_app_nil_r. destruct (text rs); [by rewrite str_app_nil_l|by rewrite str_app_cons].
Qed.

Lemma runes_not_empty s : Forall (fun r => r <> EmptyString) (runes s).
Proof.
  induction s as [|c s Hc IH|c s Hc H IH|c c2 s Hc H IH|c c2 c3 s Hc H IH|c c2 c3 c4 s Hc H IH] using rune_ind;
    cbn [runes]; [constructor|..]; rewrite Hc, ?H; [..|destruct s|destruct s|destruct s|destruct s]; by constructor.
Qed.

(** ** Segments of repository URLs *)

(** A path segment *)
Definition segment (s : string) : Prop :=
  s <> "" /\ valid_utf8 s = true /\ lacks "/" s = true /\ lacks (ascii_of_N 10) s = true.

Lemma segment_runes s : segment s ->
  exists w x, runes s = w ++ [x] /\ Forall (fun r => same_rune slash r = false) (w ++ [x]) /\
    Forall (fun r => String.eqb r newline = false) (w ++ [x]).
Proof.
  intros (Hne & Hv & Hs & Hn). destruct (exists_last (runes_nonempty s Hne)) as (w & x & E).
  exists w, x. rewrite <- E. split; [done|]. split; [by apply (runes_lack "/")|].
  apply (runes_lack (ascii_of_N 10)) in Hn; [|done]. eapply List.Forall_impl; [|exact Hn].
  intros r Hr. cbn in Hr. apply String.eqb_neq. intros ->. by vm_compute in Hr.
Qed.

Lemma one_lit d l (k : continuation) cs : (N_of_ascii d <? 128)%N = true ->
  one (same_rune (byte_rune d)) k l cs =
  match l with
  | x :: rest => if String.eqb x (byte_rune d) then k (Some x) rest cs else None
  | [] => None
  end.
Proof.
  intros Hd. destruct l as [|x rest]; cbn; [done|]. destruct (String.eqb_spec x (byte_rune d)) as [->|Hne].
  - by rewrite same_rune_refl.
  - destruct (same_rune (byte_rune d) x) eqn:E; [|done]. by apply same_rune_byte_eq in E.
Qed.

(** A capture that ends at the first slash *)
Lemma segment_captured name (k : continuation) prev w x rest cs res :
  Forall (fun r => same_rune slash r = false) (w ++ [x]) ->
  k (Some slash) rest ((name, text (w ++ [x])) :: cs) = Some res ->
  rmatch (RCap name (RPlus slash)) (rmatch (RLit slash) k) prev (w ++ x :: slash :: rest) cs = Some res.
Proof.
  intros Hw Hk. cbn [rmatch]. apply plus_first.
  - eapply List.Forall_impl; [|exact Hw]. intros r Hr. cbn. by rewrite Hr.
  - intros w1 y w2 ->. unfold one. destruct (w2 ++ x :: slash :: rest) as [|z l] eqn:E; [by destruct w2|].
    assert (same_rune slash z = false) as ->; [|done].
    rewrite List.Forall_forall in Hw. apply Hw. destruct w2; injection E as -> _; [apply in_or_app; right; by left|].
    apply in_or_app. left. apply in_or_app. right. right. by left.
  - unfold one. rewrite same_rune_refl. rewrite cons_middle, app_assoc, consumed_app. exact Hk.
Qed.
