(* ===== verification/Quay.v ===== *)
(** * pkg/serviceprovider/quay: scopes, repository names, docker login, entity records

    state.go, utils.go and dockerlogin.go.  A repository or an organization has
    an [EntityRecord]: the scopes that a token has there, found out by trying
    (OAuth tokens) or read from the JWT of a docker login (robot accounts). *)

From S2P Require Import Prelude GoStd GoUrl GoJson GoTime GoUnmarshal GoBase64 Api Externals SpErrors Effects SpConfig.
Local Open Scope string_scope.
Local Open Scope list_scope.
Local Open Scope spi_scope.

Definition quayApiBaseUrl : string := spt_DefaultBaseUrl ServiceProviderTypeQuay +:+ "/api/v1".

(** ** state.go: scopes *)

Definition OAuthTokenUserName : string := "$oauthtoken".
Definition ScopeRepoRead : string := "repo:read".
Definition ScopeRepoWrite : string := "repo:write".
Definition ScopeRepoAdmin : string := "repo:admin".
Definition ScopeRepoCreate : string := "repo:create".
Definition ScopeUserRead : string := "user:read".
Definition ScopeUserAdmin : string := "user:admin".
Definition ScopeOrgAdmin : string := "org:admin".
Definition ScopePush : string := "push".
Definition ScopePull : string := "pull".

Definition Implies (s other : string) : bool :=
  if String.eqb s other then true
  else if String.eqb s ScopeRepoRead then String.eqb other ScopePull
  else if String.eqb s ScopeRepoWrite then one_of other [ScopeRepoRead; ScopePush; ScopePull]
  else if String.eqb s ScopeRepoAdmin then
    one_of other [ScopeRepoRead; ScopeRepoWrite; ScopeRepoCreate; ScopePush; ScopePull]
  else if String.eqb s ScopeUserAdmin then String.eqb other ScopeUserRead
  else false.

Fixpoint IsIncluded (s : string) (scopes : list string) : bool :=
  match scopes with
  | [] => false
  | sc :: rest => if Implies sc s then true else IsIncluded s rest
  end.

(** ** utils.go *)

Definition quay_request (url token method body contentHeader : string) : HttpRequest :=
  mkHttpRequest method url
    ((if String.eqb contentHeader "" then [] else [("Content-Type", contentHeader)]) ++
     (if String.eqb token "" then [] else [("Authorization", "Bearer " +:+ token)])) body.

Definition doQuayRequest (url token method body contentHeader : string) : prog (res HttpResponse) :=
  match Parse url with
  | Err err => Ret (Err (Errorf_w ("failed to compose the request to " +:+ url) err))
  | Ok _ =>
      let! resp := call (Ht (HttpDo (quay_request url token method body contentHeader))) in
      match resp with
      | Err err => Ret (Err (Errorf_w ("failed to execute a request to " +:+ url) err))
      | Ok resp => Ret (Ok resp)
      end
  end.

Definition isSuccessfulRequest (url token : string) : prog (res bool) :=
  let! resp := doQuayRequest url token "GET" "" "" in
  match resp with
  | Err err => Ret (Err err)
  | Ok resp => Ret (Ok (hr_StatusCode resp =? 200)%Z)
  end.

Definition readResponseBodyToJsonMap (resp : HttpResponse) : res (list (string * json)) :=
  match rbind (hr_Body resp) Decode_object with
  | Err err => Err (Errorf_w "failed to decode response body as JSON" err)
  | Ok m => Ok m
  end.

(** The scheme is dropped when there is one. *)
Definition without_scheme (repository : string) : string :=
  match Index repository "://" with
  | Some (S i) => drop_str (S i + 3) repository
  | _ => repository
  end.

(** The image and its version *)
Definition split_image (img : string) : string * string :=
  match Split img ":" with
  | [name; version] => (name, version)
  | name :: _ => (name, "")
  | [] => ("", "")
  end.

Definition splitToOrganizationAndRepositoryAndVersion (repository : string) : string * string * string :=
  let parts := Split (without_scheme repository) "/" in
  match parts with
  | host :: p1 :: p2 :: more =>
      let isUIUrl := match more with [_] => String.eqb p1 "repository" | _ => false end in
      if negb isUIUrl && (length parts =? 4)%nat then ("", "", "")
      else if negb (String.eqb host (spt_DefaultHost ServiceProviderTypeQuay)) then ("", "", "")
      else
        let repo := if isUIUrl then p2 else p1 in
        let img := match more with [p3] => if isUIUrl then p3 else p2 | _ => p2 end in
        (repo, (split_image img).1, (split_image img).2)
  | _ => ("", "", "")
  end.

(** ** dockerlogin.go *)

Definition loginResponseWithoutTokenError : string := "quay login response doesn't contain a token".
Definition unexpectedTokenFormatError : string := "unexpected token format in quay login response".

Definition docker_login_url (repository : string) : string :=
  spt_DefaultBaseUrl ServiceProviderTypeQuay +:+ "/v2/auth?service=quay.io&scope=repository:" +:+ repository +:+ ":push,pull".

Definition DockerLogin (repository username password : string) : prog (res string) :=
  match Parse (docker_login_url repository) with
  | Err err => Ret (Err (Errorf_w "failed to compose the quay login request" err))
  | Ok _ =>
      let userPass := EncodeToString StdEncoding (username +:+ ":" +:+ password) in
      let! res := call (Ht (HttpDo (mkHttpRequest "GET" (docker_login_url repository)
                                      [("Authorization", "Basic " +:+ userPass)] ""))) in
      match res with
      | Err err => Ret (Err (Errorf_w "failed to perform the quay login request" err))
      | Ok res =>
          if negb (hr_StatusCode res =? 200)%Z then
            match hr_Body res with
            | Err err => Ret (Err (Errorf_w "failed to read the body of non-200 response to login attempt" err))
            | Ok _ => Ret (Ok "")
            end
          else
            match hr_Body res with
            | Err err => Ret (Err (Errorf_w "failed to read the quay login response body" err))
            | Ok bytes =>
                match Unmarshal_object bytes with
                | Err err => Ret (Err (Errorf_w "failed to unmarshal quay login response to JSON" err))
                | Ok resp =>
                    match member "token" resp with
                    | None => Ret (Err (ErrorString loginResponseWithoutTokenError))
                    | Some (JString token) => Ret (Ok token)
                    | Some _ => Ret (Err (ErrorString unexpectedTokenFormatError))
                    end
                end
            end
      end
  end.

Record LoginTokenRepositoryInfo := mkLoginTokenRepositoryInfo { Pushable : bool; Pullable : bool }.
Record LoginTokenInfo := mkLoginTokenInfo {
  lti_Username : string; lti_Repositories : gmap string LoginTokenRepositoryInfo }.
Definition no_login_info : LoginTokenInfo := mkLoginTokenInfo "" ∅.

Record quayAccess := mkQuayAccess { qa_Type : string; qa_Name : string; qa_Actions : list string }.
Record quayContext := mkQuayContext {
  qx_Version : Z; qx_EntityKind : string; qx_EntityReference : string; qx_Kind : string;
  qx_User : string; qx_OAuth : string; qx_ApostilleRoots : gmap string string; qx_ApostilleRoot : string }.
Record quayClaims := mkQuayClaims { qc_Access : list quayAccess; qc_Context : quayContext }.

(** golang-jwt's ParseUnverified into [quayClaims] *)
Class JwtParser := { ParseUnverified : string -> res quayClaims }.

Definition containsString (arr : list string) (str : string) : bool := existsb (fun v => String.eqb v str) arr.

(** A later entry for the same repository replaces an earlier one. *)
Definition add_access (m : gmap string LoginTokenRepositoryInfo) (access : quayAccess)
  : gmap string LoginTokenRepositoryInfo :=
  <[qa_Name access := mkLoginTokenRepositoryInfo (containsString (qa_Actions access) "push")
                        (containsString (qa_Actions access) "pull")]> m.

Definition AnalyzeLoginToken {J : JwtParser} (token : string) : res LoginTokenInfo :=
  match ParseUnverified token with
  | Err err => Err (Errorf_w "failed to parse Quay JWT token" err)
  | Ok claims => Ok (mkLoginTokenInfo (qx_User (qc_Context claims)) (fold_left add_access (qc_Access claims) ∅))
  end.

(** ** state.go: entity records *)

(** [None] is the nil slice. *)
Record EntityRecord := mkEntityRecord { LastRefreshTime : Z; PossessedScopes : option (list string) }.
Definition empty_record : EntityRecord := mkEntityRecord 0 None.
Definition add_scopes (l : list string) (r : EntityRecord) : EntityRecord :=
  mkEntityRecord (LastRefreshTime r) (Some (default [] (PossessedScopes r) ++ l)).

Record TokenState := mkTokenState {
  Repositories : gmap string EntityRecord; Organizations : gmap string EntityRecord }.

Definition descriptionNotStringError : string := "the repository data 'description' is not a string".

Definition getUsernameAndPasswordFromTokenData (tokenData : Token) : string * string :=
  (if String.eqb (td_Username tokenData) "" then OAuthTokenUserName else td_Username tokenData,
   td_AccessToken tokenData).
Definition getUsernameAndPasswordFromCredentials (c : Credentials) : string * string :=
  if String.eqb (cred_Username c) "" then (OAuthTokenUserName, cred_Token c) else (cred_Username c, cred_Token c).

Definition robotAccountRepositoryRecord (repository : string) (info : LoginTokenInfo) : option EntityRecord :=
  match lti_Repositories info !! repository with
  | None => None
  | Some repoInfo =>
      let r := if Pullable repoInfo then add_scopes [ScopePull] empty_record else empty_record in
      Some (if Pushable repoInfo then add_scopes [ScopePush] r else r)
  end.

Definition quoted (s : string) : string := String dquote (s +:+ String dquote EmptyString).
Definition repository_url (repository : string) : string := quayApiBaseUrl +:+ "/repository/" +:+ repository.

(** Whether the repository can be read, and its description *)
Definition hasRepoRead (repository token : string) : prog (res (bool * option string)) :=
  let url := repository_url repository in
  let! resp := doQuayRequest url token "GET" "" "" in
  match resp with
  | Err err => Ret (Err err)
  | Ok resp =>
      if negb (hr_StatusCode resp =? 200)%Z then Ret (Ok (false, None))
      else match hr_Body resp with
           | Err err => Ret (Err (Errorf_w ("failed to read the response from " +:+ url) err))
           | Ok bytes =>
               match Unmarshal_object bytes with
               | Err err => Ret (Err (Errorf_w "failed to unmarshal repo read scope check response" err))
               | Ok data =>
                   match member "description" data with
                   | None => Ret (Ok (true, None))
                   | Some JNull => Ret (Ok (true, None))
                   | Some (JString str) => Ret (Ok (true, Some str))
                   | Some _ => Ret (Err (Wrapf descriptionNotStringError ""))
                   end
               end
           end
  end.

(** The body of the request that writes the description back *)
Definition description_body (description : option string) : string :=
  "{" +:+ quoted "description" +:+ ": " +:+
    match description with None => "null" | Some d => quoted d end +:+ "}".

Definition hasRepoWrite (repository token : string) (description : option string) : prog (res bool) :=
  let! resp := doQuayRequest (repository_url repository) token "PUT" (description_body description) "application/json" in
  match resp with
  | Err err => Ret (Err err)
  | Ok resp => Ret (Ok (hr_StatusCode resp =? 200)%Z)
  end.

Definition nl_ : string := String (ascii_of_N 10) EmptyString.
Definition tabs : string := String (ascii_of_N 9) (String (ascii_of_N 9) EmptyString).

(** What precedes the first slash; empty when there is none *)
Definition organization_of (repository : string) : string :=
  match cut_char "/" repository with Some (organization, _) => organization | None => "" end.

Definition create_body (organization : string) : string :=
  "{" +:+ nl_ +:+
  tabs +:+ quoted "repository" +:+ ": " +:+ quoted "an/intentionally/invalid/name" +:+ "," +:+ nl_ +:+
  "        " +:+ quoted "visibility" +:+ ": " +:+ quoted "public" +:+ "," +:+ nl_ +:+
  "        " +:+ quoted "namespace" +:+ ": " +:+ quoted organization +:+ "," +:+ nl_ +:+
  tabs +:+ quoted "description" +:+ ": " +:+ quoted "" +:+ "," +:+ nl_ +:+
  "        " +:+ quoted "repo_kind" +:+ ": " +:+ quoted "image" +:+ nl_ +:+
  "    }".

(** The right to create is checked before the name of the repository. *)
Definition hasRepoCreate (repository token : string) : prog (res bool) :=
  let! resp := doQuayRequest "https://quay.io/api/v1/repository" token "POST"
                 (create_body (organization_of repository)) "application/json" in
  match resp with
  | Err err => Ret (Err err)
  | Ok resp => Ret (Ok (hr_StatusCode resp =? 400)%Z)
  end.

Definition hasRepoAdmin (repository token : string) : prog (res bool) :=
  isSuccessfulRequest (quayApiBaseUrl +:+ "/repository/" +:+ repository +:+ "/notification/") token.

Definition hasOrgAdmin (organization token : string) : prog (res bool) :=
  isSuccessfulRequest (quayApiBaseUrl +:+ "/organization/" +:+ organization
                       +:+ "/robots?limit=1&token=false&permissions=false") token.

Definition oauthRepositoryRecord (repository token : string) : prog (res (option EntityRecord)) :=
  try (hasRepoRead repository token) (fun '(repoRead, description) =>
  let rr := if repoRead then add_scopes [ScopeRepoRead; ScopePull] empty_record else empty_record in
  try (if repoRead then hasRepoWrite repository token description else Ret (Ok false)) (fun repoWrite =>
  let rr := if repoWrite then add_scopes [ScopeRepoWrite; ScopePush] rr else rr in
  try (hasRepoAdmin repository token) (fun repoAdmin =>
  let rr := if repoAdmin then add_scopes [ScopeRepoAdmin] rr else rr in
  try (hasRepoCreate repository token) (fun repoCreate =>
  let rr := if repoCreate then add_scopes [ScopeRepoCreate] rr else rr in
  Ret (Ok (Some rr)))))).

Definition fetchRepositoryRecord (repoUrl : string) (tokenData : Token) (info : LoginTokenInfo)
  : prog (res (option EntityRecord)) :=
  let '(username, password) := getUsernameAndPasswordFromTokenData tokenData in
  if negb (String.eqb username OAuthTokenUserName)
  then Ret (Ok (robotAccountRepositoryRecord repoUrl info))
  else oauthRepositoryRecord repoUrl password.

Definition fetchOrganizationRecord (organization : string) (tokenData : Token) (info : LoginTokenInfo)
  : prog (res (option EntityRecord)) :=
  let '(username, accessToken) := getUsernameAndPasswordFromTokenData tokenData in
  if negb (String.eqb username OAuthTokenUserName) then Ret (Ok None)
  else try (hasOrgAdmin organization accessToken) (fun orgAdmin =>
       Ret (Ok (Some (mkEntityRecord 0 (Some (if orgAdmin then [ScopeOrgAdmin] else [])))))).

(** ** The cached state as JSON *)

Definition marshal_record (r : EntityRecord) : string :=
  print_object [("LastRefreshTime", FormatInt (LastRefreshTime r));
                ("PossessedScopes", marshal_strings (PossessedScopes r))].
Definition marshal_state (s : TokenState) : string :=
  print_object [("Repositories", marshal_map marshal_record (Repositories s));
                ("Organizations", marshal_map marshal_record (Organizations s))].

Definition record_fields : list (string * (EntityRecord -> json -> res EntityRecord)) :=
  [("LastRefreshTime", fun r v =>
      let? t := decode_int64 (LastRefreshTime r) v in Ok (mkEntityRecord t (PossessedScopes r)));
   ("PossessedScopes", fun r v =>
      let? s := decode_strings (PossessedScopes r) v in Ok (mkEntityRecord (LastRefreshTime r) s))].
Definition decode_record : json -> res EntityRecord := decode_struct record_fields empty_record.
Definition state_fields : list (string * (TokenState -> json -> res TokenState)) :=
  [("Repositories", fun s v =>
      let? m := decode_map decode_record (Repositories s) v in Ok (mkTokenState m (Organizations s)));
   ("Organizations", fun s v =>
      let? m := decode_map decode_record (Organizations s) v in Ok (mkTokenState (Repositories s) m))].
Definition unmarshal_state : string -> res TokenState :=
  Unmarshal_into (decode_struct state_fields) (mkTokenState ∅ ∅).

(** ** Scopes form a preorder *)

(** The scopes a scope implies besides itself *)
Definition implied (s : string) : list string :=
  if String.eqb s ScopeRepoRead then [ScopePull]
  else if String.eqb s ScopeRepoWrite then [ScopeRepoRead; ScopePush; ScopePull]
  else if String.eqb s ScopeRepoAdmin then [ScopeRepoRead; ScopeRepoWrite; ScopeRepoCreate; ScopePush; ScopePull]
  else if String.eqb s ScopeUserAdmin then [ScopeUserRead]
  else [].

Lemma Implies_implied s t : Implies s t = true <-> s = t \/ In t (implied s).
Proof.
  unfold Implies, implied. destruct (String.eqb_spec s t) as [->|Hne]; [tauto|].
  destruct (String.eqb s ScopeRepoRead); [rewrite String.eqb_eq; cbn; naive_solver|].
  destruct (String.eqb s ScopeRepoWrite); [rewrite one_of_In; tauto|].
  destruct (String.eqb s ScopeRepoAdmin); [rewrite one_of_In; tauto|].
  destruct (String.eqb s ScopeUserAdmin); [rewrite String.eqb_eq; cbn; naive_solver|cbn; naive_solver].
Qed.

Lemma implied_closed s t u : In t (implied s) -> In u (implied t) -> In u (implied s).
Proof.
  unfold implied at 1 3.
  destruct (String.eqb s ScopeRepoRead); [|destruct (String.eqb s ScopeRepoWrite);
    [|destruct (String.eqb s ScopeRepoAdmin); [|destruct (String.eqb s ScopeUserAdmin)]]];
    cbn [In]; intros H; repeat (destruct H as [<-|H]; [vm_compute; tauto|]); done.
Qed.

Lemma Implies_refl s : Implies s s = true.
Proof. apply Implies_implied. by left. Qed.
Lemma Implies_trans s t u : Implies s t = true -> Implies t u = true -> Implies s u = true.
Proof.
  rewrite !Implies_implied. intros [->|H1] [->|H2]; try tauto. right. by eapply implied_closed.
Qed.
Lemma IsIncluded_spec s l : IsIncluded s l = true <-> exists sc, In sc l /\ Implies sc s = true.
Proof.
  induction l as [|x l IH]; cbn; [split; [done|naive_solver]|].
  destruct (Implies x s) eqn:E; [naive_solver|]. rewrite IH. split; [naive_solver|].
  intros (sc & [<-|Hi] & H); [congruence|eauto].
Qed.

(** Scopes are ordered: [Implies] is reflexive and transitive, and a list
    of scopes that includes a scope includes everything the scope implies; a
    longer list includes at least as much. *)
Theorem quay_scopes_preorder :
  (forall s, Implies s s = true) /\
  (forall s t u, Implies s t = true -> Implies t u = true -> Implies s u = true) /\
  (forall s t l, IsIncluded s l = true -> Implies s t = true -> IsIncluded t l = true) /\
  (forall s l l', IsIncluded s l = true -> (forall x, In x l -> IsIncluded x l' = true) -> IsIncluded s l' = true).
Proof.
  split; [exact Implies_refl|]. split; [exact Implies_trans|]. split.
  - intros s t l (sc & Hi & H)%IsIncluded_spec Ht. apply IsIncluded_spec. exists sc. split; [done|].
    by eapply Implies_trans.
  - intros s l l' (sc & Hi & H)%IsIncluded_spec Hl. apply Hl in Hi. apply IsIncluded_spec in Hi as (x & Hx & Hs).
    apply IsIncluded_spec. exists x. split; [done|]. by eapply Implies_trans.
Qed.

(** ** The cached state survives its JSON form *)

Definition valid_scopes (s : option (list string)) : Prop :=
  match s with None => True | Some l => Forall (fun x => to_valid_utf8 x = x) l end.
Definition valid_record (r : EntityRecord) : Prop :=
  (min_int64 <= LastRefreshTime r <= max_int64)%Z /\ valid_scopes (PossessedScopes r).
Definition valid_state (s : TokenState) : Prop :=
  valid_keys (Repositories s) /\ valid_keys (Organizations s) /\
  map_Forall (fun _ => valid_record) (Repositories s) /\ map_Forall (fun _ => valid_record) (Organizations s).

#[export] Instance valid_scopes_dec s : Decision (valid_scopes s).
Proof. destruct s; cbn; apply _. Defined.
#[export] Instance valid_record_dec r : Decision (valid_record r).
Proof. unfold valid_record. apply _. Defined.
#[export] Instance valid_state_dec s : Decision (valid_state s).
Proof. unfold valid_state, valid_keys. apply _. Defined.

Definition record_json (r : EntityRecord) : json :=
  JObject [("LastRefreshTime", JNumber (FormatInt (LastRefreshTime r)));
           ("PossessedScopes", strings_json (PossessedScopes r))].

Lemma valid_scopes_map s : valid_scopes s -> option_map (map to_valid_utf8) s = s.
Proof.
  destruct s as [l|]; cbn; [|done]. intros H. f_equal. induction H as [|x l Hx _ IH]; cbn; [done|].
  by rewrite Hx, IH.
Qed.

Lemma marshal_record_reads r d : (d + 1 < maxNestingDepth)%N -> valid_record r ->
  reads_as (marshal_record r) (record_json r) d.
Proof.
  intros Hd [Ht _].
  refine (print_object_reads
    [("LastRefreshTime", FormatInt (LastRefreshTime r), JNumber (FormatInt (LastRefreshTime r)));
     ("PossessedScopes", marshal_strings (PossessedScopes r), strings_json (PossessedScopes r))] d _ _ _);
    [done|lia|].
  repeat constructor; cbn [fst snd]; [by apply number_reads|by apply marshal_strings_reads].
Qed.

Lemma decode_record_json r : valid_record r -> decode_record (record_json r) = Ok r.
Proof.
  intros [Ht Hs]. unfold decode_record, record_json. cbn [decode_struct decode_members].
  change (find_by_name record_fields "LastRefreshTime") with (Some (nth 0 record_fields.*2 (fun r _ => Ok r))).
  change (find_by_name record_fields "PossessedScopes") with (Some (nth 1 record_fields.*2 (fun r _ => Ok r))).
  cbn [nth fmap list_fmap record_fields snd]. unfold decode_int64, decode_number.
  rewrite ParseInt_FormatInt by done. cbn [rbind LastRefreshTime PossessedScopes].
  rewrite decode_strings_json. cbn [rbind]. rewrite valid_scopes_map by done. by destruct r.
Qed.

Lemma marshal_state_reads s : valid_state s ->
  parse_json (marshal_state s) = Some (JObject
    [("Repositories", map_json record_json (Repositories s));
     ("Organizations", map_json record_json (Organizations s))]).
Proof.
  intros (_ & _ & Hr & Ho). apply reads_as_parse_json.
  refine (print_object_reads
    [("Repositories", marshal_map marshal_record (Repositories s), map_json record_json (Repositories s));
     ("Organizations", marshal_map marshal_record (Organizations s), map_json record_json (Organizations s))]
    0 _ _ _); [done|done|].
  repeat constructor; cbn [fst snd]; (apply marshal_map_reads; [done|]);
    (eapply map_Forall_impl; [eassumption|]); intros k r Hv; by apply marshal_record_reads.
Qed.

Lemma unmarshal_marshal_state s : valid_state s -> unmarshal_state (marshal_state s) = Ok s.
Proof.
  intros Hv. pose proof (marshal_state_reads s Hv) as E. destruct Hv as (Hkr & Hko & Hr & Ho).
  assert (forall m, valid_keys m -> map_Forall (fun _ => valid_record) m ->
    decode_map decode_record ∅ (map_json record_json m) = Ok m) as Hm.
  { intros m Hk Hall. apply decode_map_json; [done|]. eapply map_Forall_impl; [exact Hall|].
    intros k r Hvr. by apply decode_record_json. }
  unfold unmarshal_state, Unmarshal_into. rewrite E. cbn [decode_struct decode_members].
  change (find_by_name state_fields "Repositories") with (Some (nth 0 state_fields.*2 (fun r _ => Ok r))).
  change (find_by_name state_fields "Organizations") with (Some (nth 1 state_fields.*2 (fun r _ => Ok r))).
  cbn [nth fmap list_fmap state_fields snd Repositories Organizations].
  rewrite Hm by done. cbn [rbind Repositories Organizations]. rewrite Hm by done. by destruct s.
Qed.

(** The cached state survives its journey through the token's status:
    every state whose keys and scopes are valid UTF-8 is read back as it was
    written, record by record. *)
Theorem quay_state_roundtrip s : valid_state s -> unmarshal_state (marshal_state s) = Ok s.
Proof. apply unmarshal_marshal_state. Qed.

Definition sample_state : TokenState :=
  mkTokenState {[ "org/repo" := mkEntityRecord 1700000000 (Some [ScopeRepoRead; ScopePull]);
                  "org/other" := mkEntityRecord (-5) None ]}
               {[ "org" := mkEntityRecord 1700000000 (Some []) ]}.
Lemma quay_state_roundtrip_witness :
  valid_state sample_state /\ unmarshal_state (marshal_state sample_state) = Ok sample_state.
Proof.
  assert (valid_state sample_state) as H; [|split; [exact H|by apply (quay_state_roundtrip sample_state)]].
  apply (bool_decide_unpack _). vm_compute. exact I.
Defined.

(** ** The probe for repo:write puts the description back *)

(** A text that stands for itself inside quotes: valid UTF-8 without quotes,
    backslashes and control characters *)
Fixpoint plain (s : string) : bool :=
  match s with
  | EmptyString => true
  | String c s1 =>
      if (N_of_ascii c <? 128)%N
      then negb (N_of_ascii c <? 32)%N && negb (Ascii.eqb c dquote) && negb (Ascii.eqb c backslash) && plain s1
      else match rune_len c s1, s1 with
           | 2, String c2 s2 => plain s2
           | 3, String c2 (String c3 s3) => plain s3
           | 4, String c2 (String c3 (String c4 s4)) => plain s4
           | _, _ => false
           end
  end.

(** A plain text is read piece by piece. *)
Lemma unquote_plain s : forall t, plain s = true -> unquote (s +:+ t) = prepend s (unquote t).
Proof.
  remember (String.length s) as n eqn:Hn. assert (String.length s <= n) as Hle by lia. clear Hn.
  revert s Hle. induction n as [|n IH]; intros [|c s] Hle t Hp; cbn in Hle; try lia.
  1, 2: rewrite str_app_nil_l; by destruct (unquote t) as [[]|].
  cbn [plain] in Hp. rewrite str_app_cons.
  assert (forall p q : string, prepend p (prepend q (unquote t)) = prepend (p +:+ q) (unquote t)) as Hpp.
  { intros p q. destruct (unquote t) as [[]|]; cbn; [|done]. by rewrite str_app_assoc. }
  destruct (N_of_ascii c <? 128)%N eqn:Hc.
  - rewrite !andb_true_iff, !negb_true_iff in Hp. destruct Hp as [[[H1 H2] H3] Hp].
    rewrite (unquote_piece _ (String c EmptyString) (s +:+ t)).
    + rewrite IH by (lia || done). by rewrite Hpp.
    + unfold next_token. by rewrite H2, H3, H1, Hc.
  - destruct (rune_len_cases c s) as [H|[(H & c2 & u & ->)|[(H & c2 & c3 & u & ->)|(H & c2 & c3 & c4 & u & ->)]]];
      rewrite H in Hp; cbn in Hle; [by destruct s|..];
      rewrite !str_app_cons, unquote_eq, next_token_high by done; unfold rune_token;
      rewrite ?(rune_len_2 _ _ _ _ H), ?(rune_len_3 _ _ _ _ _ H), ?(rune_len_4 _ _ _ _ _ _ H);
      rewrite IH by (lia || done); by rewrite Hpp.
Qed.

Lemma unquote_control c t : (N_of_ascii c <? 32)%N = true -> unquote (String c t) = None.
Proof.
  intros H. rewrite unquote_eq. unfold next_token.
  destruct (Ascii.eqb_spec c dquote) as [->|]; [done|]. destruct (Ascii.eqb_spec c backslash) as [->|]; [done|].
  by rewrite H.
Qed.

(** An object with one string member, as the decoder reads it *)
Lemma parse_one_member k tail :
  parse_json (String ch_lbrace (json_string k +:+ String ch_colon (String " " (String dquote tail)))) =
  match unquote tail with
  | Some (v, "}") => Some (JObject [(k, JString v)])
  | None => None
  | Some _ => parse_json (String ch_lbrace (json_string k +:+ String ch_colon (String " " (String dquote tail))))
  end \/ to_valid_utf8 k <> k.
Proof.
  destruct (decide (to_valid_utf8 k = k)) as [Hk|]; [left|by right].
  destruct (unquote tail) as [[v [|[[] [] [] [] [] [] [] []] [|? ?]]]|] eqn:E; try done.
  all: unfold parse_json; set (len := String.length (json_string k +:+ String ch_colon (String " " (String dquote tail))));
    replace (2 * String.length (String ch_lbrace _) + 2) with (S (S (S (2 * len + 1)))) by (cbn [String.length]; lia);
    rewrite json_string_app; cbn [parse_value parse_members skip_ws];
    change (is_ws ch_lbrace) with false; cbv beta iota; change (Ascii.eqb ch_lbrace dquote) with false;
    rewrite Ascii.eqb_refl; cbv beta iota; change (0 <? maxNestingDepth)%N with true; cbv beta iota;
    rewrite expect_other, expect_here, unquote_json_body, expect_here by done;
    cbn [skip_ws]; change (is_ws " ") with true; change (is_ws dquote) with false; cbv beta iota;
    rewrite Ascii.eqb_refl, E, ?Hk; done.
Qed.

Lemma description_body_read d :
  parse_json (description_body (Some d)) =
  match unquote (d +:+ String dquote "}") with
  | Some (v, "}") => Some (JObject [("description", JString v)])
  | None => None
  | Some _ => parse_json (description_body (Some d))
  end.
Proof.
  assert (description_body (Some d) = String ch_lbrace (json_string "description" +:+ String ch_colon
    (String " " (String dquote (d +:+ String dquote "}"))))) as ->.
  { unfold description_body. rewrite <- (str_app_nil_r (quoted d)) at 1. unfold quoted at 2.
    rewrite !str_app_cons, !str_app_assoc, str_app_cons, !str_app_nil_l. done. }
  destruct (parse_one_member "description" (d +:+ String dquote "}")) as [H|H]; [exact H|by exfalso].
Qed.

(** The probe for [repo:write] is harmless for plain descriptions and
    fails for others: the body sent for a description without quotes,
    backslashes and control characters is JSON for exactly that description,
    and the body for a missing one says null; a description whose first other
    character is a control character, such as a line break, gives a body that
    is not JSON. *)
Theorem description_probe :
  (forall d, plain d = true ->
    Unmarshal_object (description_body (Some d)) = Ok [("description", JString d)]) /\
  Unmarshal_object (description_body None) = Ok [("description", JNull)] /\
  (forall a c b, plain a = true -> (N_of_ascii c < 32)%N ->
    Unmarshal_object (description_body (Some (a +:+ String c b))) = Err jsonSyntaxError).
Proof.
  split; [|split; [vm_compute; reflexivity|]].
  - intros d Hd. unfold Unmarshal_object. rewrite description_body_read, unquote_plain by done.
    rewrite unquote_eq. cbn [next_token]. rewrite Ascii.eqb_refl. cbn [prepend]. by rewrite str_app_nil_r.
  - intros a c b Ha Hc%N.ltb_lt. unfold Unmarshal_object.
    rewrite description_body_read, str_app_assoc, unquote_plain, str_app_cons, unquote_control by done. done.
Qed.

(** A description with a backslash is changed: the two characters of an
    escape come back as one. *)
Example description_changed :
  Unmarshal_object (description_body (Some ("a" +:+ String backslash "n"))) =
  Ok [("description", JString ("a" +:+ nl_))].
Proof. vm_compute. reflexivity. Qed.

(** ** Names of repositories *)

Definition name_part (s : string) : bool := lacks "/" s && lacks ":" s.
(** The notations for an image of an organization *)
Inductive image_ref := Untagged | Tagged (version : string).
Definition render_image (img : string) (v : image_ref) : string :=
  match v with Untagged => img | Tagged version => img +:+ ":" +:+ version end.
Definition image_version (v : image_ref) : string := match v with Untagged => "" | Tagged version => version end.
Definition render_repository (scheme : option string) (ui : bool) (org img : string) (v : image_ref) : string :=
  match scheme with None => "" | Some s => s +:+ "://" end +:+
  "quay.io/" +:+ (if ui then "repository/" else "") +:+ org +:+ "/" +:+ render_image img v.

Lemma split_image_render img v : lacks ":" img = true -> lacks ":" (image_version v) = true ->
  split_image (render_image img v) = (img, image_version v).
Proof.
  intros Hi Hv. unfold split_image. destruct v as [|version]; cbn in *; [by rewrite Split_only|].
  change (":" +:+ version) with (String ":" version). by rewrite Split_first, Split_only.
Qed.

Lemma without_scheme_render scheme t :
  (forall s, scheme = Some s -> s <> "" /\ lacks ":" s = true) -> Index t "://" = None ->
  without_scheme (match scheme with None => "" | Some s => s +:+ "://" end +:+ t) = t.
Proof.
  intros Hs Ht. unfold without_scheme. destruct scheme as [s|]; [|by rewrite str_app_nil_l, Ht].
  destruct (Hs s eq_refl) as [Hne Hl]. rewrite str_app_assoc.
  rewrite (Index_first ":" s "//" t Hl). destruct s as [|c s]; [done|]. cbn [String.length].
  rewrite (str_app_assoc (String c s) "://" t) || idtac.
  change (S (String.length s) + 3) with (S (String.length s + 3)). rewrite <- str_app_assoc.
  replace (S (String.length s + 3)) with (String.length (String c s +:+ "://")) by (rewrite str_length_app; done).
  apply drop_str_app.
Qed.

(** Repository names are understood in all their notations: with or without
    a scheme, as the registry names an image or as the web interface shows it,
    tagged or not, the organization, the repository and the version are found
    again. *)
Theorem quay_repository_roundtrip scheme ui org img v :
  (forall s, scheme = Some s -> s <> "" /\ lacks ":" s = true) ->
  name_part org = true -> name_part img = true -> name_part (image_version v) = true ->
  splitToOrganizationAndRepositoryAndVersion (render_repository scheme ui org img v) = (org, img, image_version v).
Proof.
  unfold name_part. rewrite !andb_true_iff. intros Hs [Ho Ho'] [Hi Hi'] [Hv Hv'].
  unfold splitToOrganizationAndRepositoryAndVersion, render_repository. rewrite without_scheme_render; [|done|].
  - assert (lacks "/" (render_image img v) = true) as Hr.
    { destruct v; cbn in Hv |- *; [done|]. by rewrite !lacks_app, Hi, Hv. }
    pose proof (split_image_render img v Hi' Hv') as Hsplit. set (im := render_image img v) in *. clearbody im.
    change ("quay.io/" +:+ ?t) with ("quay.io" +:+ String "/" t). rewrite Split_first by done.
    destruct ui; [change ("repository/" +:+ ?t) with ("repository" +:+ String "/" t); rewrite Split_first by done|];
      change ("/" +:+ ?t) with (String "/" t); rewrite ?str_app_nil_l, Split_first, Split_only by done;
      cbn; change ("quay.io" =? quaySaasHost) with true; rewrite ?String.eqb_refl; cbn; by rewrite Hsplit.
  - apply (Index_None ":" "quay.io/"); [done|]. apply Index_None; [by destruct ui|]. apply Index_None; [done|].
    apply (Index_None ":" "/"); [done|]. destruct v as [|version]; cbn.
    + rewrite <- (str_app_nil_r img). by apply Index_None.
    + apply Index_None; [done|]. change (":" +:+ version) with (String ":" version). cbn [Index HasPrefix].
      rewrite Ascii.eqb_refl. assert (HasPrefix version "//" = false) as ->.
      { destruct version as [|c version]; [done|]. cbn in Hv |- *. rewrite Ascii.eqb_sym.
        by destruct (Ascii.eqb c "/"). }
      rewrite <- (str_app_nil_r version), Index_None; done.
Qed.

Lemma quay_repository_roundtrip_witness :
  splitToOrganizationAndRepositoryAndVersion (render_repository (Some "https") true "org" "img" (Tagged "v1"))
  = ("org", "img", "v1").
Proof.
  apply (quay_repository_roundtrip (Some "https") true "org" "img" (Tagged "v1")); try reflexivity.
  intros s [= <-]. by split.
Defined.

(** A page of the web interface below a repository is taken for an image of an
    organization called repository. *)
Example ui_subpage :
  splitToOrganizationAndRepositoryAndVersion "https://quay.io/repository/org/img/manifest/sha256"
  = ("repository", "org", "").
Proof. vm_compute. reflexivity. Qed.
Example four_segments : splitToOrganizationAndRepositoryAndVersion "quay.io/a/b/c" = ("", "", "").
Proof. vm_compute. reflexivity. Qed.

(** ** Finding out the scopes of an OAuth token by trying *)

Lemma doQuayRequest_ok url token method body ct tr a :
  exec (doQuayRequest url token method body ct) tr (Ok a) ->
  tr = [Act (Ht (HttpDo (quay_request url token method body ct))) (Ok a)].
Proof.
  unfold doQuayRequest. destruct (Parse url); intros H; [|exec_steps; done].
  exec_steps. destruct x; exec_steps; done.
Qed.

(** A probe: one request, and what its status says *)
Lemma probe_ok {B} url token method body ct (f : HttpResponse -> B) tr b :
  exec (let! resp := doQuayRequest url token method body ct in
        match resp with Err err => Ret (Err err) | Ok resp => Ret (Ok (f resp)) end) tr (Ok b) ->
  exists a, exchanges tr = [(quay_request url token method body ct, Ok a)] /\ b = f a.
Proof.
  intros (r & tr1 & tr2 & -> & H1 & H2)%exec_bind. destruct r as [a|e]; destruct H2 as [-> H2]; [|done].
  apply Ok_inj in H2 as ->. exists a. apply doQuayRequest_ok in H1 as ->. done.
Qed.

Lemma hasRepoRead_ok repository token tr read description :
  exec (hasRepoRead repository token) tr (Ok (read, description)) ->
  exists a, exchanges tr = [(quay_request (repository_url repository) token "GET" "" "", Ok a)] /\
    read = (hr_StatusCode a =? 200)%Z.
Proof.
  unfold hasRepoRead. cbv zeta. intros (r & tr1 & tr2 & -> & H1 & H2)%exec_bind.
  destruct r as [a|e]; [|destruct H2 as [_ H2]; discriminate H2]. apply doQuayRequest_ok in H1 as ->. exists a.
  destruct (hr_StatusCode a =? 200)%Z eqn:E; cbn [negb] in H2.
  - destruct (hr_Body a); [|destruct H2 as [_ H2]; discriminate H2].
    destruct (Unmarshal_object _) as [data|]; [|destruct H2 as [_ H2]; discriminate H2].
    destruct (member _ data) as [[]|]; destruct H2 as [-> H2]; try discriminate H2; by injection H2 as -> ->.
  - destruct H2 as [-> H2]. by injection H2 as -> ->.
Qed.

Definition grant (b : bool) (l : list string) : list string := if b then l else [].
Lemma grant_add (b : bool) (l : list string) (r : EntityRecord) : default [] (PossessedScopes (if b then add_scopes l r else r)) =
  default [] (PossessedScopes r) ++ grant b l.
Proof. destruct b; cbn; [done|by rewrite app_nil_r]. Qed.

(** Scopes by trying: a record of a repository is the outcome of a fixed
    series of requests with the token, namely reading the repository, writing
    back its description when it could be read, listing its notifications, and
    creating a repository with an impossible name in its organization; the
    scopes of the record are exactly those that the statuses of the answers
    (200, and 400 for the creation) prove. *)
Theorem oauth_record_by_probing repository token tr rec :
  exec (oauthRepositoryRecord repository token) tr (Ok rec) ->
  exists rr a1 a3 a4 description write probe,
    rec = Some rr /\
    let read := (hr_StatusCode a1 =? 200)%Z in
    exchanges tr =
      (quay_request (repository_url repository) token "GET" "" "", Ok a1) :: probe ++
      [(quay_request (quayApiBaseUrl +:+ "/repository/" +:+ repository +:+ "/notification/") token "GET" "" "", Ok a3);
       (quay_request "https://quay.io/api/v1/repository" token "POST"
          (create_body (organization_of repository)) "application/json", Ok a4)] /\
    (if read
     then exists a2, probe = [(quay_request (repository_url repository) token "PUT"
                                 (description_body description) "application/json", Ok a2)] /\
                     write = (hr_StatusCode a2 =? 200)%Z
     else probe = [] /\ write = false) /\
    default [] (PossessedScopes rr) =
      grant read [ScopeRepoRead; ScopePull] ++ grant write [ScopeRepoWrite; ScopePush] ++
      grant (hr_StatusCode a3 =? 200)%Z [ScopeRepoAdmin] ++ grant (hr_StatusCode a4 =? 400)%Z [ScopeRepoCreate].
Proof.
  unfold oauthRepositoryRecord. intros H.
  apply exec_try_ok in H as ([read description] & tr1 & rest1 & -> & H1 & H).
  apply exec_try_ok in H as (write & tr2 & rest2 & -> & H2 & H).
  apply exec_try_ok in H as (admin & tr3 & rest3 & -> & H3 & H).
  apply exec_try_ok in H as (create & tr4 & tr5 & -> & H4 & [-> H]). apply Ok_inj in H as ->.
  apply hasRepoRead_ok in H1 as (a1 & E1 & ->). apply probe_ok in H3 as (a3 & E3 & ->).
  apply probe_ok in H4 as (a4 & E4 & ->).
  eexists _, a1, a3, a4, description, write, (exchanges tr2). split; [reflexivity|]. cbv zeta.
  autorewrite with spi_trace. rewrite E1, E3, E4. split; [done|]. split.
  - destruct (hr_StatusCode a1 =? 200)%Z; [by apply probe_ok in H2|]. by destruct H2 as [-> [= ->]].
  - rewrite !grant_add. cbn. by rewrite <- !app_assoc.
Qed.
