(* ===== verification/QuayProvider.v ===== *)
(** * pkg/serviceprovider/quay: metadata, token filter and provider

    metadataprovider.go, tokenfilter.go and quay.go.  The metadata of a Quay
    token are filled in repository by repository: [doFetchRepo] takes the
    records of the repository and of its organization from the state cached in
    the token's status, fetches those that are missing or stale, and persists
    the state when something changed.  The docker login is done at most when a
    record has to be fetched, and kept for the rest of the call once it gave a
    token. *)

From S2P Require Import Prelude GoStd GoUrl GoJson GoTime GoUnmarshal Api Externals SpErrors Effects Samples.
From S2P Require Import SpConfig Lookup AccessTokenMapper Quay.
Local Open Scope string_scope.
Local Open Scope list_scope.
Local Open Scope spi_scope.

Definition unsupportedAreaError : string := "unsupported permission area for Quay".
Definition unsupportedScopeError : string := "unsupported scope".
Definition unknownScopeError : string := "unknown scope".
Definition failedToParseRepoUrlError : string := "failed to parse repository URL".
Definition unexpectedStatusCodeError : string := "unexpected status code".
Definition invalidRepoUrl : string := "invalid repository URL".

(** ** metadataprovider.go *)

Record metadataProvider := mkMetadataProvider { mp_ttl : Z }.
Record RepositoryMetadata := mkRepositoryMetadata { rm_Repository : EntityRecord; rm_Organization : EntityRecord }.

(** The metadata are written into the token as well, where the cache, which is the
    only caller, puts the answer anyway. *)
Definition Fetch (token : SPIAccessToken) (includeState : bool) : prog (res (option TokenMetadata)) :=
  let! data := call (Ts (TsGet token)) in
  match data with
  | Err err => Ret (Err (Errorf_w "failed to get the token metadata" err))
  | Ok None => Ret (Ok None)
  | Ok (Some data) =>
      let metadata := default empty_metadata (atst_TokenMetadata (at_Status token)) in
      let metadata := set_tm_Username
        (if String.eqb (td_Username data) "" then OAuthTokenUserName else td_Username data) metadata in
      if negb includeState then Ret (Ok (Some metadata))
      else Ret (Ok (Some (set_tm_ServiceProviderState (marshal_state (mkTokenState ∅ ∅)) metadata)))
  end.

Section provider.
Context {X : Externals} {J : JwtParser}.

(** The docker login that is shared by the two records: what is kept so far *)
Definition login_memo : Type := option LoginTokenInfo.

Definition getLoginTokenInfo (tokenData : Token) (repository : string) (loginToken : login_memo)
: prog (login_memo * res LoginTokenInfo) :=
match loginToken with
| Some info => Ret (loginToken, Ok info)
| None =>
    let '(username, password) := getUsernameAndPasswordFromTokenData tokenData in
    let! tkn := DockerLogin repository username password in
    match tkn with
    | Err err => Ret (None, Err (Errorf_w "fetch failed due to docker login error" err))
    | Ok tkn =>
        if String.eqb tkn "" then Ret (None, Ok no_login_info)
        else match AnalyzeLoginToken tkn with
             | Err err => Ret (None, Err (Errorf_w "failed to analyze the docker login token" err))
             | Ok info => Ret (Some info, Ok info)
             end
    end
end.

(** [time.Now().After(time.Unix(rec.LastRefreshTime, 0).Add(ttl))] *)
Definition stale (ttl now : Z) (rec : EntityRecord) : bool := (LastRefreshTime rec * Second + ttl <? now)%Z.

(** What [getEntityRecord] gives back: the login, the cache, the record and
  whether it was fetched *)
Record fetched := mkFetched {
  fe_login : login_memo; fe_cache : gmap string EntityRecord; fe_record : EntityRecord; fe_changed : bool }.

Definition refetch (tokenData : Token) (repository key : string) (cache : gmap string EntityRecord)
(login : login_memo) (fetchFn : string -> Token -> LoginTokenInfo -> prog (res (option EntityRecord)))
: prog (res fetched) :=
let! (login, loginInfo) := getLoginTokenInfo tokenData repository login in
match loginInfo with
| Err err => Ret (Err err)
| Ok loginInfo =>
    try (fetchFn key tokenData loginInfo) (fun entityRec =>
    let! now := call Now in
    let rec := mkEntityRecord (Unix now) (PossessedScopes (default empty_record entityRec)) in
    Ret (Ok (mkFetched login (<[key := rec]> cache) rec true)))
end.

Definition getEntityRecord (p : metadataProvider) (tokenData : Token) (repository key : string)
(cache : gmap string EntityRecord) (login : login_memo)
(fetchFn : string -> Token -> LoginTokenInfo -> prog (res (option EntityRecord))) : prog (res fetched) :=
match cache !! key with
| None => refetch tokenData repository key cache login fetchFn
| Some rec =>
    let! now := call Now in
    if stale (mp_ttl p) now rec then refetch tokenData repository key cache login fetchFn
    else Ret (Ok (mkFetched login cache rec false))
end.

(** The token as the server answered it, or as it is in memory when the update
  failed *)
Definition persistTokenState (token : SPIAccessToken) (metadata : TokenMetadata) (tokenState : TokenState)
: prog (SPIAccessToken * option goerr) :=
let token := set_metadata (Some (set_tm_ServiceProviderState (marshal_state tokenState) metadata)) token in
let! r := kube (KStatusUpdate KToken token) in
match r with
| Err err => Ret (token, Some (Errorf_w "failed to persist the token metadata" err))
| Ok updated => Ret (updated, None)
end.

(** The state in the token's status; nothing is an empty state *)
Definition cached_state (metadata : TokenMetadata) : res TokenState :=
if String.eqb (tm_ServiceProviderState metadata) "" then Ok (mkTokenState ∅ ∅)
else unmarshal_state (tm_ServiceProviderState metadata).

(** The part of [doFetchRepo] after the checks: both records, then the
  persisted state *)
Definition fetch_records (p : metadataProvider) (token : SPIAccessToken) (metadata : TokenMetadata)
(quayState : TokenState) (tokenData : Token) (orgOrUser repo : string)
: prog (SPIAccessToken * res (option RepositoryMetadata)) :=
let repository := orgOrUser +:+ "/" +:+ repo in
let! org := getEntityRecord p tokenData repository orgOrUser (Organizations quayState) None fetchOrganizationRecord in
match org with
| Err err => Ret (token, Err (Errorf_w "failed to read organization metadata" err))
| Ok org =>
    let! rec := getEntityRecord p tokenData repository repository (Repositories quayState) (fe_login org)
                  fetchRepositoryRecord in
    match rec with
    | Err err => Ret (token, Err (Errorf_w "failed to read repository metadata" err))
    | Ok rec =>
        let! (token, err) :=
          if fe_changed org || fe_changed rec
          then persistTokenState token metadata (mkTokenState (fe_cache rec) (fe_cache org))
          else Ret (token, None) in
        match err with
        | Some err => Ret (token, Err err)
        | None => Ret (token, Ok (Some (mkRepositoryMetadata (fe_record rec) (fe_record org))))
        end
    end
end.

Definition FetchRepo (p : metadataProvider) (repoUrl : string) (token : SPIAccessToken)
: prog (SPIAccessToken * res (option RepositoryMetadata)) :=
match atst_TokenMetadata (at_Status token) with
| None => Ret (token, Ok None)
| Some metadata =>
    match cached_state metadata with
    | Err err => Ret (token, Err (Errorf_w "failed to unmarshal the token state" err))
    | Ok quayState =>
        let! tokenData := call (Ts (TsGet token)) in
        match tokenData with
        | Err err => Ret (token, Err (Errorf_w "failed to get the token data from storage" err))
        | Ok None => Ret (token, Ok None)
        | Ok (Some tokenData) =>
            let '(orgOrUser, repo, _) := splitToOrganizationAndRepositoryAndVersion repoUrl in
            if String.eqb orgOrUser "" || String.eqb repo ""
            then Ret (token, Err (Wrapf invalidRepoUrl (" " +:+ repoUrl)))
            else fetch_records p token metadata quayState tokenData orgOrUser repo
        end
    end
end.

(** ** tokenfilter.go *)

Definition translateToQuayScopes (permission : Permission) : list string :=
let area := perm_Area permission in
let type := perm_Type permission in
if String.eqb area PermissionAreaRegistryMetadata then
  if String.eqb type PermissionTypeRead then [ScopeRepoRead]
  else if String.eqb type PermissionTypeWrite then [ScopeRepoWrite]
  else if String.eqb type PermissionTypeReadWrite then [ScopeRepoRead; ScopeRepoWrite]
  else []
else if String.eqb area PermissionAreaRegistry then
  if String.eqb type PermissionTypeRead then [ScopePull]
  else if String.eqb type PermissionTypeWrite then [ScopePush]
  else if String.eqb type PermissionTypeReadWrite then [ScopePull; ScopePush]
  else []
else [].

Definition tested_record (rec : RepositoryMetadata) (requiredScope : string) : EntityRecord :=
if String.eqb requiredScope ScopeOrgAdmin then rm_Organization rec else rm_Repository rec.

Fixpoint all_included (rec : RepositoryMetadata) (requiredScopes : list string) : bool :=
match requiredScopes with
| [] => true
| s :: rest =>
    if negb (IsIncluded s (default [] (PossessedScopes (tested_record rec s)))) then false
    else all_included rec rest
end.

Record tokenFilter := mkTokenFilter { tf_metadataProvider : option metadataProvider }.

Definition Matches (t : tokenFilter) (m : Matchable) (token : SPIAccessToken)
: prog (go (SPIAccessToken * res bool)) :=
match atst_TokenMetadata (at_Status token) with
| None => Ret (Returns (token, Ok false))
| Some _ =>
    match tf_metadataProvider t with
    | None => Ret (Panics "t.metadataProvider")
    | Some p =>
        let! (token, rec) := FetchRepo p (m_RepoUrl m) token in
        match rec with
        | Err err => Ret (Returns (token, Err err))
        | Ok rec =>
            let requiredScopes := GetAllScopes translateToQuayScopes (m_Permissions m) in
            match rec with
            | None => Ret (Returns (token, Ok (length requiredScopes =? 0)%nat))
            | Some rec => Ret (Returns (token, Ok (all_included rec requiredScopes)))
            end
        end
    end
end.

(** ** quay.go: the provider *)

(** The requested permissions are disregarded: always the greatest usable set *)
Definition quay_OAuthScopesFor (ps : Permissions) : list string :=
let scopes : gset string :=
  list_to_set (perms_AdditionalScopes ps) ∪
  {[ ScopeRepoRead; ScopeRepoWrite; ScopeRepoCreate; ScopeRepoAdmin ]} in
iteration_order (elements scopes).

Record Quay := mkQuay {
q_lookup : GenericLookup; q_metadataProvider : metadataProvider; q_OAuthCapability : option OAuthCapability }.

(** The exact filter is created without a metadata provider. *)
Definition newQuay (cfg : OperatorConfiguration) (spConfig : option ServiceProviderConfiguration) : res Quay :=
let mp := mkMetadataProvider (opc_TokenLookupCacheTtl cfg) in
let oauthCapability :=
  match spConfig with
  | Some c =>
      match spc_OAuth2Config c with
      | Some _ => Some (mkOAuthCapability (DefaultOAuthEndpoint (sc_BaseUrl (opc_Shared cfg))) quay_OAuthScopesFor)
      | None => None
      end
  | None => None
  end in
Ok (mkQuay
  (mkGenericLookup "Quay" (NewFilter (opc_TokenMatchPolicy cfg) (Matches (mkTokenFilter None)))
     (Some DefaultRemoteSecretFilterFunc) Fetch
     (NewCacheWithExpirationPolicy cfg NeverMetadataExpirationPolicy) RepoUrlFromSchemalessString)
  mp oauthCapability).

(** The getters: [GetBaseUrl], [GetType], [GetOAuthCapability],
  [GetDownloadFileCapability] and [GetRefreshTokenCapability] *)
Definition quay_provider (q : Quay) : ServiceProvider :=
mkSP (spt_DefaultBaseUrl ServiceProviderTypeQuay) ServiceProviderTypeQuay (q_OAuthCapability q) false false.

(** [LookupTokens] and [LookupCredentials] around the generic ones *)
Definition LookupTokens (lookup : res (list SPIAccessToken)) : res (list SPIAccessToken) :=
map_err (Errorf_w "quay token lookup failure") lookup.
Definition LookupCredentials (lookup : res (option Credentials)) : res (option Credentials) :=
map_err (Errorf_w "quay credentials lookup failure") lookup.
Definition PersistMetadata (q : Quay) (token : SPIAccessToken) : prog (SPIAccessToken * option goerr) :=
let! (token, err) := PersistMetadata_generic (q_lookup q) token in
Ret (token, option_map (Errorf_w "failed to persiste quay metadata") err).

Definition repo_info_url (owner repository : string) : string :=
quayApiBaseUrl +:+ "/repository/" +:+ owner +:+ "/" +:+ repository +:+ "?includeTags=false".

(** The status code and, when it is 200, the members of the answer *)
Definition requestRepoInfo (owner repository token : string) : prog (res (Z * list (string * json))) :=
let requestUrl := repo_info_url owner repository in
let! resp := doQuayRequest requestUrl token "GET" "" "" in
match resp with
| Err err => Ret (Err (Errorf_w ("failed to request quay on " +:+ requestUrl) err))
| Ok resp =>
    if (hr_StatusCode resp =? 200)%Z then
      match readResponseBodyToJsonMap resp with
      | Err jsonErr => Ret (Err jsonErr)
      | Ok jsonResponse => Ret (Ok (200%Z, jsonResponse))
      end
    else Ret (Ok (hr_StatusCode resp, []))
end.

Definition initial_status : SPIAccessCheckStatus :=
mkCheckStatus false SPIAccessCheckAccessibilityUnknown SPIRepoTypeContainerRegistry "Quay" "" "".

Definition isRobot (username : string) : bool :=
negb (String.eqb username "") && negb (String.eqb username OAuthTokenUserName).

(** The answer of the repository request decides the status. *)
Definition judge (repoUrl username token : string) (responseCode : Z) (repoInfo : list (string * json))
(status : SPIAccessCheckStatus) : go (SPIAccessCheckStatus * option goerr) :=
if (responseCode =? 200)%Z then
  match member "is_public" repoInfo with
  | Some (JBool public) =>
      Returns (mkCheckStatus true
        (if public then SPIAccessCheckAccessibilityPublic else SPIAccessCheckAccessibilityPrivate)
        (acst_Type status) (acst_ServiceProvider status) "" "", None)
  | _ => Panics "repoInfo[is_public].(bool)"
  end
else if (responseCode =? 401)%Z || (responseCode =? 403)%Z then
  if negb (String.eqb token "") && isRobot username then
    Returns (mkCheckStatus true SPIAccessCheckAccessibilityPrivate (acst_Type status)
      (acst_ServiceProvider status) (acst_ErrorReason status) (acst_ErrorMessage status), None)
  else Returns (status, None)
else if (responseCode =? 404)%Z then
  if String.eqb (acst_ErrorReason status) "" && String.eqb (acst_ErrorMessage status) "" then
    Returns (set_acst_ErrorMessage "repository does not exist"
      (set_acst_ErrorReason SPIAccessCheckErrorRepoNotFound status), None)
  else Returns (status, None)
else
  Returns (set_acst_ErrorMessage "unexpected response from Quay API"
    (set_acst_ErrorReason SPIAccessCheckErrorUnknownError status),
    Some (Wrapf unexpectedStatusCodeError (" '" +:+ FormatInt responseCode
      +:+ "' for quay.io repository request '" +:+ repoUrl +:+ "'"))).

(** [lookupCredentials] is [q.lookup.LookupCredentials]: Lookup.v's
  [LookupCredentials_generic] of the provider's lookup, run to its end. *)
Definition CheckRepositoryAccess (lookupCredentials : Matchable -> prog (res (option Credentials)))
(accessCheck : SPIAccessCheck) : prog (go (SPIAccessCheckStatus * option goerr)) :=
let repoUrl := acsp_RepoUrl (ac_Spec accessCheck) in
let '(owner, repository, _) := splitToOrganizationAndRepositoryAndVersion repoUrl in
if String.eqb owner "" || String.eqb repository "" then
  Ret (Returns (set_acst_ErrorMessage failedToParseRepoUrlError
    (set_acst_ErrorReason SPIAccessCheckErrorBadURL initial_status), None))
else
  let! credentials := lookupCredentials (Matchable_of_check accessCheck) in
  let '(status, (username, token)) :=
    match credentials with
    | Err err => (set_acst_ErrorMessage (Error err)
                    (set_acst_ErrorReason SPIAccessCheckErrorTokenLookupFailed initial_status), ("", ""))
    | Ok (Some c) => (initial_status, getUsernameAndPasswordFromCredentials c)
    | Ok None => (initial_status, ("", ""))
    end in
  let! info := requestRepoInfo owner repository token in
  match info with
  | Err err =>
      Ret (Returns (set_acst_ErrorMessage "failed request to Quay API"
        (set_acst_ErrorReason SPIAccessCheckErrorUnknownError status), Some err))
  | Ok (responseCode, repoInfo) => Ret (judge repoUrl username token responseCode repoInfo status)
  end.

Definition MapToken (q : Quay) (binding : SPIAccessTokenBinding) (token : SPIAccessToken) (tokenData : Token)
: prog (SPIAccessToken * AccessTokenMapper) :=
let mapper := DefaultMapToken token tokenData in
let! (token, repoMetadata) := FetchRepo (q_metadataProvider q) (b_RepoUrl binding) token in
match repoMetadata with
| Err _ => Ret (token, mkMapper "" "" "" "" "" "" None [])
| Ok None => Ret (token, mapper)
| Ok (Some m) =>
    Ret (token, set_atm_Scopes (default [] (PossessedScopes (rm_Repository m)) ++
                                default [] (PossessedScopes (rm_Organization m))) mapper)
end.

(** The errors of [ValidationResult.ScopeValidation] *)
Definition validate_area (p : Permission) : list goerr :=
if one_of (perm_Area p) [PermissionAreaRegistry; PermissionAreaRegistryMetadata] then []
else [Wrapf unsupportedAreaError (": '" +:+ perm_Area p +:+ "'")].
Definition validate_scope (s : string) : list goerr :=
if one_of s [ScopeUserRead; ScopeUserAdmin] then [Wrapf unsupportedScopeError (" '" +:+ s +:+ "'")]
else if one_of s [ScopeRepoRead; ScopeRepoWrite; ScopeRepoCreate; ScopeRepoAdmin; ScopeOrgAdmin; ScopePull; ScopePush]
then []
else [Wrapf unknownScopeError (": '" +:+ s +:+ "'")].
Definition Validate (ps : Permissions) : list goerr :=
flat_map validate_area (perms_Required ps) ++ flat_map validate_scope (perms_AdditionalScopes ps).

(** [quayProbe.Examine] *)
Definition Examine (repoBaseurl : string) : res string :=
match Parse repoBaseurl with
| Err _ => Err (Wrapf failedToParseRepoUrlError (" '" +:+ repoBaseurl +:+ "'"))
| Ok baseUrl =>
    if (negb (String.eqb (Host baseUrl) "") &&
        String.eqb (Scheme baseUrl +:+ "://" +:+ Host baseUrl) (spt_DefaultBaseUrl ServiceProviderTypeQuay))
       || (String.eqb (Host baseUrl) "" &&
           String.eqb (hd "" (Split repoBaseurl "/")) (spt_DefaultHost ServiceProviderTypeQuay))
    then Ok (spt_DefaultBaseUrl ServiceProviderTypeQuay) else Ok ""
end.
End provider.

(** ** Where credentials are sent *)

Definition to_quay (q : HttpRequest) : Prop := HasPrefix (hq_URL q) "https://quay.io/" = true.
Definition http_call (P : HttpRequest -> Prop) (a : act) : Prop := exists q r, obs_http a = Some (q, r) /\ P q.
Definition goes_to_quay : act -> Prop := http_call to_quay.

Lemma to_quay_app s : HasPrefix ("https://quay.io/" +:+ s) "https://quay.io/" = true.
Proof. apply HasPrefix_app. Qed.

Lemma doQuayRequest_to_quay url token method body ct :
  HasPrefix url "https://quay.io/" = true -> every goes_to_quay (doQuayRequest url token method body ct).
Proof.
  intros Hu. unfold doQuayRequest, every. destruct (Parse url); repeat sat_step; try done. by eexists _, _.
Qed.

Lemma hasRepoRead_to_quay repository token : every goes_to_quay (hasRepoRead repository token).
Proof.
  apply every_bind; [by apply doQuayRequest_to_quay, to_quay_app|].
  intros [a|e]; unfold every; repeat sat_step; done.
Qed.

Lemma status_probe_to_quay url token method body ct n :
  HasPrefix url "https://quay.io/" = true ->
  every goes_to_quay (let! resp := doQuayRequest url token method body ct in
    match resp with Err err => Ret (Err err) | Ok resp => Ret (Ok (hr_StatusCode resp =? n)%Z) end).
Proof.
  intros Hu. apply every_bind; [by apply doQuayRequest_to_quay|]. intros [a|e]; by apply sat_Ret.
Qed.

Lemma DockerLogin_to_quay repository username password :
  every (http_call (fun q => hq_URL q = docker_login_url repository)) (DockerLogin repository username password).
Proof. unfold DockerLogin, every. repeat sat_step; try done. by eexists _, _. Qed.

(** An HTTP request is nothing else. *)
Lemma http_call_no_write P a : http_call P a -> obs_write a = None.
Proof. intros (q & r & H & _). destruct a as [Y e y]. by destruct e. Qed.
Lemma http_call_on_http P a : http_call P a -> on_http P a.
Proof. intros (q & r & H & Hq). unfold on_http. by rewrite H. Qed.

Lemma fetchRepositoryRecord_to_quay repoUrl tokenData info :
  every goes_to_quay (fetchRepositoryRecord repoUrl tokenData info).
Proof.
  unfold fetchRepositoryRecord. destruct (getUsernameAndPasswordFromTokenData tokenData) as [u pw].
  destruct (negb _); [by apply sat_Ret|]. unfold oauthRepositoryRecord.
  apply every_try; [apply hasRepoRead_to_quay|]. intros [read description].
  apply every_try; [destruct read; [by apply status_probe_to_quay, to_quay_app|by apply sat_Ret]|]. intros write.
  apply every_try; [by apply status_probe_to_quay, to_quay_app|]. intros admin.
  apply every_try; [by apply status_probe_to_quay|]. intros create. by apply sat_Ret.
Qed.

Lemma fetchOrganizationRecord_to_quay org tokenData info :
  every goes_to_quay (fetchOrganizationRecord org tokenData info).
Proof.
  unfold fetchOrganizationRecord. destruct (getUsernameAndPasswordFromTokenData tokenData) as [u pw].
  destruct (negb _); [by apply sat_Ret|].
  apply every_try; [by apply status_probe_to_quay, to_quay_app|]. intros a. by apply sat_Ret.
Qed.

Section requests.
Context {X : Externals} {J : JwtParser} (P : act -> Prop).
Context (Hnow : forall now, P (Act Now now)).
Context (repository : string) (tokenData : Token).
Context (Hlogin : forall q r, hq_URL q = docker_login_url repository -> P (Act (Ht (HttpDo q)) r)).

Lemma login_every memo : every P (getLoginTokenInfo tokenData repository memo).
Proof using Hlogin.
unfold getLoginTokenInfo, every. destruct memo; [by apply sat_Ret|].
destruct (getUsernameAndPasswordFromTokenData tokenData) as [u pw].
apply every_bind.
- unfold DockerLogin, every. repeat sat_step; try done. by apply Hlogin.
- intros a. unfold every. repeat sat_step; done.
Qed.

Lemma getEntityRecord_every p key cache login fetchFn :
(forall info, every P (fetchFn key tokenData info)) ->
every P (getEntityRecord p tokenData repository key cache login fetchFn).
Proof using Hlogin Hnow.
intros Hf. assert (every P (refetch tokenData repository key cache login fetchFn)) as Hr.
{ apply every_bind; [apply login_every|]. intros [m [info|e]]; [|by apply sat_Ret].
  apply every_try; [apply Hf|]. intros rec. unfold every. repeat sat_step; [by apply Hnow|done]. }
unfold getEntityRecord, every. destruct (cache !! key); [|exact Hr].
repeat sat_step; [by apply Hnow|exact Hr|done].
Qed.

Lemma fetch_records_every p token metadata st org repo :
(forall t r, P (Act (Kube (KStatusUpdate KToken t)) r)) ->
repository = org +:+ "/" +:+ repo ->
(forall info, every P (fetchOrganizationRecord org tokenData info)) ->
(forall info, every P (fetchRepositoryRecord repository tokenData info)) ->
every P (fetch_records p token metadata st tokenData org repo).
Proof using Hlogin Hnow.
intros Hupdate Hrep Ho Hr. unfold fetch_records. rewrite <- Hrep.
apply every_bind; [by apply getEntityRecord_every|]. intros [o|e]; [|by apply sat_Ret].
apply every_bind; [by apply getEntityRecord_every|]. intros [r|e]; [|by apply sat_Ret].
apply every_bind.
- destruct (_ || _); [|by apply sat_Ret]. unfold persistTokenState, every. repeat sat_step; (done || apply Hupdate).
- intros [t [e|]]; by apply sat_Ret.
Qed.
End requests.

Section fetch_repo.
Context {X : Externals} {J : JwtParser}.

(** The checks of [FetchRepo]: either nothing is fetched, or the records are. *)
Lemma FetchRepo_cases p repoUrl token tr token' r :
exec (FetchRepo p repoUrl token) tr (token', r) ->
(exchanges tr = [] /\ writes tr = [] /\ token' = token /\ (forall md, r <> Ok (Some md)) /\
 (atst_TokenMetadata (at_Status token) = None -> tr = [])) \/
exists metadata st td org repo v tr',
  atst_TokenMetadata (at_Status token) = Some metadata /\ cached_state metadata = Ok st /\
  tr = Act (Ts (TsGet token)) (Ok (Some td)) :: tr' /\
  splitToOrganizationAndRepositoryAndVersion repoUrl = (org, repo, v) /\
  exec (fetch_records p token metadata st td org repo) tr' (token', r).
Proof.
unfold FetchRepo. destruct (atst_TokenMetadata (at_Status token)) as [metadata|]; [|intros [-> [= -> ->]]; by left].
destruct (cached_state metadata) as [st|err] eqn:Est; [|intros [-> [= -> ->]]; by left].
unfold call at 1. cbn [bind]. intros (x & tr' & -> & H).
destruct x as [[td|]|err]; [|left; destruct H as [-> [= -> ->]]; done..].
destruct (splitToOrganizationAndRepositoryAndVersion repoUrl) as [[org repo] v] eqn:Es.
destruct (_ || _); [left; destruct H as [-> [= -> ->]]; done|].
right. by exists metadata, st, td, org, repo, v, tr'.
Qed.

Definition no_write (a : act) : Prop := obs_write a = None.
Lemma no_write_writes tr : Forall no_write tr -> writes tr = [].
Proof. induction 1 as [|a tr Ha _ IH]; [done|]. rewrite writes_cons. by rewrite Ha. Qed.

Lemma fetchRepositoryRecord_no_write repoUrl td info : every no_write (fetchRepositoryRecord repoUrl td info).
Proof.
eapply sat_weaken; [| |apply fetchRepositoryRecord_to_quay]; [|done]. apply http_call_no_write.
Qed.
Lemma fetchOrganizationRecord_no_write org td info : every no_write (fetchOrganizationRecord org td info).
Proof.
eapply sat_weaken; [| |apply fetchOrganizationRecord_to_quay]; [|done]. apply http_call_no_write.
Qed.

(** Where an answered record comes from, and whether it is a new one: it was
  cached and is within its time to live, and the clock was the only call; or it was
  missing or had outlived that time, and is stamped with the time read after it was
  fetched. *)
Inductive record_from (ttl : Z) (cached : option EntityRecord) (tr : list act) : bool -> EntityRecord -> Prop :=
| FromCache rec now : cached = Some rec -> tr = [Act Now now] -> (now <= LastRefreshTime rec * Second + ttl)%Z ->
  record_from ttl cached tr false rec
| FromProvider rec before now : tr = before ++ [Act Now now] -> LastRefreshTime rec = Unix now ->
  match cached with
  | None => True
  | Some old => exists looked rest, before = Act Now looked :: rest /\ (LastRefreshTime old * Second + ttl < looked)%Z
  end -> record_from ttl cached tr true rec.

(** What is known of a record that [getEntityRecord] gives back *)
Definition entity_from (p : metadataProvider) (key : string) (cache : gmap string EntityRecord) (tr : list act)
(fe : fetched) : Prop :=
fe_cache fe !! key = Some (fe_record fe) /\ (forall k, k <> key -> fe_cache fe !! k = cache !! k) /\
record_from (mp_ttl p) (cache !! key) tr (fe_changed fe) (fe_record fe) /\
(fe_changed fe = false -> fe_cache fe = cache).

Lemma refetch_ok td repository key cache login fetchFn tr fe :
exec (refetch td repository key cache login fetchFn) tr (Ok fe) ->
fe_changed fe = true /\ fe_cache fe !! key = Some (fe_record fe) /\
(forall k, k <> key -> fe_cache fe !! k = cache !! k) /\
exists before now, tr = before ++ [Act Now now] /\ LastRefreshTime (fe_record fe) = Unix now.
Proof.
intros H. unfold refetch in H. apply exec_bind in H as ([m [info|e]] & tr1 & tr2 & -> & _ & H); [|by destruct H].
apply exec_try_ok in H as (rec & tr3 & tr4 & -> & _ & H).
unfold call in H. cbn [bind] in H. destruct H as (now & tr5 & -> & [-> H]). apply Ok_inj in H as ->. cbn.
split; [done|]. split; [apply lookup_insert_eq|]. split; [intros k Hk; by apply lookup_insert_ne|].
exists (tr1 ++ tr3), now. by rewrite app_assoc.
Qed.

Lemma getEntityRecord_ok p td repository key cache login fetchFn tr fe :
(forall info, every no_write (fetchFn key td info)) ->
exec (getEntityRecord p td repository key cache login fetchFn) tr (Ok fe) ->
writes tr = [] /\ entity_from p key cache tr fe.
Proof.
intros Hf H. split.
{ apply no_write_writes. eapply every_exec; [|exact H].
  apply (getEntityRecord_every no_write) with (repository := repository); [done|done|exact Hf]. }
unfold entity_from, getEntityRecord in *. destruct (cache !! key) as [rec|] eqn:Ec.
- unfold call in H. cbn [bind] in H. destruct H as (now & tr' & -> & H).
  destruct (stale (mp_ttl p) now rec) eqn:Es.
  + apply refetch_ok in H as (-> & H1 & H2 & before & n & -> & H3). do 2 (split; [done|]). split; [|done].
    apply (FromProvider _ _ _ _ (Act Now now :: before) n); [done|done|]. exists now, before. split; [done|].
    by apply Z.ltb_lt in Es.
  + destruct H as [-> H]. apply Ok_inj in H as ->. cbn. split; [done|]. split; [done|]. split; [|done].
    apply (FromCache _ _ _ _ now); [done|done|]. by apply Z.ltb_ge in Es.
- apply refetch_ok in H as (-> & H1 & H2 & before & n & -> & H3). do 2 (split; [done|]). split; [|done]. by eapply FromProvider.
Qed.

(** A successful fetch: where the records come from and what is persisted *)
Lemma fetch_records_ok p token metadata st td org repo tr token' rm :
exec (fetch_records p token metadata st td org repo) tr (token', Ok (Some rm)) ->
exists tr1 tr2 tr3 fo fr,
  tr = tr1 ++ tr2 ++ tr3 /\ writes (tr1 ++ tr2) = [] /\
  rm = mkRepositoryMetadata (fe_record fr) (fe_record fo) /\
  entity_from p org (Organizations st) tr1 fo /\
  entity_from p (org +:+ "/" +:+ repo) (Repositories st) tr2 fr /\
  if fe_changed fo || fe_changed fr then
    writes tr3 = [WStatusUpdate KToken (set_metadata (Some (set_tm_ServiceProviderState
      (marshal_state (mkTokenState (fe_cache fr) (fe_cache fo))) metadata)) token) (Ok token')]
  else tr3 = [] /\ token' = token.
Proof.
unfold fetch_records. intros H. apply exec_bind in H as ([fo|e] & tr1 & rest & -> & H1 & H); [|by destruct H].
apply exec_bind in H as ([fr|e] & tr2 & tr3 & -> & H2 & H); [|by destruct H].
apply getEntityRecord_ok in H1 as [W1 E1]; [|apply fetchOrganizationRecord_no_write].
apply getEntityRecord_ok in H2 as [W2 E2]; [|apply fetchRepositoryRecord_no_write].
apply exec_bind in H as ([t [e|]] & tr4 & tr5 & -> & H3 & H); [by destruct H|].
destruct H as [-> [= -> ->]]. exists tr1, tr2, tr4, fo, fr. rewrite app_nil_r, writes_app, W1, W2.
do 5 (split; [done|]). destruct (fe_changed fo || fe_changed fr).
- unfold persistTokenState in H3. unfold kube, call in H3. cbn [bind] in H3.
  destruct H3 as (x & tr6 & -> & H3). by destruct x; destruct H3 as [-> [= ->]].
- by destruct H3 as [-> [= ->]].
Qed.

Lemma no_exchanges tr P : exchanges tr = [] -> Forall (on_http P) tr.
Proof.
induction tr as [|a tr IH]; [by constructor|]. unfold exchanges, omap, list_omap, on_http in *. cbn.
destruct (obs_http a) eqn:E; [done|]. constructor; [by rewrite E|]. by apply IH.
Qed.

(** The token data read in a trace *)
Definition obs_data (a : act) : option Token :=
match act_ev a in Ev X return X -> option Token with
| Ts e => match e in TokenStorageE X return X -> option Token with
          | TsGet _ => fun r => match r with Ok td => td | Err _ => None end
          | _ => fun _ => None
          end
| _ => fun _ => None
end (act_res a).
Definition data_read (tr : list act) : list Token := omap obs_data tr.
Definition is_robot_data (td : Token) : Prop := (getUsernameAndPasswordFromTokenData td).1 <> OAuthTokenUserName.

(** A robot account's record needs no request. *)
Lemma robot_fetches td : is_robot_data td ->
(forall P repoUrl info, every P (fetchRepositoryRecord repoUrl td info)) /\
(forall P org info, every P (fetchOrganizationRecord org td info)).
Proof.
unfold is_robot_data. intros Hu. unfold fetchRepositoryRecord, fetchOrganizationRecord.
destruct (getUsernameAndPasswordFromTokenData td) as [u pw]. cbn in Hu.
destruct (String.eqb_spec u OAuthTokenUserName); [done|]. cbn [negb]. split; intros; by apply sat_Ret.
Qed.

Lemma FetchRepo_exchanges p repoUrl token tr token' r :
exec (FetchRepo p repoUrl token) tr (token', r) ->
Forall (on_http to_quay) tr /\
(Forall is_robot_data (data_read tr) ->
   Forall (on_http (fun q => exists repository, hq_URL q = docker_login_url repository)) tr).
Proof.
intros H. apply FetchRepo_cases in H as [(He & _)|(md & st & td & org & repo & v & tr' & _ & _ & -> & _ & H)].
{ split; [by apply no_exchanges|]. intros. by apply no_exchanges. }
split.
- constructor; [done|]. eapply every_exec; [|exact H].
  eapply (fetch_records_every (on_http to_quay)); [done| |done|done|..].
  + intros q x Hq. unfold on_http, to_quay. cbn. rewrite Hq. apply to_quay_app.
  + intros info. eapply sat_weaken; [| |apply fetchOrganizationRecord_to_quay]; [|done]. apply http_call_on_http.
  + intros info. eapply sat_weaken; [| |apply fetchRepositoryRecord_to_quay]; [|done]. apply http_call_on_http.
- intros Hrobot%List.Forall_inv. apply robot_fetches in Hrobot as [Hrep Horg]. constructor; [done|].
  eapply every_exec; [|exact H].
  eapply (fetch_records_every (on_http _)); [done| |done|done|apply Horg|apply Hrep].
  intros q x Hq. unfold on_http. cbn. by eexists.
Qed.
End fetch_repo.


(** C26 Credentials stay with Quay: whatever the answers, every HTTP request
    made while the metadata of a token are fetched goes to https://quay.io/, and
    when the token data are those of a robot account, docker logins are the only
    requests of such a fetch, so that it does not try the password on the API.  The
    request of an access check goes to Quay's API, too; it carries the secret that
    was looked up, whatever it is, so there a robot's password is sent. *)
Theorem quay_credentials_stay {X : Externals} {J : JwtParser} p repoUrl token tr token' r :
  exec (FetchRepo p repoUrl token) tr (token', r) ->
  Forall (on_http to_quay) tr /\
  (Forall is_robot_data (data_read tr) ->
     Forall (on_http (fun q => exists repository, hq_URL q = docker_login_url repository)) tr) /\
  (forall owner repository secret, every
     (on_http (fun q => to_quay q /\ q = quay_request (repo_info_url owner repository) secret "GET" "" ""))
     (requestRepoInfo owner repository secret)).
Proof.
  intros H. destruct (FetchRepo_exchanges _ _ _ _ _ _ H) as [Hq Hr]. split; [exact Hq|]. split; [exact Hr|].
  intros owner repository secret. apply every_bind.
  - unfold doQuayRequest, every. destruct (Parse _); repeat sat_step; try done; (split; [apply to_quay_app|done]).
  - intros [a|e]; unfold every; repeat sat_step; done.
Qed.

(** C25 The cached records: a successful fetch answers a record of the
    organization and one of the repository.  Each is the cached one, when that is
    not older than the time to live at the time the clock was read, or, when there
    is none or it is older, one stamped with the time read after it was fetched.
    When both were cached, nothing else happens: the token is not touched and the
    provider is not contacted.  Otherwise the token's status is updated once, with
    a state that holds both answered records and agrees with the cached state on
    every other repository and organization. *)
Theorem quay_cache_protocol {X : Externals} {J : JwtParser} p repoUrl token tr token' rm :
  exec (FetchRepo p repoUrl token) tr (token', Ok (Some rm)) ->
  exists metadata st org repo v st',
    atst_TokenMetadata (at_Status token) = Some metadata /\ cached_state metadata = Ok st /\
    splitToOrganizationAndRepositoryAndVersion repoUrl = (org, repo, v) /\
    let key := org +:+ "/" +:+ repo in
    Organizations st' !! org = Some (rm_Organization rm) /\
    Repositories st' !! key = Some (rm_Repository rm) /\
    (forall k, k <> org -> Organizations st' !! k = Organizations st !! k) /\
    (forall k, k <> key -> Repositories st' !! k = Repositories st !! k) /\
    exists td tr1 tr2 tr3 new_org new_repo,
      tr = Act (Ts (TsGet token)) (Ok (Some td)) :: tr1 ++ tr2 ++ tr3 /\ writes (tr1 ++ tr2) = [] /\
      record_from (mp_ttl p) (Organizations st !! org) tr1 new_org (rm_Organization rm) /\
      record_from (mp_ttl p) (Repositories st !! key) tr2 new_repo (rm_Repository rm) /\
      if new_org || new_repo then
        writes tr3 = [WStatusUpdate KToken
          (set_metadata (Some (set_tm_ServiceProviderState (marshal_state st') metadata)) token) (Ok token')]
      else st' = st /\ token' = token /\ tr3 = [] /\ exchanges tr = [].
Proof.
  intros H. apply FetchRepo_cases in H as [(_ & _ & _ & H & _)|(md & st & td & org & repo & v & tr' & Hm & Hst & -> & Hs & H)].
  { by destruct (H rm). }
  apply fetch_records_ok in H as (tr1 & tr2 & tr3 & fo & fr & -> & Hw & -> & (Ho1 & Ho2 & Ho3 & Ho4) & (Hr1 & Hr2 & Hr3 & Hr4) & H).
  exists md, st, org, repo, v, (mkTokenState (fe_cache fr) (fe_cache fo)). cbn [rm_Organization rm_Repository].
  do 3 (split; [done|]). cbv zeta. do 4 (split; [done|]).
  exists td, tr1, tr2, tr3, (fe_changed fo), (fe_changed fr). do 4 (split; [done|]).
  destruct (fe_changed fo), (fe_changed fr); cbn [orb] in *; try exact H.
  destruct H as [-> ->]. rewrite Ho4, Hr4 by done. inversion Ho3; inversion Hr3; subst. by destruct st.
Qed.

Definition sample_claims : quayClaims :=
  mkQuayClaims [mkQuayAccess "repository" "org/repo" ["pull"; "push"]]
    (mkQuayContext 2 "" "" "" "org+robot" "" ∅ "").
#[export] Instance sample_jwt : JwtParser := {| ParseUnverified := fun token =>
  if String.eqb token "jwt" then Ok sample_claims else Err (ErrorString "token contains an invalid number of segments") |}.

(** An environment where the docker login succeeds and every other request is
    answered with 200 and an empty object *)
Definition sample_web (q : HttpRequest) : res HttpResponse :=
  if Contains (hq_URL q) "/v2/auth" then Ok (mkHttpResponse 200 (Ok ("{" +:+ quoted "token" +:+ ":" +:+ quoted "jwt" +:+ "}")))
  else Ok (mkHttpResponse 200 (Ok "{}")).
Definition with_data (td : option Token) (s : script) : script :=
  mkScript (s_token s) (s_binding s) (s_check s) (s_file s) (s_update s) (s_secret s) (s_event s) (s_rs s)
    (s_tokens s) (s_bindings s) (s_secrets s) (s_remote_secrets s) (s_write_error s) (s_status_error s)
    (s_delete_error s) (s_sp s) (s_lookup s) (s_validation s) (s_persist s) (Ok td) (s_metadata s)
    (s_credentials s) (s_content s) (s_sync s) (s_fin_error s) 1700000000000000000.
Definition robot_data : Token := mkToken "org+robot" "pw" "" "" 0.
Definition quay_script : script := with_data (Some robot_data) empty_script.
Definition fetch_sample : prog (SPIAccessToken * res (option RepositoryMetadata)) :=
  FetchRepo (mkMetadataProvider (5 * Minute)) "https://quay.io/org/repo:v1" (sample_token "t" "Ready" (Some sample_metadata)).

Example robot_scopes :
  match (online_result sample_web quay_script fetch_sample).2 with
  | Ok (Some rm) => Some (PossessedScopes (rm_Repository rm), LastRefreshTime (rm_Organization rm))
  | _ => None
  end = Some (Some [ScopePull; ScopePush], 1700000000%Z).
Proof. vm_compute. reflexivity. Qed.

Lemma quay_credentials_stay_witness :
  Forall is_robot_data (data_read (online_trace sample_web quay_script fetch_sample)) /\
  Forall (on_http (fun q => exists repository, hq_URL q = docker_login_url repository))
    (online_trace sample_web quay_script fetch_sample).
Proof.
  assert (Forall is_robot_data (data_read (online_trace sample_web quay_script fetch_sample))) as Hr.
  { vm_compute. constructor; [done|constructor]. }
  split; [exact Hr|].
  apply (quay_credentials_stay _ _ _ _ _ _ (online_exec sample_web quay_script fetch_sample)). exact Hr.
Defined.

Definition fetched_metadata : RepositoryMetadata :=
  match (online_result sample_web quay_script fetch_sample).2 with
  | Ok (Some rm) => rm
  | _ => mkRepositoryMetadata empty_record empty_record
  end.
Lemma fetch_sample_exec :
  exec fetch_sample (online_trace sample_web quay_script fetch_sample)
    ((online_result sample_web quay_script fetch_sample).1, Ok (Some fetched_metadata)).
Proof. exact (online_exec sample_web quay_script fetch_sample). Qed.

Lemma quay_cache_protocol_witness :
  exists metadata st org repo v st',
    atst_TokenMetadata (at_Status (sample_token "t" "Ready" (Some sample_metadata))) = Some metadata /\
    cached_state metadata = Ok st /\
    splitToOrganizationAndRepositoryAndVersion "https://quay.io/org/repo:v1" = (org, repo, v) /\
    Repositories st' !! (org +:+ "/" +:+ repo) = Some (rm_Repository fetched_metadata) /\
    length (writes (online_trace sample_web quay_script fetch_sample)) = 1.
Proof.
  destruct (quay_cache_protocol _ _ _ _ _ _ fetch_sample_exec)
    as (metadata & st & org & repo & v & st' & H1 & H2 & H3 & _ & H4 & _).
  exists metadata, st, org, repo, v, st'. do 4 (split; [done|]). vm_compute. reflexivity.
Defined.

Lemma oauth_record_by_probing_witness :
  let p := oauthRepositoryRecord "org/repo" "token" in
  exists rr, online_result sample_web quay_script p = Ok (Some rr) /\
    default [] (PossessedScopes rr) = [ScopeRepoRead; ScopePull; ScopeRepoWrite; ScopePush; ScopeRepoAdmin].
Proof.
  intros p. assert (exists rec, online_result sample_web quay_script p = Ok rec) as [rec E] by (vm_compute; eauto).
  pose proof (online_exec sample_web quay_script p) as H. rewrite E in H.
  destruct (oauth_record_by_probing _ _ _ _ H) as (rr & _ & _ & _ & _ & _ & _ & -> & _).
  exists rr. split; [exact E|]. vm_compute in E. injection E as <-. reflexivity.
Defined.

(** ** The exact token filter *)

Section exact.
Context {X : Externals} {J : JwtParser}.

Lemma exact_filter_panics cfg spConfig q m token tr r :
newQuay cfg spConfig = Ok q -> opc_TokenMatchPolicy cfg <> AnyTokenPolicy ->
atst_TokenMetadata (at_Status token) <> None ->
exec (examine (q_lookup q) m token) tr r -> crashed r = true.
Proof.
intros Hq Hp Hm H. unfold newQuay in Hq. apply Ok_inj in Hq as <-. cbn [q_lookup] in H.
unfold examine in H. cbn [gl_MetadataCache gl_Fetch gl_TokenFilter] in H.
apply exec_bind in H as ([tkn err] & tr1 & tr2 & -> & H1 & H).
unfold Ensure, refresh in H1. destruct (atst_TokenMetadata (at_Status token)) as [md|] eqn:E; [|done].
cbn [NewCacheWithExpirationPolicy ExpirationPolicy NeverMetadataExpirationPolicy bind] in H1. rewrite E in H1.
destruct H1 as [-> [= -> ->]]. unfold NewFilter in H.
destruct (String.eqb_spec (opc_TokenMatchPolicy cfg) AnyTokenPolicy); [done|].
unfold Matches in H. rewrite E in H. cbn [tf_metadataProvider bind] in H. by destruct H as [_ ->].
Qed.
End exact.

(** The exact token match policy cannot be used with Quay: the filter that
    the provider is created with has no metadata provider, so that examining a
    ready token with metadata dereferences nil in a goroutine.  Under every
    policy but "any", and whatever the schedule and the answers, a lookup over
    tokens with such a token among them never gets to its result. *)
Theorem quay_exact_policy_crashes {X : Externals} {J : JwtParser} cfg spConfig q m tokens token :
  newQuay cfg spConfig = Ok q -> opc_TokenMatchPolicy cfg <> AnyTokenPolicy ->
  In token tokens -> is_ready token = true -> atst_TokenMetadata (at_Status token) <> None ->
  forall tr p, ~ pool_run (spawn (q_lookup q) m tokens) tr p.
Proof.
  intros Hq Hp Hin Hready Hm tr p Hrun. apply pool_run_decided in Hrun as (_ & ds & Hd & _).
  apply spawn_decided in Hd as [Hperm Hall].
  assert (In token (map dec_token ds)) as (d & <- & Hd)%in_map_iff.
  { eapply Permutation_in; [symmetry; exact Hperm|]. by apply List.filter_In. }
  eapply List.Forall_forall in Hd; [|exact Hall]. destruct Hd as [He Hc].
  rewrite (exact_filter_panics _ _ _ _ _ _ _ Hq Hp Hm He) in Hc. discriminate.
Qed.

Definition exact_config : OperatorConfiguration :=
  mkOpConfig (mkSharedConfig [] "https://spi") 3600000000000 1800000000000 432000000000000
    7200000000000 1800000000000 ExactTokenPolicy 2000000000 2097152 true.
Definition new_quay_sample : Quay :=
  match newQuay exact_config None with Ok q => q | Err _ => mkQuay sample_lookup (mkMetadataProvider 0) None end.
Lemma quay_exact_policy_crashes_witness :
  newQuay exact_config None = Ok new_quay_sample /\
  forall tr p, ~ pool_run (spawn (q_lookup new_quay_sample) sample_matchable
    [sample_token "a" "Ready" (Some sample_metadata)]) tr p.
Proof.
  split; [reflexivity|].
  apply (quay_exact_policy_crashes exact_config None new_quay_sample sample_matchable
    [sample_token "a" "Ready" (Some sample_metadata)] (sample_token "a" "Ready" (Some sample_metadata)));
    [reflexivity|discriminate|by left|reflexivity|discriminate].
Defined.

(** ** Access checks *)

(** The token that an access check sends *)
Definition check_credentials (r : res (option Credentials)) : string * string :=
  match r with Ok (Some c) => getUsernameAndPasswordFromCredentials c | _ => ("", "") end.
Definition lookup_status (r : res (option Credentials)) : SPIAccessCheckStatus :=
  match r with
  | Err err => set_acst_ErrorMessage (Error err)
                 (set_acst_ErrorReason SPIAccessCheckErrorTokenLookupFailed initial_status)
  | Ok _ => initial_status
  end.

Lemma requestRepoInfo_exec owner repository token tr r :
  exec (requestRepoInfo owner repository token) tr r ->
  (exchanges tr = [] /\ exists e, r = Err e) \/
  exists a, exchanges tr = [(quay_request (repo_info_url owner repository) token "GET" "" "", a)] /\
    match a, r with
    | Ok a, Ok (code, _) => code = hr_StatusCode a
    | Ok a, Err _ => hr_StatusCode a = 200%Z
    | Err _, r => is_ok r = false
    end.
Proof.
  intros (x & tr1 & tr2 & -> & H1 & H2)%exec_bind. unfold doQuayRequest in H1.
  destruct (Parse _) as [u|e]; [|destruct H1 as [-> ->]; destruct H2 as [-> ->]; left; by split; [|eexists]].
  unfold call in H1. cbn [bind] in H1. destruct H1 as (a & tr3 & -> & H1). right. exists a.
  destruct a as [a|e]; destruct H1 as [-> ->]; [|destruct H2 as [-> ->]; by split].
  destruct (Z.eqb_spec (hr_StatusCode a) 200) as [Hc|Hc].
  - destruct (readResponseBodyToJsonMap a); destruct H2 as [-> ->]; by split.
  - destruct H2 as [-> ->]; by split.
Qed.

Lemma judge_spec repoUrl username token code members status0 status err :
  acst_Accessible status0 = false ->
  Returns (status, err) = judge repoUrl username token code members status0 ->
  (acst_Accessible status = true <-> err = None /\
     (code = 200 \/ ((code = 401 \/ code = 403) /\ token <> "" /\ isRobot username = true))%Z) /\
  (err = None -> In code [200; 401; 403; 404]%Z).
Proof.
  intros Hacc. unfold judge.
  destruct (Z.eqb_spec code 200) as [->|H200].
  { destruct (member "is_public" members) as [[]|]; try done. intros [= -> ->]. cbn. tauto. }
  destruct (Z.eqb_spec code 401) as [->|H401]; [|destruct (Z.eqb_spec code 403) as [->|H403]];
    cbn [orb]; [destruct (String.eqb_spec token ""); cbn [negb andb]; [|destruct (isRobot username)]..|].
  1-6: intros [= -> ->]; cbn; rewrite ?Hacc; split; [|tauto]; split; [tauto || done|tauto || (intros; naive_solver)].
  destruct (Z.eqb_spec code 404) as [->|H404].
  - destruct (_ && _); intros [= -> ->]; cbn; rewrite Hacc; (split; [|tauto]); split; [done|naive_solver|done|naive_solver].
  - intros [= -> ->]. cbn. rewrite Hacc. split; [|done]. split; [done|naive_solver].
Qed.

(** Every run of the check *)
Lemma quay_check_exec lookupCredentials check tr status err :
  exec (CheckRepositoryAccess lookupCredentials check) tr (Returns (status, err)) ->
  (exists owner repository v,
     splitToOrganizationAndRepositoryAndVersion (acsp_RepoUrl (ac_Spec check)) = (owner, repository, v) /\
     (owner = "" \/ repository = "") /\ tr = [] /\ err = None /\
     acst_ErrorReason status = SPIAccessCheckErrorBadURL /\ acst_Accessible status = false) \/
  exists owner repository v tr1 tr2 credentials,
    splitToOrganizationAndRepositoryAndVersion (acsp_RepoUrl (ac_Spec check)) = (owner, repository, v) /\
    tr = tr1 ++ tr2 /\ exec (lookupCredentials (Matchable_of_check check)) tr1 credentials /\
    let '(username, token) := check_credentials credentials in
    (exchanges tr2 = [] /\ err <> None /\ acst_Accessible status = false) \/
    exists a, exchanges tr2 = [(quay_request (repo_info_url owner repository) token "GET" "" "", a)] /\
      (acst_Accessible status = true <-> err = None /\ exists resp, a = Ok resp /\
         (hr_StatusCode resp = 200 \/
          ((hr_StatusCode resp = 401 \/ hr_StatusCode resp = 403) /\ token <> "" /\ isRobot username = true))%Z) /\
      (err = None -> exists resp, a = Ok resp /\ In (hr_StatusCode resp) [200; 401; 403; 404]%Z).
Proof.
  unfold CheckRepositoryAccess.
  destruct (splitToOrganizationAndRepositoryAndVersion _) as [[owner repository] v].
  destruct (String.eqb owner "" || String.eqb repository "") eqn:Eb.
  { intros [-> [= -> ->]]. left. exists owner, repository, v. rewrite orb_true_iff, !String.eqb_eq in Eb. done. }
  intros (credentials & tr1 & tr2 & -> & Hl & H)%exec_bind. right.
  exists owner, repository, v, tr1, tr2, credentials. do 3 (split; [done|]).
  assert ((match credentials with
    | Err err => (set_acst_ErrorMessage (Error err)
                    (set_acst_ErrorReason SPIAccessCheckErrorTokenLookupFailed initial_status), ("", ""))
    | Ok (Some c) => (initial_status, getUsernameAndPasswordFromCredentials c)
    | Ok None => (initial_status, ("", ""))
    end) = (lookup_status credentials, check_credentials credentials)) as E by by destruct credentials as [[c|]|].
  rewrite E in H. clear E. destruct (check_credentials credentials) as [username token].
  assert (acst_Accessible (lookup_status credentials) = false) as Hacc by by destruct credentials.
  apply exec_bind in H as (info & tr3 & tr4 & -> & H1 & H). apply requestRepoInfo_exec in H1.
  destruct info as [[code members]|e]; destruct H as [-> H]; rewrite app_nil_r.
  2: { injection H as -> ->. destruct H1 as [[He _]|(a & He & _)]; [by left|]. right. exists a.
       split; [done|]. cbn. rewrite Hacc. split; [|done]. split; [done|]. by intros [? _]. }
  destruct H1 as [[_ [e H1]]|(a & He & H1)]; [done|]. right. exists a. split; [done|].
  destruct a as [a|]; [|done]. subst code. apply judge_spec in H as [H1 H2]; [|done].
  split; [|intros Herr; exists a; split; [done|by apply H2]]. rewrite H1. split.
  - intros [Herr Hc]. split; [done|]. by exists a.
  - intros [Herr (resp & [= <-] & Hc)]. by split.
Qed.

(** C33 Access checks of Quay: unless the URL is not a repository's, a check
    looks the credentials up, sends them in one request for the repository, and
    reports access exactly when the answer is 200, or when it is 401 or 403
    and the credentials are a robot account's; a request that fails or an
    answer with any other status than these and 404 is an error of the check. *)
Theorem quay_access_check lookupCredentials check tr status err :
  exec (CheckRepositoryAccess lookupCredentials check) tr (Returns (status, err)) ->
  (exists owner repository v,
     splitToOrganizationAndRepositoryAndVersion (acsp_RepoUrl (ac_Spec check)) = (owner, repository, v) /\
     (owner = "" \/ repository = "") /\ tr = [] /\ err = None /\
     acst_ErrorReason status = SPIAccessCheckErrorBadURL /\ acst_Accessible status = false) \/
  exists owner repository v tr1 tr2 credentials,
    splitToOrganizationAndRepositoryAndVersion (acsp_RepoUrl (ac_Spec check)) = (owner, repository, v) /\
    tr = tr1 ++ tr2 /\ exec (lookupCredentials (Matchable_of_check check)) tr1 credentials /\
    let '(username, token) := check_credentials credentials in
    (exchanges tr2 = [] /\ err <> None /\ acst_Accessible status = false) \/
    exists a, exchanges tr2 = [(quay_request (repo_info_url owner repository) token "GET" "" "", a)] /\
      (acst_Accessible status = true <-> err = None /\ exists resp, a = Ok resp /\
         (hr_StatusCode resp = 200 \/
          ((hr_StatusCode resp = 401 \/ hr_StatusCode resp = 403) /\ token <> "" /\ isRobot username = true))%Z) /\
      (err = None -> exists resp, a = Ok resp /\ In (hr_StatusCode resp) [200; 401; 403; 404]%Z).
Proof. apply quay_check_exec. Qed.

Definition no_credentials : Matchable -> prog (res (option Credentials)) := fun _ => Ret (Ok None).
Definition sample_check : SPIAccessCheck :=
  mkCheck (sample_meta "check") (mkCheckSpec "quay.io/org/repo" no_permissions)
    (mkCheckStatus false "" "" "" "" "").
Definition public_web : HttpRequest -> res HttpResponse := fun _ =>
  Ok (mkHttpResponse 200 (Ok ("{" +:+ quoted "is_public" +:+ ": true}"))).
Definition public_status : SPIAccessCheckStatus :=
  mkCheckStatus true SPIAccessCheckAccessibilityPublic SPIRepoTypeContainerRegistry "Quay" "" "".

Lemma quay_access_check_witness :
  let p := CheckRepositoryAccess no_credentials sample_check in
  online_result public_web empty_script p = Returns (public_status, None) /\
  exists a, exchanges (online_trace public_web empty_script p) =
    [(quay_request (repo_info_url "org" "repo") "" "GET" "" "", a)].
Proof.
  intros p. split; [vm_compute; reflexivity|].
  pose proof (online_exec public_web empty_script p) as H.
  change (online_result public_web empty_script p) with (@Returns _ (public_status, @None goerr)) in H.
  destruct (quay_access_check _ _ _ _ _ H) as [(o & r & v & Hs & [-> | ->] & _)|(o & r & v & tr1 & tr2 & c & Hs & E & Hl & Hrest)].
  - vm_compute in Hs. discriminate Hs.
  - vm_compute in Hs. discriminate Hs.
  - destruct Hl as [-> ->]. vm_compute in Hs. injection Hs as <- <- <-. cbn [app] in E. rewrite E.
    destruct Hrest as [(_ & Herr & _)|(a & Ha & _)]; [by destruct (Herr eq_refl)|]. exists a. exact Ha.
Defined.

(** An answer without the member [is_public], or with one that is not a
    boolean, makes the type assertion of the check panic. *)
Example missing_is_public :
  online_result (fun _ => Ok (mkHttpResponse 200 (Ok "{}"))) empty_script
    (CheckRepositoryAccess no_credentials sample_check) = Panics "repoInfo[is_public].(bool)".
Proof. vm_compute. reflexivity. Qed.

(** ** Validation *)

Definition known_scopes : list string :=
  [ScopeRepoRead; ScopeRepoWrite; ScopeRepoCreate; ScopeRepoAdmin; ScopeOrgAdmin; ScopePull; ScopePush].

Lemma translated_known p s : In s (translateToQuayScopes p) -> In s known_scopes.
Proof.
  unfold translateToQuayScopes. repeat case_match; cbn; tauto.
Qed.

Lemma validate_area_nil p : validate_area p = [] <->
  perm_Area p = PermissionAreaRegistry \/ perm_Area p = PermissionAreaRegistryMetadata.
Proof.
  unfold validate_area. pose proof (one_of_In (perm_Area p) [PermissionAreaRegistry; PermissionAreaRegistryMetadata]) as H.
  destruct (one_of _ _); cbn [In] in H; [naive_solver|]. split; [done|]. intros Hp. exfalso.
  assert (false = true); [|done]. apply H. naive_solver.
Qed.

Lemma validate_scope_nil s : validate_scope s = [] <-> In s known_scopes.
Proof.
  unfold validate_scope. pose proof (one_of_In s [ScopeUserRead; ScopeUserAdmin]) as Hu.
  pose proof (one_of_In s known_scopes) as Hk. unfold known_scopes in Hk at 1.
  destruct (one_of s [ScopeUserRead; ScopeUserAdmin]).
  - split; [done|]. intros H. destruct Hu as [Hu _]. specialize (Hu eq_refl). cbn [In] in Hu.
    destruct Hu as [<-|[<-|[]]]; vm_compute in H; naive_solver.
  - destruct (one_of s _); [tauto|]. split; [done|]. intros H. by apply Hk in H.
Qed.

Lemma Validate_nil ps : Validate ps = [] <->
  Forall (fun p => perm_Area p = PermissionAreaRegistry \/ perm_Area p = PermissionAreaRegistryMetadata) (perms_Required ps) /\
  Forall (fun s => In s known_scopes) (perms_AdditionalScopes ps).
Proof.
  unfold Validate. rewrite app_nil_iff, !flat_map_nil.
  assert (forall A (P Q : A -> Prop) l, (forall x, P x <-> Q x) -> Forall P l <-> Forall Q l) as Hiff.
  { intros A P Q l H. split; apply List.Forall_impl; naive_solver. }
  by rewrite (Hiff _ _ _ _ validate_area_nil), (Hiff _ _ _ _ validate_scope_nil).
Qed.

(** Validated permissions speak Quay's language: the validation passes
    exactly the permissions that name registry areas and known scopes, and the
    scopes that such permissions translate to, for matching and for OAuth,
    are all known; an OAuth flow moreover always asks for the four repository
    scopes. *)
Theorem quay_validated_scopes {X : Externals} ps :
  (forall l, Permutation l (iteration_order l)) ->
  Validate ps = [] ->
  Forall (fun p => perm_Area p = PermissionAreaRegistry \/ perm_Area p = PermissionAreaRegistryMetadata) (perms_Required ps) /\
  Forall (fun s => In s known_scopes) (GetAllScopes translateToQuayScopes ps) /\
  Forall (fun s => In s known_scopes) (quay_OAuthScopesFor ps) /\
  (forall s, In s [ScopeRepoRead; ScopeRepoWrite; ScopeRepoCreate; ScopeRepoAdmin] -> In s (quay_OAuthScopesFor ps)).
Proof.
  intros Hperm [Hr Hs]%Validate_nil. split; [exact Hr|].
  assert (forall (l : gset string) s, In s (iteration_order (elements l)) <-> s ∈ l) as Hin.
  { intros l s. rewrite <- elem_of_elements, list_elem_of_In. split; intros H.
    - eapply Permutation_in; [symmetry; apply Hperm|exact H].
    - eapply Permutation_in; [apply Hperm|exact H]. }
  rewrite List.Forall_forall in Hs. split; [|split].
  - apply List.Forall_forall. intros s H. apply Hin in H.
    apply elem_of_union in H as [H|H]; apply elem_of_list_to_set, list_elem_of_In in H; [by apply Hs|].
    apply in_flat_map in H as (p & _ & H). by eapply translated_known.
  - apply List.Forall_forall. intros s H. apply Hin in H.
    apply elem_of_union in H as [H|H]; [apply elem_of_list_to_set, list_elem_of_In in H; by apply Hs|].
    unfold known_scopes. cbn [In]. set_solver.
  - intros s H. apply Hin, elem_of_union. right. cbn [In] in H. set_solver.
Qed.

Lemma quay_validated_scopes_witness :
  let ps := mkPermissions [mkPermission PermissionTypeReadWrite PermissionAreaRegistry] [ScopeOrgAdmin] in
  Validate ps = [] /\ Forall (fun s => In s known_scopes) (GetAllScopes translateToQuayScopes ps).
Proof.
  intros ps. assert (Validate ps = []) as H by (vm_compute; reflexivity). split; [exact H|].
  exact (proj1 (proj2 (quay_validated_scopes ps (fun l => Permutation_refl l) H))).
Defined.
