(* ===== verification/GitHub.v ===== *)
(** * pkg/serviceprovider/github

    state.go, queries.go, metadataprovider.go, tokenfilter.go,
    downloadfilecapability.go and github.go.  The metadata of a GitHub token are
    fetched at once: the user, the scopes (a response header) and, when the
    state is asked for, the repositories the token can access, page by page.
    The paging loop runs on fuel, one unit per page: [FetchAll] answers nothing
    exactly when the server keeps naming further pages
    ([github_paging]). *)

From S2P Require Import Prelude GoStd GoUrl GoJson GoUnmarshal GoRegexp Api Externals SpErrors Effects Samples.
From S2P Require Import SpConfig Lookup AccessTokenMapper.
Local Open Scope string_scope.
Local Open Scope list_scope.
Local Open Scope spi_scope.

(** ** state.go *)

Definition ViewerPermissionAdmin : string := "ADMIN".
Definition ViewerPermissionMaintain : string := "MAINTAIN".
Definition ViewerPermissionWrite : string := "WRITE".
Definition ViewerPermissionTriage : string := "TRIAGE".
Definition ViewerPermissionRead : string := "READ".

Definition ScopeRepo : string := "repo".
Definition ScopePublicRepo : string := "public_repo".
Definition ScopeUser : string := "user".
Definition ScopeReadUser : string := "read:user".
Definition ScopeUserEmail : string := "user:email".
Definition ScopeUserFollow : string := "user:follow".

Definition valid_scopes : list string :=
  [ScopeRepo; "repo:status"; "repo_deployment"; ScopePublicRepo; "repo:invite"; "security_event";
   "admin:repo_hook"; "write:repo_hook"; "read:repo_hook"; "admin:org"; "write:org"; "read:org";
   "admin:public_key"; "write:public_key"; "read:public_key"; "admin:org_hook"; "gist"; "notifications";
   ScopeUser; ScopeReadUser; ScopeUserEmail; ScopeUserFollow; "delete_repo"; "write:discussion";
   "read:discussion"; "write:packages"; "read:packages"; "delete:packages"; "admin:gpg_key";
   "write:gpg_key"; "read:gpg_key"; "codespace"; "workflow"].
Definition IsValidScope (scope : string) : bool := one_of scope valid_scopes.

Definition Implies (s other : string) : bool :=
  if String.eqb s other then true
  else if String.eqb s ScopeReadUser then String.eqb other ScopeUserEmail || String.eqb other ScopeUserFollow
  else if String.eqb s ScopeRepo then String.eqb other ScopePublicRepo || HasPrefix other "repo"
  else if String.eqb s ScopeUser then String.eqb other ScopeReadUser
  else
    match cut_char ":" s, cut_char ":" other with
    | Some (sPrefix, sSuffix), Some (otherPrefix, otherSuffix) =>
        if negb (String.eqb sSuffix otherSuffix) then false
        else if String.eqb sPrefix "admin" then true
        else if String.eqb sPrefix "write" then String.eqb otherPrefix "read"
        else false
    | _, _ => false
    end.

Record RepositoryRecord := mkRepositoryRecord { ViewerPermission : string }.
(** [TokenState]: the accessible repositories by their URL *)
Abbreviation TokenState := (gmap string RepositoryRecord).

(** [ViewerPermission.Enables]: the scope is not looked at yet *)
Definition Enables (vp scope : string) : bool :=
  one_of vp [ViewerPermissionAdmin; ViewerPermissionMaintain; ViewerPermissionTriage;
             ViewerPermissionWrite; ViewerPermissionRead].

Definition marshal_repository (r : RepositoryRecord) : string :=
  print_object [("viewerPermission", json_string (ViewerPermission r))].
Definition marshal_state (s : TokenState) : string :=
  print_object [("AccessibleRepos", marshal_map marshal_repository s)].

Definition repository_fields : list (string * (RepositoryRecord -> json -> res RepositoryRecord)) :=
  [("viewerPermission", fun r v =>
      let? p := decode_string (ViewerPermission r) v in Ok (mkRepositoryRecord p))].
Definition decode_repository : json -> res RepositoryRecord :=
  decode_struct repository_fields (mkRepositoryRecord "").
Definition state_fields : list (string * (TokenState -> json -> res TokenState)) :=
  [("AccessibleRepos", decode_map decode_repository)].
Definition unmarshal_state : string -> res TokenState := Unmarshal_into (decode_struct state_fields) ∅.

(** ** queries.go *)

(** [k.Permissions] and the record it gives; only then the URL is read *)
Definition viewer_permission (k : GhRepository) : option string :=
  let has p := default false (ghr_Permissions k !! p) in
  if has "admin" then Some ViewerPermissionAdmin
  else if has "push" then Some ViewerPermissionWrite
  else if has "pull" then Some ViewerPermissionRead
  else None.
Definition add_repository (s : TokenState) (k : GhRepository) : go TokenState :=
  match viewer_permission k with
  | None => Returns s
  | Some p =>
      match ghr_HTMLURL k with
      | None => Panics "k.HTMLURL"
      | Some url => Returns (<[url := mkRepositoryRecord p]> s)
      end
  end.
Fixpoint add_repositories (s : TokenState) (ks : list GhRepository) : go TokenState :=
  match ks with
  | [] => Returns s
  | k :: rest => match add_repository s k with Returns s => add_repositories s rest | Panics w => Panics w end
  end.

(** The loop over the pages, from page [page] on; [None] when the fuel is used
    up before the last page *)
Fixpoint fetch_pages (fuel : nat) (accessToken : string) (page : Z) (state : TokenState)
  : prog (option (go (res TokenState))) :=
  match fuel with
  | O => Ret None
  | S f =>
      let! r := call (Gh (GhRepositoriesList accessToken 100 page)) in
      match r with
      | Err err => Ret (Some (Returns (Err (Errorf_w "failed to list github repositories" err))))
      | Ok resp =>
          match add_repositories state (ghp_Repos resp) with
          | Panics w => Ret (Some (Panics w))
          | Returns state =>
              if (ghp_NextPage resp =? 0)%Z then Ret (Some (Returns (Ok state)))
              else fetch_pages f accessToken (ghp_NextPage resp) state
          end
      end
  end.

Definition FetchAll (fuel : nat) (accessToken : string) (state : TokenState)
  : prog (option (go (res TokenState))) :=
  if String.eqb accessToken "" then
    Ret (Some (Returns (Err (HttpError 401 "the access token is empty, service provider not contacted at all"))))
  else fetch_pages fuel accessToken 0 state.

(** ** metadataprovider.go *)

Definition is_space (r : string) : bool :=
  one_of r (map encode_rune
    [9; 10; 11; 12; 13; 32; 133; 160; 5760; 8192; 8193; 8194; 8195; 8196; 8197; 8198; 8199; 8200; 8201; 8202;
     8232; 8233; 8239; 8287; 12288]%N).
Fixpoint drop_spaces (rs : list string) : list string :=
  match rs with r :: rest => if is_space r then drop_spaces rest else rs | [] => [] end.
(** [strings.TrimSpace] *)
Definition TrimSpace (s : string) : string := text (List.rev (drop_spaces (List.rev (drop_spaces (runes s))))).

(** The user name, the user id and the scopes *)
Definition fetchUserAndScopes (token : string) : prog (go (res (string * string * list string))) :=
  let! r := call (Gh (GhUsersGet token)) in
  match r with
  | Err err => Ret (Returns (Err (Errorf_w "failed to fetch user info" err)))
  | Ok resp =>
      if negb (gur_StatusCode resp =? 200)%Z then Ret (Returns (Ok ("", "", [])))
      else
        match gu_ID (gur_User resp), gu_Login (gur_User resp) with
        | Some id, Some login =>
            Ret (Returns (Ok (login, FormatInt id, map TrimSpace (Split (gur_OAuthScopes resp) ","))))
        | _, _ => Ret (Panics "usr.ID, usr.Login")
        end
  end.

Definition doFetch (fuel : nat) (token : SPIAccessToken) (includeState : bool)
  : prog (option (go (res (option TokenMetadata)))) :=
  let! data := call (Ts (TsGet token)) in
  match data with
  | Err err => Ret (Some (Returns (Err (Errorf_w "error while getting token data" err))))
  | Ok None => Ret (Some (Returns (Ok None)))
  | Ok (Some data) =>
      let! u := fetchUserAndScopes (td_AccessToken data) in
      match u with
      | Panics w => Ret (Some (Panics w))
      | Returns (Err err) => Ret (Some (Returns (Err err)))
      | Returns (Ok (username, userId, scopes)) =>
          if negb includeState then
            Ret (Some (Returns (Ok (Some (mkTokenMetadata username userId scopes "" 0)))))
          else
            let! s := FetchAll fuel (td_AccessToken data) ∅ in
            Ret match s with
                | None => None
                | Some (Panics w) => Some (Panics w)
                | Some (Returns (Err err)) => Some (Returns (Err err))
                | Some (Returns (Ok state)) =>
                    Some (Returns (Ok (Some (mkTokenMetadata username userId scopes (marshal_state state) 0))))
                end
      end
  end.

(** ** tokenfilter.go and the scopes of permissions (github.go) *)

Definition translateToScopes (permission : Permission) : list string :=
  let area := perm_Area permission in
  if one_of area [PermissionAreaRepository; PermissionAreaRepositoryMetadata] then ["repo"]
  else if String.eqb area PermissionAreaWebhooks then
    if IsWrite (perm_Type permission) then ["write:repo_hook"] else ["read:repo_hook"]
  else if String.eqb area PermissionAreaUser then
    if IsWrite (perm_Type permission) then ["user"] else ["read:user"]
  else [].

Definition hasScope (tokenScopes : list string) (scope : string) : bool :=
  existsb (fun s => Implies s scope) tokenScopes.

Section filter.
Context {X : Externals}.

Fixpoint scopes_match (rec : RepositoryRecord) (tokenScopes requiredScopes : list string) : bool :=
match requiredScopes with
| [] => true
| scope :: rest =>
    if negb (hasScope tokenScopes scope) then false
    else if negb (Enables (ViewerPermission rec) scope) then false
    else scopes_match rec tokenScopes rest
end.
Definition permsMatch (perms : Permissions) (rec : RepositoryRecord) (tokenScopes : list string) : bool :=
scopes_match rec tokenScopes (GetAllScopes translateToScopes perms).

(** The loop over the map finds the entry of the URL. *)
Definition tokenFilter_Matches (m : Matchable) (token : SPIAccessToken) : res bool :=
match atst_TokenMetadata (at_Status token) with
| None => Ok false
| Some metadata =>
    match unmarshal_state (tm_ServiceProviderState metadata) with
    | Err err => Err (Errorf_w "failed to unmarshal token data" err)
    | Ok githubState =>
        match githubState !! m_RepoUrl m with
        | None => Ok false
        | Some rec => Ok (permsMatch (m_Permissions m) rec (tm_Scopes metadata))
        end
    end
end.
Definition Matches : TokenFilter := fun m token => Ret (Returns (token, tokenFilter_Matches m token)).
End filter.

(** ** downloadfilecapability.go *)

Definition unexpectedStatusCodeError : string := "unexpected status code from GitHub API".
Definition fileSizeLimitExceededError : string := "failed to retrieve file: size too big".
Definition pathIsADirectoryError : string := "provided path refers to a directory, not file".
Definition unexpectedRepoUrlError : string := "repoUrl has unexpected format".

(** (?Um)^BASE/(?P<owner>[^/]+)/(?P<repo>[^/]+)(/|(.git)?)$ *)
Definition repo_tail : regex := RAlt (RLit slash) (ROpt (RCat RAny (RLits (runes "git") REps))).
Definition ghRepoRegexp (ghBaseUrl : string) : regex :=
  RCat RBol (RLits (runes ghBaseUrl) (RCat (RLit slash) (RCat (RCap "owner" (RPlus slash))
    (RCat (RLit slash) (RCat (RCap "repo" (RPlus slash)) (RCat repo_tail REol)))))).

(** The compilation fails only on a base URL that is not valid UTF-8. *)
Definition NewDownloadFileCapability (ghBaseUrl : string) : res regex :=
  if valid_utf8 ghBaseUrl then Ok (ghRepoRegexp ghBaseUrl)
  else Err (Errorf_w ("compiling repoUrl matching regex for GitHub with baseUrl " +:+ ghBaseUrl +:+ " failed with error")
              (ExtError "error parsing regexp: invalid UTF-8" [])).

Definition parseOwnerAndRepoFromUrl (ghBaseUrl url : string) : res (string * string) :=
  match find (ghRepoRegexp ghBaseUrl) url with
  | None => Err (Errorf_w ("failed to match GitHub repository with baseUrl " +:+ ghBaseUrl) (ErrorString unexpectedRepoUrlError))
  | Some matches => Ok (group "owner" matches, group "repo" matches)
  end.

(** [file.GetSize()] *)
Definition GetSize (file : GhFile) : Z := default 0%Z (ptr_value (ghf_Size file)).

Definition DownloadFile (ghBaseUrl : string) (request : SPIFileContentRequestSpec) (credentials : Credentials)
  (maxFileSizeLimit : Z) : prog (go (res string)) :=
  match parseOwnerAndRepoFromUrl ghBaseUrl (fsp_RepoUrl request) with
  | Err err => Ret (Returns (Err (Errorf_w "could not parse repository name and owner from repoUrl" err)))
  | Ok (owner, repo) =>
      let! r := call (Gh (GhGetContents (cred_Token credentials) owner repo (fsp_FilePath request) (fsp_Ref request))) in
      match r with
      | Err (err, Some resp) =>
          let body := match hr_Body resp with Ok bytes => bytes | Err _ => "" end in
          Ret (Returns (Err (Wrapf unexpectedStatusCodeError
            (": " +:+ FormatInt (hr_StatusCode resp) +:+ ". Response: " +:+ body))))
      | Err (err, None) => Ret (Returns (Err (ErrorString unexpectedStatusCodeError)))
      | Ok contents =>
          match ghc_File contents, ghc_Directory contents with
          | None, Some _ => Ret (Returns (Err (Wrapf pathIsADirectoryError (": " +:+ fsp_FilePath request))))
          | None, None => Ret (Panics "file")
          | Some file, _ =>
              if (maxFileSizeLimit <? GetSize file)%Z then
                Ret (Returns (Err (Wrapf fileSizeLimitExceededError
                  (": (" +:+ FormatInt (ptr_address (ghf_Size file)) +:+ ")"))))
              else
                match ghf_Content file with
                | Err err => Ret (Returns (Err (Errorf_w "content reading error" err)))
                | Ok content => Ret (Returns (Ok content))
                end
          end
      end
  end.

(** ** github.go *)

Definition unableToParsePathError : string := "unable to parse path".
Definition notGithubUrlError : string := "not a github repository url".
Definition unknownScopeError : string := "unknown scope".
Definition failedToParseRepoUrlError : string := "failed to parse repository URL".

Record Github := mkGithub {
  g_lookup : GenericLookup; g_downloadFileCapability : regex; g_oauthCapability : option OAuthCapability;
  g_baseUrl : string }.

Section provider.
Context {X : Externals}.

Definition OAuthScopesFor_github (permissions : Permissions) : list string :=
GetAllScopes translateToScopes permissions.

Definition newGithubOAuthCapability (cfg : OperatorConfiguration) (spConfig : option ServiceProviderConfiguration)
: option OAuthCapability :=
match spConfig with
| Some c =>
    match spc_OAuth2Config c with
    | Some _ => Some (mkOAuthCapability (DefaultOAuthEndpoint (sc_BaseUrl (opc_Shared cfg))) OAuthScopesFor_github)
    | None => None
    end
| None => None
end.

(** [fetch] is [metadataProvider.Fetch] in the runs where [doFetch] ends with a
  result.  The base URL is read without a test for nil. *)
Definition newGithub (fetch : SPIAccessToken -> bool -> prog (res (option TokenMetadata)))
(cfg : OperatorConfiguration) (spConfig : option ServiceProviderConfiguration) : go (res Github) :=
match spConfig with
| None => Panics "spConfig"
| Some c =>
    match NewDownloadFileCapability (spc_BaseUrl c) with
    | Err err => Returns (Err err)
    | Ok downloadCapability =>
        Returns (Ok (mkGithub
          (mkGenericLookup "GitHub" (NewFilter (opc_TokenMatchPolicy cfg) Matches)
             (Some DefaultRemoteSecretFilterFunc) fetch
             (NewCacheWithExpirationPolicy cfg (TtlMetadataExpirationPolicy (opc_TokenLookupCacheTtl cfg)))
             RepoUrlFromString)
          downloadCapability (newGithubOAuthCapability cfg spConfig) (spc_BaseUrl c)))
    end
end.

(** The getters *)
Definition github_provider (g : Github) : ServiceProvider :=
mkSP (g_baseUrl g) ServiceProviderTypeGitHub (g_oauthCapability g) true false.

Definition LookupTokens (lookup : res (list SPIAccessToken)) : res (list SPIAccessToken) :=
map_err (Errorf_w "github token lookup failure") lookup.
Definition LookupCredentials (lookup : res (option Credentials)) : res (option Credentials) :=
map_err (Errorf_w "github credentials lookup failure") lookup.
Definition PersistMetadata (g : Github) (token : SPIAccessToken) : prog (SPIAccessToken * option goerr) :=
let! (token, err) := PersistMetadata_generic (g_lookup g) token in
Ret (token, option_map (Errorf_w "failed to persist github metadata") err).

Definition parseGithubRepoUrl (g : Github) (repoUrl : string) : res (string * string) :=
if negb (HasPrefix repoUrl (g_baseUrl g)) then Err (Wrapf notGithubUrlError (": '" +:+ repoUrl +:+ "'"))
else
  match Split (TrimPrefix repoUrl (g_baseUrl g)) "/" with
  | _ :: owner :: repo :: _ => Ok (owner, repo)
  | _ => Err (Wrapf unableToParsePathError (" '" +:+ repoUrl +:+ "'"))
  end.

Definition initial_status : SPIAccessCheckStatus :=
mkCheckStatus false SPIAccessCheckAccessibilityUnknown SPIRepoTypeGit "GitHub" "" "".
Definition preserveError (reason : string) (err : goerr) (status : SPIAccessCheckStatus) : SPIAccessCheckStatus :=
set_acst_ErrorMessage (Error err) (set_acst_ErrorReason reason status).

Definition checkPublicRepoAccess (repoUrl : string) : prog (res bool) :=
match Parse repoUrl with
| Err reqErr =>
    Ret (Err (Errorf_w ("error while constructing HTTP request for access check to " +:+ repoUrl) reqErr))
| Ok _ =>
    let! resp := call (Ht (HttpDo (mkHttpRequest "GET" repoUrl [] ""))) in
    match resp with
    | Err err => Ret (Err (Errorf_w ("error performing HTTP request for access check to " +:+ repoUrl) err))
    | Ok resp => Ret (Ok (hr_StatusCode resp =? 200)%Z)
    end
end.

(** [lookupCredentials] is [g.lookup.LookupCredentials], run to its end. *)
Definition checkPrivateRepoAccess (g : Github) (lookupCredentials : Matchable -> prog (res (option Credentials)))
(accessCheck : SPIAccessCheck) : prog SPIAccessCheckStatus :=
match parseGithubRepoUrl g (acsp_RepoUrl (ac_Spec accessCheck)) with
| Err err => Ret (preserveError SPIAccessCheckErrorBadURL err initial_status)
| Ok (owner, repo) =>
    let! credentials := lookupCredentials (Matchable_of_check accessCheck) in
    match credentials with
    | Err err => Ret (preserveError SPIAccessCheckErrorTokenLookupFailed err initial_status)
    | Ok None => Ret initial_status
    | Ok (Some credentials) =>
        let! r := call (Gh (GhRepositoriesGet (cred_Token credentials) owner repo)) in
        match r with
        | Err (err, resp) =>
            Ret (preserveError
              (match resp with
               | Some 404%Z => SPIAccessCheckErrorRepoNotFound
               | _ => SPIAccessCheckErrorUnknownError
               end) err initial_status)
        | Ok ghRepository =>
            Ret (mkCheckStatus true
              (if default false (ghr_Private ghRepository)
               then SPIAccessCheckAccessibilityPrivate else SPIAccessCheckAccessibilityUnknown)
              SPIRepoTypeGit "GitHub" "" "")
        end
    end
end.

Definition CheckRepositoryAccess (g : Github) (lookupCredentials : Matchable -> prog (res (option Credentials)))
(accessCheck : SPIAccessCheck) : prog (res SPIAccessCheckStatus) :=
let! publicRepo := checkPublicRepoAccess (acsp_RepoUrl (ac_Spec accessCheck)) in
match publicRepo with
| Err err => Ret (Err err)
| Ok true =>
    Ret (Ok (mkCheckStatus true SPIAccessCheckAccessibilityPublic SPIRepoTypeGit "GitHub" "" ""))
| Ok false =>
    let! status := checkPrivateRepoAccess g lookupCredentials accessCheck in
    Ret (Ok status)
end.

(** Only the additional scopes can be invalid. *)
Definition Validate (ps : Permissions) : list goerr :=
flat_map (fun s => if negb (IsValidScope s) then [Wrapf unknownScopeError (": '" +:+ s +:+ "'")] else [])
  (perms_AdditionalScopes ps).

Definition MapToken (token : SPIAccessToken) (tokenData : Token) : AccessTokenMapper :=
DefaultMapToken token tokenData.

(** [githubProbe.Examine] *)
Definition Examine (repoBaseurl : string) : res string :=
match Parse repoBaseurl with
| Err _ => Err (Wrapf failedToParseRepoUrlError (" '" +:+ repoBaseurl +:+ "'"))
| Ok baseUrl =>
    if String.eqb (Scheme baseUrl +:+ "://" +:+ Host baseUrl) (spt_DefaultBaseUrl ServiceProviderTypeGitHub)
    then Ok (spt_DefaultBaseUrl ServiceProviderTypeGitHub) else Ok ""
end.
End provider.

(** ** Repository URLs for downloads *)

Definition github_com : string := "https://github.com".
Example download_url_1 : parseOwnerAndRepoFromUrl github_com "https://github.com/foo-user/foo-repo.git" = Ok ("foo-user", "foo-repo").
Proof. vm_compute. reflexivity. Qed.
Example download_url_2 : parseOwnerAndRepoFromUrl github_com "https://github.com/foo-user/foo-repo/" = Ok ("foo-user", "foo-repo").
Proof. vm_compute. reflexivity. Qed.
Example download_url_3 : map (fun u => is_ok (parseOwnerAndRepoFromUrl github_com u))
  ["https://github.com/foo-user/foo-repo/.git"; "https://github.com/with/more/path/splits";
   "https://github.com/org-without-repo/"; "https://github.com/org-without-repo";
   "https://my.github.com/owner/repo"; "pink-soap"] = [false; false; false; false; false; false].
Proof. vm_compute. reflexivity. Qed.
(** The dot of the suffix stands for any character. *)
Example download_url_git : parseOwnerAndRepoFromUrl github_com "https://github.com/acme/legit" = Ok ("acme", "l").
Proof. vm_compute. reflexivity. Qed.

(** What follows the repository *)
Lemma tail_accepts tail prev cs : In tail [""; "/"; ".git"] ->
  rmatch (RCat repo_tail REol) accept prev (runes tail) cs = Some cs.
Proof. intros H. repeat (destruct H as [<-|H]; [reflexivity|]). destruct H. Qed.

Lemma git_rejects prev l cs : Forall (fun r => String.eqb r newline = false) l -> l <> runes "git" ->
  rmatch (RLits (runes "git") REps) (rmatch REol accept) prev l cs = None.
Proof.
  intros Hn Hl. change (runes "git") with [byte_rune "g"; byte_rune "i"; byte_rune "t"] in *.
  cbn [RLits rmatch]. rewrite one_lit by done. destruct l as [|a l]; [done|].
  destruct (String.eqb_spec a (byte_rune "g")) as [->|]; [|done]. rewrite one_lit by done. destruct l as [|b l]; [done|].
  destruct (String.eqb_spec b (byte_rune "i")) as [->|]; [|done]. rewrite one_lit by done. destruct l as [|c l]; [done|].
  destruct (String.eqb_spec c (byte_rune "t")) as [->|]; [|done]. destruct l as [|d l]; [done|].
  do 3 apply List.Forall_inv_tail in Hn. apply List.Forall_inv in Hn. cbn [at_eol]. by rewrite Hn.
Qed.

Lemma tail_rejects tail prev cs y l : In tail [""; "/"; ".git"] ->
  Forall (fun r => same_rune slash r = false) (y :: l) ->
  Forall (fun r => String.eqb r newline = false) (y :: l) ->
  (tail = "" -> l <> runes "git") ->
  rmatch (RCat repo_tail REol) accept prev (y :: l ++ runes tail) cs = None.
Proof.
  intros Ht Hs Hn Hgit. unfold repo_tail. cbn [rmatch one].
  rewrite (List.Forall_inv Hs). cbn [at_eol]. rewrite (List.Forall_inv Hn). cbn [negb].
  apply git_rejects.
  - apply List.Forall_app. split; [by apply List.Forall_inv_tail in Hn|].
    repeat (destruct Ht as [<-|Ht]; [by repeat constructor|]). done.
  - repeat (destruct Ht as [<-|Ht]).
    + cbn [runes]. rewrite app_nil_r. by apply Hgit.
    + intros E. change (runes "git") with ([byte_rune "g"; byte_rune "i"] ++ [byte_rune "t"]) in E.
      change (runes "/") with [slash] in E. by apply app_inj_tail in E as [_ E].
    + intros E. apply (f_equal length) in E. rewrite length_app in E.
      change (length (runes ".git")) with 4 in E. change (length (runes "git")) with 3 in E. lia.
    + done.
Qed.

Lemma repo_captured prev tail w x cs : In tail [""; "/"; ".git"] ->
  Forall (fun r => same_rune slash r = false) (w ++ [x]) ->
  Forall (fun r => String.eqb r newline = false) (w ++ [x]) ->
  (tail = "" -> forall w1 y, w ++ [x] <> w1 ++ y :: runes "git") ->
  rmatch (RCap "repo" (RPlus slash)) (rmatch (RCat repo_tail REol) accept) prev ((w ++ [x]) ++ runes tail) cs
  = Some (("repo", text (w ++ [x])) :: cs).
Proof.
  intros Ht Hs Hn Hgit. set (k := rmatch (RCat repo_tail REol) accept). cbn [rmatch]. rewrite <- app_assoc. cbn [app].
  apply plus_first.
  - eapply List.Forall_impl; [|exact Hs]. intros r Hr. cbn. by rewrite Hr.
  - intros w1 y w2 E. subst w. rewrite <- app_assoc in Hs, Hn, Hgit. cbn [app] in Hs, Hn, Hgit.
    apply List.Forall_app in Hs as [_ Hs%List.Forall_inv_tail]. apply List.Forall_app in Hn as [_ Hn%List.Forall_inv_tail].
    destruct (w2 ++ [x]) as [|z l] eqn:El; [by destruct w2|].
    replace (w2 ++ x :: runes tail) with (z :: l ++ runes tail).
    + apply tail_rejects; [done|done|done|]. intros -> ->. by apply (Hgit eq_refl (w1 ++ [y]) z); rewrite <- app_assoc.
    + rewrite cons_middle, app_assoc, El. done.
  - subst k. rewrite tail_accepts by done. by rewrite cons_middle, app_assoc, consumed_app.
Qed.

Lemma repo_captured' prev tail repo cs : In tail [""; "/"; ".git"] -> segment repo ->
  (tail = "" -> forall a, repo <> a +:+ "git") ->
  rmatch (RCap "repo" (RPlus slash)) (rmatch (RCat repo_tail REol) accept) prev (runes repo ++ runes tail) cs
  = Some (("repo", repo) :: cs).
Proof.
  intros Ht Hrepo Hgit. destruct (segment_runes repo Hrepo) as (w & x & E & Hs & Hn).
  rewrite E, repo_captured; [by rewrite <- E, text_runes|done..|].
  intros Htail w1 y Ew. apply (Hgit Htail (text (w1 ++ [y]))).
  rewrite <- (text_runes repo), E, Ew, cons_middle, app_assoc, text_app. f_equal.
Qed.

(** The repository of a download: the URL of a repository under the
    provider's base URL, with nothing, a slash or .git behind it, is taken apart
    into its owner and its repository, provided that a name written without a
    suffix does not itself end in "git". *)
Theorem github_download_url base owner repo tail :
  valid_utf8 base = true -> segment owner -> segment repo -> In tail [""; "/"; ".git"] ->
  (tail = "" -> forall a, repo <> a +:+ "git") ->
  parseOwnerAndRepoFromUrl base (base +:+ "/" +:+ owner +:+ "/" +:+ repo +:+ tail) = Ok (owner, repo).
Proof.
  intros Hbase Howner Hrepo Ht Hgit. unfold parseOwnerAndRepoFromUrl, find.
  assert (runes (base +:+ "/" +:+ owner +:+ "/" +:+ repo +:+ tail) =
    runes base ++ slash :: runes owner ++ slash :: runes repo ++ runes tail) as ->.
  { destruct Howner as (_ & Ho & _), Hrepo as (_ & Hr & _).
    by rewrite runes_app, (runes_app "/"), runes_app, (runes_app "/"), runes_app by done. }
  set (rest := runes repo ++ runes tail).
  assert (forall prev, rmatch (RCap "owner" (RPlus slash)) (rmatch (RLit slash)
      (rmatch (RCap "repo" (RPlus slash)) (rmatch (RCat repo_tail REol) accept))) prev (runes owner ++ slash :: rest) []
    = Some [("repo", repo); ("owner", owner)]) as Hm.
  { intros prev. destruct (segment_runes owner Howner) as (w & x & E & Hs & _). rewrite E, <- app_assoc. cbn [app].
    apply segment_captured; [done|]. rewrite <- E, text_runes. eapply repo_captured'; done. }
  assert (rmatch (ghRepoRegexp base) accept None (runes base ++ slash :: runes owner ++ slash :: rest) [] =
    Some [("repo", repo); ("owner", owner)]) as Hr.
  { unfold ghRepoRegexp. cbn [rmatch at_bol]. rewrite rmatch_lits. cbn [rmatch]. unfold one at 1.
    rewrite same_rune_refl. apply (Hm None). }
  destruct (runes base ++ slash :: runes owner ++ slash :: rest) as [|r l] eqn:E; cbn [find_from]; by rewrite Hr.
Qed.

Lemma github_download_url_witness :
  parseOwnerAndRepoFromUrl github_com "https://github.com/acme/legit.git" = Ok ("acme", "legit") /\
  parseOwnerAndRepoFromUrl github_com "https://github.com/acme/tool" = Ok ("acme", "tool").
Proof.
  assert (forall a, "tool" <> a +:+ "git") as Hgit.
  { intros [|? [|? [|? [|? [|? a]]]]] E; discriminate E. }
  split.
  - apply (github_download_url github_com "acme" "legit" ".git"); [reflexivity|by repeat split..|by right; right; left|done].
  - apply (github_download_url github_com "acme" "tool" ""); [reflexivity|by repeat split..|by left|intros _; exact Hgit].
Defined.

(** ** The pages of the repositories *)

(** The pages asked for in a trace, with the answers *)
Definition obs_page (a : act) : option (Z * res GhRepositoryPage) :=
  match act_ev a in Ev X return X -> option (Z * res GhRepositoryPage) with
  | Gh e => match e in GhE X return X -> option (Z * res GhRepositoryPage) with
            | GhRepositoriesList _ _ page => fun r => Some (page, r)
            | _ => fun _ => None
            end
  | _ => fun _ => None
  end (act_res a).
Definition pages_read (tr : list act) : list (Z * res GhRepositoryPage) := omap obs_page tr.
Definition page_repos (r : res GhRepositoryPage) : list GhRepository :=
  match r with Ok p => ghp_Repos p | Err _ => [] end.
Definition listed (tr : list act) : list GhRepository := flat_map (fun x => page_repos x.2) (pages_read tr).

(** The pages are asked for in the order in which the answers name them, from
    [page] on, until an answer names no further page or a page fails. *)
Inductive paged : Z -> list (Z * res GhRepositoryPage) -> option goerr -> Prop :=
| paged_failed page err : paged page [(page, Err err)] (Some err)
| paged_last page p : ghp_NextPage p = 0%Z -> paged page [(page, Ok p)] None
| paged_next page p rest e : ghp_NextPage p <> 0%Z -> paged (ghp_NextPage p) rest e ->
    paged page ((page, Ok p) :: rest) e.
(** [n] answers that all name a further page *)
Inductive endless : nat -> Z -> list (Z * res GhRepositoryPage) -> Prop :=
| endless_0 page : endless 0 page []
| endless_S n page p rest : ghp_NextPage p <> 0%Z -> endless n (ghp_NextPage p) rest ->
    endless (S n) page ((page, Ok p) :: rest).

Lemma add_repositories_app s ks1 ks2 :
  add_repositories s (ks1 ++ ks2) =
  match add_repositories s ks1 with Returns s' => add_repositories s' ks2 | Panics w => Panics w end.
Proof. revert s. induction ks1 as [|k ks1 IH]; intros s; cbn; [done|]. by destruct (add_repository s k). Qed.

(** What a state says of a URL, and which repository says so *)
Definition granted (ks : list GhRepository) (url : string) (rec : RepositoryRecord) : Prop :=
  exists k, In k ks /\ ghr_HTMLURL k = Some url /\ viewer_permission k = Some (ViewerPermission rec).
Definition ungranted (ks : list GhRepository) (url : string) : Prop :=
  forall k, In k ks -> ghr_HTMLURL k = Some url -> viewer_permission k = None.

Lemma add_repositories_spec ks : forall s,
  match add_repositories s ks with
  | Returns s' => forall url,
      match s' !! url with
      | Some rec => s !! url = Some rec \/ granted ks url rec
      | None => s !! url = None /\ ungranted ks url
      end
  | Panics _ => exists k, In k ks /\ ghr_HTMLURL k = None /\ viewer_permission k <> None
  end.
Proof.
  induction ks as [|k ks IH]; intros s; cbn [add_repositories].
  { intros url. destruct (s !! url); [by left|]. split; [done|]. by intros k []. }
  assert (forall url rec, granted ks url rec -> granted (k :: ks) url rec) as Hg.
  { intros url rec (k' & ? & ?). exists k'. split; [by right|done]. }
  assert (forall s1, match add_repositories s1 ks with
    | Returns _ => True
    | Panics _ => exists k', In k' (k :: ks) /\ ghr_HTMLURL k' = None /\ viewer_permission k' <> None end) as Hp.
  { intros s1. specialize (IH s1). destruct (add_repositories s1 ks); [done|].
    destruct IH as (k' & ? & ?). exists k'. split; [by right|done]. }
  unfold add_repository. destruct (viewer_permission k) as [p|] eqn:Ep.
  - destruct (ghr_HTMLURL k) as [u|] eqn:Eu; [|exists k; split; [by left|]; by rewrite Ep].
    specialize (IH (<[u := mkRepositoryRecord p]> s)). specialize (Hp (<[u := mkRepositoryRecord p]> s)).
    destruct (add_repositories _ ks) as [s'|w]; [|done].
    intros url. specialize (IH url). destruct (s' !! url) as [rec|].
    + destruct IH as [H|H]; [|by right; apply Hg].
      destruct (decide (u = url)) as [->|Hne]; [|rewrite lookup_insert_ne in H by done; by left].
      rewrite lookup_insert_eq in H. injection H as <-. right. exists k. split; [by left|done].
    + destruct IH as [H IH]. apply lookup_insert_None in H as [H Hne]. split; [done|].
      intros k' [<-|Hk'] Hu; [congruence|by apply IH].
  - specialize (IH s). specialize (Hp s). destruct (add_repositories s ks) as [s'|w]; [|done].
    intros url. specialize (IH url). destruct (s' !! url) as [rec|].
    + destruct IH as [?|?]; [by left|]. by right; apply Hg.
    + destruct IH as [? IH]. split; [done|]. intros k' [<-|Hk']; [done|by apply IH].
Qed.

Lemma fetch_pages_spec fuel token : forall page s tr r, exec (fetch_pages fuel token page s) tr r ->
  match r with
  | None => endless fuel page (pages_read tr)
  | Some (Returns (Ok s')) => paged page (pages_read tr) None /\ add_repositories s (listed tr) = Returns s'
  | Some (Returns (Err e)) => exists err, e = Errorf_w "failed to list github repositories" err /\
      paged page (pages_read tr) (Some err)
  | Some (Panics w) => add_repositories s (listed tr) = Panics w
  end.
Proof.
  induction fuel as [|fuel IH]; intros page s tr r; cbn [fetch_pages].
  { intros [-> ->]. constructor. }
  unfold call. cbn [bind]. intros (x & tr' & -> & H). unfold listed.
  cbn [pages_read omap list_omap obs_page act_ev act_res flat_map page_repos].
  destruct x as [p|err]; cbn [snd page_repos]; [|destruct H as [-> ->]; eexists; split; [done|constructor]].
  rewrite add_repositories_app. destruct (add_repositories s (ghp_Repos p)) as [s1|w] eqn:Ea; [|by destruct H as [-> ->]].
  destruct (Z.eqb_spec (ghp_NextPage p) 0) as [E|E].
  { destruct H as [-> ->]. split; [by constructor|done]. }
  apply IH in H. fold (pages_read tr') in *. destruct r as [[[s'|e]|w]|]; [|..|by constructor].
  - destruct H as [H1 H2]. split; [by constructor|done].
  - destruct H as (err & H1 & H2). exists err. split; [done|by constructor].
  - done.
Qed.

Lemma fetch_pages_more fuel token more : forall page s tr r, exec (fetch_pages fuel token page s) tr (Some r) ->
  exec (fetch_pages (fuel + more) token page s) tr (Some r).
Proof.
  induction fuel as [|fuel IH]; intros page s tr r; [by intros [_ ?]|].
  change (S fuel + more) with (S (fuel + more)). cbn [fetch_pages].
  unfold call. cbn [bind]. intros (x & tr' & -> & H). exists x, tr'. split; [done|].
  destruct x as [p|err]; [|exact H]. destruct (add_repositories s (ghp_Repos p)); [|exact H].
  destruct (ghp_NextPage p =? 0)%Z; [exact H|by apply IH].
Qed.

Lemma endless_length n page l : endless n page l -> length l = n.
Proof. induction 1; cbn; by f_equal. Qed.

Lemma FetchAll_spec fuel token tr r : token <> "" -> exec (FetchAll fuel token ∅) tr r ->
  match r with
  | None => endless fuel 0 (pages_read tr) /\ length (pages_read tr) = fuel
  | Some (Returns (Ok state)) =>
      paged 0 (pages_read tr) None /\
      (forall url rec, state !! url = Some rec -> granted (listed tr) url rec) /\
      (forall url, state !! url = None -> ungranted (listed tr) url)
  | Some (Returns (Err _)) => exists err, paged 0 (pages_read tr) (Some err)
  | Some (Panics _) => exists k, In k (listed tr) /\ ghr_HTMLURL k = None /\ viewer_permission k <> None
  end.
Proof.
  intros Ht. unfold FetchAll. destruct (String.eqb_spec token ""); [done|]. intros H%fetch_pages_spec.
  pose proof (add_repositories_spec (listed tr) ∅) as Hs. destruct r as [[[state|e]|w]|].
  - destruct H as [H1 H2]. split; [done|]. rewrite H2 in Hs. split.
    + intros url rec E. specialize (Hs url). rewrite E in Hs. by destruct Hs as [Hs|Hs]; [rewrite lookup_empty in Hs|].
    + intros url E. specialize (Hs url). rewrite E in Hs. by destruct Hs.
  - destruct H as (err & _ & H). by exists err.
  - by rewrite H in Hs.
  - split; [done|]. by eapply endless_length.
Qed.

(** C27 The listing of the repositories: the pages are read in the order in
    which the answers name them.  When the listing ends, a repository has a
    record exactly when some page grants a permission on its URL, and the record
    holds a permission that a page grants; a failed page fails the listing; the
    process crashes only on a repository without a URL.  The loop ends as
    soon as an answer names no further page: with fuel for [n] pages it is
    still running only after [n] answers that all name a further page, and
    once it has ended, more fuel changes nothing. *)
Theorem github_paging fuel token tr r :
  token <> "" -> exec (FetchAll fuel token ∅) tr r ->
  match r with
  | None => endless fuel 0 (pages_read tr) /\ length (pages_read tr) = fuel
  | Some (Returns (Ok state)) =>
      paged 0 (pages_read tr) None /\
      (forall url rec, state !! url = Some rec -> granted (listed tr) url rec) /\
      (forall url, state !! url = None -> ungranted (listed tr) url)
  | Some (Returns (Err _)) => exists err, paged 0 (pages_read tr) (Some err)
  | Some (Panics _) => exists k, In k (listed tr) /\ ghr_HTMLURL k = None /\ viewer_permission k <> None
  end /\
  (r <> None -> forall more, exec (FetchAll (fuel + more) token ∅) tr r).
Proof.
  intros Ht H. split; [by apply (FetchAll_spec fuel token)|].
  intros Hr more. destruct r as [r|]; [|done]. revert H. unfold FetchAll.
  destruct (String.eqb_spec token ""); [done|]. by apply fetch_pages_more.
Qed.

(** ** The state in the metadata *)

Definition valid_repository (r : RepositoryRecord) : Prop := to_valid_utf8 (ViewerPermission r) = ViewerPermission r.
Definition valid_state (s : TokenState) : Prop := valid_keys s /\ map_Forall (fun _ => valid_repository) s.
Definition repository_json (r : RepositoryRecord) : json :=
  JObject [("viewerPermission", JString (to_valid_utf8 (ViewerPermission r)))].

Lemma marshal_repository_reads r d : (d + 1 < maxNestingDepth)%N ->
  reads_as (marshal_repository r) (repository_json r) d.
Proof.
  intros Hd. refine (print_object_reads
    [("viewerPermission", json_string (ViewerPermission r), JString (to_valid_utf8 (ViewerPermission r)))] d _ _ _);
    [done|lia|]. repeat constructor. apply json_string_reads.
Qed.

Lemma decode_repository_json r : valid_repository r -> decode_repository (repository_json r) = Ok r.
Proof.
  intros Hr. unfold decode_repository, repository_json. cbn [decode_struct decode_members].
  change (find_by_name repository_fields "viewerPermission") with (Some (nth 0 repository_fields.*2 (fun r _ => Ok r))).
  cbn [nth fmap list_fmap repository_fields snd decode_string rbind]. rewrite Hr. by destruct r.
Qed.

Lemma github_state_read_back s : valid_state s -> unmarshal_state (marshal_state s) = Ok s.
Proof.
  intros [Hk Hr]. assert (parse_json (marshal_state s) = Some (JObject [("AccessibleRepos", map_json repository_json s)])) as E.
  { apply reads_as_parse_json. refine (print_object_reads
      [("AccessibleRepos", marshal_map marshal_repository s, map_json repository_json s)] 0 _ _ _); [done|done|].
    repeat constructor. cbn [fst snd]. apply marshal_map_reads; [done|]. intros k r _. by apply marshal_repository_reads. }
  unfold unmarshal_state, Unmarshal_into. rewrite E. cbn [decode_struct decode_members].
  change (find_by_name state_fields "AccessibleRepos") with (Some (nth 0 state_fields.*2 (fun r _ => Ok r))).
  cbn [nth fmap list_fmap state_fields snd]. rewrite decode_map_json; [done|done|].
  eapply map_Forall_impl; [exact Hr|]. intros k r. apply decode_repository_json.
Qed.

(** Every permission that is recorded enables every scope. *)
Lemma viewer_permission_enables k p : viewer_permission k = Some p ->
  to_valid_utf8 p = p /\ forall scope, Enables p scope = true.
Proof.
  unfold viewer_permission. repeat case_match; intros [= <-]; (split; [reflexivity|intros; reflexivity]).
Qed.

Lemma scopes_match_spec rec tokenScopes required : (forall scope, Enables (ViewerPermission rec) scope = true) ->
  scopes_match rec tokenScopes required = forallb (hasScope tokenScopes) required.
Proof.
  intros He. induction required as [|s l IH]; cbn [scopes_match forallb]; [done|]. rewrite He. by destruct (hasScope tokenScopes s).
Qed.

Lemma doFetch_state fuel token tr md :
  exec (doFetch fuel token true) tr (Some (Returns (Ok (Some md)))) ->
  exists access tr1 tr2 state, tr = tr1 ++ tr2 /\ pages_read tr1 = [] /\
    exec (FetchAll fuel access ∅) tr2 (Some (Returns (Ok state))) /\
    tm_ServiceProviderState md = marshal_state state.
Proof.
  unfold doFetch, call at 1. cbn [bind]. intros (x & tr' & -> & H).
  destruct x as [[data|]|err]; [|by destruct H as [_ [=]]..].
  apply exec_bind in H as (u & tr1 & tr2 & -> & H1 & H). unfold fetchUserAndScopes, call in H1. cbn [bind] in H1.
  destruct H1 as (y & tr3 & -> & H1).
  assert (tr3 = []) as -> by (revert H1; repeat case_match; by intros [-> _]).
  destruct u as [[[[username userId] scopes]|err]|w]; [|by destruct H as [_ [=]]..]. cbn [negb] in H.
  apply exec_bind in H as (s & tr4 & tr5 & -> & H2 & H). destruct s as [[[state|err]|w]|]; [|by destruct H as [_ [=]]..].
  destruct H as [-> [= ->]]. rewrite app_nil_r.
  exists (td_AccessToken data), [Act (Ts (TsGet token)) (Ok (Some data)); Act (Gh (GhUsersGet (td_AccessToken data))) y], tr4, state.
  done.
Qed.

Section exact_match.
Context {X : Externals}.

Lemma fetched_state fuel token tr md :
exec (doFetch fuel token true) tr (Some (Returns (Ok (Some md)))) ->
(forall k url, In k (listed tr) -> ghr_HTMLURL k = Some url -> to_valid_utf8 url = url) ->
exists state, unmarshal_state (tm_ServiceProviderState md) = Ok state /\
(forall url rec, state !! url = Some rec -> granted (listed tr) url rec) /\
(forall url, state !! url = None -> ungranted (listed tr) url).
Proof using.
intros (access & tr1 & tr2 & state & -> & Hp & H & E)%doFetch_state Hv.
assert (listed (tr1 ++ tr2) = listed tr2) as El.
{ unfold listed, pages_read in *. by rewrite omap_app, Hp. }
rewrite El in *. exists state. destruct (decide (access = "")) as [->|Hne]; [by destruct H as [_ [=]]|].
apply FetchAll_spec in H as (_ & Hg & Hu); [|done]. split; [|done]. rewrite E. apply github_state_read_back. split.
- intros url rec (k & Hk & Eu & _)%Hg. by apply (Hv k).
- intros url rec (k & _ & _ & Ep)%Hg. by apply viewer_permission_enables in Ep as [? _].
Qed.
End exact_match.

(** C28 The exact match of a GitHub token: with the metadata fetched for it, a
    token matches a request exactly when the listing of the provider grants a
    permission on the URL of the request and each scope that the request needs is
    implied by a scope of the token.  The state is read back from its JSON form
    on the way. *)
Theorem github_exact_match {X : Externals} fuel token tr md m token' :
  exec (doFetch fuel token true) tr (Some (Returns (Ok (Some md)))) ->
  (forall k url, In k (listed tr) -> ghr_HTMLURL k = Some url -> to_valid_utf8 url = url) ->
  atst_TokenMetadata (at_Status token') = Some md ->
  exists b, tokenFilter_Matches m token' = Ok b /\
  (b = true <->
    (exists rec, granted (listed tr) (m_RepoUrl m) rec) /\
    forall scope, In scope (GetAllScopes translateToScopes (m_Permissions m)) -> hasScope (tm_Scopes md) scope = true).
Proof.
  intros H Hv Hmd. destruct (fetched_state _ _ _ _ H Hv) as (state & E & Hg & Hu).
  unfold tokenFilter_Matches. rewrite Hmd, E. destruct (state !! m_RepoUrl m) as [rec|] eqn:Es.
  - eexists. split; [done|]. pose proof (Hg _ _ Es) as (k & Hk & Ek & Ep).
    unfold permsMatch. rewrite scopes_match_spec by (by apply viewer_permission_enables in Ep as [_ ?]).
    rewrite forallb_forall. split; [intros Hs; split; [exists rec; by apply Hg|done]|by intros [_ Hs]].
  - exists false. split; [done|]. split; [done|]. intros [(rec & k & Hk & Ek & Ep) _].
    by rewrite (Hu _ Es k Hk Ek) in Ep.
Qed.

(** ** Scopes *)

(** The scopes that come in levels *)
Inductive level := LRead | LWrite | LAdmin.
Definition rank (l : level) : nat := match l with LRead => 0 | LWrite => 1 | LAdmin => 2 end.
Definition level_name (l : level) : string := match l with LRead => "read" | LWrite => "write" | LAdmin => "admin" end.
Definition scope_of (l : level) (subject : string) : string := level_name l +:+ ":" +:+ subject.

Lemma cut_scope l subject : cut_char ":" (scope_of l subject) = Some (level_name l, subject).
Proof. by destruct l. Qed.
Lemma scope_of_inj l l' x y : scope_of l x = scope_of l' y -> l = l' /\ x = y.
Proof. intros E. pose proof (cut_scope l x) as H. rewrite E, cut_scope in H. by destruct l, l'; injection H as ->. Qed.

Lemma github_hasScope scopes s : In s scopes -> hasScope scopes s = true.
Proof. intros H. apply existsb_exists. exists s. split; [done|]. unfold Implies. by rewrite String.eqb_refl. Qed.

(** The scopes of GitHub that come in levels: a scope implies another one of
    the same subject exactly when its level is at least as high, and none of
    another subject, as in the order admin, write, read; and a token with the
    scopes that the OAuth flow asks for has every scope that the match asks
    for. *)
Theorem github_scope_levels {X : Externals} :
  (forall l l' x y, Implies (scope_of l x) (scope_of l' y) = String.eqb x y && (rank l' <=? rank l)%nat) /\
  (forall ps, forallb (hasScope (OAuthScopesFor_github ps)) (GetAllScopes translateToScopes ps) = true).
Proof.
  split.
  - intros l l' x y. unfold Implies. destruct (String.eqb_spec (scope_of l x) (scope_of l' y)) as [E|E].
    { apply scope_of_inj in E as [-> ->]. by rewrite String.eqb_refl, Nat.leb_refl. }
    assert (String.eqb (scope_of l x) ScopeRepo = false) as -> by by destruct l.
    assert (String.eqb (scope_of l x) ScopeUser = false) as -> by by destruct l.
    rewrite !cut_scope.
    assert (forall u, u = ScopeUserEmail \/ u = ScopeUserFollow -> String.eqb (scope_of l' y) u = false) as Hu.
    { intros u [-> | ->]; by destruct l'. }
    rewrite !Hu by tauto. destruct (String.eqb_spec x y) as [->|Hxy]; cbn [negb andb].
    + destruct l, l'; try done; by destruct (String.eqb _ ScopeReadUser).
    + by destruct (String.eqb _ ScopeReadUser).
  - intros ps. apply forallb_forall. intros s Hs. by apply github_hasScope.
Qed.

(** ** The access check *)

Definition public_request (url : string) : HttpRequest := mkHttpRequest "GET" url [] "".
Definition not_github (a : act) : Prop :=
  match act_ev a with Gh _ => False | _ => True end.

Section access.
Context {X : Externals}.

(** What a check answers when the repository is not public *)
Definition private_answer (g : Github) (lookupCredentials : Matchable -> prog (res (option Credentials)))
(check : SPIAccessCheck) (tr : list act) (status : SPIAccessCheckStatus) : Prop :=
(acst_Accessible status = false /\ acst_ErrorReason status = SPIAccessCheckErrorBadURL /\ tr = []) \/
exists owner repo credentials tr1 tr2,
parseGithubRepoUrl g (acsp_RepoUrl (ac_Spec check)) = Ok (owner, repo) /\ tr = tr1 ++ tr2 /\
exec (lookupCredentials (Matchable_of_check check)) tr1 credentials /\
match credentials with
| Err _ => acst_Accessible status = false /\ acst_ErrorReason status = SPIAccessCheckErrorTokenLookupFailed /\ tr2 = []
| Ok None => status = initial_status /\ tr2 = []
| Ok (Some c) => exists answer, tr2 = [Act (Gh (GhRepositoriesGet (cred_Token c) owner repo)) answer] /\
    acst_Accessible status = is_ok answer /\
    match answer with
    | Ok repository => acst_ErrorReason status = "" /\
        (acst_Accessibility status = SPIAccessCheckAccessibilityPrivate <-> ghr_Private repository = Some true)
    | Err (_, code) => acst_ErrorReason status =
        if decide (code = Some 404%Z) then SPIAccessCheckErrorRepoNotFound else SPIAccessCheckErrorUnknownError
    end
end.

Lemma github_private_check g lookupCredentials check tr status :
exec (checkPrivateRepoAccess g lookupCredentials check) tr status ->
private_answer g lookupCredentials check tr status.
Proof.
unfold checkPrivateRepoAccess. destruct (parseGithubRepoUrl _ _) as [[owner repo]|err] eqn:Ep.
2: { intros [-> ->]. by left. }
intros (credentials & tr1 & tr2 & -> & Hl & H)%exec_bind. right.
exists owner, repo, credentials, tr1, tr2. do 3 (split; [done|]).
destruct credentials as [[c|]|err]; [|by destruct H as [-> ->]..].
unfold call in H. cbn [bind] in H. destruct H as (a & tr3 & -> & H). exists a.
destruct a as [repository|[err code]].
- destruct H as [-> ->]. split; [done|]. split; [done|]. split; [done|]. cbn.
  destruct (ghr_Private repository) as [[|]|]; done.
- destruct H as [-> ->]. split; [done|]. split; [done|]. destruct (decide (code = Some 404%Z)) as [->|Hne]; [done|].
  destruct code as [z|]; [|done]. cbn. destruct (Z.eqb_spec z 404) as [->|]; [done|].
  revert n Hne. clear. destruct z; try done. repeat (destruct p as [p|p|]; try done).
Qed.
End access.

(** Every run of the check *)
Lemma github_check_exec {X : Externals} g lookupCredentials check tr r :
  exec (CheckRepositoryAccess g lookupCredentials check) tr r ->
  match r with
  | Err _ => tr = [] \/ exists err, tr = [Act (Ht (HttpDo (public_request (acsp_RepoUrl (ac_Spec check))))) (Err err)]
  | Ok status => exists resp rest,
      tr = Act (Ht (HttpDo (public_request (acsp_RepoUrl (ac_Spec check))))) (Ok resp) :: rest /\
      (acst_Accessibility status = SPIAccessCheckAccessibilityPublic <-> hr_StatusCode resp = 200%Z) /\
      if decide (hr_StatusCode resp = 200%Z) then acst_Accessible status = true /\ rest = []
      else private_answer g lookupCredentials check rest status
  end.
Proof.
  unfold CheckRepositoryAccess. intros (public & tr1 & tr2 & -> & Hp & H)%exec_bind.
  unfold checkPublicRepoAccess in Hp. destruct (Parse _); [|destruct Hp as [-> ->]; destruct H as [-> ->]; by left].
  unfold call in Hp. cbn [bind] in Hp. destruct Hp as (x & tr3 & -> & Hp).
  destruct x as [resp|err]; destruct Hp as [-> ->]; [|destruct H as [-> ->]; right; by exists err].
  destruct (Z.eqb_spec (hr_StatusCode resp) 200) as [E|E].
  - destruct H as [-> ->]. exists resp, []. split; [done|]. by rewrite decide_True.
  - apply exec_bind in H as (status & tr4 & tr5 & -> & H1 & [-> ->]). rewrite app_nil_r.
    exists resp, tr4. split; [done|]. rewrite decide_False by done. split; [|by apply github_private_check].
    split; [|done]. intros Hs. exfalso. revert H1 Hs. clear.
    unfold checkPrivateRepoAccess. destruct (parseGithubRepoUrl _ _) as [[owner repo]|err]; [|by intros [_ ->]].
    intros (credentials & tr1 & tr2 & -> & Hl & H)%exec_bind. destruct credentials as [[c|]|err]; [|by destruct H as [_ ->]..].
    unfold call in H. cbn [bind] in H. destruct H as ([repository|[err code]] & tr3 & _ & [_ ->]); [|done].
    cbn. by destruct (default false _).
Qed.

(** Access checks of GitHub: the repository is first asked for without any
    credentials, and access is reported as public exactly when that is answered
    with 200.  Otherwise the credentials of a matching token, and no others, are
    used for one call of the API, and access is reported exactly when it
    succeeds; the reason of a denied access tells a bad URL, a failed lookup,
    a missing repository and other failures apart. *)
Theorem github_access_check {X : Externals} g lookupCredentials check tr r :
  exec (CheckRepositoryAccess g lookupCredentials check) tr r ->
  match r with
  | Err _ => tr = [] \/ exists err, tr = [Act (Ht (HttpDo (public_request (acsp_RepoUrl (ac_Spec check))))) (Err err)]
  | Ok status => exists resp rest,
      tr = Act (Ht (HttpDo (public_request (acsp_RepoUrl (ac_Spec check))))) (Ok resp) :: rest /\
      (acst_Accessibility status = SPIAccessCheckAccessibilityPublic <-> hr_StatusCode resp = 200%Z) /\
      if decide (hr_StatusCode resp = 200%Z) then acst_Accessible status = true /\ rest = []
      else private_answer g lookupCredentials check rest status
  end.
Proof. apply github_check_exec. Qed.

(** ** Witnesses *)

Definition sample_user_response : GhUserResponse := mkGhUserResponse (mkGhUser (Some 42%Z) (Some "alois")) 200 "repo, read:user".
Definition sample_repository (url permission : string) : GhRepository :=
  mkGhRepository (Some url) (Some true) {[ permission := true ]}.
(** Two pages of repositories *)
Definition sample_page (page : Z) : GhRepositoryPage :=
  if (page =? 0)%Z then mkGhRepositoryPage [sample_repository "https://github.com/acme/tool" "push"] 2
  else mkGhRepositoryPage [sample_repository "https://github.com/acme/site" "pull"] 0.
Definition sample_github : forall X, GhE X -> X := fun X e =>
  match e in GhE X return X with
  | GhUsersGet _ => Ok sample_user_response
  | GhRepositoriesGet _ _ _ => Ok (sample_repository "https://github.com/acme/tool" "push")
  | GhRepositoriesList _ _ page => Ok (sample_page page)
  | GhGetContents _ _ _ _ _ => Ok (mkGhContents (Some (mkGhFile (Some (4096, 5)%Z) (Ok "hello"))) None)
  end.
Definition github_network : network :=
  mkNetwork (fun _ => Ok (mkHttpResponse 404 (Ok ""))) sample_github (fun X e => gl_answer e).
Definition github_data : option Token := Some (mkToken "alois" "access" "" "" 0).
Definition github_script : script :=
  mkScript (Err not_found) (Err not_found) (Err not_found) (Err not_found) (Err not_found)
    (Err not_found) (Err not_found) (Err not_found) [] [] [] [] None None None
    (Ok sample_sp) (Ok []) (Ok []) None (Ok github_data) (Ok None) (Ok None) (Ok "")
    (Ok (mkDependents (sample_secret "dep" ∅ ∅) [])) None 0.

Definition listing (fuel : nat) := FetchAll fuel "access" ∅.
Example pages_in_order :
  map fst (pages_read (net_trace github_network github_script (listing 5))) = [0; 2]%Z /\
  match net_result github_network github_script (listing 5) with
  | Some (Returns (Ok s)) => map (fun e => (e.1, ViewerPermission e.2)) (sorted_entries s)
  | _ => []
  end = [("https://github.com/acme/site", "READ"); ("https://github.com/acme/tool", "WRITE")].
Proof. vm_compute. done. Qed.

Lemma github_paging_witness :
  (net_result github_network github_script (listing 1) = None /\
   endless 1 0 (pages_read (net_trace github_network github_script (listing 1)))) /\
  exec (listing 9) (net_trace github_network github_script (listing 2)) (net_result github_network github_script (listing 2)).
Proof.
  assert ("access" <> "") as Ht by discriminate.
  destruct (github_paging 1 "access" _ _ Ht (net_exec github_network github_script (listing 1))) as [H1 _].
  assert (net_result github_network github_script (listing 1) = None) as E1 by (vm_compute; reflexivity).
  split; [split; [exact E1|]|].
  - change (FetchAll 1 "access" ∅) with (listing 1) in H1. rewrite E1 in H1. exact (proj1 H1).
  - apply (github_paging 2 "access" _ _ Ht (net_exec github_network github_script (listing 2))).
    assert (bool_decide (is_Some (net_result github_network github_script (listing 2))) = true) as E by (vm_compute; reflexivity).
    apply bool_decide_eq_true in E. intros E'. rewrite E' in E. by destruct E.
Defined.

Definition github_token (md : TokenMetadata) : SPIAccessToken := sample_token "t" "Ready" (Some md).
Definition fetch_github := doFetch 5 (sample_token "t" "Ready" None) true.
Definition fetched_github : TokenMetadata :=
  match net_result github_network github_script fetch_github with
  | Some (Returns (Ok (Some md))) => md
  | _ => sample_metadata
  end.
Definition write_permissions : Permissions := mkPermissions [mkPermission "rw" PermissionAreaRepository] [].

Lemma github_exact_match_witness :
  exists b, tokenFilter_Matches (mkMatchable "https://github.com/acme/tool" "ns" write_permissions) (github_token fetched_github) = Ok b
    /\ b = true.
Proof.
  pose proof (net_exec github_network github_script fetch_github) as H.
  assert (net_result github_network github_script fetch_github = Some (Returns (Ok (Some fetched_github)))) as E
    by (vm_compute; reflexivity).
  rewrite E in H.
  destruct (github_exact_match 5 _ _ fetched_github (mkMatchable "https://github.com/acme/tool" "ns" write_permissions)
    (github_token fetched_github) H) as (b & Hb & Hiff).
  - intros k url Hk Hu. vm_compute in Hk. destruct Hk as [<-|[<-|[]]]; injection Hu as <-; reflexivity.
  - reflexivity.
  - exists b. split; [exact Hb|]. apply Hiff. split.
    + exists (mkRepositoryRecord "WRITE"), (sample_repository "https://github.com/acme/tool" "push").
      assert (listed (net_trace github_network github_script fetch_github) =
        [sample_repository "https://github.com/acme/tool" "push"; sample_repository "https://github.com/acme/site" "pull"])
        as -> by (vm_compute; reflexivity).
      split; [left; reflexivity|]. split; vm_compute; reflexivity.
    + apply List.forallb_forall. vm_compute. reflexivity.
Defined.

Definition github_check : SPIAccessCheck :=
  mkCheck (sample_meta "check") (mkCheckSpec "https://github.com/acme/tool" write_permissions)
    (mkCheckStatus false "" "" "" "" "").
Definition sample_g : Github :=
  mkGithub (mkGenericLookup "GitHub" (fun _ t => Ret (Returns (t, Ok true))) None (fun _ _ => Ret (Ok None))
    (NewCacheWithExpirationPolicy sample_config (TtlMetadataExpirationPolicy 0)) RepoUrlFromString)
    REps None "https://github.com".
Definition sample_credentials : Matchable -> prog (res (option Credentials)) :=
  fun _ => Ret (Ok (Some (mkCredentials "alois" "access"))).
Definition checked := CheckRepositoryAccess sample_g sample_credentials github_check.
Definition private_status : SPIAccessCheckStatus :=
  mkCheckStatus true SPIAccessCheckAccessibilityPrivate SPIRepoTypeGit "GitHub" "" "".

Lemma github_access_check_witness :
  net_result github_network github_script checked = Ok private_status /\
  exists resp rest,
    net_trace github_network github_script checked =
      Act (Ht (HttpDo (public_request "https://github.com/acme/tool"))) (Ok resp) :: rest /\
    private_answer sample_g sample_credentials github_check rest private_status.
Proof.
  assert (net_result github_network github_script checked = Ok private_status) as E by (vm_compute; reflexivity).
  split; [exact E|]. pose proof (net_exec github_network github_script checked) as H. rewrite E in H.
  destruct (github_access_check _ _ _ _ _ H) as (resp & rest & Et & Hpub & Hp).
  exists resp, rest. split; [exact Et|]. destruct (decide (hr_StatusCode resp = 200%Z)) as [E200|]; [|exact Hp].
  apply Hpub in E200. vm_compute in E200. discriminate E200.
Defined.
