(* ===== verification/GitLab.v ===== *)
(** * pkg/serviceprovider/gitlab

    state.go, gitlabclientbuilder.go, repourlmatcher.go, metadataprovider.go,
    tokenfilter.go, downloadfilecapability.go, refreshtokencapability.go and
    gitlab.go.  The scopes of a token are asked for twice: of the OAuth API and,
    when that does not know the token, of the API for personal access tokens.
    The package has no state of its own: a token matches by its scopes alone. *)

From Stdlib Require Import Relations.
From S2P Require Import Prelude GoStd GoUrl GoBase64 GoJson GoUnmarshal GoRegexp Api Externals SpErrors Effects.
From S2P Require Import Samples SpConfig Lookup AccessTokenMapper.
Local Open Scope string_scope.
Local Open Scope list_scope.
Local Open Scope spi_scope.

(** ** state.go *)

Definition ScopeApi : string := "api".
Definition ScopeReadApi : string := "read_api".
Definition ScopeReadUser : string := "read_user".
Definition ScopeReadRepository : string := "read_repository".
Definition ScopeWriteRepository : string := "write_repository".
Definition ScopeReadRegistry : string := "read_registry".
Definition ScopeWriteRegistry : string := "write_registry".
Definition valid_scopes : list string :=
  [ScopeApi; ScopeReadApi; ScopeReadUser; ScopeReadRepository; ScopeWriteRepository; ScopeReadRegistry;
   ScopeWriteRegistry; "sudo"; "openid"; "profile"; "email"].
Definition IsValidScope (scope : string) : bool := one_of scope valid_scopes.

Definition Implies (s other : string) : bool :=
  if String.eqb s other then true
  else if String.eqb s ScopeApi then
    one_of other [ScopeReadApi; ScopeReadUser; ScopeReadRepository; ScopeWriteRepository; ScopeReadRegistry;
                  ScopeWriteRegistry]
  else if String.eqb s ScopeReadApi then one_of other [ScopeReadUser; ScopeReadRepository; ScopeReadRegistry]
  else if String.eqb s ScopeWriteRepository then String.eqb other ScopeReadRepository
  else if String.eqb s ScopeWriteRegistry then String.eqb other ScopeReadRegistry
  else false.

(** [TokenState] has no fields yet. *)
Definition marshal_state : string := print_object [].

(** ** gitlabclientbuilder.go *)

Definition CreateAuthenticatedClient (gitlabBaseUrl : string) (credentials : Credentials) : prog (res GlClient) :=
  let cl := if String.eqb (cred_Username credentials) "" then NewClient (cred_Token credentials) gitlabBaseUrl
            else NewBasicAuthClient (cred_Username credentials) (cred_Token credentials) gitlabBaseUrl in
  let! err := call (Gl (GlNewClient cl)) in
  Ret match err with
      | Some err => Err (Errorf_w "failed to created new authenticated GitLab client" err)
      | None => Ok cl
      end.

(** ** repourlmatcher.go *)

Definition unexpectedRepoUrlError : string := "repoUrl has unexpected format".

(** (?Um)^BASE/(?P<owner>[^/]+)/(?P<project>[^.]+[^/])(.git){0,1}(/){0,1}$ *)
Definition dot : rune := byte_rune ".".
Definition git_suffix : regex := RCat RAny (RLits (runes "git") REps).
Definition project_tail : regex := RCat (ROpt git_suffix) (RCat (ROpt (RLit slash)) REol).
Definition repoUrlRegexp (baseUrl : string) : regex :=
  RCat RBol (RLits (runes baseUrl) (RCat (RLit slash) (RCat (RCap "owner" (RPlus slash)) (RCat (RLit slash)
    (RCat (RCap "project" (RCat (RPlus dot) (RNot slash))) project_tail))))).

Record gitlabRepoUrlMatcher := mkMatcher { gm_regexp : regex; gm_baseUrl : string }.

(** The compilation fails only on a base URL that is not valid UTF-8. *)
Definition newRepoUrlMatcher (baseUrl : string) : res gitlabRepoUrlMatcher :=
  if valid_utf8 baseUrl then Ok (mkMatcher (repoUrlRegexp baseUrl) baseUrl)
  else Err (Errorf_w ("compliling repoUrl matching regexp for GitLab baseUrl " +:+ baseUrl +:+ " failed with error")
              (ExtError "error parsing regexp: invalid UTF-8" [])).

Definition parseOwnerAndProjectFromUrl (r : gitlabRepoUrlMatcher) (repoUrl : string) : res (string * string) :=
  match find (gm_regexp r) repoUrl with
  | None => Err (Errorf_w ("failed to match GitLab repository with baseUrl " +:+ gm_baseUrl r) (ErrorString unexpectedRepoUrlError))
  | Some matches => Ok (group "owner" matches, group "project" matches)
  end.

(** ** metadataprovider.go *)

Definition gitlabOAuthTokenInfoPath : string := "oauth/token/info".
Definition gitlabPatInfoPath : string := "personal_access_tokens/self".
Definition gitlabNonOkError : string := "GitLab responded with non-ok status code".

Definition fetchUser (gitlabClient : GlClient) : prog (res (string * string)) :=
  let! r := call (Gl (GlCurrentUser gitlabClient)) in
  Ret match r with
      | Err err => Err (Errorf_w "failed to fetch user metadata from GitLab" err)
      | Ok usr =>
          if negb (glu_StatusCode usr =? 200)%Z then
            Err (Errorf_w ("failed to fetch user metadata due to " +:+ FormatInt (glu_StatusCode usr) +:+ " status code")
                   (ErrorString gitlabNonOkError))
          else Ok (glu_Username usr, FormatInt (glu_ID usr))
      end.

(** [None] is the nil slice: the caller goes on with the other API. *)
Definition fetchOAuthScopes (baseUrl : string) (gitlabClient : GlClient) : prog (res (option (list string))) :=
  let url := baseUrl +:+ "/" +:+ gitlabOAuthTokenInfoPath in
  let! err := call (Gl (RetryableRequest "GET" url)) in
  match err with
  | Some err => Ret (Err (Errorf_w "failed to construct request to fetch oauth token scopes" err))
  | None =>
      let! r := call (Gl (GlDo gitlabClient "GET" url "scope")) in
      Ret match r with
          | Err (err, code) =>
              if decide (code = Some 401%Z) then Ok None
              else Err (Errorf_w "failed to fetch oauth token scopes" err)
          | Ok response =>
              if negb (gls_StatusCode response =? 200)%Z then
                Err (Errorf_w ("failed to fetch oauth token scopes due to " +:+ FormatInt (gls_StatusCode response)
                       +:+ " status code") (ErrorString gitlabNonOkError))
              else Ok (gls_Scopes response)
          end
  end.

Definition fetchPATScopes (gitlabClient : GlClient) : prog (res (option (list string))) :=
  let! err := call (Gl (GlNewRequest gitlabClient "GET" gitlabPatInfoPath)) in
  match err with
  | Some err => Ret (Err (Errorf_w "failed to construct request to fetch PAT token scopes" err))
  | None =>
      let! r := call (Gl (GlDo gitlabClient "GET" gitlabPatInfoPath "scopes")) in
      Ret match r with
          | Err (err, code) =>
              if decide (code = Some 404%Z) then Ok (Some [])
              else Err (Errorf_w "failed to fetch PAT token scopes" err)
          | Ok response => Ok (gls_Scopes response)
          end
  end.

Definition fetchScopes (baseUrl : string) (gitlabClient : GlClient) : prog (res (option (list string))) :=
  try (fetchOAuthScopes baseUrl gitlabClient) (fun scopes =>
    match scopes with
    | Some _ => Ret (Ok scopes)
    | None => fetchPATScopes gitlabClient
    end).

(** [doFetch]; a nil slice of scopes is an empty one for every reader of the
    metadata. *)
Definition doFetch (baseUrl : string) (token : SPIAccessToken) (includeState : bool)
  : prog (res (option TokenMetadata)) :=
  let! data := call (Ts (TsGet token)) in
  match data with
  | Err err => Ret (Err (Errorf_w "failed to get the token metadata" err))
  | Ok None => Ret (Ok None)
  | Ok (Some data) =>
      try (CreateAuthenticatedClient baseUrl (mkCredentials (td_Username data) (td_AccessToken data))) (fun glClient =>
      try (fetchUser glClient) (fun '(username, userId) =>
      try (fetchScopes baseUrl glClient) (fun scopes =>
        let state := if includeState then marshal_state else "" in
        Ret (Ok (Some (mkTokenMetadata username userId (default [] scopes) state 0))))))
  end.

(** ** tokenfilter.go and the scopes of permissions (gitlab.go) *)

Definition translateToGitlabScopes (permission : Permission) : list string :=
  let area := perm_Area permission in
  if one_of area [PermissionAreaRepository; PermissionAreaRepositoryMetadata] then
    if IsWrite (perm_Type permission) then [ScopeWriteRepository] else [ScopeReadRepository]
  else if String.eqb area PermissionAreaRegistry then
    if IsWrite (perm_Type permission) then [ScopeWriteRegistry] else [ScopeReadRegistry]
  else if String.eqb area PermissionAreaUser then [ScopeReadUser]
  else [].

Definition hasScope (tokenScopes : list string) (scope : string) : bool :=
  existsb (fun s => Implies s scope) tokenScopes.

Section filter.
Context {X : Externals}.

Definition tokenFilter_Matches (m : Matchable) (token : SPIAccessToken) : bool :=
match atst_TokenMetadata (at_Status token) with
| None => false
| Some metadata => forallb (hasScope (tm_Scopes metadata)) (GetAllScopes translateToGitlabScopes (m_Permissions m))
end.
Definition Matches : TokenFilter := fun m token => Ret (Returns (token, Ok (tokenFilter_Matches m token))).

Definition add_scope (scope : string) (scopes : list string) : list string :=
if existsb (String.eqb scope) scopes then scopes else scopes ++ [scope].
(** [gitlabOAuthCapability.OAuthScopesFor] *)
Definition OAuthScopesFor_gitlab (permissions : Permissions) : list string :=
add_scope ScopeReadApi (add_scope ScopeReadUser (GetAllScopes translateToGitlabScopes permissions)).
End filter.

(** ** downloadfilecapability.go *)

Definition fileSizeLimitExceededError : string := "failed to retrieve file: size too big".
Definition unexpectedStatusCodeError : string := "unexpected status code from GitLab API".

Record downloadFileCapability := mkDownload { dl_baseUrl : string; dl_repoMatcher : gitlabRepoUrlMatcher }.
Definition NewDownloadFileCapability (baseUrl : string) (repoMatcher : gitlabRepoUrlMatcher) : downloadFileCapability :=
  mkDownload baseUrl repoMatcher.

(** On an error the status of the response is read, whether there is a response
    or not. *)
Definition DownloadFile (f : downloadFileCapability) (request : SPIFileContentRequestSpec) (credentials : Credentials)
  (maxFileSizeLimit : Z) : prog (go (res string)) :=
  match parseOwnerAndProjectFromUrl (dl_repoMatcher f) (fsp_RepoUrl request) with
  | Err err => Ret (Returns (Err err))
  | Ok (owner, project) =>
      let! glClient := CreateAuthenticatedClient (dl_baseUrl f) credentials in
      match glClient with
      | Err err => Ret (Returns (Err (Errorf_w "failed to create authenticated GitLab client" err)))
      | Ok glClient =>
          let ref := if negb (String.eqb (fsp_Ref request) "") then fsp_Ref request else "HEAD" in
          let filePath := TrimPrefix (fsp_FilePath request) "/" in
          let! r := call (Gl (GlGetFile glClient (owner +:+ "/" +:+ project) filePath ref)) in
          Ret match r with
              | Err (_, Some code) => Returns (Err (Wrapf unexpectedStatusCodeError (": " +:+ FormatInt code)))
              | Err (_, None) => Panics "resp.StatusCode"
              | Ok file =>
                  if (maxFileSizeLimit <? glf_Size file)%Z then
                    Returns (Err (Wrapf fileSizeLimitExceededError (": (" +:+ FormatInt (glf_Size file) +:+ ")")))
                  else
                    match DecodeString StdEncoding (glf_Content file) with
                    | Err err => Returns (Err (Errorf_w "unable to decode content" err))
                    | Ok decoded => Returns (Ok decoded)
                    end
              end
      end
  end.

(** ** refreshtokencapability.go *)

Definition nonOkResponseError : goerr := ErrorString "GitLab responded with non-ok status".

(** [url.Values.Encode], for one value per key *)
Definition Encode (v : gmap string string) : string :=
  Join (map (fun e => QueryEscape e.1 +:+ "=" +:+ QueryEscape e.2) (sorted_entries v)) "&".

Record refreshResponse := mkRefreshResponse {
  rr_AccessToken : string; rr_TokenType : string; rr_Expiry : Z; rr_RefreshToken : string; rr_Scope : string;
  rr_CreationTime : Z }.
Definition refresh_fields : list (string * (refreshResponse -> json -> res refreshResponse)) :=
  [("access_token", fun r v => let? x := decode_string (rr_AccessToken r) v in
      Ok (mkRefreshResponse x (rr_TokenType r) (rr_Expiry r) (rr_RefreshToken r) (rr_Scope r) (rr_CreationTime r)));
   ("token_type", fun r v => let? x := decode_string (rr_TokenType r) v in
      Ok (mkRefreshResponse (rr_AccessToken r) x (rr_Expiry r) (rr_RefreshToken r) (rr_Scope r) (rr_CreationTime r)));
   ("expires_in", fun r v => let? x := decode_uint64 (rr_Expiry r) v in
      Ok (mkRefreshResponse (rr_AccessToken r) (rr_TokenType r) x (rr_RefreshToken r) (rr_Scope r) (rr_CreationTime r)));
   ("refresh_token", fun r v => let? x := decode_string (rr_RefreshToken r) v in
      Ok (mkRefreshResponse (rr_AccessToken r) (rr_TokenType r) (rr_Expiry r) x (rr_Scope r) (rr_CreationTime r)));
   ("scope", fun r v => let? x := decode_string (rr_Scope r) v in
      Ok (mkRefreshResponse (rr_AccessToken r) (rr_TokenType r) (rr_Expiry r) (rr_RefreshToken r) x (rr_CreationTime r)));
   ("created_at", fun r v => let? x := decode_uint64 (rr_CreationTime r) v in
      Ok (mkRefreshResponse (rr_AccessToken r) (rr_TokenType r) (rr_Expiry r) (rr_RefreshToken r) (rr_Scope r) x))].
Definition unmarshal_refresh : string -> res refreshResponse :=
  Unmarshal_into (decode_struct refresh_fields) (mkRefreshResponse "" "" 0 "" "" 0).

Record refreshTokenCapability := mkRefresh { rc_gitlabBaseUrl : string; rc_oauthServiceBaseUrl : string }.

Definition refresh_values (r : refreshTokenCapability) (token : Token) (config : OAuth2Config) : gmap string string :=
  <["redirect_uri" := rc_oauthServiceBaseUrl r +:+ CallBackRoutePath]>
  (<["grant_type" := "refresh_token"]>
  (<["refresh_token" := td_RefreshToken token]>
  (<["client_secret" := oc_ClientSecret config]>
  (<["client_id" := oc_ClientID config]> ∅)))).
Definition refresh_url (r : refreshTokenCapability) (token : Token) (config : OAuth2Config) : string :=
  rc_gitlabBaseUrl r +:+ "/oauth/token?" +:+ Encode (refresh_values r token config).

(** The token is read without a test for nil. *)
Definition RefreshToken (r : refreshTokenCapability) (token : option Token) (config : OAuth2Config)
  : prog (go (res Token)) :=
  match token with
  | None => Ret (Panics "token.RefreshToken")
  | Some token =>
      let requestUrl := refresh_url r token config in
      match Parse requestUrl with
      | Err err => Ret (Returns (Err (Errorf_w "failed to create a request to refresh a token" err)))
      | Ok _ =>
          let! resp := call (Ht (HttpDo (mkHttpRequest "POST" requestUrl [("content-type", "application/json")] ""))) in
          match resp with
          | Err err => Ret (Returns (Err (Errorf_w "failed to request a refresh token" err)))
          | Ok resp =>
              if negb (hr_StatusCode resp =? 200)%Z then Ret (Returns (Err nonOkResponseError))
              else
                match hr_Body resp with
                | Err err => Ret (Returns (Err (Errorf_w "failed to read body of refresh token response" err)))
                | Ok body =>
                    match unmarshal_refresh body with
                    | Err err => Ret (Returns (Err (Errorf_w "failed to unmarshal the refresh token response" err)))
                    | Ok x =>
                        Ret (Returns (Ok (mkToken "" (rr_AccessToken x) (rr_TokenType x) (rr_RefreshToken x) (rr_Expiry x))))
                    end
                end
          end
      end
  end.

(** ** gitlab.go *)

Definition unsupportedScopeError : string := "unsupported scope for GitLab".
Definition unsupportedAreaError : string := "unsupported permission area for GitLab".
Definition unsupportedUserWritePermissionError : goerr := ErrorString "user write permission is not supported by GitLab".
Definition probeNotImplementedError : goerr := ErrorString "gitLab probe not implemented".

Record Gitlab := mkGitlab {
  g_lookup : GenericLookup; g_baseUrl : string; g_downloadFileCapability : downloadFileCapability;
  g_refreshTokenCapability : refreshTokenCapability; g_oauthCapability : option OAuthCapability;
  g_repoUrlMatcher : gitlabRepoUrlMatcher }.

Section provider.
Context {X : Externals}.

Definition newGitlab (cfg : OperatorConfiguration) (spConfig : option ServiceProviderConfiguration) : go (res Gitlab) :=
match spConfig with
| None => Panics "spConfig"
| Some c =>
    let oauthCapability :=
      match spc_OAuth2Config c with
      | Some _ => Some (mkOAuthCapability (DefaultOAuthEndpoint (sc_BaseUrl (opc_Shared cfg))) OAuthScopesFor_gitlab)
      | None => None
      end in
    match newRepoUrlMatcher (spc_BaseUrl c) with
    | Err err => Returns (Err err)
    | Ok repoUrlMatcher =>
        Returns (Ok (mkGitlab
          (mkGenericLookup "GitLab" (NewFilter (opc_TokenMatchPolicy cfg) Matches)
             (Some DefaultRemoteSecretFilterFunc) (doFetch (spc_BaseUrl c))
             (NewCacheWithExpirationPolicy cfg NeverMetadataExpirationPolicy)
             RepoUrlFromSchemalessString)
          (spc_BaseUrl c) (NewDownloadFileCapability (spc_BaseUrl c) repoUrlMatcher)
          (mkRefresh (spc_BaseUrl c) (sc_BaseUrl (opc_Shared cfg))) oauthCapability repoUrlMatcher))
    end
end.

(** The getters *)
Definition gitlab_provider (g : Gitlab) : ServiceProvider :=
mkSP (g_baseUrl g) ServiceProviderTypeGitLab (g_oauthCapability g) true true.

Definition LookupTokens (lookup : res (list SPIAccessToken)) : res (list SPIAccessToken) :=
map_err (Errorf_w "gitlab token lookup failure") lookup.
Definition LookupCredentials (lookup : res (option Credentials)) : res (option Credentials) :=
map_err (Errorf_w "gitlab credentials lookup failure") lookup.
Definition PersistMetadata (g : Gitlab) (token : SPIAccessToken) : prog (SPIAccessToken * option goerr) :=
let! (token, err) := PersistMetadata_generic (g_lookup g) token in
Ret (token, option_map (Errorf_w "failed to persist gitlab metadata") err).

Definition initial_status : SPIAccessCheckStatus :=
mkCheckStatus false SPIAccessCheckAccessibilityUnknown SPIRepoTypeGit "GitLab" "" "".
Definition preserveError (reason : string) (err : goerr) : SPIAccessCheckStatus :=
set_acst_ErrorMessage (Error err) (set_acst_ErrorReason reason initial_status).

Definition checkPublicRepoAccess (accessCheck : SPIAccessCheck) : prog (res bool) :=
let repoUrl := acsp_RepoUrl (ac_Spec accessCheck) in
match Parse repoUrl with
| Err err => Ret (Err (Errorf_w ("error while constructing HTTP request for access check to " +:+ repoUrl) err))
| Ok _ =>
    let! resp := call (Ht (HttpDo (mkHttpRequest "GET" repoUrl [] ""))) in
    Ret match resp with
        | Err err => Err (Errorf_w ("error performing HTTP request for access check to " +:+ repoUrl) err)
        | Ok resp => Ok (hr_StatusCode resp =? 200)%Z
        end
end.

(** The answer for a project that could be read *)
Definition granted_status (project : GlProject) : SPIAccessCheckStatus :=
mkCheckStatus true
  (if one_of (glp_Visibility project) ["private"; "internal"] then SPIAccessCheckAccessibilityPrivate
   else SPIAccessCheckAccessibilityUnknown) SPIRepoTypeGit "GitLab" "" "".

(** [lookupCredentials] is [g.lookup.LookupCredentials], run to its end. *)
Definition checkPrivateRepoAccess (g : Gitlab) (lookupCredentials : Matchable -> prog (res (option Credentials)))
(accessCheck : SPIAccessCheck) : prog SPIAccessCheckStatus :=
match parseOwnerAndProjectFromUrl (g_repoUrlMatcher g) (acsp_RepoUrl (ac_Spec accessCheck)) with
| Err err => Ret (preserveError SPIAccessCheckErrorBadURL err)
| Ok (owner, name) =>
    let! credentials := lookupCredentials (Matchable_of_check accessCheck) in
    match credentials with
    | Err err => Ret (preserveError SPIAccessCheckErrorTokenLookupFailed err)
    | Ok None => Ret initial_status
    | Ok (Some credentials) =>
        let! gitlabClient := CreateAuthenticatedClient (g_baseUrl g) credentials in
        match gitlabClient with
        | Err err => Ret (preserveError SPIAccessCheckErrorUnknownError err)
        | Ok gitlabClient =>
            let! r := call (Gl (GlGetProject gitlabClient (owner +:+ "/" +:+ name))) in
            Ret match r with
                | Err (err, code) =>
                    if decide (code = Some 404%Z) then preserveError SPIAccessCheckErrorRepoNotFound err
                    else preserveError SPIAccessCheckErrorUnknownError err
                | Ok project =>
                    match glp_StatusCode project with
                    | Some code =>
                        if negb (code =? 200)%Z then
                          preserveError SPIAccessCheckErrorUnknownError
                            (Wrapf unexpectedStatusCodeError (": " +:+ FormatInt code))
                        else granted_status project
                    | None => granted_status project
                    end
                end
        end
    end
end.

Definition CheckRepositoryAccess (g : Gitlab) (lookupCredentials : Matchable -> prog (res (option Credentials)))
(accessCheck : SPIAccessCheck) : prog (res SPIAccessCheckStatus) :=
let! publicRepo := checkPublicRepoAccess accessCheck in
match publicRepo with
| Err err => Ret (Err err)
| Ok true => Ret (Ok (mkCheckStatus true SPIAccessCheckAccessibilityPublic SPIRepoTypeGit "GitLab" "" ""))
| Ok false =>
    let! status := checkPrivateRepoAccess g lookupCredentials accessCheck in
    Ret (Ok status)
end.

Definition MapToken (token : SPIAccessToken) (tokenData : Token) : AccessTokenMapper :=
DefaultMapToken token tokenData.

Definition validate_area (p : Permission) : list goerr :=
if one_of (perm_Area p) [PermissionAreaRepository; PermissionAreaRepositoryMetadata; PermissionAreaRegistry] then []
else if String.eqb (perm_Area p) PermissionAreaUser then
  if IsWrite (perm_Type p) then [unsupportedUserWritePermissionError] else []
else [Wrapf unsupportedAreaError (": '" +:+ perm_Area p +:+ "'")].
Definition validate_scope (s : string) : list goerr :=
if negb (IsValidScope s) then [Wrapf unsupportedScopeError (": '" +:+ s +:+ "'")] else [].
Definition Validate (ps : Permissions) : list goerr :=
flat_map validate_area (perms_Required ps) ++ flat_map validate_scope (perms_AdditionalScopes ps).

(** [gitlabProbe.Examine] *)
Definition Examine (url : string) : res string := Err probeNotImplementedError.
End provider.

(** ** The URLs of projects *)

Definition gitlab_com : string := "https://gitlab.com".
Definition parse_gitlab (url : string) : option (string * string) :=
  match newRepoUrlMatcher gitlab_com with
  | Ok r => match parseOwnerAndProjectFromUrl r url with Ok p => Some p | Err _ => None end
  | Err _ => None
  end.
Example project_1 : parse_gitlab "https://gitlab.com/foo-user/foo-repo.git" = Some ("foo-user", "foo-repo").
Proof. vm_compute. reflexivity. Qed.
Example project_2 : parse_gitlab "https://gitlab.com/group/sub/project.git/" = Some ("group", "sub/project").
Proof. vm_compute. reflexivity. Qed.
(** A project with a dot in its name is refused; one whose name ends in "git"
    loses four characters. *)
Example project_3 : parse_gitlab "https://gitlab.com/foo-user/foo.github.io" = None.
Proof. vm_compute. reflexivity. Qed.
Example project_4 : parse_gitlab "https://gitlab.com/foo-user/my-legit/" = Some ("foo-user", "my-l").
Proof. vm_compute. reflexivity. Qed.

Definition no_newline (rs : list rune) : Prop := Forall (fun r => String.eqb r newline = false) rs.

(** What is left of a URL after the project *)
Definition at_end (rest : list rune) : bool :=
  match rest with [] => true | [r] => String.eqb r slash | _ => false end.
Definition is_tail (rest : list rune) : bool :=
  at_end rest ||
  match rest with
  | _ :: g :: i :: t :: rest =>
      String.eqb g (byte_rune "g") && String.eqb i (byte_rune "i") && String.eqb t (byte_rune "t") && at_end rest
  | _ => false
  end.

Lemma slash_end prev rest cs : no_newline rest ->
  rmatch (RCat (ROpt (RLit slash)) REol) accept prev rest cs = if at_end rest then Some cs else None.
Proof.
  intros Hn. cbn [rmatch]. destruct rest as [|r rest]; [done|]. cbn [at_eol]. rewrite (List.Forall_inv Hn).
  unfold slash. rewrite one_lit by done. cbn [at_end]. destruct (String.eqb_spec r (byte_rune ch_slash)) as [->|Hr].
  - destruct rest as [|r' rest]; [done|]. cbn [at_eol]. apply List.Forall_inv_tail, List.Forall_inv in Hn. by rewrite Hn.
  - destruct rest; [|done]. unfold slash. by apply String.eqb_neq in Hr as ->.
Qed.

Lemma git_end prev rest cs : no_newline rest ->
  rmatch git_suffix (rmatch (RCat (ROpt (RLit slash)) REol) accept) prev rest cs =
  match rest with
  | _ :: g :: i :: t :: rest =>
      if String.eqb g (byte_rune "g") && String.eqb i (byte_rune "i") && String.eqb t (byte_rune "t") && at_end rest
      then Some cs else None
  | _ => None
  end.
Proof.
  intros Hn. set (k := rmatch (RCat _ _) _). unfold git_suffix.
  change (runes "git") with [byte_rune "g"; byte_rune "i"; byte_rune "t"]. cbn [RLits rmatch].
  destruct rest as [|a rest]; [done|]. cbn [one]. rewrite (List.Forall_inv Hn). cbn [negb].
  apply List.Forall_inv_tail in Hn. do 3 (rewrite one_lit by done; destruct rest as [|? rest]; [done|];
    destruct (String.eqb _ _); [apply List.Forall_inv_tail in Hn; cbn [andb]|by repeat (destruct rest as [|? rest]; try done)]).
  subst k. by rewrite slash_end.
Qed.

Lemma project_tail_spec prev rest cs : no_newline rest ->
  rmatch project_tail accept prev rest cs = if is_tail rest then Some cs else None.
Proof.
  intros Hn. unfold project_tail, is_tail.
  change (rmatch (RCat (ROpt git_suffix) (RCat (ROpt (RLit slash)) REol)) accept prev rest cs) with
    (match rmatch (RCat (ROpt (RLit slash)) REol) accept prev rest cs with
     | Some r => Some r
     | None => rmatch git_suffix (rmatch (RCat (ROpt (RLit slash)) REol) accept) prev rest cs
     end).
  rewrite slash_end, git_end by done. destruct (at_end rest); [done|]. cbn [orb].
  by do 4 (destruct rest as [|? rest]; [done|]).
Qed.

(** A project's path: valid UTF-8 on one line, at least two characters, without a dot, and not ending in a
    slash *)
Definition project_path (p : string) : Prop :=
  valid_utf8 p = true /\ lacks "." p = true /\ lacks (ascii_of_N 10) p = true /\ 2 <= length (runes p) /\
  forall q, p <> q +:+ "/".
Definition tails : list string := [""; "/"; ".git"; ".git/"].

Lemma tail_no_newline tail : In tail tails -> no_newline (runes tail).
Proof. intros H. repeat (destruct H as [<-|H]; [by repeat constructor|]). destruct H. Qed.

Lemma runes_no_newline s : lacks (ascii_of_N 10) s = true -> no_newline (runes s).
Proof.
  intros H. apply runes_lack in H; [|done]. eapply List.Forall_impl; [|exact H].
  intros r Hr. cbn in Hr. apply String.eqb_neq. intros ->. by vm_compute in Hr.
Qed.

Lemma accepted_tail tail : In tail tails -> is_tail (runes tail) = true.
Proof. intros H. repeat (destruct H as [<-|H]; [reflexivity|]). destruct H. Qed.

Lemma is_tail_cases rest : is_tail rest = true ->
  rest = [] \/ rest = [slash] \/ exists a, rest = a :: runes "git" \/ rest = a :: runes "git" ++ [slash].
Proof.
  assert (forall l, at_end l = true -> l = [] \/ l = [slash]) as He.
  { intros [|r [|r' l]]; cbn; [by left| |done]. intros ->%String.eqb_eq. by right. }
  unfold is_tail. intros [H|H]%orb_true_iff; [apply He in H; tauto|].
  destruct rest as [|a [|g [|i [|t l]]]]; try done. rewrite !andb_true_iff, !String.eqb_eq in H.
  destruct H as [[[-> ->] ->] [-> | ->]%He]; right; right; exists a; [by left|by right].
Qed.

(** An earlier end of the project is not followed by a tail. *)
Lemma early_tail m x tail : In tail tails -> same_rune slash x = false ->
  (tail = "" \/ tail = "/" -> forall a, m ++ [x] <> a :: runes "git") ->
  is_tail (m ++ x :: runes tail) = false.
Proof.
  intros Ht Hx Hgit. assert (x <> slash) as Hxs by (intros ->; by rewrite same_rune_refl in Hx).
  assert (forall a, tail = "" \/ tail = "/" -> x :: List.rev m <> List.rev (a :: runes "git")) as Hr.
  { intros a Hs E. apply (Hgit Hs a). apply (f_equal (@List.rev rune)) in E. rewrite List.rev_involutive in E.
    rewrite <- E. cbn [List.rev]. by rewrite List.rev_involutive. }
  clear Hgit. apply not_true_is_false. intros H%is_tail_cases.
  assert (forall l, m ++ x :: runes tail = l -> List.rev (runes tail) ++ x :: List.rev m = List.rev l) as Hrev.
  { intros l <-. rewrite List.rev_app_distr. cbn [List.rev]. by rewrite <- app_assoc. }
  destruct H as [E|[E|(a & [E|E])]]; apply Hrev in E;
    repeat (destruct Ht as [<-|Ht]; [vm_compute in E; try discriminate E|]); try destruct Ht.
  all: try (apply (Hr a); [tauto|]; vm_compute; injection E; intros; congruence).
  all: injection E; intros; subst; by apply Hxs.
Qed.

Lemma project_captured prev tail w y x cs : In tail tails ->
  Forall (fun r => same_rune dot r = false) (w ++ [y]) -> same_rune slash x = false ->
  no_newline ((w ++ [y]) ++ [x]) ->
  (tail = "" \/ tail = "/" -> forall l a, (w ++ [y]) ++ [x] <> l ++ a :: runes "git") ->
  rmatch (RCap "project" (RCat (RPlus dot) (RNot slash))) (rmatch project_tail accept) prev
    ((w ++ [y]) ++ x :: runes tail) cs
  = Some (("project", text ((w ++ [y]) ++ [x])) :: cs).
Proof.
  intros Ht Hd Hx Hn Hgit. pose proof (tail_no_newline tail Ht) as Htn.
  set (k := rmatch project_tail accept). cbn [rmatch]. rewrite <- app_assoc. cbn [app]. apply plus_first.
  - eapply List.Forall_impl; [|exact Hd]. intros r Hr. cbn. by rewrite Hr.
  - intros w1 z w2 ->. rewrite <- !app_assoc in Hn, Hgit. cbn [app] in Hn, Hgit.
    assert (exists b m, w2 ++ y :: [x] = b :: m ++ [x]) as (b & m & Em).
    { destruct w2 as [|b w2]; [by exists y, []|]. exists b, (w2 ++ [y]). by rewrite <- app_assoc. }
    replace (w2 ++ y :: x :: runes tail) with (b :: m ++ x :: runes tail).
    2:{ change (y :: x :: runes tail) with ((y :: [x]) ++ runes tail). rewrite app_assoc, Em. cbn [app]. by rewrite <- app_assoc. }
    cbn [one]. destruct (negb (same_rune slash b)); [|done]. rewrite Em in Hn, Hgit. subst k.
    apply List.Forall_app in Hn as [_ Hn%List.Forall_inv_tail%List.Forall_inv_tail].
    rewrite project_tail_spec, early_tail; [done|done|done| |].
    + intros Hs a E. apply (Hgit Hs (w1 ++ [z; b]) a). rewrite <- app_assoc. cbn [app]. by rewrite E.
    + unfold no_newline in *. rewrite List.Forall_app in Hn |- *. destruct Hn as [Hm Hx']. split; [done|].
      constructor; [by apply List.Forall_inv in Hx'|done].
  - cbn [one]. rewrite Hx. cbn [negb]. subst k. rewrite project_tail_spec, accepted_tail by done.
    change (y :: x :: runes tail) with ([y; x] ++ runes tail). rewrite app_assoc, consumed_app. by rewrite <- app_assoc.
Qed.

(** The project of a URL: the URL of a project under the provider's base URL,
    also one in a subgroup, with nothing, a slash, .git or both behind it, is taken
    apart into its owner and the path of the project, provided that the path has no
    dot and that, written without .git, it does not itself end in "git". *)
Theorem gitlab_project_url base r owner project tail :
  newRepoUrlMatcher base = Ok r -> segment owner -> project_path project -> In tail tails ->
  (tail = "" \/ tail = "/" -> forall a, project <> a +:+ "git") ->
  parseOwnerAndProjectFromUrl r (base +:+ "/" +:+ owner +:+ "/" +:+ project +:+ tail) = Ok (owner, project).
Proof.
  unfold newRepoUrlMatcher. destruct (valid_utf8 base) eqn:Hbase; [|done]. intros [= <-] Howner Hp Ht Hgit.
  unfold parseOwnerAndProjectFromUrl, find. cbn [gm_regexp gm_baseUrl].
  destruct Hp as (Hv & Hd & Hnl & Hlen & Hlast).
  assert (runes (base +:+ "/" +:+ owner +:+ "/" +:+ project +:+ tail) =
    runes base ++ slash :: runes owner ++ slash :: runes project ++ runes tail) as ->.
  { destruct Howner as (_ & Ho & _). by rewrite runes_app, (runes_app "/"), runes_app, (runes_app "/"), runes_app by done. }
  set (rest := runes project ++ runes tail).
  assert (exists w y x, runes project = (w ++ [y]) ++ [x]) as (w & y & x & E).
  { destruct (runes project) as [|a l] eqn:E0 using rev_ind; [cbn in Hlen; lia|]. destruct l as [|b l _] using rev_ind.
    - cbn in Hlen. lia.
    - by exists l, b, a. }
  assert (same_rune slash x = false) as Hx.
  { apply not_true_is_false. intros Hx. apply (same_rune_byte_eq ch_slash) in Hx; [|done].
    apply (Hlast (text (w ++ [y]))). by rewrite <- (text_runes project), E, text_app, Hx. }
  assert (forall prev cs, rmatch (RCap "project" (RCat (RPlus dot) (RNot slash))) (rmatch project_tail accept) prev rest cs
    = Some (("project", project) :: cs)) as Hproj.
  { intros prev cs. subst rest. rewrite <- (text_runes project) at 2. rewrite E, <- app_assoc. cbn [app].
    apply project_captured; [done| |done| |].
    - apply (runes_lack ".") in Hd; [|done]. rewrite E in Hd. by apply List.Forall_app in Hd as [? _].
    - apply runes_no_newline in Hnl. by rewrite E in Hnl.
    - intros Hs l a Ea. apply (Hgit Hs (text (l ++ [a]))).
      rewrite <- (text_runes project), E, Ea, cons_middle, app_assoc, text_app. f_equal. }
  assert (forall prev, rmatch (RCap "owner" (RPlus slash)) (rmatch (RLit slash)
      (rmatch (RCap "project" (RCat (RPlus dot) (RNot slash))) (rmatch project_tail accept))) prev
      (runes owner ++ slash :: rest) []
    = Some [("project", project); ("owner", owner)]) as Hm.
  { intros prev. destruct (segment_runes owner Howner) as (w' & x' & E' & Hs & _). rewrite E', <- app_assoc. cbn [app].
    apply segment_captured; [done|]. rewrite <- E', text_runes. apply Hproj. }
  assert (rmatch (repoUrlRegexp base) accept None (runes base ++ slash :: runes owner ++ slash :: rest) [] =
    Some [("project", project); ("owner", owner)]) as Hr.
  { unfold repoUrlRegexp. cbn [rmatch at_bol]. rewrite rmatch_lits. cbn [rmatch]. unfold one at 1.
    rewrite same_rune_refl. apply (Hm None). }
  destruct (runes base ++ slash :: runes owner ++ slash :: rest) as [|r l] eqn:El; cbn [find_from]; by rewrite Hr.
Qed.

Lemma gitlab_project_url_witness :
  exists r, newRepoUrlMatcher gitlab_com = Ok r /\
  parseOwnerAndProjectFromUrl r "https://gitlab.com/group/sub/legit.git/" = Ok ("group", "sub/legit").
Proof.
  eexists. split; [reflexivity|].
  apply (gitlab_project_url gitlab_com _ "group" "sub/legit" ".git/"); [reflexivity|by repeat split.. | | |].
  - split; [reflexivity|]. split; [reflexivity|]. split; [reflexivity|]. split; [vm_compute; lia|].
    intros [|? [|? [|? [|? [|? [|? [|? [|? [|? [|? q]]]]]]]]]] E; discriminate E.
  - right; right; right; by left.
  - intros [E|E]; discriminate E.
Defined.

(** ** Scopes *)

(** GitLab's documentation of the scopes: what each adds to others *)
Inductive contains : string -> string -> Prop :=
| api_read : contains ScopeApi ScopeReadApi
| api_repository : contains ScopeApi ScopeWriteRepository
| api_registry : contains ScopeApi ScopeWriteRegistry
| read_api_user : contains ScopeReadApi ScopeReadUser
| read_api_repository : contains ScopeReadApi ScopeReadRepository
| read_api_registry : contains ScopeReadApi ScopeReadRegistry
| write_repository : contains ScopeWriteRepository ScopeReadRepository
| write_registry : contains ScopeWriteRegistry ScopeReadRegistry.

Lemma gitlab_Implies_refl s : Implies s s = true.
Proof. unfold Implies. by rewrite String.eqb_refl. Qed.

(** The scopes below one, as lists *)
Definition below (s : string) : list string :=
  if String.eqb s ScopeApi then
    [ScopeReadApi; ScopeReadUser; ScopeReadRepository; ScopeWriteRepository; ScopeReadRegistry; ScopeWriteRegistry]
  else if String.eqb s ScopeReadApi then [ScopeReadUser; ScopeReadRepository; ScopeReadRegistry]
  else if String.eqb s ScopeWriteRepository then [ScopeReadRepository]
  else if String.eqb s ScopeWriteRegistry then [ScopeReadRegistry]
  else [].
Lemma Implies_below s t : Implies s t = true <-> s = t \/ In t (below s).
Proof.
  unfold Implies, below. destruct (String.eqb_spec s t) as [->|Hne]; [tauto|].
  repeat case_match; rewrite ?one_of_In, ?String.eqb_eq; cbn [In]; naive_solver.
Qed.
Lemma below_closed s t : In t (below s) -> forall u, In u (below t) -> In u (below s).
Proof.
  unfold below at 1 3. repeat case_match; cbn [In]; intros Ht u Hu;
    repeat (destruct Ht as [<-|Ht]; [vm_compute in Hu |- *; tauto|]); destruct Ht.
Qed.
Lemma gitlab_Implies_trans s t u : Implies s t = true -> Implies t u = true -> Implies s u = true.
Proof.
  rewrite !Implies_below. intros [->|H1] [->|H2]; [by left|by right..|]. right. by apply (below_closed s t).
Qed.

Lemma gitlab_hasScope scopes s : In s scopes -> hasScope scopes s = true.
Proof. intros H. apply existsb_exists. exists s. split; [done|apply gitlab_Implies_refl]. Qed.
Lemma add_scope_In scope scopes s : In s (add_scope scope scopes) <-> s = scope \/ In s scopes.
Proof.
  unfold add_scope. destruct (existsb (String.eqb scope) scopes) eqn:E.
  - apply existsb_exists in E as (x & Hx & ->%String.eqb_eq). naive_solver.
  - rewrite in_app_iff. cbn [In]. naive_solver.
Qed.
Lemma OAuthScopes_In {X : Externals} ps s : In s (OAuthScopesFor_gitlab ps) <->
  In s (GetAllScopes translateToGitlabScopes ps) \/ s = ScopeReadUser \/ s = ScopeReadApi.
Proof. unfold OAuthScopesFor_gitlab. rewrite !add_scope_In. tauto. Qed.

(** GitLab's scopes: implication is the reflexive and transitive closure
    of what each scope adds to others, and more scopes never match less; a
    token with the scopes that the OAuth flow asks for matches every request
    with the same permissions, and these scopes always cover the user and the
    API, which the metadata are read with. *)
Theorem gitlab_scopes {X : Externals} :
  (forall s t, Implies s t = true <-> clos_refl_trans string contains s t) /\
  (forall scopes scopes' t, (forall s, In s scopes -> hasScope scopes' s = true) ->
     hasScope scopes t = true -> hasScope scopes' t = true) /\
  (forall ps, forallb (hasScope (OAuthScopesFor_gitlab ps)) (GetAllScopes translateToGitlabScopes ps) = true /\
     In ScopeReadUser (OAuthScopesFor_gitlab ps) /\ In ScopeReadApi (OAuthScopesFor_gitlab ps)).
Proof.
  split; [|split].
  - intros s t. split.
    + intros [->|H]%Implies_below; [apply rt_refl|]. revert H. unfold below.
      assert (clos_refl_trans string contains ScopeApi ScopeReadApi) as Hr by (apply rt_step; constructor).
      repeat case_match; cbn [In]; intros Ht; repeat match goal with E : String.eqb s _ = true |- _ => apply String.eqb_eq in E as -> end;
        repeat (destruct Ht as [<-|Ht]); try destruct Ht; try (by apply rt_step; constructor);
        try (by eapply rt_trans; [exact Hr|apply rt_step; constructor]).
    + induction 1 as [s t H|s|s t u _ IH1 _ IH2]; [by destruct H|apply gitlab_Implies_refl|by eapply gitlab_Implies_trans].
  - intros scopes scopes' t Hs (s & Hin & H)%existsb_exists.
    apply Hs, existsb_exists in Hin as (s' & Hin' & H'). apply existsb_exists. exists s'.
    split; [done|]. by eapply gitlab_Implies_trans.
  - intros ps. split; [|by rewrite !OAuthScopes_In; tauto].
    apply forallb_forall. intros s Hs. apply gitlab_hasScope, OAuthScopes_In. by left.
Qed.

(** ** Metadata *)

(** What the two APIs answered, in the order in which they were asked *)
Inductive scopes_from (baseUrl : string) (cl : GlClient) : list act -> option (list string) -> Prop :=
| from_oauth response scopes :
    gls_StatusCode response = 200%Z -> gls_Scopes response = Some scopes ->
    scopes_from baseUrl cl
      [Act (Gl (RetryableRequest "GET" (baseUrl +:+ "/oauth/token/info"))) None;
       Act (Gl (GlDo cl "GET" (baseUrl +:+ "/oauth/token/info") "scope")) (Ok response)] (Some scopes)
| from_pat oauth pat scopes :
    (exists err, oauth = Err (err, Some 401%Z)) \/
    (exists response, oauth = Ok response /\ gls_StatusCode response = 200%Z /\ gls_Scopes response = None) ->
    (exists response, pat = Ok response /\ gls_Scopes response = scopes) \/
    (exists err, pat = Err (err, Some 404%Z) /\ scopes = Some []) ->
    scopes_from baseUrl cl
      [Act (Gl (RetryableRequest "GET" (baseUrl +:+ "/oauth/token/info"))) None;
       Act (Gl (GlDo cl "GET" (baseUrl +:+ "/oauth/token/info") "scope")) oauth;
       Act (Gl (GlNewRequest cl "GET" "personal_access_tokens/self")) None;
       Act (Gl (GlDo cl "GET" "personal_access_tokens/self" "scopes")) pat] scopes.

Lemma fetchOAuthScopes_ok baseUrl cl tr r : exec (fetchOAuthScopes baseUrl cl) tr (Ok r) ->
  exists oauth, tr = [Act (Gl (RetryableRequest "GET" (baseUrl +:+ "/oauth/token/info"))) None;
    Act (Gl (GlDo cl "GET" (baseUrl +:+ "/oauth/token/info") "scope")) oauth] /\
  match r with
  | Some scopes => exists response, oauth = Ok response /\ gls_StatusCode response = 200%Z /\ gls_Scopes response = Some scopes
  | None => (exists err, oauth = Err (err, Some 401%Z)) \/
      (exists response, oauth = Ok response /\ gls_StatusCode response = 200%Z /\ gls_Scopes response = None)
  end.
Proof.
  unfold fetchOAuthScopes, call. cbn [bind]. intros (x & tr1 & -> & H). destruct x as [err|]; [by destruct H as [_ [=]]|].
  destruct H as (y & tr2 & -> & [-> H]). exists y. split; [done|]. destruct y as [response|[err code]].
  - destruct (Z.eqb_spec (gls_StatusCode response) 200) as [E|E]; cbn [negb] in H; [|done].
    injection H as ->. destruct (gls_Scopes response) eqn:Es; [by exists response|]. right. by exists response.
  - destruct (decide (code = Some 401%Z)) as [->|]; [|done]. injection H as ->. left. by exists err.
Qed.

Lemma fetchPATScopes_ok cl tr r : exec (fetchPATScopes cl) tr (Ok r) ->
  exists pat, tr = [Act (Gl (GlNewRequest cl "GET" "personal_access_tokens/self")) None;
    Act (Gl (GlDo cl "GET" "personal_access_tokens/self" "scopes")) pat] /\
  ((exists response, pat = Ok response /\ gls_Scopes response = r) \/
   (exists err, pat = Err (err, Some 404%Z) /\ r = Some [])).
Proof.
  unfold fetchPATScopes, call. cbn [bind]. intros (x & tr1 & -> & H). destruct x as [err|]; [by destruct H as [_ [=]]|].
  destruct H as (y & tr2 & -> & [-> H]). exists y. split; [done|]. destruct y as [response|[err code]].
  - injection H as ->. left. by exists response.
  - destruct (decide (code = Some 404%Z)) as [->|]; [|done]. injection H as ->. right. by exists err.
Qed.

Lemma fetchScopes_ok baseUrl cl tr r : exec (fetchScopes baseUrl cl) tr (Ok r) -> scopes_from baseUrl cl tr r.
Proof.
  intros (oauth & tr1 & tr2 & -> & H1 & H2)%exec_try_ok.
  apply fetchOAuthScopes_ok in H1 as (x & -> & H1). destruct oauth as [scopes|].
  - destruct H2 as [-> [= ->]]. destruct H1 as (response & -> & E1 & E2). by constructor.
  - apply fetchPATScopes_ok in H2 as (y & -> & H2). by constructor.
Qed.

(** The metadata of a GitLab token: they are read with a client made from the
    stored credentials (a private token without a user name, basic
    authentication with one); the user comes from an answer with status 200; the
    scopes are those that the OAuth API reports and only when it answers 401, or
    reports none, those of the API for personal access tokens, whose absence (404)
    means that there are none; any other failure fails the fetch. *)
Theorem gitlab_metadata baseUrl token includeState tr md :
  exec (doFetch baseUrl token includeState) tr (Ok (Some md)) ->
  exists data cl usr tr' scopes,
    cl = (if String.eqb (td_Username data) "" then NewClient (td_AccessToken data) baseUrl
          else NewBasicAuthClient (td_Username data) (td_AccessToken data) baseUrl) /\
    tr = Act (Ts (TsGet token)) (Ok (Some data)) :: Act (Gl (GlNewClient cl)) None ::
         Act (Gl (GlCurrentUser cl)) (Ok usr) :: tr' /\
    glu_StatusCode usr = 200%Z /\ scopes_from baseUrl cl tr' scopes /\
    md = mkTokenMetadata (glu_Username usr) (FormatInt (glu_ID usr)) (default [] scopes)
           (if includeState then "{}" else "") 0.
Proof.
  unfold doFetch, call at 1. cbn [bind]. intros (x & tr1 & -> & H).
  destruct x as [[data|]|err]; [|by destruct H as [_ [=]]..].
  apply exec_try_ok in H as (cl & tr2 & tr3 & -> & H1 & H). unfold CreateAuthenticatedClient, call in H1.
  cbn [bind cred_Username cred_Token] in H1. destruct H1 as (err & tr4 & -> & [-> H1]).
  destruct err; [done|]. injection H1 as ->.
  apply exec_try_ok in H as ([username userId] & tr5 & tr6 & -> & H2 & H). unfold fetchUser, call in H2.
  cbn [bind] in H2. destruct H2 as (usr & tr7 & -> & [-> H2]). destruct usr as [usr|]; [|done].
  destruct (Z.eqb_spec (glu_StatusCode usr) 200) as [E|E]; cbn [negb] in H2; [|done]. injection H2 as -> ->.
  apply exec_try_ok in H as (scopes & tr8 & tr9 & -> & H3%fetchScopes_ok & [-> H]). injection H as ->.
  exists data. eexists. exists usr, tr8, scopes. rewrite app_nil_r. split; [done|]. split; [done|]. split; [done|].
  split; [exact H3|]. by destruct includeState.
Qed.

(** ** Refreshing *)

(** The pairs of a query, in order *)
Definition ParseQuery (query : string) : list (option string * option string) :=
  map (fun pair => match cut_char "=" pair with
                   | Some (k, v) => (QueryUnescape k, QueryUnescape v)
                   | None => (QueryUnescape pair, Some "")
                   end) (Split query "&").

Lemma cut_char_lacks c a b : lacks c a = true -> cut_char c (a +:+ String c b) = Some (a, b).
Proof.
  induction a as [|d a IH]; cbn [lacks].
  - intros _. rewrite str_app_nil_l. cbn. by rewrite Ascii.eqb_refl.
  - intros [Hd Ha]%andb_true_iff. rewrite str_app_cons. cbn. apply negb_true_iff in Hd.
    rewrite Ascii.eqb_sym in Hd. by rewrite Hd, IH.
Qed.

Lemma ParseQuery_Encode v : v <> ∅ -> ParseQuery (Encode v) = map (fun e => (Some e.1, Some e.2)) (sorted_entries v).
Proof.
  intros Hv. unfold ParseQuery, Encode. rewrite Split_joined.
  - rewrite map_map. apply map_ext. intros [k x]. cbn [fst snd].
    change (QueryEscape k +:+ "=" +:+ QueryEscape x) with (QueryEscape k +:+ String "=" (QueryEscape x)).
    rewrite cut_char_lacks by apply QueryEscape_lacks. by rewrite !QueryUnescape_QueryEscape.
  - intros E%map_eq_nil. pose proof (sorted_entries_perm v) as H. rewrite E in H.
    apply Permutation_nil_l in H. symmetry in H. by apply map_to_list_empty_iff in H.
  - apply List.Forall_map, List.Forall_forall. intros [k x] _. cbn [fst snd]. rewrite !lacks_app.
    by rewrite (proj1 (QueryEscape_lacks k)), (proj1 (QueryEscape_lacks x)).
Qed.

Lemma refresh_pairs r token config : ParseQuery (Encode (refresh_values r token config)) =
  [(Some "client_id", Some (oc_ClientID config)); (Some "client_secret", Some (oc_ClientSecret config));
   (Some "grant_type", Some "refresh_token");
   (Some "redirect_uri", Some (rc_oauthServiceBaseUrl r +:+ "/oauth/callback"));
   (Some "refresh_token", Some (td_RefreshToken token))].
Proof.
  rewrite ParseQuery_Encode by apply insert_non_empty. reflexivity.
Qed.

(** C29 Refreshing a GitLab token: the client's secret and the refresh token
    leave in one POST to the token endpoint of the provider, in a query that
    reads back as the five values; an answer other than 200 is an error; and what
    is returned is what the answer holds, so that the expiry of the new token is
    the number of seconds that it lives, not the moment at which it expires.
    A token without data crashes the process. *)
Theorem gitlab_refresh r token config tr res :
  exec (RefreshToken r token config) tr res ->
  match token with
  | None => tr = [] /\ res = Panics "token.RefreshToken"
  | Some token =>
      exists url query, url = rc_gitlabBaseUrl r +:+ "/oauth/token?" +:+ query /\
      ParseQuery query =
        [(Some "client_id", Some (oc_ClientID config)); (Some "client_secret", Some (oc_ClientSecret config));
         (Some "grant_type", Some "refresh_token");
         (Some "redirect_uri", Some (rc_oauthServiceBaseUrl r +:+ "/oauth/callback"));
         (Some "refresh_token", Some (td_RefreshToken token))] /\
      ((tr = [] /\ exists err, res = Returns (Err err)) \/
       exists answer, tr = [Act (Ht (HttpDo (mkHttpRequest "POST" url [("content-type", "application/json")] ""))) answer] /\
         match res with
         | Panics _ => False
         | Returns (Err err) => forall resp, answer = Ok resp -> hr_StatusCode resp <> 200%Z -> err = nonOkResponseError
         | Returns (Ok new) => exists resp body x,
             answer = Ok resp /\ hr_StatusCode resp = 200%Z /\ hr_Body resp = Ok body /\ unmarshal_refresh body = Ok x /\
             new = mkToken "" (rr_AccessToken x) (rr_TokenType x) (rr_RefreshToken x) (rr_Expiry x)
         end)
  end.
Proof.
  unfold RefreshToken. destruct token as [token|]; [|by intros [-> ->]]. intros H.
  exists (refresh_url r token config), (Encode (refresh_values r token config)).
  split; [done|]. split; [apply refresh_pairs|].
  destruct (Parse _) as [u|err]; [|destruct H as [-> ->]; left; split; [done|by eexists]]. right.
  unfold call in H. cbn [bind] in H. destruct H as (answer & tr' & -> & H). exists answer.
  destruct answer as [resp|err]; [|by destruct H as [-> ->]].
  destruct (Z.eqb_spec (hr_StatusCode resp) 200) as [E|E]; cbn [negb] in H; [|by destruct H as [-> ->]].
  destruct (hr_Body resp) as [body|err] eqn:Eb; [|destruct H as [-> ->]; split; [done|]; by intros ? [= <-]].
  destruct (unmarshal_refresh body) as [x|err] eqn:Ex; destruct H as [-> ->]; (split; [done|]).
  - by exists resp, body, x.
  - by intros ? [= <-].
Qed.

(** ** Downloads *)

(** Every run of a download *)
Lemma gitlab_download_exec f request credentials limit tr res :
  exec (DownloadFile f request credentials limit) tr res ->
  (exists err, res = Returns (Err err) /\ forall c p path ref x, ~ In (Act (Gl (GlGetFile c p path ref)) x) tr) \/
  exists owner project cl answer,
    parseOwnerAndProjectFromUrl (dl_repoMatcher f) (fsp_RepoUrl request) = Ok (owner, project) /\
    cl = (if String.eqb (cred_Username credentials) "" then NewClient (cred_Token credentials) (dl_baseUrl f)
          else NewBasicAuthClient (cred_Username credentials) (cred_Token credentials) (dl_baseUrl f)) /\
    tr = [Act (Gl (GlNewClient cl)) None;
          Act (Gl (GlGetFile cl (owner +:+ "/" +:+ project) (TrimPrefix (fsp_FilePath request) "/")
            (if String.eqb (fsp_Ref request) "" then "HEAD" else fsp_Ref request))) answer] /\
    (res = Panics "resp.StatusCode" <-> exists err, answer = Err (err, None)) /\
    (forall content, res = Returns (Ok content) <-> exists file, answer = Ok file /\
       (glf_Size file <= limit)%Z /\ DecodeString StdEncoding (glf_Content file) = Ok content).
Proof.
  unfold DownloadFile, CreateAuthenticatedClient.
  destruct (parseOwnerAndProjectFromUrl _ _) as [[owner project]|err]; [|intros [-> ->]; left; eexists; split; [done|]; intros; by intros []].
  unfold call. cbn [bind]. intros (e & tr1 & -> & H). destruct e as [e|].
  { destruct H as [-> ->]. left. eexists. split; [done|]. intros c p path ref x [E|[]].
    apply (f_equal (fun a => match act_ev a with Gl (GlGetFile _ _ _ _) => true | _ => false end)) in E. discriminate E. }
  destruct H as (answer & tr2 & -> & [-> H]). right. exists owner, project. eexists. exists answer.
  split; [done|]. split; [done|]. split; [by destruct (String.eqb (fsp_Ref request) "")|].
  destruct answer as [file|[err [code|]]].
  - destruct (Z.ltb_spec limit (glf_Size file)) as [Hl|Hl].
    + subst res. split; [split; [done|by intros (? & ?)]|]. intros content. split; [done|]. intros (? & [= <-] & ? & _). lia.
    + destruct (DecodeString StdEncoding (glf_Content file)) eqn:Ed; subst res; split; try (split; [done|by intros (? & ?)]).
      * intros content. split; [intros [= ->]; by exists file|]. intros (? & [= <-] & _ & E). congruence.
      * intros content. split; [done|]. intros (? & [= <-] & _ & E). congruence.
  - subst res. split; [split; [done|by intros (? & ?)]|]. intros content. split; [done|by intros (? & ? & _)].
  - subst res. split; [split; [intros _; by exists err|done]|]. intros content. split; [done|by intros (? & ? & _)].
Qed.

(** C37 Downloads from GitLab: the content that is returned is what the file's base64
    text stands for, and the file is no larger than the limit; the file is read
    with a client made from the given credentials, at HEAD when no reference is
    named, below the root of the project; and a failed call without a response (no
    connection) crashes the process. *)
Theorem gitlab_download f request credentials limit tr res :
  exec (DownloadFile f request credentials limit) tr res ->
  (exists err, res = Returns (Err err) /\ forall c p path ref x, ~ In (Act (Gl (GlGetFile c p path ref)) x) tr) \/
  exists owner project cl answer,
    parseOwnerAndProjectFromUrl (dl_repoMatcher f) (fsp_RepoUrl request) = Ok (owner, project) /\
    cl = (if String.eqb (cred_Username credentials) "" then NewClient (cred_Token credentials) (dl_baseUrl f)
          else NewBasicAuthClient (cred_Username credentials) (cred_Token credentials) (dl_baseUrl f)) /\
    tr = [Act (Gl (GlNewClient cl)) None;
          Act (Gl (GlGetFile cl (owner +:+ "/" +:+ project) (TrimPrefix (fsp_FilePath request) "/")
            (if String.eqb (fsp_Ref request) "" then "HEAD" else fsp_Ref request))) answer] /\
    (res = Panics "resp.StatusCode" <-> exists err, answer = Err (err, None)) /\
    (forall content, res = Returns (Ok content) <-> exists file, answer = Ok file /\
       (glf_Size file <= limit)%Z /\ DecodeString StdEncoding (glf_Content file) = Ok content).
Proof. apply gitlab_download_exec. Qed.

(** ** The access check *)

Definition public_request (url : string) : HttpRequest := mkHttpRequest "GET" url [] "".
(** A project that could be read: an answer without an error, with status 200
    where it has one *)
Definition project_read (answer : result (goerr * option Z) GlProject) : bool :=
  match answer with
  | Ok p => match glp_StatusCode p with Some code => (code =? 200)%Z | None => true end
  | Err _ => false
  end.

Section access.
Context {X : Externals}.

(** What a check answers when the project is not public *)
Inductive private_answer (g : Gitlab) (lookupCredentials : Matchable -> prog (res (option Credentials)))
(check : SPIAccessCheck) : list act -> SPIAccessCheckStatus -> Prop :=
| bad_url err : parseOwnerAndProjectFromUrl (g_repoUrlMatcher g) (acsp_RepoUrl (ac_Spec check)) = Err err ->
    private_answer g lookupCredentials check [] (preserveError SPIAccessCheckErrorBadURL err)
| no_lookup tr err : exec (lookupCredentials (Matchable_of_check check)) tr (Err err) ->
    private_answer g lookupCredentials check tr (preserveError SPIAccessCheckErrorTokenLookupFailed err)
| no_credentials tr : exec (lookupCredentials (Matchable_of_check check)) tr (Ok None) ->
    private_answer g lookupCredentials check tr initial_status
| no_client tr c tr' err : exec (lookupCredentials (Matchable_of_check check)) tr (Ok (Some c)) ->
    exec (CreateAuthenticatedClient (g_baseUrl g) c) tr' (Err err) ->
    private_answer g lookupCredentials check (tr ++ tr') (preserveError SPIAccessCheckErrorUnknownError err)
| asked tr c tr' cl owner project answer status :
    parseOwnerAndProjectFromUrl (g_repoUrlMatcher g) (acsp_RepoUrl (ac_Spec check)) = Ok (owner, project) ->
    exec (lookupCredentials (Matchable_of_check check)) tr (Ok (Some c)) ->
    exec (CreateAuthenticatedClient (g_baseUrl g) c) tr' (Ok cl) ->
    acst_Accessible status = project_read answer ->
    (acst_Accessibility status = SPIAccessCheckAccessibilityPrivate <->
       exists p, answer = Ok p /\ project_read answer = true /\ (glp_Visibility p = "private" \/ glp_Visibility p = "internal")) ->
    acst_ErrorReason status = (if project_read answer then "" else
      match answer with
      | Err (_, code) => if decide (code = Some 404%Z) then SPIAccessCheckErrorRepoNotFound else SPIAccessCheckErrorUnknownError
      | Ok _ => SPIAccessCheckErrorUnknownError
      end) ->
    private_answer g lookupCredentials check
      (tr ++ tr' ++ [Act (Gl (GlGetProject cl (owner +:+ "/" +:+ project))) answer]) status.

Lemma granted_private p : acst_Accessibility (granted_status p) = SPIAccessCheckAccessibilityPrivate <->
glp_Visibility p = "private" \/ glp_Visibility p = "internal".
Proof using.
unfold granted_status. cbn [acst_Accessibility]. pose proof (one_of_In (glp_Visibility p) ["private"; "internal"]) as H.
destruct (one_of _ _); cbn [In] in H; [naive_solver|]. split; [done|]. intros Hv.
exfalso. assert (false = true); [|done]. apply H. naive_solver.
Qed.

Lemma gitlab_private_check g lookupCredentials check tr status :
exec (checkPrivateRepoAccess g lookupCredentials check) tr status ->
private_answer g lookupCredentials check tr status.
Proof.
unfold checkPrivateRepoAccess. destruct (parseOwnerAndProjectFromUrl _ _) as [[owner project]|err] eqn:Ep.
2: { intros [-> ->]. by constructor. }
intros (credentials & tr1 & tr2 & -> & Hl & H)%exec_bind.
destruct credentials as [[c|]|err]; [|destruct H as [-> ->]; rewrite app_nil_r; by constructor..].
apply exec_bind in H as (cl & tr3 & tr4 & -> & Hc & H).
destruct cl as [cl|err]; [|destruct H as [-> ->]; rewrite app_nil_r; by econstructor].
unfold call in H. cbn [bind] in H. destruct H as (answer & tr5 & -> & [-> H]).
assert (forall p, answer = Ok p -> project_read answer = true -> status = granted_status p ->
  private_answer g lookupCredentials check
    (tr1 ++ tr3 ++ [Act (Gl (GlGetProject cl (owner +:+ "/" +:+ project))) answer]) status) as Hgranted.
{ intros p E Hr ->. econstructor; [done..|by rewrite Hr| |by rewrite Hr].
  rewrite granted_private. split; [intros Hv; by exists p|]. intros (p' & E' & _ & Hv). congruence. }
destruct answer as [p|[err code]].
- destruct (glp_StatusCode p) as [code|] eqn:Es; [|by apply (Hgranted p); cbn; rewrite ?Es].
  destruct (Z.eqb_spec code 200) as [->|Hne]; cbn [negb] in H; [by apply (Hgranted p); cbn; rewrite ?Es|].
  assert (project_read (Ok p) = false) as Hr by (cbn; rewrite Es; by apply Z.eqb_neq).
  subst status. econstructor; [done..|by rewrite Hr| |by rewrite Hr].
  split; [done|]. intros (? & _ & ? & _). congruence.
- destruct (decide (code = Some 404%Z)) as [Hcode|Hcode] eqn:Ed; subst status; econstructor; [done|done|done|done| | |done|done|done|done| |];
    try (cbn; by rewrite Ed); (split; [done|]; by intros (? & ? & _)).
Qed.
End access.

(** Access checks of GitLab: the project is first asked for without any
    credentials, and access is reported as public exactly when that is answered
    with 200.  Otherwise the credentials of a matching token, and no others,
    make one client that reads the project that the URL names, and access is
    reported exactly when that succeeds, as private for private and
    internal projects; the reason of a denied access tells a bad URL, a
    failed lookup, a missing project and other failures apart. *)
Theorem gitlab_access_check {X : Externals} g lookupCredentials check tr r :
  exec (CheckRepositoryAccess g lookupCredentials check) tr r ->
  match r with
  | Err _ => tr = [] \/ exists err, tr = [Act (Ht (HttpDo (public_request (acsp_RepoUrl (ac_Spec check))))) (Err err)]
  | Ok status => exists resp rest,
      tr = Act (Ht (HttpDo (public_request (acsp_RepoUrl (ac_Spec check))))) (Ok resp) :: rest /\
      if decide (hr_StatusCode resp = 200%Z)
      then acst_Accessible status = true /\ acst_Accessibility status = SPIAccessCheckAccessibilityPublic /\ rest = []
      else private_answer g lookupCredentials check rest status
  end.
Proof.
  unfold CheckRepositoryAccess. intros (public & tr1 & tr2 & -> & Hp & H)%exec_bind.
  unfold checkPublicRepoAccess in Hp. destruct (Parse _); [|destruct Hp as [-> ->]; destruct H as [-> ->]; by left].
  unfold call in Hp. cbn [bind] in Hp. destruct Hp as (x & tr3 & -> & [-> Hp]). subst public.
  destruct x as [resp|err]; [|destruct H as [-> ->]; right; by exists err].
  destruct (Z.eqb_spec (hr_StatusCode resp) 200) as [E|E].
  - destruct H as [-> ->]. exists resp, []. split; [done|]. by rewrite decide_True.
  - apply exec_bind in H as (status & tr4 & tr5 & -> & H1 & [-> ->]). rewrite app_nil_r.
    exists resp, tr4. split; [done|]. rewrite decide_False by done. by apply gitlab_private_check.
Qed.

(** ** Witnesses *)

Definition gitlab_url : string := "https://gitlab.com/acme/tool".
(** The OAuth API does not know the token, the other API does. *)
Definition sample_gitlab : forall X, GlE X -> X := fun X e =>
  match e in GlE X return X with
  | GlNewClient _ => None
  | GlCurrentUser _ => Ok (mkGlUserResponse "alois" 42 200)
  | RetryableRequest _ _ => None
  | GlNewRequest _ _ _ => None
  | GlDo _ _ _ field =>
      if String.eqb field "scope" then Err (ErrorString "401", Some 401%Z)
      else Ok (mkGlScopesResponse 200 (Some ["read_api"; "read_user"]))
  | GlGetProject _ _ => Ok (mkGlProject "internal" (Some 200%Z))
  | GlGetFile _ _ path _ => if String.eqb path "README" then Ok (mkGlFile 5 "aGVsbG8=") else Err (offline, None)
  end.
Definition refresh_body : string :=
  "{" +:+ json_string "access_token" +:+ ":" +:+ json_string "new" +:+ "," +:+ json_string "expires_in" +:+ ":7200," +:+
  json_string "created_at" +:+ ":1700000000}".
Definition gitlab_network : network :=
  mkNetwork (fun q => if String.eqb (hq_Method q) "POST" then Ok (mkHttpResponse 200 (Ok refresh_body))
                      else Ok (mkHttpResponse 404 (Ok "")))
    (fun X e => gh_answer e) sample_gitlab.
Definition gitlab_script : script :=
  mkScript (Err not_found) (Err not_found) (Err not_found) (Err not_found) (Err not_found)
    (Err not_found) (Err not_found) (Err not_found) [] [] [] [] None None None
    (Ok sample_sp) (Ok []) (Ok []) None (Ok (Some (mkToken "alois" "access" "" "" 0))) (Ok None) (Ok None) (Ok "")
    (Ok (mkDependents (sample_secret "dep" ∅ ∅) [])) None 0.

Definition fetch_gitlab := doFetch gitlab_com (sample_token "t" "Ready" None) true.
Definition fetched_gitlab : TokenMetadata := mkTokenMetadata "alois" "42" ["read_api"; "read_user"] "{}" 0.
Lemma gitlab_metadata_witness :
  exists cl tr' scopes, scopes_from gitlab_com cl tr' scopes /\ tm_Scopes fetched_gitlab = default [] scopes.
Proof.
  pose proof (net_exec gitlab_network gitlab_script fetch_gitlab) as H.
  assert (net_result gitlab_network gitlab_script fetch_gitlab = Ok (Some fetched_gitlab)) as E by (vm_compute; reflexivity).
  rewrite E in H. destruct (gitlab_metadata gitlab_com (sample_token "t" "Ready" None) true _ _ H) as (data & cl & usr & tr' & scopes & _ & _ & _ & Hs & Emd).
  exists cl, tr', scopes. split; [exact Hs|]. exact (f_equal tm_Scopes Emd).
Defined.

Definition sample_refresh : refreshTokenCapability := mkRefresh gitlab_com "https://spi".
Definition sample_oauth2 : OAuth2Config := mkOAuth2Config "id" "s&cret" (mkEndpoint "" "").
Definition refreshing := RefreshToken sample_refresh (Some (mkToken "" "old" "" "refresh" 0)) sample_oauth2.
(** The new token lives for 7200 seconds; its expiry, read as a moment, is in 1970. *)
Lemma gitlab_refresh_witness :
  net_result gitlab_network gitlab_script refreshing = Returns (Ok (mkToken "" "new" "" "" 7200)) /\
  exists resp body x, hr_Body resp = Ok body /\ unmarshal_refresh body = Ok x /\ rr_Expiry x = 7200%Z /\
  rr_CreationTime x = 1700000000%Z.
Proof.
  assert (net_result gitlab_network gitlab_script refreshing = Returns (Ok (mkToken "" "new" "" "" 7200))) as E
    by (vm_compute; reflexivity).
  split; [exact E|]. pose proof (net_exec gitlab_network gitlab_script refreshing) as H.
  destruct (gitlab_refresh _ _ _ _ _ H) as (url & query & Hurl & _ & [(Ht & _)|(answer & Ht & Hr)]).
  { vm_compute in Ht. discriminate Ht. }
  rewrite E in Hr. destruct Hr as (resp & body & x & Ea & _ & Eb & Ex & En).
  exists resp, body, x. split; [exact Eb|]. split; [exact Ex|].
  assert (exchanges (net_trace gitlab_network gitlab_script refreshing) =
    [(mkHttpRequest "POST" (refresh_url sample_refresh (mkToken "" "old" "" "refresh" 0) sample_oauth2)
       [("content-type", "application/json")] "", Ok (mkHttpResponse 200 (Ok refresh_body)))]) as Et by (vm_compute; reflexivity).
  rewrite Ht, Ea in Et. injection Et as _ ->. cbn [hr_Body] in Eb. injection Eb as <-.
  vm_compute in Ex. injection Ex as <-. by split.
Defined.

Definition sample_matcher : gitlabRepoUrlMatcher := mkMatcher (repoUrlRegexp gitlab_com) gitlab_com.
Definition sample_download : downloadFileCapability := NewDownloadFileCapability gitlab_com sample_matcher.
Definition download (path : string) :=
  DownloadFile sample_download (mkFileSpec path gitlab_url "") (mkCredentials "alois" "access") 10.
Lemma gitlab_download_witness :
  net_result gitlab_network gitlab_script (download "/README") = Returns (Ok "hello") /\
  net_result gitlab_network gitlab_script (download "/gone") = Panics "resp.StatusCode" /\
  exists file, (glf_Size file <= 10)%Z /\ DecodeString StdEncoding (glf_Content file) = Ok "hello".
Proof.
  assert (net_result gitlab_network gitlab_script (download "/README") = Returns (Ok "hello")) as E by (vm_compute; reflexivity).
  split; [exact E|]. split; [vm_compute; reflexivity|].
  destruct (gitlab_download _ _ _ _ _ _ (net_exec gitlab_network gitlab_script (download "/README")))
    as [(err & E' & _)|(owner & project & cl & answer & _ & _ & _ & _ & Hc)]; [rewrite E in E'; discriminate E'|].
  destruct (proj1 (Hc "hello") E) as (file & _ & Hs & Hd). exists file. by split.
Defined.

Definition sample_g : Gitlab :=
  mkGitlab (mkGenericLookup "GitLab" (fun _ t => Ret (Returns (t, Ok true))) None (fun _ _ => Ret (Ok None))
    (NewCacheWithExpirationPolicy sample_config NeverMetadataExpirationPolicy) RepoUrlFromSchemalessString)
    gitlab_com sample_download sample_refresh None sample_matcher.
Definition gitlab_check : SPIAccessCheck :=
  mkCheck (sample_meta "check") (mkCheckSpec gitlab_url no_permissions) (mkCheckStatus false "" "" "" "" "").
Definition sample_credentials : Matchable -> prog (res (option Credentials)) :=
  fun _ => Ret (Ok (Some (mkCredentials "alois" "access"))).
Definition checked := CheckRepositoryAccess sample_g sample_credentials gitlab_check.
Definition private_status : SPIAccessCheckStatus :=
  mkCheckStatus true SPIAccessCheckAccessibilityPrivate SPIRepoTypeGit "GitLab" "" "".
Lemma gitlab_access_check_witness :
  net_result gitlab_network gitlab_script checked = Ok private_status /\
  exists rest, private_answer sample_g sample_credentials gitlab_check rest private_status.
Proof.
  assert (net_result gitlab_network gitlab_script checked = Ok private_status) as E by (vm_compute; reflexivity).
  split; [exact E|]. pose proof (net_exec gitlab_network gitlab_script checked) as H. rewrite E in H.
  destruct (gitlab_access_check _ _ _ _ _ H) as (resp & rest & Et & Hp).
  exists rest. destruct (decide (hr_StatusCode resp = 200%Z)); [|exact Hp].
  destruct Hp as (_ & Hpub & _). discriminate Hpub.
Defined.
