(* ===== verification/HostCredentials.v ===== *)
(** * pkg/serviceprovider/hostcredentials

    metadataprovider.go and hostcredentials.go: the provider of last resort.  It
    supports manually uploaded tokens only; a token is matched by its URL and
    its metadata hold nothing but the stored user name. *)

From S2P Require Import Prelude GoStd GoUrl Api Externals SpErrors Effects Samples SpConfig Lookup AccessTokenMapper.
Local Open Scope string_scope.
Local Open Scope list_scope.
Local Open Scope spi_scope.

(** ** metadataprovider.go *)

(** [Fetch] writes the metadata that it returns into the token as well: both are
    one object. *)
Definition Fetch (token : SPIAccessToken) (includeState : bool)
  : prog (SPIAccessToken * res (option TokenMetadata)) :=
  let! data := call (Ts (TsGet token)) in
  Ret match data with
      | Err err => (token, Err (Errorf_w "failed to get the token metadata" err))
      | Ok None => (token, Ok None)
      | Ok (Some data) =>
          let metadata := default empty_metadata (atst_TokenMetadata (at_Status token)) in
          let metadata :=
            if (0 <? String.length (td_Username data))%nat then set_tm_Username (td_Username data) metadata
            else metadata in
          (set_metadata (Some metadata) token, Ok (Some metadata))
      end.

(** The generic lookup asks only for tokens without metadata and stores the answer
    in the token itself. *)
Definition fetch_answer (token : SPIAccessToken) (includeState : bool) : prog (res (option TokenMetadata)) :=
  let! (token, r) := Fetch token includeState in
  Ret r.

(** ** hostcredentials.go *)

Record HostCredentialsProvider := mkHostCredentials { h_lookup : GenericLookup; h_repoUrl : string }.

Section provider.
Context {X : Externals}.

Definition newHostCredentialsProvider (cfg : OperatorConfiguration) (spConfig : option ServiceProviderConfiguration)
: go (res HostCredentialsProvider) :=
match spConfig with
| None => Panics "spConfig"
| Some c =>
    Returns (Ok (mkHostCredentials
      (mkGenericLookup "HostCredentials" MatchAllTokenFilter None fetch_answer
         (NewCacheWithExpirationPolicy cfg NeverMetadataExpirationPolicy) RepoUrlFromSchemalessString)
      (spc_BaseUrl c)))
end.

Definition GetBaseUrl_host (h : HostCredentialsProvider) : string :=
match GetHostWithScheme (h_repoUrl h) with Ok base => base | Err _ => "" end.
(** The getters: there is no capability. *)
Definition host_provider (h : HostCredentialsProvider) : ServiceProvider :=
mkSP (GetBaseUrl_host h) ServiceProviderTypeHostCredentials None false false.

Definition LookupTokens (lookup : res (list SPIAccessToken)) : res (list SPIAccessToken) :=
map_err (Errorf_w "token lookup failed") lookup.
Definition LookupCredentials (lookup : res (option Credentials)) : res (option Credentials) :=
map_err (Errorf_w "credentials lookup failure") lookup.
Definition PersistMetadata (h : HostCredentialsProvider) (token : SPIAccessToken) : prog (SPIAccessToken * option goerr) :=
let! (token, err) := PersistMetadata_generic (h_lookup h) token in
Ret (token, option_map (Errorf_w "metadata persist failed") err).

Definition CheckRepositoryAccess (accessCheck : SPIAccessCheck) : res SPIAccessCheckStatus :=
Ok (mkCheckStatus false SPIAccessCheckAccessibilityUnknown "" "" SPIAccessCheckErrorNotImplemented
      "Access check for generic provider is not implemented.").
Definition MapToken (token : SPIAccessToken) (tokenData : Token) : AccessTokenMapper :=
DefaultMapToken token tokenData.
Definition Validate (ps : Permissions) : list goerr := [].
End provider.

(** ** Manually uploaded tokens *)

(** What is fetched is what is left in the token. *)
Lemma Fetch_token token includeState tr token' r : exec (Fetch token includeState) tr (token', r) ->
  match r with
  | Ok (Some md) => token' = set_metadata (Some md) token
  | _ => token' = token
  end.
Proof.
  unfold Fetch, call. cbn [bind]. intros (x & tr' & -> & [_ H]).
  by destruct x as [[data|]|err]; injection H as -> ->.
Qed.

Lemma fetch_answer_spec token tr r : atst_TokenMetadata (at_Status token) = None ->
  exec (fetch_answer token false) tr r \/ exec (fetch_answer token true) tr r ->
  exists data, tr = [Act (Ts (TsGet token)) data] /\
  r = match data with
      | Err err => Err (Errorf_w "failed to get the token metadata" err)
      | Ok None => Ok None
      | Ok (Some td) => Ok (Some (mkTokenMetadata (td_Username td) "" [] "" 0))
      end.
Proof.
  intros Hm H. assert (exists s, exec (fetch_answer token s) tr r) as [s Hs] by (destruct H; by eexists). clear H.
  unfold fetch_answer in Hs. apply exec_bind in Hs as ([token' r'] & tr1 & tr2 & -> & H1 & [-> ->]). rewrite app_nil_r.
  unfold Fetch, call in H1. cbn [bind] in H1. destruct H1 as (data & tr3 & -> & [-> H1]).
  exists data. split; [done|]. destruct data as [[td|]|err]; injection H1 as -> ->; [|done..].
  rewrite Hm. cbn [default]. by destruct (td_Username td).
Qed.

Section tokens.
Context {X : Externals}.

Lemma host_persist cfg c h token tr token' err :
newHostCredentialsProvider cfg (Some c) = Returns (Ok h) ->
atst_TokenMetadata (at_Status token) = None ->
exec (PersistMetadata h token) tr (token', err) ->
exists data rest, tr = Act (Ts (TsGet token)) data :: rest /\
match data with
| Err _ => rest = [] /\ token' = token /\ err <> None
| Ok None => rest = [] /\ token' = token /\ err = None
| Ok (Some td) => exists now answer,
    writes tr = [WStatusUpdate KToken
      (set_metadata (Some (mkTokenMetadata (td_Username td) "" [] "" (Unix now))) token) answer] /\
    (err = None <-> answer = Ok token')
end.
Proof.
intros Hh Hm H. injection Hh as <-. unfold PersistMetadata in H.
apply exec_bind in H as ([t e] & tr1 & tr2 & -> & H1 & [-> [= -> ->]]). rewrite app_nil_r.
unfold PersistMetadata_generic, Ensure, refresh in H1. cbn [h_lookup gl_MetadataCache gl_Fetch] in H1.
rewrite Hm in H1. cbn [bind] in H1. rewrite Hm in H1.
apply exec_bind in H1 as (data & tr3 & tr4 & -> & H3 & H4).
assert (exec (fetch_answer token false) tr3 data \/ exec (fetch_answer token true) tr3 data) as H3'
  by (destruct (CacheServiceProviderState _); tauto).
apply (fetch_answer_spec token tr3 data Hm) in H3' as (td & -> & ->). exists td, tr4. split; [done|].
destruct td as [[td|]|e'].
- cbn [orb] in H4. unfold Persist in H4. cbn [set_metadata] in H4.
  apply exec_bind in H4 as (stamped & tr5 & tr6 & -> & H5 & H6).
  unfold call in H5. cbn [bind] in H5. destruct H5 as (now & tr7 & -> & [-> ->]).
  unfold kube, call in H6. cbn [bind] in H6. destruct H6 as (answer & tr8 & -> & H6). exists now, answer.
  destruct answer as [o|e']; destruct H6 as [-> [= -> ->]]; (split; [reflexivity|]).
  + by split.
  + by split.
- cbn [orb] in H4. destruct H4 as [-> [= -> ->]]. split; [done|]. split; [|done].
  destruct token as [k m sp st]. destruct st. cbn in *. by rewrite Hm.
- by destruct H4 as [-> [= -> ->]].
Qed.
End tokens.

(** Manually uploaded tokens: with the provider of last resort, a token without
    metadata receives, as soon as data are stored for it, one status update with
    metadata that hold the stored user name and the time and nothing else; without
    data it is left alone, and a failing storage fails the reconciliation. *)
Theorem hostcredentials_metadata {X : Externals} cfg c h token tr token' err :
  newHostCredentialsProvider cfg (Some c) = Returns (Ok h) ->
  atst_TokenMetadata (at_Status token) = None ->
  exec (PersistMetadata h token) tr (token', err) ->
  exists data rest, tr = Act (Ts (TsGet token)) data :: rest /\
  match data with
  | Err _ => rest = [] /\ token' = token /\ err <> None
  | Ok None => rest = [] /\ token' = token /\ err = None
  | Ok (Some td) => exists now answer,
      writes tr = [WStatusUpdate KToken
        (set_metadata (Some (mkTokenMetadata (td_Username td) "" [] "" (Unix now))) token) answer] /\
      (err = None <-> answer = Ok token')
  end.
Proof. apply host_persist. Qed.

Definition uploaded_script : script :=
  mkScript (Err not_found) (Err not_found) (Err not_found) (Err not_found) (Err not_found)
    (Err not_found) (Err not_found) (Err not_found) [] [] [] [] None None None
    (Ok sample_sp) (Ok []) (Ok []) None (Ok (Some (mkToken "alois" "secret" "" "" 0))) (Ok None) (Ok None) (Ok "")
    (Ok (mkDependents (sample_secret "dep" ∅ ∅) [])) None 1700000000000000000.
Definition sample_host : HostCredentialsProvider :=
  mkHostCredentials
    (mkGenericLookup "HostCredentials" MatchAllTokenFilter None fetch_answer
       (NewCacheWithExpirationPolicy sample_config NeverMetadataExpirationPolicy) RepoUrlFromSchemalessString)
    "https://git.example.com/repo".
Definition persisting := PersistMetadata sample_host (sample_token "t" "Ready" None).
Lemma hostcredentials_metadata_witness :
  newHostCredentialsProvider sample_config
    (Some (mkSPConfig ServiceProviderTypeHostCredentials "https://git.example.com/repo" ∅ None)) = Returns (Ok sample_host) /\
  atst_TokenMetadata (at_Status (sample_token "t" "Ready" None)) = None /\
  exists data rest, trace_of uploaded_script persisting = Act (Ts (TsGet (sample_token "t" "Ready" None))) data :: rest.
Proof.
  split; [reflexivity|]. split; [reflexivity|].
  pose proof (scripted_exec uploaded_script persisting) as H.
  destruct (result_of uploaded_script persisting) as [token' err].
  destruct (hostcredentials_metadata sample_config
    (mkSPConfig ServiceProviderTypeHostCredentials "https://git.example.com/repo" ∅ None) sample_host
    (sample_token "t" "Ready" None) _ token' err eq_refl eq_refl H) as (data & rest & E & _).
  exists data, rest. exact E.
Defined.
