(* ===== verification/Providers.v ===== *)
(** * The service providers of the operator

    cmd/operator/operator.go registers the providers of the four packages with
    the factory.  Here their constructors and probes meet the factory of
    [Factory], and the theorem about the factory is read for the providers that
    the operator really has. *)

From S2P Require Import Prelude GoStd GoUrl Api Externals SpErrors Effects Samples SpConfig Lookup Factory.
From S2P Require Quay QuayProvider GitHub GitLab HostCredentials.
Local Open Scope string_scope.
Local Open Scope list_scope.
Local Open Scope spi_scope.

(** ** The initializers *)

(** The providers of the four packages, and what the rest of the operator sees of
    one *)
Inductive provider :=
| PGitHub (g : GitHub.Github) | PGitLab (g : GitLab.Gitlab) | PQuay (q : QuayProvider.Quay)
| PHost (h : HostCredentials.HostCredentialsProvider).

Definition view {X : Externals} (p : provider) : ServiceProvider :=
  match p with
  | PGitHub g => GitHub.github_provider g
  | PGitLab g => GitLab.gitlab_provider g
  | PQuay q => QuayProvider.quay_provider q
  | PHost h => HostCredentials.host_provider h
  end.

(** [Initializer.Constructor.Construct] is called with a configuration that is not
    nil; a constructor that panics all the same would end the process
    ([constructors_return]). *)
Definition constructor {A} (new : option ServiceProviderConfiguration -> go (res A)) (inject : A -> provider)
  (c : ServiceProviderConfiguration) : res provider :=
  match new (Some c) with
  | Returns r => match r with Ok a => Ok (inject a) | Err err => Err err end
  | Panics what => Err (ErrorString what)
  end.
Definition probe (Examine : string -> res string) (repoBaseUrl : string) : prog (res string) := Ret (Examine repoBaseUrl).

Section initializers.
Context {X : Externals} {J : Quay.JwtParser} (cfg : OperatorConfiguration).
(** [metadataProvider.Fetch] of the GitHub package, in the runs in which it
  ends *)
Context (fetch_github : SPIAccessToken -> bool -> prog (res (option TokenMetadata))).

Definition github_Initializer : Initializer provider :=
mkInitializer (Some (probe GitHub.Examine))
  (Some (constructor (GitHub.newGithub fetch_github cfg) PGitHub)).
Definition gitlab_Initializer : Initializer provider :=
mkInitializer (Some (probe GitLab.Examine))
  (Some (constructor (GitLab.newGitlab cfg) PGitLab)).
Definition quay_Initializer : Initializer provider :=
mkInitializer (Some (probe QuayProvider.Examine))
  (Some (constructor (fun c => Returns (QuayProvider.newQuay cfg c)) PQuay)).
Definition hostcredentials_Initializer : Initializer provider :=
mkInitializer None
  (Some (constructor (HostCredentials.newHostCredentialsProvider cfg) PHost)).

Definition initServiceProviders : Initializers provider :=
AddKnownInitializer (AddKnownInitializer (AddKnownInitializer (AddKnownInitializer NewInitializers
  ServiceProviderTypeGitHub github_Initializer) ServiceProviderTypeGitLab gitlab_Initializer)
  ServiceProviderTypeQuay quay_Initializer) ServiceProviderTypeHostCredentials hostcredentials_Initializer.
Definition operator_factory : Factory provider := mkFactory cfg initServiceProviders.

(** ** What they construct *)

Lemma constructors_return c :
(exists r, GitHub.newGithub fetch_github cfg (Some c) = Returns r) /\
(exists r, GitLab.newGitlab cfg (Some c) = Returns r) /\
(exists r, HostCredentials.newHostCredentialsProvider cfg (Some c) = Returns r).
Proof using.
split; [|split].
- unfold GitHub.newGithub. destruct (GitHub.NewDownloadFileCapability _); by eexists.
- unfold GitLab.newGitlab. destruct (GitLab.newRepoUrlMatcher _); by eexists.
- by eexists.
Qed.

(** The provider of type [t] made from the configuration [c]: the table of the
  capabilities *)
Definition provider_for (t : ServiceProviderType) (c : ServiceProviderConfiguration) (sp : ServiceProvider) : Prop :=
GetType sp = t /\
has_DownloadFileCapability sp = one_of (spt_Name t) ["GitHub"; "GitLab"] /\
has_RefreshTokenCapability sp = one_of (spt_Name t) ["GitLab"] /\
(GetOAuthCapability sp = None <-> spt_Name t = "HostCredentials" \/ spc_OAuth2Config c = None) /\
GetBaseUrl_sp sp =
  (if String.eqb (spt_Name t) "Quay" then "https://quay.io"
   else if String.eqb (spt_Name t) "HostCredentials" then
     match GetHostWithScheme (spc_BaseUrl c) with Ok base => base | Err _ => "" end
   else spc_BaseUrl c).

Lemma registered t init : (initServiceProviders : gmap string (Initializer provider)) !! spt_Name t = Some init ->
In t (ServiceProviderTypeHostCredentials :: SupportedServiceProviderTypes) ->
init = if String.eqb (spt_Name t) "GitHub" then github_Initializer
       else if String.eqb (spt_Name t) "GitLab" then gitlab_Initializer
       else if String.eqb (spt_Name t) "Quay" then quay_Initializer
       else hostcredentials_Initializer.
Proof using.
intros H Ht. cbn [In SupportedServiceProviderTypes] in Ht.
assert (forall n a, (initServiceProviders : gmap string (Initializer provider)) !! n = Some a ->
  n = "HostCredentials" /\ a = hostcredentials_Initializer \/ n = "Quay" /\ a = quay_Initializer \/
  n = "GitLab" /\ a = gitlab_Initializer \/ n = "GitHub" /\ a = github_Initializer) as Hl.
{ intros n a Hn. unfold initServiceProviders, AddKnownInitializer, NewInitializers, Initializers in Hn.
  do 4 (apply lookup_insert_Some in Hn as [[<- <-]|[_ Hn]]; [cbn; tauto|]). by apply lookup_empty_Some in Hn. }
apply Hl in H as [[E ->]|[[E ->]|[[E ->]|[E ->]]]]; by rewrite E.
Qed.

Lemma constructed_provider t c p : In t (ServiceProviderTypeHostCredentials :: SupportedServiceProviderTypes) ->
constructed_by operator_factory t c p -> provider_for t c (view p).
Proof using.
intros Ht (init & ctor & Hi & Hc & Hs & _). cbn [fac_Initializers operator_factory] in Hi.
apply registered in Hi; [|done]. subst init. destruct Ht as [<-|[<-|[<-|[<-|[]]]]];
  cbn in Hc; injection Hc as <-; unfold constructor in Hs.
- injection Hs as <-. unfold provider_for. cbn. naive_solver.
- unfold GitHub.newGithub in Hs. destruct (GitHub.NewDownloadFileCapability _); [|done]. injection Hs as <-.
  unfold provider_for. cbn. unfold GitHub.newGithubOAuthCapability. destruct (spc_OAuth2Config c); naive_solver.
- unfold GitLab.newGitlab in Hs. destruct (GitLab.newRepoUrlMatcher _); [|done]. injection Hs as <-.
  unfold provider_for. cbn. destruct (spc_OAuth2Config c); naive_solver.
- injection Hs as <-. unfold provider_for. cbn. destruct (spc_OAuth2Config c); naive_solver.
Qed.

Lemma origin_type ns u tr t c : config_origin operator_factory ns u tr t c ->
In t (ServiceProviderTypeHostCredentials :: SupportedServiceProviderTypes).
Proof using. intros []; [by right..|by left]. Qed.

(** ** The probes *)

(** GitHub and Quay are recognised by their hosts, GitLab never. *)
Lemma probes base :
GitLab.Examine base = Err GitLab.probeNotImplementedError /\
(forall u, GitHub.Examine base = Ok u -> u = "" \/ u = "https://github.com") /\
(forall u, QuayProvider.Examine base = Ok u -> u = "" \/ u = "https://quay.io").
Proof using.
split; [done|]. split.
- intros u. unfold GitHub.Examine. destruct (Parse base); [|done]. destruct (String.eqb _ _); intros [= <-]; [by right|by left].
- intros u. unfold QuayProvider.Examine. destruct (Parse base); [|done]. destruct (_ || _); intros [= <-]; [by right|by left].
Qed.
End initializers.

(** C24 The operator's providers: for every repository URL and whatever the cluster answers, the
    search for a provider never dereferences a nil pointer, and the provider it
    returns is the one registered for the type that the configuration comes from: its type,
    its capabilities (downloads from GitHub and GitLab, refreshing with
    GitLab, OAuth wherever a configuration holds OAuth credentials, none of them for
    the provider of last resort) and its base URL. *)
Theorem operator_providers {X : Externals} {J : Quay.JwtParser} cfg fetch_github repoUrl ns tr r :
  exec (Factory_FromRepoUrl (operator_factory cfg fetch_github) repoUrl ns) tr r ->
  exists answer, r = Val answer /\
  forall p, answer = Ok p ->
  exists u t c, Parse repoUrl = Ok u /\ config_origin (operator_factory cfg fetch_github) ns u tr t c /\
    provider_for t c (view p).
Proof.
  intros H. destruct r as [answer|].
  - exists answer. split; [done|]. intros p ->. unfold Factory_FromRepoUrl in H.
    destruct (Parse repoUrl) as [u|]; [|by destruct H].
    apply try_types_provenance in H as (t & c & Hc & Ho); [|done]. exists u, t, c. split; [done|]. split; [done|].
    eapply constructed_provider; [|exact Hc]. by eapply origin_type.
  - exfalso. revert H. apply FromRepoUrl_no_panic. cbn [fac_Initializers operator_factory].
    unfold initServiceProviders, AddKnownInitializer, NewInitializers, Initializers.
    repeat (apply map_Forall_insert_2; [by eexists|]). apply map_Forall_empty.
Qed.

(** Without any configuration of a user *)
Definition served_by (repoUrl : string) : option (string * string) :=
  match result_of empty_script (Factory_FromRepoUrl
    (operator_factory (J := QuayProvider.sample_jwt) sample_config (fun _ _ => Ret (Ok None))) repoUrl "ns") with
  | Val (Ok p) => Some (spt_Name (GetType (view p)), GetBaseUrl_sp (view p))
  | _ => None
  end.
Example served : map served_by ["https://github.com/a/b"; "https://gitlab.com/a/b"; "https://quay.io/a/b"; "https://git.example.com/a/b"]
  = [Some ("GitHub", "https://github.com"); Some ("GitLab", "https://gitlab.com"); Some ("Quay", "https://quay.io");
     Some ("HostCredentials", "https://git.example.com")].
Proof. vm_compute. reflexivity. Qed.

Lemma operator_providers_witness :
  let f := operator_factory (J := QuayProvider.sample_jwt) sample_config (fun _ _ => Ret (Ok None)) in
  exists u t c p, Parse "https://gitlab.com/a/b" = Ok u /\ provider_for t c (view p) /\
    spt_Name (GetType (view p)) = "GitLab".
Proof.
  intros f. set (p := Factory_FromRepoUrl f "https://gitlab.com/a/b" "ns").
  destruct (operator_providers (J := QuayProvider.sample_jwt) sample_config (fun _ _ => Ret (Ok None))
    "https://gitlab.com/a/b" "ns" _ _ (scripted_exec empty_script p)) as (answer & E & Hsp).
  assert (match result_of empty_script p with Val (Ok q) => spt_Name (GetType (view q)) | _ => "" end = "GitLab") as Hn
    by (vm_compute; reflexivity).
  rewrite E in Hn. destruct answer as [q|e]; [|discriminate Hn].
  destruct (Hsp q eq_refl) as (u & t & c & Hu & _ & Hp).
  exists u, t, c, q. split; [exact Hu|]. split; [exact Hp|exact Hn].
Defined.
