(* ===== verification/System.v ===== *)
(** * The composition of the controllers with the provider packages

    The controllers talk to service providers through the interface [SpE] of
    [Effects] and are verified against every answer it may give.  Here the
    providers of the operator take its place: [with_providers] replaces every
    call of the interface by the program of the package that the factory chose
    (serviceprovider.go: [FromRepoUrl], and the methods of the value it
    returned), and [with_providers_exec] says that what the composition does is
    what the controller does against some answers, so that the theorems about the
    controllers and about the packages combine. *)

From S2P Require Import Prelude GoStd GoUrl GoBase64 Api Externals SpErrors Effects Samples SpConfig Lookup Factory Enqueue RequestControllers BindingController Providers.
From S2P Require Quay QuayProvider GitHub GitLab HostCredentials.
Local Open Scope string_scope.
Local Open Scope list_scope.
Local Open Scope spi_scope.

(** ** The credentials that a lookup may find *)

Definition basic_auth (s : Secret) : Credentials :=
  mkCredentials (map_get (sec_Data s) BasicAuthUsernameKey) (map_get (sec_Data s) BasicAuthPasswordKey).

(** The target of a remote secret in a namespace of the local cluster *)
Definition remote_secret_target (ns : string) (rs : RemoteSecret) (target : TargetStatus) : Prop :=
  rs_Targets rs !! Z.to_nat (getLocalNamespaceTargetIndex (rs_Targets rs) ns) = Some target.

(** Where credentials come from, in the calls of [tr]: the data of a listed,
    ready token that the filter accepted; the secret of a listed remote
    secret; or a labelled secret.  All of them in the namespace of [m]. *)
Inductive credential_source {X : Externals} (l : GenericLookup) (m : Matchable) (tr : list act) : Credentials -> Prop :=
| from_token u tokens token td :
    gl_RepoUrlParser l (m_RepoUrl m) = Ok u -> In (listing l m u (Ok tokens)) tr -> offered l m tokens tr token ->
    In (Act (Ts (TsGet token)) (Ok (Some td))) tr ->
    credential_source l m tr (mkCredentials (td_Username td) (td_AccessToken td))
| from_remote_secret u rss rs target secret :
    gl_RepoUrlParser l (m_RepoUrl m) = Ok u ->
    In (Act (Kube (KList KRemoteSecret (m_ObjNamespace m) [(RSServiceProviderHostLabel, Host u)] None)) (Ok rss)) tr ->
    In rs rss -> matches_filter l m rs = true -> remote_secret_target (m_ObjNamespace m) rs target ->
    In (Act (Kube (KGet KSecret (mkKey (m_ObjNamespace m) (ts_SecretName target)))) (Ok secret)) tr ->
    credential_source l m tr (basic_auth secret)
| from_scm_secret u secret more :
    gl_RepoUrlParser l (m_RepoUrl m) = Ok u ->
    In (Act (Kube (KList KSecret (m_ObjNamespace m)
          [(ScmCredentialsSecretLabel, "scm"); (ScmSecretHostnameLabel, Host u)] None)) (Ok (secret :: more))) tr ->
    credential_source l m tr (basic_auth secret).

Lemma credential_source_incl {X : Externals} l m tr tr' c :
  credential_source l m tr c -> incl tr tr' -> credential_source l m tr' c.
Proof.
  intros H Hi. destruct H; [eapply from_token|eapply from_remote_secret|eapply from_scm_secret];
    eauto using offered_incl.
Qed.

Lemma in_app_l {A} (a : A) l1 l2 : In a l1 -> In a (l1 ++ l2).
Proof. intros H. apply in_app_iff. by left. Qed.
Lemma in_app_r {A} (a : A) l1 l2 : In a l2 -> In a (l1 ++ l2).
Proof. intros H. apply in_app_iff. by right. Qed.

Lemma remote_secret_source {X : Externals} l m tr1 rss tr2 s :
  exec (lookupRemoteSecrets l m) tr1 (Ok rss) -> exec (lookupRemoteSecretSecret l m rss) tr2 (Ok (Some s)) ->
  credential_source l m (tr1 ++ tr2) (basic_auth s).
Proof.
  intros H1 H2. unfold lookupRemoteSecrets in H1.
  destruct (gl_RepoUrlParser l (m_RepoUrl m)) as [u|] eqn:Eu; exec_steps. destruct x as [potential|]; exec_steps.
  unfold lookupRemoteSecretSecret in H2. rewrite Eu in H2.
  destruct (List.filter (matches_filter l m) potential) as [|first rest] eqn:Ef; [by destruct H2 as [_ ?]|].
  pose proof (choose_remote_secret_in u first rest) as Hin. rewrite <- Ef in Hin at 2.
  apply List.filter_In in Hin as [Hin Hm].
  destruct (_ || _); [by destruct H2 as [_ ?]|]. destruct (_ !! _) as [target|] eqn:Et; [|by destruct H2 as [_ ?]].
  exec_steps. destruct x as [s'|]; exec_steps.
  eapply from_remote_secret; [exact Eu|by left|exact Hin|exact Hm|exact Et|]. right. by left.
Qed.

Lemma scm_secret_source {X : Externals} l m tr s :
  exec (lookupSCMSecret l m) tr (Ok (Some s)) -> credential_source l m tr (basic_auth s).
Proof.
  unfold lookupSCMSecret. destruct (gl_RepoUrlParser l (m_RepoUrl m)) as [u|] eqn:Eu; [|by intros [_ ?]].
  intros H. exec_steps. destruct x as [[|s' more]|]; exec_steps.
  eapply from_scm_secret; [exact Eu|by left].
Qed.

(** Credentials that a lookup returns have a source. *)
Lemma credentials_found {X : Externals} lookup l m tr c :
  (forall seg ts, exec lookup seg (Ok ts) -> Lookup l m seg (Ok ts)) ->
  exec (LookupCredentials_generic lookup l m) tr (Ok (Some c)) -> credential_source l m tr c.
Proof.
  intros Hl (tokens & tr1 & tr2 & -> & H1 & H)%exec_bind. destruct tokens as [[|token more]|err]; [| |by destruct H].
  - apply exec_bind in H as ([rss|] & tr3 & tr4 & -> & H3 & H); [|by destruct H].
    apply exec_bind in H as ([found|] & tr5 & tr6 & -> & H5 & H); [|by destruct H].
    apply exec_bind in H as ([[s|]|] & tr7 & tr8 & -> & H7 & [-> H]); [|done..]. injection H as ->. rewrite app_nil_r.
    destruct found as [s'|].
    + destruct H7 as [-> [= ->]]. eapply credential_source_incl; [by eapply remote_secret_source|].
      intros a. rewrite app_nil_r. apply in_app_r.
    + eapply credential_source_incl; [by eapply scm_secret_source|]. intros a Ha. by apply in_app_r, in_app_r, in_app_r.
  - apply Hl, Lookup_found in H1 as (u & listed & tr3 & Hu & -> & Ho). apply List.Forall_inv in Ho.
    exec_steps. destruct x as [[td|]|]; exec_steps.
    eapply from_token; [exact Hu|by left| |by right; apply in_app_r; left].
    eapply offered_incl; [exact Ho|]. intros a Ha. right. by apply in_app_l.
Qed.

(** ** The interface and its implementation *)

(** A lookup in which a goroutine panics ends the process.  It is given this
    answer: what is done with it does not happen. *)
Definition crashed_lookup : goerr := ErrorString "panic".

(** A program for [GenericLookup.Lookup]: any schedule of its goroutines *)
Definition lookup_program : Type := GenericLookup -> Matchable -> prog (res (list SPIAccessToken)).
Definition schedules {X : Externals} (lookup : lookup_program) : Prop :=
  forall l m tr r, exec (lookup l m) tr r -> Lookup l m tr r \/ r = Err crashed_lookup.

Section system.
Context {X : Externals} (f : Factory provider) (lookup : lookup_program).

Definition lookup_of (p : provider) : GenericLookup :=
match p with
| PGitHub g => GitHub.g_lookup g
| PGitLab g => GitLab.g_lookup g
| PQuay q => QuayProvider.q_lookup q
| PHost h => HostCredentials.h_lookup h
end.

(** [GenericLookup.LookupCredentials] of a provider *)
Definition credentials_of (p : provider) (m : Matchable) : prog (res (option Credentials)) :=
LookupCredentials_generic (lookup (lookup_of p) m) (lookup_of p) m.

Context {J : Quay.JwtParser}.

Definition nil_capability : string := "invalid memory address or nil pointer dereference".

Definition p_LookupTokens (p : provider) (b : SPIAccessTokenBinding) : prog (res (list SPIAccessToken)) :=
let! r := lookup (lookup_of p) (Matchable_of_binding b) in
Ret match p with
    | PGitHub _ => GitHub.LookupTokens r
    | PGitLab _ => GitLab.LookupTokens r
    | PQuay _ => QuayProvider.LookupTokens r
    | PHost _ => HostCredentials.LookupTokens r
    end.

Definition p_LookupCredentials (p : provider) (m : Matchable) : prog (res (option Credentials)) :=
let! r := credentials_of p m in
Ret match p with
    | PGitHub _ => GitHub.LookupCredentials r
    | PGitLab _ => GitLab.LookupCredentials r
    | PQuay _ => QuayProvider.LookupCredentials r
    | PHost _ => HostCredentials.LookupCredentials r
    end.

Definition p_PersistMetadata (p : provider) (t : SPIAccessToken) : prog (SPIAccessToken * option goerr) :=
match p with
| PGitHub g => GitHub.PersistMetadata g t
| PGitLab g => GitLab.PersistMetadata g t
| PQuay q => QuayProvider.PersistMetadata q t
| PHost h => HostCredentials.PersistMetadata h t
end.

(** A status with an error: the controller looks at the error only. *)
Definition status_or_error (r : go (SPIAccessCheckStatus * option goerr)) : go (res SPIAccessCheckStatus) :=
match r with
| Returns (status, None) => Returns (Ok status)
| Returns (_, Some err) => Returns (Err err)
| Panics what => Panics what
end.

Definition p_CheckRepositoryAccess (p : provider) (c : SPIAccessCheck) : prog (go (res SPIAccessCheckStatus)) :=
match p with
| PGitHub g => let! r := GitHub.CheckRepositoryAccess g (credentials_of p) c in Ret (Returns r)
| PGitLab g => let! r := GitLab.CheckRepositoryAccess g (credentials_of p) c in Ret (Returns r)
| PQuay q => let! r := QuayProvider.CheckRepositoryAccess (credentials_of p) c in Ret (status_or_error r)
| PHost h => Ret (Returns (HostCredentials.CheckRepositoryAccess c))
end.

Definition p_MapToken (p : provider) (b : SPIAccessTokenBinding) (t : SPIAccessToken) (td : Token)
: prog (res AccessTokenMapper) :=
match p with
| PGitHub _ => Ret (Ok (GitHub.MapToken t td))
| PGitLab _ => Ret (Ok (GitLab.MapToken t td))
| PQuay q => let! (_, mapper) := QuayProvider.MapToken q b t td in Ret (Ok mapper)
| PHost _ => Ret (Ok (HostCredentials.MapToken t td))
end.

Definition p_Validate (p : provider) (ps : Permissions) : list goerr :=
match p with
| PGitHub _ => GitHub.Validate ps
| PGitLab _ => GitLab.Validate ps
| PQuay _ => QuayProvider.Validate ps
| PHost _ => HostCredentials.Validate ps
end.

(** A method of a capability that the provider does not have is called on nil. *)
Definition p_DownloadFile (p : provider) (spec : SPIFileContentRequestSpec) (c : Credentials) (maxSize : Z)
: prog (go (res string)) :=
match p with
| PGitHub g => GitHub.DownloadFile (GitHub.g_baseUrl g) spec c maxSize
| PGitLab g => GitLab.DownloadFile (GitLab.g_downloadFileCapability g) spec c maxSize
| PQuay _ | PHost _ => Ret (Panics nil_capability)
end.

Definition p_RefreshToken (p : provider) (t : option Token) (cfg : OAuth2Config) : prog (go (res Token)) :=
match p with
| PGitLab g => GitLab.RefreshToken (GitLab.g_refreshTokenCapability g) t cfg
| PGitHub _ | PQuay _ | PHost _ => Ret (Panics nil_capability)
end.

Definition returning {A} (p : prog A) : prog (go A) := let! a := p in Ret (Returns a).

(** The method of the provider [p] that a call stands for.  [FetchMetadata] and
  [FilterMatches] are no methods of a provider. *)
Definition provide {Y} (p : provider) (e : SpE Y) : option (prog (go Y)) :=
match e in SpE Y return option (prog (go Y)) with
| FromRepoUrl _ _ => None
| LookupTokens _ b => Some (returning (p_LookupTokens p b))
| LookupCredentials _ m => Some (returning (p_LookupCredentials p m))
| PersistMetadata _ t => Some (returning (p_PersistMetadata p t))
| CheckRepositoryAccess _ c => Some (p_CheckRepositoryAccess p c)
| MapToken _ b t td => Some (returning (p_MapToken p b t td))
| SpValidate _ ps => Some (Ret (Returns (Ok (p_Validate p ps))))
| DownloadFile _ spec c maxSize => Some (p_DownloadFile p spec c maxSize)
| RefreshToken _ t cfg => Some (p_RefreshToken p t cfg)
| FetchMetadata _ _ => None
| FilterMatches _ _ => None
end.

Definition method_of {Y} (cur : option provider) (e : SpE Y) : option (prog (go Y)) :=
match cur with Some p => provide p e | None => None end.

(** The answer of the factory as the controllers see it, and the provider that
  their later calls go to *)
Definition seen (answer : res provider) : res ServiceProvider :=
match answer with Ok p => Ok (view p) | Err err => Err err end.
Definition chosen (cur : option provider) (answer : res provider) : option provider :=
match answer with Ok p => Some p | Err _ => cur end.

Fixpoint with_providers {A} (cur : option provider) (p : prog A) {struct p} : prog (go A) :=
match p with
| Ret a => Ret (Returns a)
| Vis e k =>
    match e in Ev Y return (Y -> option provider -> prog (go A)) -> prog (go A) with
    | Sp se =>
        match se in SpE Y return (Y -> option provider -> prog (go A)) -> prog (go A) with
        | FromRepoUrl url ns => fun k' =>
            let! o := Factory_FromRepoUrl f url ns in
            match o with
            | Val answer => k' (seen answer) (chosen cur answer)
            | NilPanic => Ret (Panics nil_capability)
            end
        | se' => fun k' =>
            match method_of cur se' with
            | Some method =>
                let! r := method in
                match r with
                | Returns x => k' x cur
                | Panics what => Ret (Panics what)
                end
            | None => Vis (Sp se') (fun x => k' x cur)
            end
        end
    | e' => fun k' => Vis e' (fun x => k' x cur)
    end (fun x cur' => with_providers cur' (k x))
end.

(** ** What the composition does *)

(** How the call of [a] is realised while [cur] is the provider: by a run [seg]
  of the factory or of the provider's method, after which the provider is
  [cur']; [None] when the call is left as it is *)
Definition realised (cur : option provider) (a : act) : option (list act -> option provider -> Prop) :=
match act_ev a in Ev Y return Y -> option (list act -> option provider -> Prop) with
| Sp e =>
    match e in SpE Y return Y -> option (list act -> option provider -> Prop) with
    | FromRepoUrl url ns => fun r => Some (fun seg cur' =>
        exists answer, exec (Factory_FromRepoUrl f url ns) seg (Val answer) /\
          r = seen answer /\ cur' = chosen cur answer)
    | e' => fun r =>
        match method_of cur e' with
        | Some method => Some (fun seg cur' => exec method seg (Returns r) /\ cur' = cur)
        | None => None
        end
    end
| _ => fun _ => None
end (act_res a).

(** [linked cur tr tr']: [tr] is [tr'] with a run of the providers in place of
  every call of their interface. *)
Fixpoint linked (cur : option provider) (tr tr' : list act) : Prop :=
match tr' with
| [] => tr = []
| a :: rest' =>
    match realised cur a with
    | Some run => exists seg rest cur', tr = seg ++ rest /\ run seg cur' /\ linked cur' rest rest'
    | None => exists rest, tr = a :: rest /\ linked cur rest rest'
    end
end.

Lemma linked_plain cur a rest' tr : realised cur a = None -> linked cur tr (a :: rest') ->
exists rest, tr = a :: rest /\ linked cur rest rest'.
Proof using. intros E H. cbn [linked] in H. by rewrite E in H. Qed.

Lemma linked_from cur url ns r rest' tr : linked cur tr (Act (Sp (FromRepoUrl url ns)) r :: rest') ->
exists seg rest answer, tr = seg ++ rest /\ exec (Factory_FromRepoUrl f url ns) seg (Val answer) /\
  r = seen answer /\ linked (chosen cur answer) rest rest'.
Proof using.
cbn. intros (seg & rest & cur' & -> & (answer & H & -> & ->) & Hl). by exists seg, rest, answer.
Qed.

Lemma linked_method {Y} p (e : SpE Y) method x rest' tr : provide p e = Some method ->
linked (Some p) tr (Act (Sp e) x :: rest') ->
exists seg rest, tr = seg ++ rest /\ exec method seg (Returns x) /\ linked (Some p) rest rest'.
Proof using.
intros E H. assert (realised (Some p) (Act (Sp e) x) = Some (fun seg cur' => exec method seg (Returns x) /\ cur' = Some p)) as Er
  by (destruct e; try discriminate E; by injection E as <-).
cbn [linked] in H. rewrite Er in H. destruct H as (seg & rest & cur' & -> & [H ->] & Hl). by exists seg, rest.
Qed.

Lemma linked_app cur tr l1 l2 : linked cur tr (l1 ++ l2) ->
exists tr1 tr2 cur', tr = tr1 ++ tr2 /\ linked cur tr1 l1 /\ linked cur' tr2 l2.
Proof using.
revert cur tr. induction l1 as [|a l1 IH]; intros cur tr; cbn [app linked]; [by exists [], tr, cur|].
destruct (realised cur a) as [run|].
- intros (seg & rest & cur1 & -> & Hr & (tr1 & tr2 & cur' & -> & H1 & H2)%IH).
  exists (seg ++ tr1), tr2, cur'. rewrite app_assoc. split_and!; [done| |done]. by exists seg, tr1, cur1.
- intros (rest & -> & (tr1 & tr2 & cur' & -> & H1 & H2)%IH).
  exists (a :: tr1), tr2, cur'. split_and!; [done| |done]. by exists tr1.
Qed.

(** The composition does what the program does against some answers, with a run
  of the providers in place of each of their calls, and nothing else. *)
Lemma with_providers_exec {A} (p : prog A) cur tr a :
exec (with_providers cur p) tr (Returns a) <-> exists tr', exec p tr' a /\ linked cur tr tr'.
Proof using.
revert cur tr. induction p as [a'|Y e k IH]; intros cur tr.
{ split; [intros [-> [= ->]]; by exists []|]. intros (tr' & [-> ->] & H). by rewrite H. }
assert ((forall x, realised cur (Act e x) = None) ->
        exec (Vis e (fun x => with_providers cur (k x))) tr (Returns a) <->
        exists tr', exec (Vis e k) tr' a /\ linked cur tr tr') as Hplain.
{ intros Hn. split.
  - intros (x & tr1 & -> & (tr' & H1 & H2)%IH). exists (Act e x :: tr').
    split; [by apply exec_Vis|]. cbn [linked]. rewrite Hn. by exists tr1.
  - intros (tr' & (x & tr2 & -> & H1) & H2). cbn [linked] in H2. rewrite Hn in H2.
    destruct H2 as (tr1 & -> & H2). apply exec_Vis, IH. by exists tr2. }
assert (forall method, (forall x, realised cur (Act e x) =
            Some (fun seg cur' => exec method seg (Returns x) /\ cur' = cur)) ->
        exec (let! r := method in
              match r with Returns x => with_providers cur (k x) | Panics what => Ret (Panics what) end) tr (Returns a) <->
        exists tr', exec (Vis e k) tr' a /\ linked cur tr tr') as Hmethod.
{ intros method Hm. split.
  - intros (r & tr1 & tr2 & -> & H1 & H2)%exec_bind. destruct r as [x|w]; [|by destruct H2].
    apply IH in H2 as (tr' & H2 & H3). exists (Act e x :: tr'). split; [by apply exec_Vis|].
    cbn [linked]. rewrite Hm. by exists tr1, tr2, cur.
  - intros (tr' & (x & tr2 & -> & H1) & H2). cbn [linked] in H2. rewrite Hm in H2.
    destruct H2 as (seg & rest & cur' & -> & [H2 ->] & H3). apply exec_bind.
    exists (Returns x), seg, rest. split_and!; [done..|]. apply IH. by exists tr2. }
destruct e as [Y e|Y e|Y e|Y e|Y e|Y e|Y e|Y e|Y e|Y e|Y e|kd o|]; try by apply Hplain.
destruct e as [url ns| | | | | | | | | |]; try (destruct cur as [q|]; [by apply Hmethod|by apply Hplain]);
  try (destruct cur as [q|]; by apply Hplain).
clear Hplain Hmethod. cbn [with_providers]. rewrite exec_bind. split.
- intros (o & tr1 & tr2 & -> & H1 & H2). destruct o as [answer|]; [|by destruct H2].
  apply IH in H2 as (tr' & H2 & H3). exists (Act (Sp (FromRepoUrl url ns)) (seen answer) :: tr').
  split; [by apply exec_Vis|]. exists tr1, tr2, (chosen cur answer). split; [done|]. split; [|done]. by exists answer.
- intros (tr' & (x & tr2 & -> & H1) & (seg & rest & answer & -> & H2 & -> & H3)%linked_from).
  exists (Val answer), seg, rest. split_and!; [done..|]. apply IH. by exists tr2.
Qed.
End system.

(** The goroutines of a lookup one after the other *)
Definition sequential {X : Externals} : lookup_program := fun l m =>
  let! r := Lookup_sequential l m in
  Ret match r with Returns tokens => tokens | Panics _ => Err crashed_lookup end.
Lemma sequential_schedules {X : Externals} : schedules sequential.
Proof.
  intros l m tr r (o & H & ->)%exec_bind_ret. destruct o as [tokens|w]; [left; by apply Lookup_sequential_sound|by right].
Qed.

Lemma schedules_found {X : Externals} lookup l m seg ts : schedules lookup ->
  exec (lookup l m) seg (Ok ts) -> Lookup l m seg (Ok ts).
Proof. by intros Hs [H|H]%Hs. Qed.

(** ** Access checks *)

(** The client that credentials make ([CreateAuthenticatedClient]) *)
Definition gitlab_client (base : string) (c : Credentials) : GlClient :=
  if String.eqb (cred_Username c) "" then NewClient (cred_Token c) base
  else NewBasicAuthClient (cred_Username c) (cred_Token c) base.

Section evidence.
Context {X : Externals} (p : provider) (check : SPIAccessCheck) (tr : list act).
Let url := acsp_RepoUrl (ac_Spec check).
Let found := credential_source (lookup_of p) (Matchable_of_check check) tr.

(** An anonymous request for the repository was answered with 200. *)
Definition served_publicly : Prop :=
exists resp, In (Act (Ht (HttpDo (mkHttpRequest "GET" url [] ""))) (Ok resp)) tr /\ hr_StatusCode resp = 200%Z.

(** What justifies that a check reports access *)
Definition evidence : Prop :=
match p with
| PGitHub g => served_publicly \/
    exists owner repo c repository, GitHub.parseGithubRepoUrl g url = Ok (owner, repo) /\ found c /\
      In (Act (Gh (GhRepositoriesGet (cred_Token c) owner repo)) (Ok repository)) tr
| PGitLab g => served_publicly \/
    exists owner project c cl answer,
      GitLab.parseOwnerAndProjectFromUrl (GitLab.g_repoUrlMatcher g) url = Ok (owner, project) /\ found c /\
      cl = gitlab_client (GitLab.g_baseUrl g) c /\
      In (Act (Gl (GlGetProject cl (owner +:+ "/" +:+ project))) answer) tr /\ GitLab.project_read answer = true
| PQuay _ => exists owner repository v credentials resp,
    Quay.splitToOrganizationAndRepositoryAndVersion url = (owner, repository, v) /\
    (forall c, credentials = Ok (Some c) -> found c) /\
    let '(username, token) := QuayProvider.check_credentials credentials in
    In (Quay.quay_request (QuayProvider.repo_info_url owner repository) token "GET" "" "", Ok resp) (exchanges tr) /\
    (hr_StatusCode resp = 200 \/
     ((hr_StatusCode resp = 401 \/ hr_StatusCode resp = 403) /\ token <> "" /\ QuayProvider.isRobot username = true))%Z
| PHost _ => False
end.
End evidence.

Section access_checks.
Context {X : Externals} {J : Quay.JwtParser} (f : Factory provider) (lookup : lookup_program).
Context (Hl : schedules lookup).

Lemma credentials_of_found p m tr c :
exec (credentials_of lookup p m) tr (Ok (Some c)) -> credential_source (lookup_of p) m tr c.
Proof using Hl. apply credentials_found. intros seg ts. by apply schedules_found. Qed.

(** Access that a provider's check reports is justified by its calls. *)
Lemma check_evidence p check tr status :
exec (p_CheckRepositoryAccess lookup p check) tr (Returns (Ok status)) ->
acst_Accessible status = true -> evidence p check tr.
Proof using Hl.
destruct p as [g|g|q|h]; cbn [p_CheckRepositoryAccess evidence].
- intros (r & H & [= <-])%exec_bind_ret Ha. apply GitHub.github_check_exec in H as (resp & rest & -> & _ & H).
  destruct (decide _) as [E|_]; [left; exists resp; split; [by left|done]|right].
  destruct H as [(Hf & _)|(owner & repo & credentials & tr1 & tr2 & Hu & -> & Hc & H)]; [congruence|].
  destruct credentials as [[c|]|err]; [|destruct H as [-> _]; done|destruct H as [Hf _]; congruence].
  destruct H as (answer & -> & Hok & _). destruct answer as [repository|]; [|cbn in Hok; congruence].
  exists owner, repo, c, repository. split; [done|]. split.
  + eapply credential_source_incl; [by apply credentials_of_found|]. intros a Hin. right. by apply in_app_l.
  + right. apply in_app_r. by left.
- intros (r & H & [= <-])%exec_bind_ret Ha. apply GitLab.gitlab_access_check in H as (resp & rest & -> & H).
  destruct (decide _) as [E|_]; [left; exists resp; split; [by left|done]|right].
  destruct H as [| | |tr1 c tr2 err H1 H2|tr1 c tr2 cl owner project answer status Hu H1 H2 Hread _ _]; [done..|].
  exists owner, project, c, cl, answer. split; [done|]. split; [|split; [|split]].
  + eapply credential_source_incl; [by apply credentials_of_found|]. intros a Hin. right. by apply in_app_l.
  + unfold GitLab.CreateAuthenticatedClient in H2. apply exec_bind_ret in H2 as ([e|] & _ & E); [done|]. by apply Ok_inj in E.
  + right. apply in_app_r, in_app_r. by left.
  + congruence.
- intros (r & H & E)%exec_bind_ret Ha. destruct r as [[st [err|]]|]; [done| |done]. injection E as <-.
  apply QuayProvider.quay_check_exec in H
    as [(o & r & v & _ & _ & _ & _ & _ & Hf)|(owner & repository & v & tr1 & tr2 & credentials & Hs & -> & Hc & H)]; [congruence|].
  destruct (QuayProvider.check_credentials credentials) as [username token] eqn:Ec.
  destruct H as [(_ & _ & Hf)|(a & He & Hacc & _)]; [congruence|]. apply Hacc in Ha as (_ & resp & -> & Hcode).
  exists owner, repository, v, credentials, resp. rewrite Ec. split; [done|]. split; [|split; [|done]].
  + intros c ->. eapply credential_source_incl; [by apply credentials_of_found|]. intros a. apply in_app_l.
  + rewrite exchanges_app, He. apply in_app_r. by left.
- by intros [_ [= ->]] Ha.
Qed.

(** The status that answers a live check, by the calls before it *)
Definition justified (req : ObjectKey) (ac : SPIAccessCheck) (calls : list act) (st : SPIAccessCheckStatus) : Prop :=
exists answer found rest, calls = found ++ rest /\
  exec (Factory_FromRepoUrl f (acsp_RepoUrl (ac_Spec ac)) (key_Namespace req)) found (Val answer) /\
  match answer with
  | Ok p => exec (p_CheckRepositoryAccess lookup p ac) rest (Returns (Ok st)) /\
      (acst_Accessible st = true -> evidence p ac rest)
  | Err err => rest = [] /\ acst_Accessible st = acst_Accessible (ac_Status ac) /\ acst_ErrorReason st <> ""
  end.

(** A check that failed is not answered. *)
Definition unanswered (req : ObjectKey) (ac : SPIAccessCheck) (calls : list act) : Prop :=
exists p err found rest, calls = found ++ rest /\
  exec (Factory_FromRepoUrl f (acsp_RepoUrl (ac_Spec ac)) (key_Namespace req)) found (Val (Ok p)) /\
  exec (p_CheckRepositoryAccess lookup p ac) rest (Returns (Err err)).

Lemma check_failed_unanswered req ac asked tr :
check_failed req ac asked -> linked f lookup None tr asked -> unanswered req ac tr.
Proof using.
intros (sp & err & ->) H. apply linked_from in H as (seg & rest & answer & -> & Hf & Hs & H).
destruct answer as [p|]; [|done]. cbn [chosen] in H.
apply (linked_method _ _ _ _ (p_CheckRepositoryAccess lookup p ac)) in H as (seg2 & rest2 & -> & Hc & ->); [|done].
exists p, err, seg, seg2. by rewrite app_nil_r.
Qed.

Lemma check_answer_justified req ac asked st last tr :
check_answer req ac asked st -> linked f lookup None tr (asked ++ [last]) ->
(forall cur, realised f lookup cur last = None) ->
exists calls, tr = calls ++ [last] /\ justified req ac calls st.
Proof using Hl.
intros [(sp & ->)|(err & -> & Hst & Hmsg & Hreason)] H Hlast; cbn [app] in H;
  apply linked_from in H as (seg & rest & answer & -> & Hf & Hs & H).
- destruct answer as [p|]; [|done]. cbn [chosen] in H.
  apply (linked_method _ _ _ _ (p_CheckRepositoryAccess lookup p ac)) in H as (seg2 & rest2 & -> & Hc & H); [|done].
  apply (linked_plain f lookup) in H as (rest3 & -> & ->); [|done].
  exists (seg ++ seg2). rewrite <- app_assoc. split; [done|]. exists (Ok p), seg, seg2.
  split; [done|]. split; [done|]. split; [done|]. by apply check_evidence.
- apply (linked_plain f lookup) in H as (rest3 & -> & ->); [|done].
  destruct answer as [p|err']; [done|]. exists seg. split; [done|]. exists (Err err'), seg, [].
  rewrite app_nil_r. split_and!; [done..|]. rewrite Hreason. by destruct (errors_As_validation err).
Qed.
End access_checks.

(** C6 Access is reported on evidence only.  The access check controller composed with
    the factory, the four provider packages and any schedule of their lookups:
    a reconciliation loads the check, deletes it when its time to live is over,
    or else asks the provider and then writes one status, or
    none when the provider's check fails.  A status that reports
    access is the answer of the provider that the factory chose for the
    repository, and is justified by what the provider was told: an anonymous
    request answered with 200, an API call that succeeded with credentials
    found in the namespace of the check, for Quay also a refusal of the
    credentials of a robot account, and never anything for the provider of last
    resort.  Only a check whose provider cannot be determined keeps the
    access that it reported before, with an error next to it. *)
Theorem access_is_justified {X : Externals} {J : Quay.JwtParser} f lookup cfg req tr o :
  schedules lookup ->
  exec (with_providers f lookup None (Check.Reconcile cfg req)) tr (Returns o) ->
  exists r rest, tr = Act (Kube (KGet KCheck req)) r :: rest /\
  match r with
  | Err _ => rest = []
  | Ok ac => exists now rest', rest = Act Now now :: rest' /\
      if past_ttl now (ac_Meta ac) (opc_AccessCheckTtl cfg) then exists d, rest' = [Act (Kube (KDelete KCheck ac)) d]
      else unanswered f lookup req ac rest' /\ o.2 <> None \/
        exists calls st u, rest' = calls ++ [Act (Kube (KStatusUpdate KCheck (set_ac_Status st ac))) u] /\
          justified f lookup req ac calls st
  end.
Proof.
  intros Hl (tr' & (r & rest & -> & H)%check_exec & Ht)%with_providers_exec.
  apply linked_plain in Ht as (rest2 & -> & Ht); [|done]. exists r, rest2. split; [done|].
  destruct r as [ac|err]; [|by destruct H as [-> _]].
  destruct H as (now & rest' & -> & H). apply linked_plain in Ht as (rest3 & -> & Ht); [|done].
  exists now, rest3. split; [done|]. destruct (past_ttl now _ _).
  - destruct H as (d & -> & _). apply linked_plain in Ht as (rest4 & -> & ->); [|done]. by exists d.
  - apply live_check_exec in H as [(Hc & _ & Ho)|(asked & st & u & -> & Hc & Hu)]; [left|right].
    { split; [|done]. by eapply check_failed_unanswered. }
   
    eapply check_answer_justified in Ht as (calls & -> & Hj); [|done..]. by exists calls, st, u.
Qed.

(** A private repository of GitHub, a ready token of the namespace and its data *)
Definition private_script : script :=
  mkScript (Err not_found) (Err not_found) (Ok GitHub.github_check) (Err not_found) (Err not_found)
    (Err not_found) (Err not_found) (Err not_found) [sample_token "t" "Ready" (Some sample_metadata)] [] [] []
    None None None (Ok sample_sp) (Ok []) (Ok []) None (Ok GitHub.github_data) (Ok None) (Ok None) (Ok "")
    (Ok (mkDependents (sample_secret "dep" ∅ ∅) [])) None 1000.
Definition sample_operator : Factory provider :=
  operator_factory (J := QuayProvider.sample_jwt) sample_config (fun _ _ => Ret (Ok None)).
Definition checking : prog (go Enqueue.outcome) :=
  with_providers (J := QuayProvider.sample_jwt) sample_operator sequential None
    (Check.Reconcile sample_config (mkKey "ns" "check")).
Definition checking_trace := net_trace GitHub.github_network private_script checking.
Definition reported (w : kube_write) : option (bool * string * string) :=
  match w with
  | WStatusUpdate KCheck c _ =>
      Some (acst_Accessible (ac_Status c), acst_Accessibility (ac_Status c), acst_ErrorReason (ac_Status c))
  | _ => None
  end.

Lemma access_is_justified_witness :
  omap reported (writes checking_trace) = [(true, SPIAccessCheckAccessibilityPrivate, "")] /\
  exists r rest, checking_trace = Act (Kube (KGet KCheck (mkKey "ns" "check"))) r :: rest.
Proof.
  split; [vm_compute; reflexivity|].
  pose proof (net_exec GitHub.github_network private_script checking) as H.
  assert (net_result GitHub.github_network private_script checking = Returns (mkResult false (opc_AccessCheckTtl sample_config), None))
    as E by (vm_compute; reflexivity).
  rewrite E in H.
  destruct (access_is_justified (J := QuayProvider.sample_jwt) sample_operator sequential sample_config (mkKey "ns" "check") _ _
    sequential_schedules H) as (r & rest & Ht & _).
  exists r, rest. exact Ht.
Defined.

(** ** File content requests *)

(** The file that a provider's API answered in [tr], within the limit, and its
    contents *)
Definition downloaded (p : provider) (spec : SPIFileContentRequestSpec) (c : Credentials) (limit : Z)
  (tr : list act) (contents : string) : Prop :=
  match p with
  | PGitHub g => exists owner repo answer file,
      GitHub.parseOwnerAndRepoFromUrl (GitHub.g_baseUrl g) (fsp_RepoUrl spec) = Ok (owner, repo) /\
      tr = [Act (Gh (GhGetContents (cred_Token c) owner repo (fsp_FilePath spec) (fsp_Ref spec))) (Ok answer)] /\
      ghc_File answer = Some file /\ (GitHub.GetSize file <= limit)%Z /\ ghf_Content file = Ok contents
  | PGitLab g => exists owner project file,
      let d := GitLab.g_downloadFileCapability g in
      let cl := gitlab_client (GitLab.dl_baseUrl d) c in
      GitLab.parseOwnerAndProjectFromUrl (GitLab.dl_repoMatcher d) (fsp_RepoUrl spec) = Ok (owner, project) /\
      tr = [Act (Gl (GlNewClient cl)) None;
            Act (Gl (GlGetFile cl (owner +:+ "/" +:+ project) (TrimPrefix (fsp_FilePath spec) "/")
              (if String.eqb (fsp_Ref spec) "" then "HEAD" else fsp_Ref spec))) (Ok file)] /\
      (glf_Size file <= limit)%Z /\ DecodeString StdEncoding (glf_Content file) = Ok contents
  | PQuay _ | PHost _ => False
  end.

Lemma download_of_provider p spec c limit tr contents :
  exec (p_DownloadFile p spec c limit) tr (Returns (Ok contents)) -> downloaded p spec c limit tr contents.
Proof.
  destruct p as [g|g|q|h]; cbn [p_DownloadFile downloaded]; [| |by intros [_ ?]..].
  - unfold GitHub.DownloadFile. destruct (GitHub.parseOwnerAndRepoFromUrl _ _) as [[owner repo]|]; [|by intros [_ ?]].
    unfold call. cbn [bind]. intros (x & tr' & -> & H). destruct x as [answer|[err [resp|]]]; [|by destruct H..].
    destruct (ghc_File answer) as [file|] eqn:Ef; [|destruct (ghc_Directory answer); by destruct H].
    destruct (Z.ltb_spec limit (GitHub.GetSize file)) as [|Hs]; [by destruct H|].
    destruct (ghf_Content file) as [content|] eqn:Ec; destruct H as [-> H]; [|done]. injection H as ->.
    exists owner, repo, answer, file. by rewrite Ec.
  - intros [(err & E & _)|(owner & project & cl & answer & Hu & -> & -> & _ & H)]%GitLab.gitlab_download_exec; [done|].
    destruct (proj1 (H contents) eq_refl) as (file & -> & Hs & Hd). by exists owner, project, file.
Qed.

Lemma wrapped_credentials {X : Externals} lookup p m tr c :
  exec (p_LookupCredentials lookup p m) tr (Ok (Some c)) -> exec (credentials_of lookup p m) tr (Ok (Some c)).
Proof.
  intros (r & H & E)%exec_bind_ret. destruct p, r as [o|err]; try discriminate E; by apply Ok_inj in E as ->.
Qed.

(** The status of a file content request *)
Definition delivery {X : Externals} {J : Quay.JwtParser} (f : Factory provider) (lookup : lookup_program)
  (cfg : OperatorConfiguration) (req : SPIFileContentRequest) (calls : list act) (contents : string) : Prop :=
  exists p c found looked got, calls = found ++ looked ++ got /\
    exec (Factory_FromRepoUrl f (fsp_RepoUrl (f_Spec req)) (om_Namespace (f_Meta req))) found (Val (Ok p)) /\
    credential_source (lookup_of p) (Matchable_of_file req) looked c /\
    downloaded p (f_Spec req) c (opc_MaxFileDownloadSize cfg) got contents.

(** C7 What is delivered is the provider's file.  The file content request
    controller composed with the factory, the four provider packages and any
    schedule of their lookups: reconciling a request writes one status of it.
    Unless that is an error without content, it holds in base64 the contents of
    the file that the API of the repository's provider (GitHub or GitLab, no
    other) answered for the requested path and reference, no larger than the
    configured limit, read with credentials found in the namespace of the
    request. *)
Theorem file_delivered_from_provider {X : Externals} {J : Quay.JwtParser} f lookup cfg req tr o :
  schedules lookup ->
  exec (with_providers f lookup None (File.Reconcile_download cfg req)) tr (Returns o) ->
  exists calls g u rest, tr = calls ++ Act (Kube (KStatusUpdate KFile g)) u :: rest /\ after_update rest /\
    ((exists err, g = File.error_status req err) \/
     exists contents, g = File.delivered_status req contents /\ delivery f lookup cfg req calls contents /\
       DecodeString StdEncoding (fst_Content (f_Status g)) = Ok contents).
Proof.
  intros Hl (tr' & (g & u & pre & post & -> & _ & Hpost & _ & Hg)%download_exec & Ht)%with_providers_exec.
  apply linked_app in Ht as (calls & tr2 & cur & -> & Hpre & Ht). apply linked_plain in Ht as (rest & -> & Ht); [|done].
  exists calls, g, u, rest. split; [done|].
  assert (rest = post) as ->.
  { destruct Hpost as [->|[now ->]]; [done|]. by apply linked_plain in Ht as (rest' & -> & ->). }
  split; [done|]. destruct Hg as [?|(sp & c & contents & -> & _ & ->)]; [by left|right].
  exists contents. split; [done|]. split; [|apply base64_roundtrip].
  apply linked_from in Hpre as (found & rest1 & answer & -> & Hf & Hs & H).
  destruct answer as [p|]; [|done]. cbn [chosen] in H.
  apply (linked_method _ _ _ _ (returning (p_LookupCredentials lookup p (Matchable_of_file req)))) in H
    as (looked & rest2 & -> & (r & Hc & [= <-])%exec_bind_ret & H); [|done].
  apply (linked_method _ _ _ _ (p_DownloadFile p (f_Spec req) c (opc_MaxFileDownloadSize cfg))) in H
    as (got & rest3 & -> & Hd & ->); [|done].
  exists p, c, found, looked, got. rewrite app_nil_r. split_and!; [done..| |].
  - apply wrapped_credentials in Hc. by eapply credentials_of_found.
  - by apply download_of_provider.
Qed.

Definition acme_file : SPIFileContentRequest :=
  mkFileRequest (sample_meta "file") (mkFileSpec "README.md" "https://github.com/acme/tool" "") (mkFileStatus "" "" "" "").
Definition downloading : prog (go outcome) :=
  with_providers (J := QuayProvider.sample_jwt) sample_operator sequential None
    (File.Reconcile_download sample_config acme_file).
Definition downloading_trace := net_trace GitHub.github_network private_script downloading.
Definition delivered_file (w : kube_write) : option (string * string) :=
  match w with
  | WStatusUpdate KFile g _ => Some (fst_Phase (f_Status g), fst_Content (f_Status g))
  | _ => None
  end.

Lemma file_delivered_from_provider_witness :
  omap delivered_file (writes downloading_trace) = [(SPIFileContentRequestPhaseDelivered, EncodeToString StdEncoding "hello")] /\
  exists calls g u rest, downloading_trace = calls ++ Act (Kube (KStatusUpdate KFile g)) u :: rest /\ after_update rest.
Proof.
  split; [vm_compute; reflexivity|].
  pose proof (net_exec GitHub.github_network private_script downloading) as H.
  assert (net_result GitHub.github_network private_script downloading =
    Returns (mkResult false (opc_FileContentRequestTtl sample_config - 1000), None)) as E by (vm_compute; reflexivity).
  rewrite E in H.
  destruct (file_delivered_from_provider (J := QuayProvider.sample_jwt) sample_operator sequential sample_config acme_file _ _
    sequential_schedules H) as (calls & g & u & rest & Ht & Hr & _).
  exists calls, g, u, rest. exact (conj Ht Hr).
Defined.

(** ** Linking *)

(** Calls that are left as they are *)
Definition plain (a : act) : Prop := match act_ev a with Sp _ => False | _ => True end.
Lemma plain_realised {X : Externals} {J : Quay.JwtParser} f lookup cur a : plain a -> realised f lookup cur a = None.
Proof. destruct a as [Y e x]. by destruct e. Qed.
Lemma plain_linked {X : Externals} {J : Quay.JwtParser} f lookup cur tr tr' :
  Forall plain tr' -> linked f lookup cur tr tr' -> tr = tr'.
Proof.
  intros H. revert tr. induction H as [|a tr' Ha _ IH]; intros tr Hl; [exact Hl|].
  apply linked_plain in Hl as (rest & -> & Hl); [|by apply plain_realised]. by rewrite (IH _ Hl).
Qed.

(** Linking calls the provider once, to look the tokens up. *)
Lemma persist_plain b token : every plain (persistWithMatchingLabels b token).
Proof.
  unfold every, persistWithMatchingLabels, persist_label, persist_status, updateBindingStatusSuccess, updateBindingStatusError.
  repeat (sat_step || lazymatch goal with |- sat _ _ (bind _ _) => sat_seq end); done.
Qed.
Lemma choose_plain {X : Externals} sp b tokens : every plain (choose_token sp b tokens).
Proof.
  unfold every, choose_token, fail_binding, updateBindingStatusError.
  repeat (sat_step || lazymatch goal with |- sat _ _ (bind _ _) => sat_seq end); done.
Qed.
Lemma linkToken_plain {X : Externals} sp b answer tr r :
  exec (linkToken sp b) (Act (Sp (LookupTokens sp b)) answer :: tr) r -> Forall plain tr.
Proof.
  unfold linkToken. unfold call at 1. cbn [bind]. intros (x & tr' & E & H).
  apply (f_equal (@tail act)) in E. cbn in E. subst tr'.
  revert H. apply every_exec. unfold every.
  repeat (sat_step || lazymatch goal with
    | |- sat _ _ (bind (choose_token _ _ _) _) => eapply sat_bind; [apply choose_plain|intros ? _]
    | |- sat _ _ (bind (persistWithMatchingLabels _ _) _) => eapply sat_bind; [apply persist_plain|intros ? _]
    | |- sat _ _ (bind _ _) => sat_seq
    | |- sat _ _ (updateBindingStatusError _ _ _) => unfold updateBindingStatusError
    end); done.
Qed.

(** The token that a lookup offered, from the calls [found] of that lookup *)
Definition offered_by {X : Externals} (l : GenericLookup) (m : Matchable) (found : list act) (t : SPIAccessToken) : Prop :=
  exists u tokens, gl_RepoUrlParser l (m_RepoUrl m) = Ok u /\ In (listing l m u (Ok tokens)) found /\
    offered l m tokens found t.

(** C13 The binding controller's linking composed with a provider's lookup, under any
    schedule.  The tokens offered are each listed for the provider in the
    namespace of the binding, ready, and accepted by the filter.  A token that
    counts as matching is the first of them with the name of the existing link,
    or the first of all when none has that name; or it was created because none
    was offered and there was no link.  One that does not count as matching is
    the token of the existing link, read from the cluster because none was
    offered. *)
Theorem linked_token_offered {X : Externals} {J : Quay.JwtParser} f lookup p b tr b' t matching :
  schedules lookup ->
  exec (with_providers f lookup (Some p) (linkToken (view p) b)) tr (Returns (b', Ok (t, matching))) ->
  exists found rest tokens, tr = found ++ rest /\
    exec (p_LookupTokens lookup p b) found (Ok tokens) /\ token_origin b tokens rest t matching /\
    Forall (offered_by (lookup_of p) (Matchable_of_binding b) found) tokens.
Proof.
  intros Hl (tr' & H & Ht)%with_providers_exec.
  pose proof H as (_ & answer & tr2 & -> & tokens & -> & Ho & _)%linkToken_exec. apply linkToken_plain in H.
  apply (linked_method _ _ _ _ (returning (p_LookupTokens lookup p b))) in Ht
    as (found & rest & -> & (r & Hf & [= <-])%exec_bind_ret & Ht); [|done].
  apply plain_linked in Ht as ->; [|done]. exists found, tr2, tokens. do 3 (split; [done|]).
  apply exec_bind_ret in Hf as (r & Hf & E).
  assert (r = Ok tokens) as -> by (destruct p, r as [ts|err]; try discriminate E; by apply Ok_inj in E as ->).
  apply schedules_found, Lookup_found in Hf as (u & listed & tr3 & Hu & -> & Hall); [|done].
  eapply List.Forall_impl; [|exact Hall]. intros token Hof. exists u, listed. split; [done|]. split; [by left|].
  eapply offered_incl; [exact Hof|]. intros a Ha. by right.
Qed.

Definition acme_binding : SPIAccessTokenBinding := sample_binding "b" "https://github.com/acme/tool" "".
Definition acme_github : GitHub.Github :=
  GitHub.mkGithub (mkGenericLookup "GitHub" MatchAllTokenFilter None (fun _ _ => Ret (Ok None))
    (NewCacheWithExpirationPolicy sample_config (TtlMetadataExpirationPolicy Hour)) RepoUrlFromString)
    (GitHub.ghRepoRegexp "https://github.com") None "https://github.com".
Definition linking : prog (go (SPIAccessTokenBinding * res (SPIAccessToken * bool))) :=
  with_providers (J := QuayProvider.sample_jwt) sample_operator sequential (Some (PGitHub acme_github))
    (linkToken (view (PGitHub acme_github)) acme_binding).
Definition link_of (r : go (SPIAccessTokenBinding * res (SPIAccessToken * bool))) : option (SPIAccessToken * bool) :=
  match r with Returns (_, Ok l) => Some l | _ => None end.
Lemma link_of_Some r t m : link_of r = Some (t, m) -> exists b, r = Returns (b, Ok (t, m)).
Proof. destruct r as [[b [l|]]|]; [|done..]. intros [= ->]. by exists b. Qed.

Lemma linked_token_offered_witness :
  exists found tokens, In (sample_token "t" "Ready" (Some sample_metadata)) tokens /\
    Forall (offered_by (GitHub.g_lookup acme_github) (Matchable_of_binding acme_binding) found) tokens.
Proof.
  pose proof (net_exec GitHub.github_network private_script linking) as H.
  assert (link_of (net_result GitHub.github_network private_script linking) =
    Some (sample_token "t" "Ready" (Some sample_metadata), true)) as E by (vm_compute; reflexivity).
  apply link_of_Some in E as [b E]. rewrite E in H.
  destruct (linked_token_offered (J := QuayProvider.sample_jwt) sample_operator sequential _ acme_binding _ _ _ _
    sequential_schedules H) as (found & rest & tokens & Ht & _ & Ho & Hall).
  exists found, tokens. split; [|exact Hall].
  inversion Ho as [Hp _| |Hnil _ Hc]; [exact (picked_In _ _ _ Hp)|].
  exfalso. assert (created_tokens (net_trace GitHub.github_network private_script linking) = []) as Hn by (vm_compute; reflexivity).
  rewrite Ht, created_app, Hc in Hn. by destruct (created_tokens found).
Defined.
