(* ===== verification/Metrics.v ===== *)
(** * Metrics

    pkg/spi-shared/metrics (timers around functions), pkg/serviceprovider/metrics.go
    (requests to service providers) and the metrics of the providers' packages,
    of oauth/ and of the data update controller.  A metric is what the code
    tells Prometheus: a count or an observed duration under the values of
    its labels.  A duration is in nanoseconds; the code passes its
    [Seconds()].  The programs of the other files leave the metrics out;
    [fetch_timed] and
    [callback_metered] say that they only read the clock. *)

From S2P Require Import Prelude GoStd Api Externals SpErrors Effects Samples SpConfig OAuthState OAuthSync OAuthService.
From S2P Require Quay QuayProvider GitHub GitLab.
Local Open Scope string_scope.
Local Open Scope list_scope.
Local Open Scope spi_scope.

(** ** Prometheus: vectors and what is told to them *)

Inductive metric_kind := Counter | Histogram.
Record Vec := mkVec { v_Kind : metric_kind; v_Name : string; v_Labels : list string }.
Inductive observation :=
| Inc (v : Vec) (labels : list string)
| Observed (v : Vec) (labels : list string) (duration : Z).

Definition ob_Vec (o : observation) : Vec := match o with Inc v _ | Observed v _ _ => v end.
Definition ob_Labels (o : observation) : list string := match o with Inc _ l | Observed _ l _ => l end.

(** [WithLabelValues] panics unless there is one value for each label; a counter
    counts and a histogram observes. *)
Definition accepted (o : observation) : bool :=
  (length (ob_Labels o) =? length (v_Labels (ob_Vec o)))%nat &&
  match o, v_Kind (ob_Vec o) with Inc _ _, Counter => true | Observed _ _ _, Histogram => true | _, _ => false end.

(** ** pkg/spi-shared/metrics/metrics.go *)

(** The observers; [ValueObserverFuncN] is a function as an observer. *)
Class ValueObserver1 (O T : Type) := { Observe1 : O -> T -> Z -> list observation }.
Class ValueObserver2 (O T U : Type) := { Observe2 : O -> T -> U -> Z -> list observation }.
Class ValueObserver3 (O T U V : Type) := { Observe3 : O -> T -> U -> V -> Z -> list observation }.
Class ValueObserver4 (O T U V W : Type) := { Observe4 : O -> T -> U -> V -> W -> Z -> list observation }.
Class ValueObserver5 (O T U V W Y : Type) := { Observe5 : O -> T -> U -> V -> W -> Y -> Z -> list observation }.

Definition ValueObserverFunc1 (T : Type) : Type := T -> Z -> list observation.
Definition ValueObserverFunc2 (T U : Type) : Type := T -> U -> Z -> list observation.
Definition ValueObserverFunc3 (T U V : Type) : Type := T -> U -> V -> Z -> list observation.
Definition ValueObserverFunc4 (T U V W : Type) : Type := T -> U -> V -> W -> Z -> list observation.
Definition ValueObserverFunc5 (T U V W Y : Type) : Type := T -> U -> V -> W -> Y -> Z -> list observation.

#[export] Instance func1_observer T : ValueObserver1 (ValueObserverFunc1 T) T := {| Observe1 := fun r v metric => r v metric |}.
#[export] Instance func2_observer T U : ValueObserver2 (ValueObserverFunc2 T U) T U :=
  {| Observe2 := fun r v1 v2 metric => r v1 v2 metric |}.
#[export] Instance func3_observer T U V : ValueObserver3 (ValueObserverFunc3 T U V) T U V :=
  {| Observe3 := fun r v1 v2 v3 metric => r v1 v2 v3 metric |}.
#[export] Instance func4_observer T U V W : ValueObserver4 (ValueObserverFunc4 T U V W) T U V W :=
  {| Observe4 := fun r v1 v2 v3 v4 metric => r v1 v2 v3 v4 metric |}.
#[export] Instance func5_observer T U V W Y : ValueObserver5 (ValueObserverFunc5 T U V W Y) T U V W Y :=
  {| Observe5 := fun r v1 v2 v3 v4 v5 metric => r v1 v2 v3 v4 v5 metric |}.

(** A timer: its observer and the instant of its creation *)
Record ValueTimer (O : Type) := mkTimer { vt_Observer : O; vt_startTime : Z }.
Arguments mkTimer {O}. Arguments vt_Observer {O}. Arguments vt_startTime {O}.

Definition elapsedSeconds (start : Z) : prog Z := let! now := call Now in Ret (time_Since now start).

Definition NewValueTimer {O} (observer : O) : prog (ValueTimer O) := let! now := call Now in Ret (mkTimer observer now).

Definition ObserveValuesAndDuration1 {O T} `{ValueObserver1 O T} (o : ValueTimer O) (val : T) : prog (T * list observation) :=
  let! d := elapsedSeconds (vt_startTime o) in Ret (val, Observe1 (vt_Observer o) val d).
Definition ObserveValuesAndDuration2 {O T U} `{ValueObserver2 O T U} (o : ValueTimer O) (v1 : T) (v2 : U)
  : prog (T * U * list observation) :=
  let! d := elapsedSeconds (vt_startTime o) in Ret (v1, v2, Observe2 (vt_Observer o) v1 v2 d).
Definition ObserveValuesAndDuration3 {O T U V} `{ValueObserver3 O T U V} (o : ValueTimer O) (v1 : T) (v2 : U) (v3 : V)
  : prog (T * U * V * list observation) :=
  let! d := elapsedSeconds (vt_startTime o) in Ret (v1, v2, v3, Observe3 (vt_Observer o) v1 v2 v3 d).
Definition ObserveValuesAndDuration4 {O T U V W} `{ValueObserver4 O T U V W} (o : ValueTimer O)
  (v1 : T) (v2 : U) (v3 : V) (v4 : W) : prog (T * U * V * W * list observation) :=
  let! d := elapsedSeconds (vt_startTime o) in Ret (v1, v2, v3, v4, Observe4 (vt_Observer o) v1 v2 v3 v4 d).
Definition ObserveValuesAndDuration5 {O T U V W Y} `{ValueObserver5 O T U V W Y} (o : ValueTimer O)
  (v1 : T) (v2 : U) (v3 : V) (v4 : W) (v5 : Y) : prog (T * U * V * W * Y * list observation) :=
  let! d := elapsedSeconds (vt_startTime o) in Ret (v1, v2, v3, v4, v5, Observe5 (vt_Observer o) v1 v2 v3 v4 v5 d).

(** ** pkg/serviceprovider/metrics.go *)

Definition RequestCountMetric : Vec :=
  mkVec Counter "service_provider_request_count_total" ["sp"; "hostname"; "method"; "failure"; "operation"].
Definition ResponseTimeMetric : Vec :=
  mkVec Histogram "service_provider_response_time_seconds" ["sp"; "hostname"; "method"; "status"; "operation"].

(** The first registration that fails ends it. *)
Definition RegisterCommonMetrics (Register : Vec -> prog (option goerr)) : prog (option goerr) :=
  let! e := Register RequestCountMetric in
  match e with
  | Some err => Ret (Some (Errorf_w "failed to register service provider request count metric" err))
  | None =>
      let! e := Register ResponseTimeMetric in
      Ret (option_map (Errorf_w "failed to register service provider response time metric") e)
  end.

(** A request: its host and method; a response: its status *)
Record RequestInfo := mkRequestInfo { ri_Host : string; ri_Method : string }.

Definition requestCountPicker (spType operation : string) (request : RequestInfo) (response : option Z) (err : option goerr)
  : list observation :=
  let failed := match err, response with None, Some _ => "false" | _, _ => "true" end in
  [Inc RequestCountMetric [spType; ri_Host request; ri_Method request; failed; operation]].
Definition responseTimePicker (spType operation : string) (request : RequestInfo) (resp : option Z) (err : option goerr)
  (duration : Z) : list observation :=
  match resp with
  | None => []
  | Some code => [Observed ResponseTimeMetric [spType; ri_Host request; ri_Method request; FormatInt code; operation] duration]
  end.

Record HttpMetricCollectionConfig := mkCollection {
  CounterPicker : RequestInfo -> option Z -> option goerr -> list observation;
  HistogramOrSummaryPicker : RequestInfo -> option Z -> option goerr -> Z -> list observation }.
Definition CommonRequestMetricsConfig (spType : ServiceProviderType) (operation : string) : HttpMetricCollectionConfig :=
  mkCollection (requestCountPicker (spt_Name spType) operation) (responseTimePicker (spt_Name spType) operation).

(** The configurations of the packages *)
Definition request_metrics : list HttpMetricCollectionConfig :=
  [CommonRequestMetricsConfig ServiceProviderTypeGitHub "fetch_public_repo";
   CommonRequestMetricsConfig ServiceProviderTypeGitHub "fetch_single_repo";
   CommonRequestMetricsConfig ServiceProviderTypeGitHub "fetch_all_repo_metadata";
   CommonRequestMetricsConfig ServiceProviderTypeGitLab "fetch_public_repo";
   CommonRequestMetricsConfig ServiceProviderTypeGitLab "fetch_single_repo";
   CommonRequestMetricsConfig ServiceProviderTypeQuay "fetch_repo_metadata"].

(** ** The metadata providers *)

Definition fetch_vec (name : string) : Vec := mkVec Histogram name ["failure"].

(** metadataFetchTimer of the GitHub and GitLab packages: nothing is observed for
    a token without data. *)
Definition fetch_observer (v : Vec) : ValueObserverFunc2 (option TokenMetadata) (option goerr) := fun m err metric =>
  match err, m with
  | None, Some _ => [Observed v ["false"] metric]
  | None, None => []
  | Some _, _ => [Observed v ["true"] metric]
  end.
Definition github_metadataFetchMetric : Vec := fetch_vec "github_token_metadata_fetch_seconds".
Definition gitlab_metadataFetchMetric : Vec := fetch_vec "gitlab_token_metadata_fetch_seconds".

(** A Go function that returns a value and an error *)
Definition value_of {A} (r : res (option A)) : option A := match r with Ok v => v | Err _ => None end.
Definition error_of {A} (r : res A) : option goerr := match r with Ok _ => None | Err err => Some err end.
Definition as_result {A} (v : option A) (err : option goerr) : res (option A) :=
  match err with Some err => Err err | None => Ok v end.

(** [timer.ObserveValuesAndDuration(p(...))], where [p] may end in other ways than
    returning a value and an error ([values b = None]): then the timer is passed by. *)
Definition timed {A B} (observer : ValueObserverFunc2 (option A) (option goerr)) (values : B -> option (res (option A)))
  (returned : res (option A) -> B) (p : prog B) : prog (B * list observation) :=
  let! timer := NewValueTimer observer in
  let! b := p in
  match values b with
  | Some r =>
      let! (m, err, obs) := ObserveValuesAndDuration2 timer (value_of r) (error_of r) in
      Ret (returned (as_result m err), obs)
  | None => Ret (b, [])
  end.

(** [Fetch] of the two packages: [doFetch] under the timer *)
Definition github_outcome : Type := option (go (res (option TokenMetadata))).
Definition github_values (b : github_outcome) : option (res (option TokenMetadata)) :=
  match b with Some (Returns r) => Some r | _ => None end.
Definition github_Fetch (fuel : nat) (token : SPIAccessToken) (includeState : bool) : prog (github_outcome * list observation) :=
  timed (fetch_observer github_metadataFetchMetric) github_values (fun r => Some (Returns r))
    (GitHub.doFetch fuel token includeState).
Definition gitlab_Fetch (baseUrl : string) (token : SPIAccessToken) (includeState : bool)
  : prog (res (option TokenMetadata) * list observation) :=
  timed (fetch_observer gitlab_metadataFetchMetric) Some (fun r => r) (GitLab.doFetch baseUrl token includeState).

(** Quay: nothing is observed for what the cache answered. *)
Definition quay_metadataFetchMetric : Vec := fetch_vec "quay_single_repo_metadata_fetch_seconds".
Definition quay_observer : ValueObserverFunc3 (option QuayProvider.RepositoryMetadata) bool (option goerr) :=
  fun m cached err dur =>
  match err, m with
  | None, Some _ => if cached then [] else [Observed quay_metadataFetchMetric ["false"] dur]
  | None, None => []
  | Some _, _ => [Observed quay_metadataFetchMetric ["true"] dur]
  end.
Definition quay_metadataFetchTimer := NewValueTimer quay_observer.

(** ** github.go *)

Definition unexpectedStatusCounter : Vec := mkVec Counter "github_public_repo_unexpected_response_status" ["unexpected_status"].
Definition rateLimitErrorCounter : Vec := mkVec Counter "github_rate_limit_errors" [].
Definition public_repo_observations (statusCode : Z) : list observation :=
  if (statusCode =? 200)%Z || (statusCode =? 404)%Z then [] else [Inc unexpectedStatusCounter [FormatInt statusCode]].
(** [is_rate_limit]: errors.As for a RateLimitError of go-github *)
Definition checkRateLimitError (is_rate_limit : goerr -> bool) (err : option goerr) : list observation :=
  match err with
  | Some e => if is_rate_limit e then [Inc rateLimitErrorCounter []] else []
  | None => []
  end.

(** ** The data update controller *)

Definition objectLifetimeMetric : Vec := mkVec Histogram "spiaccesstokendataupdate_lifetime_seconds" [].
Definition lifetime_observation (now creationTime : Z) : observation :=
  Observed objectLifetimeMetric [] (time_Since now creationTime).

(** ** oauth/metrics.go, and the end of [CallbackRoute.ServeHTTP] *)

Definition HttpServiceRequestCountMetric : Vec := mkVec Counter "oauth_service_requests_total" ["code"; "method"].
Definition FlowCompleteTimeMetric : Vec := mkVec Histogram "oauth_flow_complete_time_seconds" ["type"; "url"].

(** time.Time{}: January 1 of the year 1 *)
Definition zero_Time : Z := (-62135596800 * Second)%Z.

Section callback.
Context {X : Externals} {E : OAuthExternals} (cfg : OAuthServiceConfiguration).

(** With the observation: an instant that cannot be determined is the zero time,
  and is observed as well. *)
Definition Callback_ServeHTTP_metered (controllers : list ServiceProviderType) (r : Request)
: prog (list response * list observation) :=
let! f := findController controllers r true in
match f with
| Err _ => Ret ([not_found_response], [])
| Ok (ctrl, state) =>
    let! written := Callback cfg ctrl r state in
    let! v := StateVeiledAt r in
    let '(written, veiledAt) :=
      match v with
      | Err _ => (written ++ [not_found_response], zero_Time)
      | Ok seconds => (written, (seconds * Second)%Z)
      end in
    let! now := call Now in
    Ret (written, [Observed FlowCompleteTimeMetric [oi_ServiceProviderName state; oi_ServiceProviderUrl state]
                     (time_Since now veiledAt)])
end.
End callback.

(** ** What the metrics change: nothing but readings of the clock *)

Lemma as_result_of {A} (r : res (option A)) : as_result (value_of r) (error_of r) = r.
Proof. by destruct r. Qed.

(** The timers are transparent for any number of values. *)
Lemma elapsed_exec start tr d : exec (elapsedSeconds start) tr d <-> exists now, tr = [Act Now now] /\ d = time_Since now start.
Proof.
  unfold elapsedSeconds, call. cbn [bind]. split.
  - intros (now & tr' & -> & [-> ->]). by exists now.
  - intros (now & -> & ->). by exists now, [].
Qed.
Lemma observe_exec {A} start (f : Z -> A) tr a :
  exec (let! d := elapsedSeconds start in Ret (f d)) tr a <-> exists now, tr = [Act Now now] /\ a = f (time_Since now start).
Proof.
  rewrite exec_bind_ret. split.
  - intros (d & (now & -> & ->)%elapsed_exec & ->). by exists now.
  - intros (now & -> & ->). exists (time_Since now start). split; [|done]. apply elapsed_exec. by exists now.
Qed.
Lemma timers_transparent {O} start (obs : O) :
  (forall T `{ValueObserver1 O T} v tr a, exec (ObserveValuesAndDuration1 (mkTimer obs start) v) tr a <->
     exists now, tr = [Act Now now] /\ a = (v, Observe1 obs v (time_Since now start))) /\
  (forall T U `{ValueObserver2 O T U} v1 v2 tr a, exec (ObserveValuesAndDuration2 (mkTimer obs start) v1 v2) tr a <->
     exists now, tr = [Act Now now] /\ a = (v1, v2, Observe2 obs v1 v2 (time_Since now start))) /\
  (forall T U V `{ValueObserver3 O T U V} v1 v2 v3 tr a, exec (ObserveValuesAndDuration3 (mkTimer obs start) v1 v2 v3) tr a <->
     exists now, tr = [Act Now now] /\ a = (v1, v2, v3, Observe3 obs v1 v2 v3 (time_Since now start))) /\
  (forall T U V W `{ValueObserver4 O T U V W} v1 v2 v3 v4 tr a,
     exec (ObserveValuesAndDuration4 (mkTimer obs start) v1 v2 v3 v4) tr a <->
     exists now, tr = [Act Now now] /\ a = (v1, v2, v3, v4, Observe4 obs v1 v2 v3 v4 (time_Since now start))) /\
  (forall T U V W Y `{ValueObserver5 O T U V W Y} v1 v2 v3 v4 v5 tr a,
     exec (ObserveValuesAndDuration5 (mkTimer obs start) v1 v2 v3 v4 v5) tr a <->
     exists now, tr = [Act Now now] /\ a = (v1, v2, v3, v4, v5, Observe5 obs v1 v2 v3 v4 v5 (time_Since now start))).
Proof. split_and!; intros; apply (observe_exec start). Qed.

(** A function under a timer *)
Lemma fetch_timed {A B} (obs : ValueObserverFunc2 (option A) (option goerr)) (values : B -> option (res (option A)))
  (returned : res (option A) -> B) (p : prog B) tr r o :
  (forall b x, values b = Some x -> returned x = b) ->
  exec (timed obs values returned p) tr (r, o) <->
  exists t0 tr' rest, tr = Act Now t0 :: tr' ++ rest /\ exec p tr' r /\
    match values r with
    | Some x => exists t1, rest = [Act Now t1] /\ o = obs (value_of x) (error_of x) (time_Since t1 t0)
    | None => rest = [] /\ o = []
    end.
Proof.
  intros Hj. unfold timed, NewValueTimer, call. cbn [bind]. split.
  - intros (t0 & tr1 & -> & (b & tr2 & tr3 & -> & H1 & H2)%exec_bind). destruct (values b) as [x|] eqn:Es.
    + apply exec_bind in H2 as ([[m err] os] & tr4 & tr5 & -> & H2 & [-> [= -> ->]]). rewrite app_nil_r.
      apply (observe_exec t0) in H2 as (t1 & -> & [= -> -> ->]). rewrite as_result_of, (Hj _ _ Es).
      exists t0, tr2, [Act Now t1]. split; [done|]. split; [done|]. rewrite Es. by exists t1.
    + destruct H2 as [-> [= -> ->]]. exists t0, tr2, []. by rewrite Es.
  - intros (t0 & tr2 & rest & -> & H1 & H2). exists t0, (tr2 ++ rest). split; [done|]. apply exec_bind.
    exists r, tr2, rest. split; [done|]. split; [done|]. destruct (values r) as [x|] eqn:Es.
    + destruct H2 as (t1 & -> & ->). apply exec_bind. exists (value_of x, error_of x, obs (value_of x) (error_of x) (time_Since t1 t0)), [Act Now t1], [].
      split; [done|]. split; [by apply (observe_exec t0); exists t1|]. by rewrite as_result_of, (Hj _ _ Es).
    + by destruct H2 as [-> ->].
Qed.

(** The end of a callback *)
Lemma callback_metered {X : Externals} {E : OAuthExternals} cfg controllers r tr out obs :
  exec (Callback_ServeHTTP_metered cfg controllers r) tr (out, obs) ->
  (exec (Callback_ServeHTTP cfg controllers r) tr out /\ obs = []) \/
  exists tr' now veiledAt state, tr = tr' ++ [Act Now now] /\ exec (Callback_ServeHTTP cfg controllers r) tr' out /\
    obs = [Observed FlowCompleteTimeMetric [oi_ServiceProviderName state; oi_ServiceProviderUrl state] (time_Since now veiledAt)].
Proof.
  unfold Callback_ServeHTTP_metered, Callback_ServeHTTP. intros (f & tr1 & tr2 & -> & H1 & H)%exec_bind.
  destruct f as [[ctrl state]|err].
  2: { destruct H as [-> [= -> ->]]. left. split; [|done]. apply exec_bind. by exists (Err err), tr1, []. }
  apply exec_bind in H as (written & tr3 & tr4 & -> & H2 & H).
  apply exec_bind in H as (v & tr5 & tr6 & -> & H3 & H). right.
  assert (forall out', (match v with Err _ => Ret (written ++ [not_found_response]) | Ok _ => Ret written end) = Ret out' ->
    exec (let! f := findController controllers r true in
          match f with
          | Err _ => Ret [not_found_response]
          | Ok (ctrl, state) =>
              let! written := Callback cfg ctrl r state in
              let! v := StateVeiledAt r in
              match v with Err _ => Ret (written ++ [not_found_response]) | Ok _ => Ret written end
          end) (tr1 ++ tr3 ++ tr5) out') as Hrun.
  { intros out' Ho. apply exec_bind. exists (Ok (ctrl, state)), tr1, (tr3 ++ tr5). do 2 (split; [done|]).
    apply exec_bind. exists written, tr3, tr5. do 2 (split; [done|]).
    apply exec_bind. exists v, tr5, []. rewrite app_nil_r, Ho. by repeat split. }
  unfold call in H. destruct v as [seconds|err]; cbn [bind] in H; destruct H as (now & tr7 & -> & [-> [= -> ->]]);
    exists (tr1 ++ tr3 ++ tr5), now; eexists _, state; rewrite <- !app_assoc; (split; [done|]); (split; [by apply Hrun|done]).
Qed.

(** The metrics observe and change nothing.  Fetching metadata under its
    timer is fetching it, between two readings of the clock: every outcome
    is passed on, and exactly one duration is observed where the fetch ended
    with metadata or an error, none where there is no token data or no outcome.
    A metered callback is the callback, with one reading of the clock after it.
    Whatever is observed has a value for each label of its vector, so that
    Prometheus never panics. *)
Theorem metrics_transparent {X : Externals} {E : OAuthExternals} :
  (forall fuel token st tr r obs,
     exec (github_Fetch fuel token st) tr (r, obs) <->
     exists t0 tr' rest, tr = Act Now t0 :: tr' ++ rest /\ exec (GitHub.doFetch fuel token st) tr' r /\
       match github_values r with
       | Some x => exists t1, rest = [Act Now t1] /\
           obs = fetch_observer github_metadataFetchMetric (value_of x) (error_of x) (time_Since t1 t0)
       | None => rest = [] /\ obs = []
       end) /\
  (forall baseUrl token st tr r obs,
     exec (gitlab_Fetch baseUrl token st) tr (r, obs) <->
     exists t0 t1 tr', tr = Act Now t0 :: tr' ++ [Act Now t1] /\ exec (GitLab.doFetch baseUrl token st) tr' r /\
       obs = fetch_observer gitlab_metadataFetchMetric (value_of r) (error_of r) (time_Since t1 t0)) /\
  (forall cfg controllers r tr out obs, exec (Callback_ServeHTTP_metered cfg controllers r) tr (out, obs) ->
     Forall (fun o => accepted o = true) obs /\
     exists tr', exec (Callback_ServeHTTP cfg controllers r) tr' out /\ (tr = tr' \/ exists now, tr = tr' ++ [Act Now now])) /\
  (forall v m err d, In v [github_metadataFetchMetric; gitlab_metadataFetchMetric] ->
     Forall (fun o => accepted o = true) (fetch_observer v m err d) /\
     length (fetch_observer v m err d) = match err, m with None, None => 0 | _, _ => 1 end) /\
  (forall c request response err d, In c request_metrics ->
     Forall (fun o => accepted o = true) (CounterPicker c request response err ++ HistogramOrSummaryPicker c request response err d)).
Proof.
  split_and!.
  - intros. apply fetch_timed. intros [[r0|]|] x E'; try discriminate E'. by injection E' as ->.
  - intros. unfold gitlab_Fetch. rewrite fetch_timed by (intros b x E'; by injection E'). split.
    + intros (t0 & tr' & rest & -> & H & (t1 & -> & ->)). by exists t0, t1, tr'.
    + intros (t0 & t1 & tr' & -> & H & ->). exists t0, tr', [Act Now t1]. split; [done|]. split; [done|]. by exists t1.
  - intros cfg controllers r tr out obs [[H ->]|(tr' & now & veiledAt & state & -> & H & ->)]%callback_metered.
    + split; [constructor|]. exists tr. by split; [|left].
    + split; [by repeat constructor|]. exists tr'. split; [done|]. right. by exists now.
  - intros v m err d Hv. assert (v_Labels v = ["failure"] /\ v_Kind v = Histogram) as [Hl Hk]
      by by repeat (destruct Hv as [<-|Hv]; [by split|]).
    unfold fetch_observer. destruct err as [e|]; [|destruct m as [md|]]; cbn; (split; [|done]);
      repeat constructor; unfold accepted; cbn; by rewrite Hl, Hk.
  - intros c request response err d Hc.
    assert (exists t op, c = CommonRequestMetricsConfig t op) as (t & op & ->)
      by (repeat (destruct Hc as [<-|Hc]; [by eexists _, _|]); destruct Hc).
    cbn. unfold responseTimePicker. destruct response as [code|]; by repeat constructor.
Qed.

(** The duration of a flow whose beginning is not known is observed all the same:
    292 years, the largest duration. *)
Example unknown_beginning now : (0 <= now)%Z -> time_Since now zero_Time = max_int64.
Proof. unfold time_Since, time_Sub, zero_Time, Second, max_int64, min_int64. lia. Qed.
