(* ===== verification/OtherControllers.v ===== *)
(** * controllers/environment_controller.go and application_controller.go

    When an environment is deleted, its finalizer takes its target out of the
    remote secrets made for it; when an application is deleted, its finalizer deletes the
    remote secrets made for it.  Remote secrets of builds are never listed. *)

From S2P Require Import Prelude GoStd Api Externals SpErrors Effects Samples BindingTarget Enqueue TokenController.
Local Open Scope string_scope.
Local Open Scope list_scope.
Local Open Scope spi_scope.

Definition linkedRemoteSecretsTargetFinalizerName : string := "spi.appstudio.redhat.com/remote-secrets".
Definition ignoredSecretsLabelName : string := "ui.appstudio.redhat.com/secret-for".
Definition ignoredSecretsLabelValues : list string := ["Build"].
Definition ApplicationLabelName : string := "appstudio.redhat.com/application".
Definition EnvironmentLabelAndAnnotationName : string := "appstudio.redhat.com/environment".
Definition unableToFetchRemoteSecretsError : goerr := ErrorString "unable to fetch the Remote Secrets list".
Definition unableToUpdateRemoteSecret : goerr := ErrorString "unable to update the remote secret".
Definition unableToDeleteRemoteSecret : goerr :=
  ErrorString "unable to delete the remote secret with application removal".

Section controllers.
Context {X : Externals}.

(** ** environment_controller.go *)

Definition targetsMatch (target1 target2 : RemoteSecretTarget) : bool :=
String.eqb (rst_Namespace target1) (rst_Namespace target2) && String.eqb (rst_ApiUrl target1) (rst_ApiUrl target2) &&
String.eqb (rst_ClusterCredentialsSecret target1) (rst_ClusterCredentialsSecret target2).

Definition removeTarget (target : RemoteSecretTarget) (secret : RemoteSecret) : RemoteSecret :=
set_rs_SpecTargets (List.filter (fun existingTarget => negb (targetsMatch existingTarget target)) (rs_SpecTargets secret)) secret.

(** First the annotation, a list of names, then the label *)
Definition applicableForEnvironment (environmentName : string) (remoteSecret : RemoteSecret) : bool :=
let annotated :=
  match om_Annotations (rs_Meta remoteSecret) !! EnvironmentLabelAndAnnotationName with
  | Some annotationValue => existsb (String.eqb environmentName) (cs_Values (cs_Value annotationValue))
  | None => false
  end in
if annotated then true
else match om_Labels (rs_Meta remoteSecret) !! EnvironmentLabelAndAnnotationName with
     | Some labelValue => String.eqb labelValue environmentName
     | None => false
     end.

Definition detectTargetFromEnvironment (environment : Environment) : RemoteSecretTarget :=
match existsb (String.eqb "managed") (env_Tags environment), env_UnstableConfigurationFields environment with
| true, Some target => target
| _, _ => mkRemoteSecretTarget (om_Namespace (env_Meta environment)) "" ""
end.

Fixpoint remove_from (environmentName : string) (target : RemoteSecretTarget) (items : list RemoteSecret)
: prog (option goerr) :=
match items with
| [] => Ret None
| remoteSecret :: rest =>
    if negb (applicableForEnvironment environmentName remoteSecret) then remove_from environmentName target rest
    else
      let! u := kube (KUpdate KRemoteSecret (removeTarget target remoteSecret)) in
      match u with
      | Err _ => Ret (Some unableToUpdateRemoteSecret)
      | Ok _ => remove_from environmentName target rest
      end
end.

Definition linkedEnvRemoteSecretsFinalizer_Finalize (k : kind) (o : obj k) : prog (option goerr) :=
match k as k return obj k -> prog (option goerr) with
| KEnvironment => fun environment =>
    let! l := kube (KListNotIn KRemoteSecret (om_Namespace (env_Meta environment))
                      ignoredSecretsLabelName ignoredSecretsLabelValues) in
    match l with
    | Err _ => Ret (Some unableToFetchRemoteSecretsError)
    | Ok items =>
        if (length items =? 0)%nat then Ret None
        else remove_from (om_Name (env_Meta environment)) (detectTargetFromEnvironment environment) items
    end
| _ => fun _ => Ret (Some unexpectedObjectTypeError)
end o.

Definition Environment_Reconcile (req : ObjectKey) : prog outcome :=
let! r := kube (KGet KEnvironment req) in
match r with
| Err err => if IsNotFound err then Ret done_ok else Ret (failed "failed to load environment from cluster" err)
| Ok environment =>
    let! fin := call (Finalize KEnvironment environment) in
    match fin_err fin with
    | Some err => Ret (failed "failed to finalize" err)
    | None =>
        let! u := update_if (k := KEnvironment) (fin_Updated fin) (fin_obj fin) in
        Ret match u with
            | Err err => failed "failed to update environment based on finalization result" err
            | Ok _ => done_ok
            end
    end
end.

(** ** application_controller.go *)

(** A missing label reads as the empty string. *)
Definition application_of (remoteSecret : RemoteSecret) : string :=
default "" (om_Labels (rs_Meta remoteSecret) !! ApplicationLabelName).

Fixpoint delete_for (applicationName : string) (items : list RemoteSecret) : prog (option goerr) :=
match items with
| [] => Ret None
| remoteSecret :: rest =>
    if negb (String.eqb (application_of remoteSecret) applicationName) then delete_for applicationName rest
    else
      let! d := kube (KDelete KRemoteSecret remoteSecret) in
      match d with
      | Some _ => Ret (Some unableToDeleteRemoteSecret)
      | None => delete_for applicationName rest
      end
end.

Definition linkedAppRemoteSecretFinalizer_Finalize (k : kind) (o : obj k) : prog (option goerr) :=
match k as k return obj k -> prog (option goerr) with
| KApplication => fun application =>
    let! l := kube (KListNotIn KRemoteSecret (om_Namespace (app_Meta application))
                      ignoredSecretsLabelName ignoredSecretsLabelValues) in
    match l with
    | Err _ => Ret (Some unableToFetchRemoteSecretsError)
    | Ok items =>
        if (length items =? 0)%nat then Ret None
        else delete_for (om_Name (app_Meta application)) items
    end
| _ => fun _ => Ret (Some unexpectedObjectTypeError)
end o.

Definition Application_Reconcile (req : ObjectKey) : prog outcome :=
let! r := kube (KGet KApplication req) in
match r with
| Err err => if IsNotFound err then Ret done_ok else Ret (failed "failed to get the Application" err)
| Ok application =>
    let! fin := call (Finalize KApplication application) in
    match fin_err fin with
    | Some err => Ret (failed "failed to finalize" err)
    | None =>
        let! u := update_if (k := KApplication) (fin_Updated fin) (fin_obj fin) in
        Ret match u with
            | Err err => failed "failed to update application based on finalization result" err
            | Ok _ => done_ok
            end
    end
end.
End controllers.

(** ** The clean-up *)

(** The list of remote secrets is worked through in order, one write for each,
    up to the first write that fails. *)
Inductive carried_out (ok bad : RemoteSecret -> kube_write -> Prop) (e : goerr)
  : list RemoteSecret -> list kube_write -> option goerr -> Prop :=
| all_done : carried_out ok bad e [] [] None
| stopped s rest w : bad s w -> carried_out ok bad e (s :: rest) [w] (Some e)
| one_more s rest w ws r : ok s w -> carried_out ok bad e rest ws r -> carried_out ok bad e (s :: rest) (w :: ws) r.

Definition target_removed (target : RemoteSecretTarget) (s : RemoteSecret) (w : kube_write) : Prop :=
  exists answer, w = WUpdate KRemoteSecret (removeTarget target s) (Ok answer).
Definition target_kept (target : RemoteSecretTarget) (s : RemoteSecret) (w : kube_write) : Prop :=
  exists err, w = WUpdate KRemoteSecret (removeTarget target s) (Err err).
Definition deleted (s : RemoteSecret) (w : kube_write) : Prop := w = WDelete KRemoteSecret s None.
Definition not_deleted (s : RemoteSecret) (w : kube_write) : Prop := exists err, w = WDelete KRemoteSecret s (Some err).

Lemma targetsMatch_spec t1 t2 : targetsMatch t1 t2 = true <-> t1 = t2.
Proof.
  unfold targetsMatch. rewrite !andb_true_iff, !String.eqb_eq. destruct t1, t2; cbn. naive_solver.
Qed.

Lemma removeTarget_In target s t :
  In t (rs_SpecTargets (removeTarget target s)) <-> In t (rs_SpecTargets s) /\ t <> target.
Proof.
  unfold removeTarget. cbn [set_rs_SpecTargets rs_SpecTargets]. rewrite List.filter_In, negb_true_iff.
  rewrite <- not_true_iff_false, targetsMatch_spec. done.
Qed.

(** Doing it again changes nothing: the finalizer can be retried. *)
Lemma removeTarget_twice target s : removeTarget target (removeTarget target s) = removeTarget target s.
Proof.
  assert (forall l, List.filter (fun t => negb (targetsMatch t target)) (List.filter (fun t => negb (targetsMatch t target)) l)
    = List.filter (fun t => negb (targetsMatch t target)) l) as H.
  { induction l as [|t l IH]; cbn; [done|]. destruct (negb (targetsMatch t target)) eqn:E; cbn; [by rewrite E, IH|done]. }
  unfold removeTarget. cbn [set_rs_SpecTargets rs_SpecTargets]. by rewrite H.
Qed.

Section clean_up.
Context {X : Externals}.

Lemma remove_from_exec name target items : forall tr r, exec (remove_from name target items) tr r ->
carried_out (target_removed target) (target_kept target) unableToUpdateRemoteSecret
  (List.filter (applicableForEnvironment name) items) (writes tr) r.
Proof.
induction items as [|s items IH]; intros tr r; cbn [remove_from List.filter]; [intros [-> ->]; constructor|].
destruct (applicableForEnvironment name s); cbn [negb]; [|apply IH].
unfold kube, call. cbn [bind]. intros (u & tr' & -> & H). rewrite writes_cons. cbn [obs_write act_ev act_res kube_write_of].
destruct u as [a|err]; [|destruct H as [-> ->]; constructor; by eexists].
constructor; [by eexists|by apply IH].
Qed.

Lemma delete_for_exec name items : forall tr r, exec (delete_for name items) tr r ->
carried_out deleted not_deleted unableToDeleteRemoteSecret
  (List.filter (fun s => String.eqb (application_of s) name) items) (writes tr) r.
Proof.
induction items as [|s items IH]; intros tr r; cbn [delete_for List.filter]; [intros [-> ->]; constructor|].
destruct (String.eqb (application_of s) name); cbn [negb]; [|apply IH].
unfold kube, call. cbn [bind]. intros (d & tr' & -> & H). rewrite writes_cons. cbn [obs_write act_ev act_res kube_write_of].
destruct d as [err|]; [destruct H as [-> ->]; constructor; by eexists|].
constructor; [done|by apply IH].
Qed.

(** The remote secrets that a finalizer lists, and what follows *)
Definition listed_for (namespace : string) (tr : list act) (items : res (list RemoteSecret)) (rest : list act) : Prop :=
tr = Act (Kube (KListNotIn KRemoteSecret namespace ignoredSecretsLabelName ignoredSecretsLabelValues)) items :: rest.
End clean_up.

(** Environments and applications clean up after themselves: when an
    environment is deleted, exactly the listed remote secrets that name it (in the
    annotation or in the label) lose its target, and only that; when an
    application is deleted, exactly the listed remote secrets of the application are
    deleted.  The finalizer succeeds only when every one of these writes did, so that
    the object stays until the clean-up is complete, and a retry does no
    harm. *)
Theorem finalizers_clean_up {X : Externals} :
  (forall environment tr r, exec (linkedEnvRemoteSecretsFinalizer_Finalize KEnvironment environment) tr r ->
     exists items rest, listed_for (om_Namespace (env_Meta environment)) tr items rest /\
     match items with
     | Err _ => rest = [] /\ r = Some unableToFetchRemoteSecretsError
     | Ok items =>
         let target := detectTargetFromEnvironment environment in
         carried_out (target_removed target) (target_kept target) unableToUpdateRemoteSecret
           (List.filter (applicableForEnvironment (om_Name (env_Meta environment))) items) (writes rest) r
     end) /\
  (forall application tr r, exec (linkedAppRemoteSecretFinalizer_Finalize KApplication application) tr r ->
     exists items rest, listed_for (om_Namespace (app_Meta application)) tr items rest /\
     match items with
     | Err _ => rest = [] /\ r = Some unableToFetchRemoteSecretsError
     | Ok items =>
         carried_out deleted not_deleted unableToDeleteRemoteSecret
           (List.filter (fun s => String.eqb (application_of s) (om_Name (app_Meta application))) items) (writes rest) r
     end) /\
  (forall target s t, In t (rs_SpecTargets (removeTarget target s)) <-> In t (rs_SpecTargets s) /\ t <> target) /\
  (forall target s, removeTarget target (removeTarget target s) = removeTarget target s).
Proof.
  split; [|split; [|split; [exact removeTarget_In|exact removeTarget_twice]]].
  - intros environment tr r. unfold linkedEnvRemoteSecretsFinalizer_Finalize, kube, call. cbn [bind].
    intros (items & rest & -> & H). exists items, rest. split; [done|]. destruct items as [items|err]; [|by destruct H as [-> ->]].
    cbv zeta. destruct (Nat.eqb_spec (length items) 0) as [E|E].
    + destruct items; [|done]. destruct H as [-> ->]. constructor.
    + by apply remove_from_exec.
  - intros application tr r. unfold linkedAppRemoteSecretFinalizer_Finalize, kube, call. cbn [bind].
    intros (items & rest & -> & H). exists items, rest. split; [done|]. destruct items as [items|err]; [|by destruct H as [-> ->]].
    destruct (Nat.eqb_spec (length items) 0) as [E|E].
    + destruct items; [|done]. destruct H as [-> ->]. constructor.
    + by apply delete_for_exec.
Qed.
