(* ===== verification/Wiring.v ===== *)
(** * How the controllers are wired up

    [SetupWithManager] of every controller: the finalizers it registers and the
    sources of its requests, in the terms of controller-runtime: the objects it
    is [For], and the watches with their map functions.  What an event
    enqueues follows the documentation of the two handlers that are used: the
    one for the object enqueues its key (after an update that of the new
    version), a map function is applied to the object, after an update to both
    versions. *)

From S2P Require Import Prelude GoStd Api Externals SpErrors Effects Samples TokenStorage SpConfig BindingTarget Enqueue TokenController BindingController TokenUpload RemoteSecretOAuth OtherControllers StartUp.
Local Open Scope string_scope.
Local Open Scope list_scope.
Local Open Scope spi_scope.

(** ** Events and sources *)

Definition GetMeta {k : kind} : obj k -> ObjectMeta :=
  match k return obj k -> ObjectMeta with
  | KToken => at_Meta | KBinding => b_Meta | KCheck => ac_Meta | KFile => f_Meta | KDataUpdate => du_Meta
  | KSecret => sec_Meta | KEvent => ev_Meta | KRemoteSecret => rs_Meta | KEnvironment => env_Meta
  | KApplication => app_Meta
  end.

Inductive change (A : Type) := Created (o : A) | Updated (old new : A) | Deleted (o : A).
Arguments Created {A} _.
Arguments Updated {A} _ _.
Arguments Deleted {A} _.

Definition versions {A} (c : change A) : list A :=
  match c with Created o | Deleted o => [o] | Updated old new => [old; new] end.
Definition current {A} (c : change A) : A :=
  match c with Created o | Deleted o => o | Updated _ new => new end.

Inductive event := Changed (k : kind) (c : change (obj k)) | ChangedServiceAccount (c : change ServiceAccount).

Inductive source :=
| ForObject (k : kind) (predicate : change (obj k) -> bool)
| Watches (k : kind) (f : obj k -> prog (list ObjectKey))
| WatchesServiceAccount (f : ServiceAccount -> prog (list ObjectKey)).

Record controller := mkController { ctl_Finalizers : list string; ctl_Sources : list source }.

Fixpoint concat_map {A} (f : A -> prog (list ObjectKey)) (l : list A) : prog (list ObjectKey) :=
  match l with
  | [] => Ret []
  | a :: l => let! reqs := f a in let! rest := concat_map f l in Ret (reqs ++ rest)
  end.

(** The change seen as one of objects of the kind [k'] *)
Definition of_kind {k} (c : change (obj k)) (k' : kind) : option (change (obj k')) :=
  match decide (k = k') with left E => Some (eq_rect k (fun x => change (obj x)) c k' E) | right _ => None end.

Definition enqueue (e : event) (s : source) : prog (list ObjectKey) :=
  match e, s with
  | Changed k c, ForObject k' p =>
      match of_kind c k' with
      | Some c => Ret (if p c then [ObjectKeyFromObject (GetMeta (current c))] else [])
      | None => Ret []
      end
  | Changed k c, Watches k' f =>
      match of_kind c k' with Some c => concat_map f (versions c) | None => Ret [] end
  | ChangedServiceAccount c, WatchesServiceAccount f => concat_map f (versions c)
  | _, _ => Ret []
  end.

(** The requests that an event brings to a controller *)
Definition requests (c : controller) (e : event) : prog (list ObjectKey) := concat_map (enqueue e) (ctl_Sources c).

(** ** The controllers *)

(** predicate.GenerationChangedPredicate compares a member of the metadata that
    no controller reads. *)
Class Generations := { GenerationChanged : ObjectMeta -> ObjectMeta -> bool }.

Definition always {A} (c : change A) : bool := true.
Definition generation_changed `{Generations} {k} (c : change (obj k)) : bool :=
  match c with Updated old new => GenerationChanged (GetMeta old) (GetMeta new) | _ => true end.

Section wiring.
Context {X : Externals} {G : Generations}.

Definition SPIAccessToken_controller : controller :=
  mkController [linkedBindingsFinalizerName; tokenStorageFinalizerName]
    [ForObject KToken always; Watches KBinding (fun b => Ret (token_watch_binding b));
     Watches KDataUpdate (fun u => Ret (token_watch_update u))].

Definition SPIAccessTokenBinding_controller : controller :=
  mkController [linkedObjectsFinalizerName]
    [ForObject KBinding always; Watches KToken binding_watch_token; Watches KSecret binding_watch_secret;
     Watches KDataUpdate binding_watch_update; WatchesServiceAccount binding_watch_sa].

Definition SPIAccessTokenDataUpdate_controller : controller := mkController [] [ForObject KDataUpdate always].
Definition SPIAccessCheck_controller : controller := mkController [] [ForObject KCheck always].
Definition SPIFileContentRequest_controller : controller := mkController [] [ForObject KFile always].
Definition Application_controller : controller :=
  mkController [linkedRemoteSecretsTargetFinalizerName] [ForObject KApplication generation_changed].
Definition Environment_controller : controller :=
  mkController [linkedRemoteSecretsTargetFinalizerName] [ForObject KEnvironment generation_changed].

Definition oauth_pred (c : change RemoteSecret) : bool :=
  match c with Created r => create_pred r | Updated old new => update_pred old new | Deleted _ => false end.
Definition RemoteSecretOAuth_controller : controller := mkController [] [ForObject KRemoteSecret oauth_pred].

(** The label selector is tested on the new version. *)
Definition TokenUpload_controller : controller :=
  mkController [] [ForObject KSecret (fun c : change Secret => watched (current c))].

(** By the names under which [SetupAllReconcilers] registers them *)
Definition wiring : list (string * controller) :=
  [("SPIAccessToken", SPIAccessToken_controller); ("SPIAccessTokenBinding", SPIAccessTokenBinding_controller);
   ("SPIAccessTokenDataUpdate", SPIAccessTokenDataUpdate_controller); ("SPIAccessCheck", SPIAccessCheck_controller);
   ("SPIFileContentRequest", SPIFileContentRequest_controller); ("Application", Application_controller);
   ("Environment", Environment_controller); ("RemoteSecretOAuth", RemoteSecretOAuth_controller);
   ("TokenUpload", TokenUpload_controller)].

(** ** SetupWithManager

    [Register] is Finalizers.Register, [Complete] the builder's, [RegisterMetric]
    that of the registry of metrics. *)
Section setup.
Context (Register : string -> prog (option goerr)) (Complete : controller -> prog (option goerr))
  (RegisterMetric : string -> prog (option goerr)).

Definition build_manager (c : controller) : prog (option goerr) :=
  wrapping "failed to build the controller manager" (Complete c).

Definition SPIAccessToken_SetupWithManager : prog (option goerr) :=
  in_order
    [wrapping "failed to register the linked bindings finalizer" (Register linkedBindingsFinalizerName);
     wrapping "failed to register the token storage finalizer" (Register tokenStorageFinalizerName);
     build_manager SPIAccessToken_controller].
Definition SPIAccessTokenBinding_SetupWithManager : prog (option goerr) :=
  in_order
    [wrapping "failed to register the linked secrets finalizer" (Register linkedObjectsFinalizerName);
     build_manager SPIAccessTokenBinding_controller].
Definition SPIAccessTokenDataUpdate_SetupWithManager : prog (option goerr) :=
  in_order
    [build_manager SPIAccessTokenDataUpdate_controller;
     wrapping "failed to register the SPIAccessTokenDataUpdate metrics"
       (RegisterMetric "spiaccesstokendataupdate_lifetime_seconds")].
Definition SPIAccessCheck_SetupWithManager : prog (option goerr) := build_manager SPIAccessCheck_controller.
Definition SPIFileContentRequest_SetupWithManager : prog (option goerr) := build_manager SPIFileContentRequest_controller.
Definition Application_SetupWithManager : prog (option goerr) :=
  in_order
    [wrapping "failed to register the linked remote secret finalizer" (Register linkedRemoteSecretsTargetFinalizerName);
     wrapping "failed to configure the application reconciler" (Complete Application_controller)].
Definition Environment_SetupWithManager : prog (option goerr) :=
  in_order
    [wrapping "failed to register the linked remote secret finalizer" (Register linkedRemoteSecretsTargetFinalizerName);
     wrapping "failed to configure the application reconciler" (Complete Environment_controller)].
Definition RemoteSecretOAuth_SetupWithManager : prog (option goerr) :=
  wrapping "failed to configure the reconciler" (Complete RemoteSecretOAuth_controller).
(** The selector is a constant that always parses. *)
Definition TokenUpload_SetupWithManager : prog (option goerr) := build_manager TokenUpload_controller.
End setup.
End wiring.

(** ** What an event enqueues *)

Lemma of_kind_same {k} (c : change (obj k)) : of_kind c k = Some c.
Proof.
  unfold of_kind. destruct (decide (k = k)) as [E|]; [|done]. by rewrite (proof_irrel E eq_refl).
Qed.
Lemma of_kind_other {k} (c : change (obj k)) k' : k <> k' -> of_kind c k' = None.
Proof. intros H. unfold of_kind. by destruct (decide (k = k')). Qed.

Lemma concat_map_nil {A} (f : A -> prog (list ObjectKey)) l : (forall a, In a l -> f a = Ret []) -> concat_map f l = Ret [].
Proof.
  induction l as [|a l IH]; intros H; [done|]. cbn [concat_map]. rewrite (H a) by by left. cbn [bind].
  rewrite IH; [done|]. intros b Hb. apply H. by right.
Qed.

(** A source of another kind *)
Definition concerns (k : kind) (s : source) : Prop :=
  match s with ForObject k' _ | Watches k' _ => k = k' | WatchesServiceAccount _ => False end.
Lemma enqueue_unconcerned {k} (c : change (obj k)) s : ~ concerns k s -> enqueue (Changed k c) s = Ret [].
Proof. destruct s as [k' p|k' f|f]; cbn; intros H; [by rewrite of_kind_other by done..|done]. Qed.
Lemma requests_unconcerned {k} (c : change (obj k)) ctl :
  (forall s, In s (ctl_Sources ctl) -> ~ concerns k s) -> requests ctl (Changed k c) = Ret [].
Proof. intros H. apply concat_map_nil. intros s Hs. by apply enqueue_unconcerned, H. Qed.

(** Only the sources of the kind count. *)
Lemma requests_exec {k} (c : change (obj k)) fin s rest tr reqs :
  exec (requests (mkController fin (s :: rest)) (Changed k c)) tr reqs ->
  exists reqs1 reqs2 tr1 tr2, tr = tr1 ++ tr2 /\ reqs = reqs1 ++ reqs2 /\
    exec (enqueue (Changed k c) s) tr1 reqs1 /\ exec (requests (mkController fin rest) (Changed k c)) tr2 reqs2.
Proof.
  unfold requests. cbn [ctl_Sources concat_map].
  intros (reqs1 & tr1 & t & -> & H1 & (reqs2 & H2 & ->)%exec_bind_ret)%exec_bind.
  by exists reqs1, reqs2, tr1, t.
Qed.

(** The requests of a controller with one source of the kind *)
Ltac one_source :=
  unfold requests, SPIAccessToken_controller, SPIAccessTokenBinding_controller, SPIAccessTokenDataUpdate_controller; cbn [ctl_Sources concat_map];
  rewrite ?enqueue_unconcerned by done; cbn [bind enqueue]; rewrite of_kind_same.

Section facts.
Context {X : Externals} {G : Generations}.

Lemma token_requests_update c tr reqs :
  exec (requests SPIAccessToken_controller (Changed KDataUpdate c)) tr reqs ->
  tr = [] /\ reqs = concat (map token_watch_update (versions c)).
Proof. one_source. destruct c; cbn; intros [-> ->]; (split; [done|]); by rewrite !app_nil_r. Qed.

Lemma token_requests_binding c tr reqs :
  exec (requests SPIAccessToken_controller (Changed KBinding c)) tr reqs ->
  tr = [] /\ reqs = concat (map token_watch_binding (versions c)).
Proof. one_source. destruct c; cbn; intros [-> ->]; (split; [done|]); by rewrite !app_nil_r. Qed.

Lemma binding_requests_update c u tr reqs : versions c = [u] ->
  exec (requests SPIAccessTokenBinding_controller (Changed KDataUpdate c)) tr reqs -> exec (binding_watch_update u) tr reqs.
Proof.
  intros Hc. one_source. rewrite Hc. cbn [concat_map bind].
  intros H. repeat apply exec_bind_ret in H as (? & H & ->). cbn [app]. by rewrite !app_nil_r.
Qed.

Lemma update_requests_update c tr reqs :
  exec (requests SPIAccessTokenDataUpdate_controller (Changed KDataUpdate c)) tr reqs ->
  tr = [] /\ reqs = [ObjectKeyFromObject (du_Meta (current c))].
Proof. one_source. by intros [-> ->]. Qed.

(** The event of a change of the update [u] brings nothing else. *)
Definition woken (owner : SPIAccessToken) (u : SPIAccessTokenDataUpdate) (name : string) (tr : list act)
  (reqs : list ObjectKey) : Prop :=
  if String.eqb name "SPIAccessToken" then tr = [] /\ reqs = [at_Key owner]
  else if String.eqb name "SPIAccessTokenBinding" then
    exists r, tr = [Act (Kube (KList KBinding (at_Namespace owner) [] None)) r] /\
      match r with
      | Err _ => reqs = []
      | Ok bs => forall k, In k reqs <->
          exists b, In b bs /\ bst_LinkedAccessTokenName (b_Status b) = at_Name owner /\
                    k = ObjectKeyFromObject (b_Meta b)
      end
  else if String.eqb name "SPIAccessTokenDataUpdate" then tr = [] /\ reqs = [ObjectKeyFromObject (du_Meta u)]
  else tr = [] /\ reqs = [].

Lemma change_of_update_wakes owner (u : obj KDataUpdate) (c : change (obj KDataUpdate)) name ctl tr reqs :
  stored_update owner u -> c = Created u \/ c = Deleted u -> In (name, ctl) wiring ->
  exec (requests ctl (Changed KDataUpdate c)) tr reqs -> woken owner u name tr reqs.
Proof.
  intros Hu Hc Hin H. assert (versions c = [u] /\ current c = u) as [Hv Hcur] by (by destruct Hc as [->| ->]).
  assert (forall fin s, ~ concerns KDataUpdate s ->
    exec (requests (mkController fin [s]) (Changed KDataUpdate c)) tr reqs -> tr = [] /\ reqs = []) as Hno.
  { intros fin s Hs. rewrite requests_unconcerned; [by intros [-> ->]|]. by intros s' [<-|[]]. }
  unfold wiring in Hin.
  destruct Hin as [[= <- <-]|[[= <- <-]|[[= <- <-]|Hin]]]; cbn [woken String.eqb Ascii.eqb Bool.eqb].
  - apply token_requests_update in H as [-> ->]. rewrite Hv. cbn [map concat]. unfold woken. split; [done|].
    rewrite app_nil_r. by apply requestForDataUpdateOwner_stored.
  - eapply binding_requests_update in H; [|exact Hv]. exact (proj2 (data_update_wakes_owner owner u tr reqs Hu H)).
  - apply update_requests_update in H as [-> ->]. by rewrite Hcur.
  - repeat (destruct Hin as [[= <- <-]|Hin]; [by eapply Hno; [|exact H]|]). done.
Qed.
End facts.

(** ** Data that is stored reaches what depends on it *)

(** The writes of token data that announce themselves: of the storage of the OAuth
    service, and of the secret storage below the upload controller's *)
Inductive announcing := InTokenStorage (w : notified_write) | StoresSecret (data : string) | DeletesSecret.

Definition announcing_write (a : announcing) (owner : SPIAccessToken) : prog (option goerr) :=
  match a with
  | InTokenStorage w => notifying_write w owner
  | StoresSecret data => NotifyingSecretStorage.Store GroupVersion_Group "SPIAccessToken" (at_Key owner) data
  | DeletesSecret => NotifyingSecretStorage.Delete GroupVersion_Group "SPIAccessToken" (at_Key owner)
  end.
Definition announcement (a : announcing) (owner : SPIAccessToken) : SPIAccessTokenDataUpdate :=
  match a with
  | InTokenStorage _ => NotifyingTokenStorage.data_update owner
  | _ => NotifyingSecretStorage.data_update GroupVersion_Group "SPIAccessToken" (at_Key owner)
  end.

(** The server keeps what it was sent; it makes up the name. *)
Definition kept (sent u : SPIAccessTokenDataUpdate) : Prop :=
  du_Spec u = du_Spec sent /\ om_Namespace (du_Meta u) = om_Namespace (du_Meta sent).

Lemma announced a owner tr : exec (announcing_write a owner) tr None ->
  exists u, writes tr = [WCreate KDataUpdate (announcement a owner) (Ok u)].
Proof.
  destruct a as [w|data|]; cbn [announcing_write announcement].
  - intros (inner & _ & H)%notifying_write_protocol. destruct inner as [err|]; [by destruct H as [_ [=]]|].
    destruct H as [[H _] _]. destruct (H eq_refl) as [u ->]. by exists u.
  - unfold NotifyingSecretStorage.Store, NotifyingSecretStorage.createDataUpdate. intros H. exec_steps.
    do 2 (destruct x as [err|]; exec_steps). destruct x as [u|err]; exec_steps. by exists u.
  - unfold NotifyingSecretStorage.Delete, NotifyingSecretStorage.createDataUpdate. intros H. exec_steps.
    do 2 (destruct x as [err|]; exec_steps). destruct x as [u|err]; exec_steps. by exists u.
Qed.

(** C21 Token data that is stored or deleted reaches everything that depends on it.  A
    write through either notifying storage that succeeds has created exactly
    one object in the cluster, an announcement.  When the server keeps its
    specification and namespace, the events of that object (its creation and
    its deletion) make the token controller reconcile its owner, the
    binding controller exactly the bindings of the namespace that are linked to
    the owner (none when they cannot be listed) and the update controller the
    announcement itself; all three are among the controllers that the operator
    registers, and no other controller is woken. *)
Theorem stored_data_wakes_dependents {X : Externals} {G : Generations} a owner tr :
  exec (announcing_write a owner) tr None ->
  map fst wiring = map fst core_controllers ++ ["TokenUpload"] /\
  exists u, writes tr = [WCreate KDataUpdate (announcement a owner) (Ok u)] /\
    (kept (announcement a owner) u -> forall (c : change (obj KDataUpdate)), c = Created u \/ c = Deleted u ->
       forall name ctl tr' reqs, In (name, ctl) wiring ->
         exec (requests ctl (Changed KDataUpdate c)) tr' reqs -> woken owner u name tr' reqs).
Proof.
  intros [u Hw]%announced. split; [done|]. exists u. split; [done|]. intros [Hs Hn] c Hc name ctl tr' reqs. apply change_of_update_wakes; [|done].
  split; [rewrite Hs; by destruct a|rewrite Hn; by destruct a].
Qed.

(** Data stored for a token wakes the binding linked to it. *)
#[export] Instance sample_generations : Generations := {| GenerationChanged := fun _ _ => false |}.
Definition storing : prog (option goerr) := announcing_write (InTokenStorage (NStore sample_token_data)) sample_token_object.
Definition storing_trace : list act := (run_trace map_secret_storage storing ∅).1.1.

Definition created_update (w : kube_write) : option SPIAccessTokenDataUpdate :=
  match w with
  | WCreate k _ (Ok u) => match k return obj k -> option SPIAccessTokenDataUpdate with KDataUpdate => Some | _ => fun _ => None end u
  | _ => None
  end.

Lemma stored_data_wakes_dependents_witness :
  exists u, writes storing_trace = [WCreate KDataUpdate (NotifyingTokenStorage.data_update sample_token_object) (Ok u)] /\
    woken sample_token_object u "SPIAccessToken" [] [at_Key sample_token_object].
Proof.
  assert ((run_trace map_secret_storage storing ∅).1.2 = None) as E by (vm_compute; reflexivity).
  pose proof (run_trace_exec map_secret_storage storing ∅) as H. rewrite E in H.
  destruct (stored_data_wakes_dependents (X := sample_externals) (InTokenStorage (NStore sample_token_data)) sample_token_object _ H)
    as (_ & u & Hu & Hall).
  exists u. split; [exact Hu|].
  assert (u = NotifyingTokenStorage.data_update sample_token_object) as Eu.
  { clear Hall H E. apply (f_equal (omap created_update)) in Hu. vm_compute in Hu. injection Hu as <-. reflexivity. }
  subst u.
  eapply (Hall (conj eq_refl eq_refl) (Created _) (or_introl eq_refl)); [left; reflexivity|].
  split; reflexivity.
Defined.

(** ** Other dependencies *)

(** A binding that is linked to another token wakes the old one, which may be
    abandoned now, and the new one. *)
Lemma relinked_binding_wakes_tokens {X : Externals} {G : Generations} old new from to tr reqs :
  map_get (b_Labels old) SPIAccessTokenLinkLabel = from -> map_get (b_Labels new) SPIAccessTokenLinkLabel = to ->
  from <> "" -> to <> "" -> b_Namespace old = b_Namespace new ->
  exec (requests SPIAccessToken_controller (Changed KBinding (Updated old new))) tr reqs ->
  tr = [] /\ reqs = [mkKey (b_Namespace new) from; mkKey (b_Namespace new) to].
Proof.
  intros Hf Ht Hf0 Ht0 Hn [-> ->]%token_requests_binding. split; [done|]. cbn [versions map concat].
  unfold token_watch_binding, requestsForTokenInObjectNamespace. rewrite Hf, Ht, Hn.
  by destruct (String.eqb_spec from ""), (String.eqb_spec to "").
Qed.

(** A new object wakes its own controller; a secret and a remote secret only with
    the label that their controllers look for. *)
Lemma created_object_reconciled {X : Externals} {G : Generations} k (o : obj k) ctl p rest tr reqs :
  ctl_Sources ctl = ForObject k p :: rest -> p (Created o) = true ->
  exec (requests ctl (Changed k (Created o))) tr reqs -> In (ObjectKeyFromObject (GetMeta o)) reqs.
Proof.
  intros Hs Hp. unfold requests. rewrite Hs. cbn [concat_map enqueue]. rewrite of_kind_same, Hp. cbn [bind].
  intros (r & _ & ->)%exec_bind_ret. by left.
Qed.
