(* ===== verification/Rejections.v ===== *)
(** * A token that the service provider refuses

    The token controller makes a token Invalid when its metadata cannot be
    fetched because of an error of pkg/errors with a 4xx status.  Such errors are made by
    the examiner of AuthenticatingHttpClient (serviceprovider.go), but no client
    that asks a service provider for metadata has it: the client builders are given the
    client of the factory.  The only other place is the listing of GitHub's
    repositories, for an access token that is empty.  Here the controller is composed
    with the packages to show what follows: a token that its provider refuses does not
    become Invalid, but is retried for ever. *)

From S2P Require Import Prelude GoStd GoUrl GoJson Api Externals SpErrors Effects Samples SpConfig Factory Lookup TokenController.
From S2P Require GitHub GitLab Quay QuayProvider HostCredentials.
From S2P Require Import Providers Enqueue System.
Local Open Scope string_scope.
Local Open Scope list_scope.
Local Open Scope spi_scope.

(** ** What a program answers when its calls are answered in a certain way *)

Definition given (P : act -> Prop) {A} (Q : A -> Prop) (p : prog A) : Prop :=
  forall tr a, exec p tr a -> Forall P tr -> Q a.

Lemma given_Ret P {A} (Q : A -> Prop) a : Q a -> given P Q (Ret a).
Proof. by intros H tr a' [-> ->] _. Qed.
Lemma given_Vis P {A Y} (Q : A -> Prop) (e : Ev Y) k :
  (forall x, P (Act e x) -> given P Q (k x)) -> given P Q (Vis e k).
Proof. intros Hk tr a (x & tr' & -> & H) HP. inversion HP; subst. by eapply Hk. Qed.
Lemma given_bind P {A B} (Q : A -> Prop) (R : B -> Prop) (p : prog A) (f : A -> prog B) :
  given P Q p -> (forall a, Q a -> given P R (f a)) -> given P R (bind p f).
Proof.
  intros Hp Hf tr b (a & tr1 & tr2 & -> & H1 & H2)%exec_bind [HP1 HP2]%List.Forall_app.
  eapply Hf; [by eapply Hp|done..].
Qed.
Lemma given_any P {A} (p : prog A) : given P (fun _ => True) p.
Proof. done. Qed.

(** ** Errors of others *)

Definition of_res {A} (r : res A) : option goerr := match r with Err err => Some err | Ok _ => None end.
Definition of_result {A B} (r : result (goerr * B) A) : option goerr :=
  match r with Err (err, _) => Some err | Ok _ => None end.

(** The error that a call answers, for the calls that fetch and store metadata *)
Definition gh_error {Y} (e : GhE Y) : Y -> option goerr :=
  match e in GhE Y return Y -> option goerr with
  | GhUsersGet _ => of_res | GhRepositoriesList _ _ _ => of_res
  | GhRepositoriesGet _ _ _ => of_result | GhGetContents _ _ _ _ _ => of_result
  end.
Definition gl_error {Y} (e : GlE Y) : Y -> option goerr :=
  match e in GlE Y return Y -> option goerr with
  | GlNewClient _ | RetryableRequest _ _ | GlNewRequest _ _ _ => fun r => r
  | GlCurrentUser _ => of_res
  | GlDo _ _ _ _ => of_result | GlGetProject _ _ => of_result | GlGetFile _ _ _ _ => of_result
  end.
Definition kube_error {Y} (e : KubeE Y) : Y -> option goerr :=
  match e in KubeE Y return Y -> option goerr with KStatusUpdate _ _ => of_res | _ => fun _ => None end.
Definition ts_error {Y} (e : TokenStorageE Y) : Y -> option goerr :=
  match e in TokenStorageE Y return Y -> option goerr with TsGet _ => of_res | _ => fun _ => None end.
Definition answered_error (a : act) : option goerr :=
  match act_ev a in Ev Y return Y -> option goerr with
  | Gh e => gh_error e | Gl e => gl_error e | Kube e => kube_error e | Ts e => ts_error e
  | _ => fun _ => None
  end (act_res a).

(** The answer is an error with the type of pkg/errors, which go-github, go-gitlab,
    the cluster and the storage do not know. *)
Definition own_error (a : act) : Prop := exists err e,
  answered_error a = Some err /\ convertToServiceProviderHttpError err = Some e.

(** The data that the storage answers *)
Definition answered_data {Y} (e : TokenStorageE Y) : Y -> option Token :=
  match e in TokenStorageE Y return Y -> option Token with
  | TsGet _ => fun r => match r with Ok td => td | Err _ => None end
  | _ => fun _ => None
  end.
Definition data_answer (a : act) : option Token :=
  match act_ev a in Ev Y return Y -> option Token with Ts e => answered_data e | _ => fun _ => None end (act_res a).
(** They have an empty access token. *)
Definition empty_access_token (a : act) : Prop := exists td, data_answer a = Some td /\ td_AccessToken td = "".

(** Neither of these, where the second matters for GitHub only *)
Definition usual (github : bool) (a : act) : Prop :=
  match answered_error a with Some err => convertToServiceProviderHttpError err = None | None => True end /\
  (github = true -> match data_answer a with Some td => td_AccessToken td <> "" | None => True end).
#[export] Instance usual_dec github a : Decision (usual github a).
Proof.
  unfold usual. refine (@and_dec _ _ _ _).
  - destruct (answered_error a) as [err|]; [|exact (left I)]. destruct (convertToServiceProviderHttpError err); [right|left]; done.
  - destruct github; [|by left]. destruct (data_answer a) as [td|]; [|by left].
    destruct (String.eqb_spec (td_AccessToken td) ""); [right; naive_solver|by left].
Defined.
Lemma unusual github a : ~ usual github a -> own_error a \/ (github = true /\ empty_access_token a).
Proof.
  unfold usual, own_error, empty_access_token. intros H.
  destruct (answered_error a) as [err|]; [destruct (convertToServiceProviderHttpError err) as [e|] eqn:E; [left; by exists err, e|]|].
  all: right; destruct github; [split; [done|]|by destruct H]; destruct (data_answer a) as [td|]; [|by destruct H].
  all: exists td; (split; [done|]); destruct (String.eqb_spec (td_AccessToken td) ""); [done|]; by destruct H.
Qed.
Lemma unusual_trace github tr : ~ Forall (usual github) tr -> List.Exists own_error tr \/ (github = true /\ List.Exists empty_access_token tr).
Proof.
  intros H. apply List.neg_Forall_Exists_neg in H as (a & Hin & Ha)%List.Exists_exists; [|intros a; apply usual_dec].
  apply unusual in Ha as [Ha|[Hg Ha]]; [left|right; split; [done|]]; apply List.Exists_exists; by exists a.
Qed.

Definition foreign_error (err : option goerr) : Prop :=
  match err with Some err => convertToServiceProviderHttpError err = None | None => True end.

(** ** The providers fetch *)

Ltac given_step :=
  lazymatch goal with
  | |- given _ _ (Ret _) => apply given_Ret; try done
  | |- given _ _ (bind (call _) _) => unfold call; cbn [bind]
  | |- given _ _ (Vis _ _) => apply given_Vis; let x := fresh "x" in let H := fresh "H" in intros x H
  | |- given _ _ (match ?x with _ => _ end) => destruct x
  end.

Lemma github_pages_foreign fuel token page state :
  given (usual true) (fun r => match r with Some (Returns (Err err)) => foreign_error (Some err) | _ => True end)
    (GitHub.fetch_pages fuel token page state).
Proof.
  revert page state. induction fuel as [|fuel IH]; intros page state; cbn [GitHub.fetch_pages]; [by given_step|].
  repeat given_step; [apply IH|]. exact (proj1 H).
Qed.

Lemma github_fetch_foreign fuel t st :
  given (usual true) (fun r => match r with Some (Returns (Err err)) => foreign_error (Some err) | _ => True end)
    (GitHub.doFetch fuel t st).
Proof.
  unfold GitHub.doFetch. do 2 given_step. destruct x as [[data|]|err]; [|by given_step|given_step; exact (proj1 H)].
  apply (given_bind _ (fun r => match r with Returns (Err err) => foreign_error (Some err) | _ => True end)).
  { unfold GitHub.fetchUserAndScopes. repeat given_step. exact (proj1 H0). }
  intros [[[[u i] sc]|err]|w] Hu; [|by given_step..]. destruct st; cbn [negb]; [|by given_step].
  apply (given_bind _ (fun r => match r with Some (Returns (Err err)) => foreign_error (Some err) | _ => True end)).
  { unfold GitHub.FetchAll. destruct (String.eqb_spec (td_AccessToken data) ""); [|apply github_pages_foreign].
    by destruct (proj2 H eq_refl). }
  intros s Hs. given_step. by destruct s as [[[s|err]|w]|].
Qed.

Definition foreign_result {A} (r : res A) : Prop := foreign_error (of_res r).

Lemma given_try P {A B} (Q : res A -> Prop) (R : res B -> Prop) (p : prog (res A)) (k : A -> prog (res B)) :
  given P Q p -> (forall err, Q (Err err) -> R (Err err)) -> (forall a, given P R (k a)) -> given P R (try p k).
Proof.
  intros Hp Herr Hk. apply (given_bind _ Q); [done|]. intros [a|err] Ha; [apply Hk|by apply given_Ret, Herr].
Qed.

Lemma gitlab_scopes_foreign github base cl : given (usual github) foreign_result (GitLab.fetchScopes base cl).
Proof.
  unfold GitLab.fetchScopes. apply (given_try _ foreign_result); [|done|].
  - unfold GitLab.fetchOAuthScopes. do 2 given_step. destruct x as [err|]; [given_step; exact (proj1 H)|].
    do 2 given_step. destruct x as [r|[err code]]; [by destruct (negb _)|].
    destruct (decide _); [done|exact (proj1 H0)].
  - intros [scopes|]; [by given_step|]. unfold GitLab.fetchPATScopes. do 2 given_step.
    destruct x as [err|]; [given_step; exact (proj1 H)|]. do 2 given_step.
    destruct x as [r|[err code]]; [done|]. destruct (decide _); [done|exact (proj1 H0)].
Qed.
Lemma gitlab_fetch_foreign github base t st : given (usual github) foreign_result (GitLab.doFetch base t st).
Proof.
  unfold GitLab.doFetch. do 2 given_step. destruct x as [[data|]|err]; [|by given_step|given_step; exact (proj1 H)].
  apply (given_try _ foreign_result); [|done|intros cl; apply (given_try _ foreign_result); [|done|intros [user id];
    apply (given_try _ foreign_result); [apply gitlab_scopes_foreign|done|intros scopes; by given_step]]].
  - unfold GitLab.CreateAuthenticatedClient. do 3 given_step. destruct x as [err|]; [exact (proj1 H0)|done].
  - unfold GitLab.fetchUser. do 3 given_step. destruct x as [usr|err]; [|exact (proj1 H0)].
    by destruct (negb _).
Qed.
Lemma quay_fetch_foreign github t st : given (usual github) foreign_result (QuayProvider.Fetch t st).
Proof.
  unfold QuayProvider.Fetch. do 2 given_step. destruct x as [[data|]|err]; [by repeat given_step|by given_step|].
  given_step. exact (proj1 H).
Qed.
Lemma host_fetch_foreign github t st : given (usual github) foreign_result (HostCredentials.fetch_answer t st).
Proof.
  unfold HostCredentials.fetch_answer. apply (given_bind _ (fun x => foreign_result x.2)); [|intros [s r] Hr; by given_step].
  unfold HostCredentials.Fetch. do 3 given_step. destruct x as [[td|]|err]; [done|done|exact (proj1 H)].
Qed.

(** ** Metadata is persisted *)

(** The errors of the lookup's metadata provider are those of the package: for
    GitHub, those of a run that ends. *)
Definition packaged (p : provider) : Prop :=
  forall t st tr err, exec (gl_Fetch (lookup_of p) t st) tr (Err err) ->
    match p with
    | PGitHub _ => exists fuel, exec (GitHub.doFetch fuel t st) tr (Some (Returns (Err err)))
    | PGitLab _ => exists base, exec (GitLab.doFetch base t st) tr (Err err)
    | PQuay _ => exec (QuayProvider.Fetch t st) tr (Err err)
    | PHost _ => exec (HostCredentials.fetch_answer t st) tr (Err err)
    end.

Definition is_github (p : provider) : bool := match p with PGitHub _ => true | _ => false end.

Lemma packaged_fetch p t st : packaged p -> given (usual (is_github p)) foreign_result (gl_Fetch (lookup_of p) t st).
Proof.
  intros Hp tr [r|err] H HP; [done|]. apply Hp in H. destruct p.
  - destruct H as [fuel H]. exact (github_fetch_foreign fuel t st _ _ H HP).
  - destruct H as [base H]. exact (gitlab_fetch_foreign _ base t st _ _ H HP).
  - exact (quay_fetch_foreign _ t st _ _ H HP).
  - exact (host_fetch_foreign _ t st _ _ H HP).
Qed.

Lemma Ensure_foreign github c fetch t : (forall t st, given (usual github) foreign_result (fetch t st)) ->
  given (usual github) (fun r => foreign_error r.2) (Ensure c fetch t).
Proof.
  intros Hf. unfold Ensure. apply (given_bind _ (fun _ => True)); [apply given_any|]. intros t' _.
  destruct (atst_TokenMetadata (at_Status t')); [by given_step|].
  apply (given_bind _ foreign_result); [apply Hf|]. intros [data|err] Hd; [|by given_step].
  destruct (_ || _); [|by given_step]. unfold Persist.
  apply (given_bind _ (fun _ => True)); [apply given_any|]. intros stamped _. unfold kube. do 2 given_step.
  destruct x as [updated|err]; [by given_step|]. given_step. exact (proj1 H).
Qed.

Lemma persist_foreign p t : packaged p -> given (usual (is_github p)) (fun r => foreign_error r.2) (p_PersistMetadata p t).
Proof.
  intros Hp. assert (given (usual (is_github p)) (fun r => foreign_error r.2) (PersistMetadata_generic (lookup_of p) t)) as H
    by (apply Ensure_foreign; intros; by apply packaged_fetch).
  destruct p; apply (given_bind _ (fun r => foreign_error r.2)); try exact H;
    intros [t' [err|]] He; by apply given_Ret.
Qed.

(** ** The token controller *)

Lemma provider_refused {X : Externals} cfg t sp tr o : exec (Reconcile_provider cfg t sp) tr o ->
  exists v tr', tr = Act (Sp (SpValidate sp (atsp_Permissions (at_Spec t)))) v :: tr' /\
    (v = Ok [] -> exists t' perr tr'', tr' = Act (Sp (PersistMetadata sp t)) (t', perr) :: tr'' /\
       forall err, perr = Some err -> exists r,
         let invalid := IsServiceProviderHttpInvalidAccessToken err in
         tr'' = [Act (Kube (KStatusUpdate KToken (with_error t'
           (if invalid then SPIAccessTokenPhaseInvalid else SPIAccessTokenPhaseError)
           SPIAccessTokenErrorReasonMetadataFailure err))) r] /\
         if is_ok r then o = (if invalid then done_ok else failed "failed to persist the metadata" err) else o.2 <> None).
Proof.
  intros H. unfold Reconcile_provider in H. unfold call at 1 in H. cbn [bind] in H.
  destruct H as (v & tr' & -> & H). exists v, tr'. split; [done|]. intros ->.
  unfold call in H. cbn [bind] in H. destruct H as ([t' perr] & tr'' & -> & H). exists t', perr, tr''. split; [done|].
  intros err ->. destruct (IsServiceProviderHttpInvalidAccessToken err); apply flip_exec in H as (r & -> & H1 & H2);
    exists r; (split; [done|]); (destruct (is_ok r); [by apply H1|by apply H2]).
Qed.

Lemma foreign_not_invalid err : convertToServiceProviderHttpError err = None -> IsServiceProviderHttpInvalidAccessToken err = false.
Proof. unfold IsServiceProviderHttpInvalidAccessToken. by intros ->. Qed.

(** C31 A token that its provider refuses is retried for ever.  The token controller
    composed with any of the four packages, for a token whose permissions the
    provider supports: when the metadata cannot be fetched or stored, the token
    becomes Invalid and the reconciliation ends without an error, or it becomes Error
    and the failure is returned, so that the reconciliation is repeated; the first
    only if a client library, the storage or the cluster itself answered an error of
    the type of pkg/errors, or if the provider is GitHub and the stored access token
    is empty, which the code takes for a 401 without asking.  So a provider's refusal
    leads to Error whatever its status, a 401 for a revoked token included, as the
    clients that are used report it with errors of their own. *)
Theorem rejected_token_is_retried {X : Externals} {J : Quay.JwtParser} f lookup p cfg t tr o :
  packaged p -> p_Validate p (atsp_Permissions (at_Spec t)) = [] ->
  exec (with_providers f lookup (Some p) (Reconcile_provider cfg t (view p))) tr (Returns o) ->
  exists asked rest t' perr, tr = asked ++ rest /\ exec (p_PersistMetadata p t) asked (t', perr) /\
    forall err, perr = Some err ->
      let invalid := IsServiceProviderHttpInvalidAccessToken err in
      (exists r, rest = [Act (Kube (KStatusUpdate KToken (with_error t'
         (if invalid then SPIAccessTokenPhaseInvalid else SPIAccessTokenPhaseError)
         SPIAccessTokenErrorReasonMetadataFailure err))) r] /\
       if is_ok r then o = (if invalid then done_ok else failed "failed to persist the metadata" err) else o.2 <> None) /\
      (invalid = true ->
       List.Exists own_error asked \/ (is_github p = true /\ List.Exists empty_access_token asked)).
Proof.
  intros Hp Hv (tr' & (v & tr1 & -> & H)%provider_refused & Ht)%with_providers_exec.
  apply (linked_method _ _ _ _ (Ret (Returns (Ok (p_Validate p (atsp_Permissions (at_Spec t))))))) in Ht
    as (seg & rest & -> & [-> [= ->]] & Ht); [|done].
  rewrite Hv in H. destruct (H eq_refl) as (t' & perr & tr2 & -> & Hr). clear H.
  apply (linked_method _ _ _ _ (returning (p_PersistMetadata p t))) in Ht
    as (asked & rest' & -> & (r & Ha & [= <-])%exec_bind_ret & Ht); [|done].
  exists asked, rest', t', perr. do 2 (split; [done|]). intros err -> invalid.
  destruct (Hr err eq_refl) as (u & -> & Ho). split.
  - apply linked_plain in Ht as (rest2 & -> & ->); [|done]. by exists u.
  - intros Hi. apply unusual_trace. intros HP. pose proof (persist_foreign p t Hp _ _ Ha HP) as Hf. cbn in Hf.
    unfold invalid in Hi. by rewrite (foreign_not_invalid _ Hf) in Hi.
Qed.

(** GitHub answers 401: go-github's error *)
Definition refusing_github : GitHub.Github :=
  GitHub.mkGithub (mkGenericLookup "GitHub" MatchAllTokenFilter None
    (fun t st => let! r := GitHub.doFetch 5 t st in Ret match r with Some (Returns x) => x | _ => Ok None end)
    (NewCacheWithExpirationPolicy sample_config (TtlMetadataExpirationPolicy Hour)) RepoUrlFromString)
    (GitHub.ghRepoRegexp "https://github.com") None "https://github.com".
Definition refusal {Y} (e : GhE Y) : Y :=
  match e in GhE Y return Y with
  | GhUsersGet _ => Err (ErrorString "GET https://api.github.com/user: 401 Bad credentials []")
  | other => GitHub.sample_github _ other
  end.
Definition refusing_network : network :=
  mkNetwork (net_web GitHub.github_network) (fun _ e => refusal e) (net_gitlab GitHub.github_network).
Definition revoked_token : SPIAccessToken := sample_token "tok" "Ready" None.
Definition refused : prog (go outcome) :=
  with_providers (J := QuayProvider.sample_jwt) sample_operator sequential (Some (PGitHub refusing_github))
    (Reconcile_provider sample_config revoked_token (view (PGitHub refusing_github))).
Definition reported_phase (w : kube_write) : option (string * string) :=
  match w with
  | WStatusUpdate KToken t _ => Some (atst_Phase (at_Status t), atst_ErrorReason (at_Status t))
  | _ => None
  end.

Lemma rejected_token_is_retried_witness :
  omap reported_phase (writes (net_trace refusing_network GitHub.github_script refused)) = [("Error", "MetadataFailure")] /\
  exists asked rest t' perr, net_trace refusing_network GitHub.github_script refused = asked ++ rest /\
    exec (p_PersistMetadata (PGitHub refusing_github) revoked_token) asked (t', perr).
Proof.
  split; [vm_compute; reflexivity|].
  pose proof (net_exec refusing_network GitHub.github_script refused) as H.
  assert (exists o, net_result refusing_network GitHub.github_script refused = Returns o) as [o E]
    by (vm_compute; eexists; reflexivity).
  rewrite E in H.
  assert (packaged (PGitHub refusing_github)) as Hp.
  { intros t st tr err (r & Hr & Eq)%exec_bind_ret. exists 5. destruct r as [[[x|e]|w]|]; try discriminate Eq.
    injection Eq as ->. exact Hr. }
  destruct (rejected_token_is_retried (J := QuayProvider.sample_jwt) sample_operator sequential (PGitHub refusing_github)
    sample_config revoked_token _ o Hp eq_refl H) as (asked & rest & t' & perr & Ht & Ha & _).
  exists asked, rest, t', perr. exact (conj Ht Ha).
Defined.

(** The one token that becomes Invalid: its stored access token is empty, the
    policy is exact, so that the repositories are to be listed, and GitHub answered
    the request for the user. *)
Definition exact_github : GitHub.Github :=
  GitHub.mkGithub (mkGenericLookup "GitHub" MatchAllTokenFilter None
    (fun t st => let! r := GitHub.doFetch 5 t st in Ret match r with Some (Returns x) => x | _ => Ok None end)
    (NewCacheWithExpirationPolicy QuayProvider.exact_config (TtlMetadataExpirationPolicy Hour)) RepoUrlFromString)
    (GitHub.ghRepoRegexp "https://github.com") None "https://github.com".
Example empty_token_becomes_invalid :
  omap reported_phase (writes (net_trace GitHub.github_network
    (QuayProvider.with_data (Some (mkToken "alice" "" "" "" 0)) GitHub.github_script)
    (with_providers (J := QuayProvider.sample_jwt) sample_operator sequential (Some (PGitHub exact_github))
      (Reconcile_provider sample_config revoked_token (view (PGitHub exact_github)))))) =
  [("Invalid", "MetadataFailure")].
Proof. vm_compute. reflexivity. Qed.

(** ** serviceprovider.go: the client that would have told

    The round trippers of remote-secret are parameters: the one that sends the
    bearer token of the context, and the one that lets an examiner look at
    each response. *)
Definition Transport : Type := HttpRequest -> prog (res HttpResponse).

Section authenticating_client.
Context (DefaultTransport : Transport) (AuthenticatingRoundTripper : Transport -> Transport)
  (ExaminingRoundTripper : Transport -> (HttpResponse -> option goerr) -> Transport).

Definition AuthenticatingHttpClient (cl_Transport : option Transport) : Transport :=
  let transport := match cl_Transport with None => DefaultTransport | Some t => t end in
  ExaminingRoundTripper (AuthenticatingRoundTripper transport)
    (fun response => FromHttpResponse (hr_StatusCode response) (hr_Body response)).

(** The examiner's error is answered in place of the response. *)
Hypothesis examined : forall t examine q tr r, exec (ExaminingRoundTripper t examine q) tr r ->
  exists answer, exec (t q) tr answer /\
    match answer with
    | Err err => r = Err err
    | Ok resp => match examine resp with Some err => r = Err err | None => r = Ok resp end
    end.

(** Its errors make a token Invalid exactly when the status is 4xx. *)
Lemma examined_refusal cl q tr err : exec (AuthenticatingHttpClient cl q) tr (Err err) ->
  exec (AuthenticatingRoundTripper (match cl with None => DefaultTransport | Some t => t end) q) tr (Err err) \/
  exists resp, exec (AuthenticatingRoundTripper (match cl with None => DefaultTransport | Some t => t end) q) tr (Ok resp) /\
    (400 <= hr_StatusCode resp < 600)%Z /\
    IsServiceProviderHttpInvalidAccessToken err = (hr_StatusCode resp <? 500)%Z.
Proof using All.
  intros (answer & Ha & Hr)%examined. destruct answer as [resp|e]; [right|left; by injection Hr as ->].
  exists resp. split; [done|].
  pose proof (FromHttpResponse_classified (hr_StatusCode resp) (hr_Body resp) []) as Hc.
  destruct (FromHttpResponse _ _) as [e|]; [|done]. injection Hr as ->. by destruct Hc as (H1 & _ & H2 & _).
Qed.
End authenticating_client.
