(* ===== verification/Injection.v ===== *)
(** * What is injected into a secret

    controllers/tokens/secretdatagetter.go, which remote-secret's dependents
    handler calls for the data of the secret, composed with the packages of the
    providers: from the token data in the storage to the keys of the secret. *)

From S2P Require Import Prelude GoStd GoUrl GoJson GoBase64 Api Externals SpErrors Effects Samples SpConfig Factory Lookup AccessTokenMapper Providers Enqueue System.
From S2P Require GitHub GitLab Quay QuayProvider HostCredentials.
Local Open Scope string_scope.
Local Open Scope list_scope.
Local Open Scope spi_scope.

(** ** The token in the layouts of a secret *)

(** The key that holds the token as it is; none in a docker config, and none
    that is certain when the binding maps the fields to keys of its own *)
Definition token_key (spec : SPIAccessTokenBindingSpec) : option string :=
  let t := ss_Type (bsp_Secret spec) in
  if String.eqb t SecretTypeBasicAuth then Some BasicAuthPasswordKey
  else if String.eqb t SecretTypeServiceAccountToken then Some "extra"
  else if String.eqb t SecretTypeDockercfg then Some DockerConfigKey
  else if String.eqb t SecretTypeDockerConfigJson then None
  else if String.eqb t SecretTypeSSHAuth then Some SSHAuthPrivateKey
  else if mapping_Empty (ss_Fields (bsp_Secret spec)) then Some tokenKey else None.

(** The credentials that the data of a secret hold *)
Definition holds (spec : SPIAccessTokenBindingSpec) (username token : string) (data : gmap string string) : Prop :=
  (forall k, token_key spec = Some k -> data !! k = Some token) /\
  (ss_Type (bsp_Secret spec) = SecretTypeBasicAuth -> data !! BasicAuthUsernameKey = Some username) /\
  (ss_Type (bsp_Secret spec) = SecretTypeDockerConfigJson -> exists key auth,
     data !! DockerConfigJsonKey = Some (marshal_docker_config key auth) /\
     DecodeString StdEncoding auth = Ok (username +:+ ":" +:+ token)).

Lemma ToSecretType_holds m spec data : ToSecretType m spec = Ok data ->
  holds spec (atm_ServiceProviderUserName m) (atm_Token m) data.
Proof.
  unfold ToSecretType, holds, token_key. set (t := ss_Type (bsp_Secret spec)).
  destruct (String.eqb_spec t SecretTypeBasicAuth) as [Eb|Nb].
  { intros [= <-]. split; [|split].
    - intros k [= <-]. apply lookup_insert_eq.
    - intros _. rewrite lookup_insert_ne by done. apply lookup_insert_eq.
    - rewrite Eb. discriminate. }
  destruct (String.eqb_spec t SecretTypeServiceAccountToken) as [Es|Ns].
  { intros [= <-]. split; [|by rewrite Es]. intros k [= <-]. apply lookup_insert_eq. }
  destruct (String.eqb_spec t SecretTypeDockercfg) as [Ed|Nd].
  { intros [= <-]. split; [|by rewrite Ed]. intros k [= <-]. apply lookup_insert_eq. }
  destruct (String.eqb_spec t SecretTypeDockerConfigJson) as [Ej|Nj].
  { pose proof (encodeDockerConfig_auth m (ss_Annotations (bsp_Secret spec)) (bsp_RepoUrl spec)) as H.
    destruct (encodeDockerConfig _ _ _) as [out|e]; cbn [rbind]; [|discriminate]. intros [= <-].
    destruct H as (u & key & auth & _ & -> & Hd & _). split; [by intros k|]. split; [done|]. intros _.
    exists key, auth. split; [apply lookup_insert_eq|exact Hd]. }
  destruct (String.eqb_spec t SecretTypeSSHAuth) as [Eh|Nh].
  { intros [= <-]. split; [|by rewrite Eh]. intros k [= <-]. apply lookup_insert_eq. }
  intros [= <-]. split; [|done]. unfold fillByMapping. destruct (mapping_Empty _); [|done].
  intros k [= <-]. apply lookup_insert_eq.
Qed.

(** ** The mapping of a package *)

(** Quay's mapper when the repository cannot be examined *)
Definition empty_mapper : AccessTokenMapper := mkMapper "" "" "" "" "" "" None [].

Section injection.
Context {X : Externals} {J : Quay.JwtParser}.

Lemma mapped_by p b t td tr m : exec (p_MapToken p b t td) tr (Ok m) ->
  (exists scopes, m = set_atm_Scopes scopes (DefaultMapToken t td)) \/
  exists q t' err, p = PQuay q /\ exec (QuayProvider.FetchRepo (QuayProvider.q_metadataProvider q) (b_RepoUrl b) t) tr (t', Err err) /\
    m = empty_mapper.
Proof.
  assert (forall m, exists scopes, m = set_atm_Scopes scopes m) as Hself by (intros []; eexists; reflexivity).
  destruct p as [g|g|q|h]; cbn [p_MapToken].
  1, 2, 4: intros [-> [= ->]]; left; apply Hself.
  intros ([t' mapper] & tr0 & tr3 & -> & H & [-> [= ->]])%exec_bind. rewrite app_nil_r. unfold QuayProvider.MapToken in H.
  apply exec_bind in H as ([t'' r] & tr1 & tr2 & -> & Hf & H). destruct r as [[rm|]|err]; destruct H as [-> [= -> ->]].
  - left. by eexists.
  - left. apply Hself.
  - right. exists q, t'', err. rewrite app_nil_r. done.
Qed.

(** C5 The secret holds the stored token.  The data getter composed with any of the
    packages: data for a secret are produced only from token data that the
    storage answered, and hold its access token under the key of the secret's
    type; a basic-auth secret and a docker config hold it with the user name of the token's
    metadata, and the docker config's [auth] decodes to both.  The exception is
    Quay, when the repository cannot be examined: then the data are produced all
    the same and hold an empty user name and an empty token, without an error. *)
Theorem secret_holds_stored_token f lookup p b t tr data :
  exec (with_providers f lookup (Some p) (GetData b (view p) t)) tr (Returns (Ok data)) ->
  exists td (rest : list act), tr = Act (Ts (TsGet t)) (Ok (Some td)) :: rest /\
    (holds (b_Spec b) (atm_ServiceProviderUserName (DefaultMapToken t td)) (td_AccessToken td) data \/
     exists q t' err, p = PQuay q /\
       exec (QuayProvider.FetchRepo (QuayProvider.q_metadataProvider q) (b_RepoUrl b) t) rest (t', Err err) /\
       holds (b_Spec b) "" "" data).
Proof.
  intros (tr' & H & Ht)%with_providers_exec. unfold GetData in H. unfold call at 1 in H. cbn [bind] in H.
  destruct H as (r & tr1 & -> & H). apply linked_plain in Ht as (rest & -> & Ht); [|done].
  destruct r as [[td|]|err]; [|by destruct H as [_ [=]]..]. exists td, rest. split; [done|].
  unfold call in H. cbn [bind] in H. destruct H as (m & tr2 & -> & H).
  apply (linked_method _ _ _ _ (returning (p_MapToken p b t td))) in Ht
    as (seg & rest' & -> & (r & Hm & [= <-])%exec_bind_ret & Ht); [|done].
  destruct m as [m|err]; [|by destruct H as [_ [=]]]. destruct (ToSecretType m (b_Spec b)) as [d|err] eqn:E;
    destruct H as [-> [= ->]]. cbn in Ht. subst rest'. rewrite app_nil_r.
  apply ToSecretType_holds in E. apply mapped_by in Hm as [[scopes ->]|(q & t' & err & -> & Hf & ->)]; [by left|right].
  by exists q, t', err.
Qed.
End injection.

(** The token of the storage in a basic-auth secret *)
Definition basic_binding : SPIAccessTokenBinding :=
  set_b_Spec (mkBindingSpec "https://github.com/acme/tool" no_permissions
    (mkSecretSpec "s" "" SecretTypeBasicAuth ∅ ∅ [] (mkFieldMapping "" "" "" "" "" "" "" "")) "")
    (sample_binding "b" "https://github.com/acme/tool" "tok").
Definition ready_token : SPIAccessToken := sample_token "tok" "Ready" (Some sample_metadata).
Definition injecting : prog (go (result (string * goerr) (gmap string string))) :=
  with_providers (J := QuayProvider.sample_jwt) sample_operator sequential (Some (PGitHub acme_github))
    (GetData basic_binding (view (PGitHub acme_github)) ready_token).
Definition data_of (r : go (result (string * goerr) (gmap string string))) : gmap string string :=
  match r with Returns (Ok d) => d | _ => ∅ end.
Definition injected : gmap string string := data_of (net_result GitHub.github_network GitHub.github_script injecting).

Lemma secret_holds_stored_token_witness :
  map_to_list injected = [("username", "alois"); ("password", "access")] /\
  exists td rest, net_trace GitHub.github_network GitHub.github_script injecting = Act (Ts (TsGet ready_token)) (Ok (Some td)) :: rest.
Proof.
  split; [vm_compute; reflexivity|].
  pose proof (net_exec GitHub.github_network GitHub.github_script injecting) as H.
  assert (net_result GitHub.github_network GitHub.github_script injecting = Returns (Ok injected)) as E
    by (vm_compute; reflexivity).
  rewrite E in H.
  destruct (secret_holds_stored_token (J := QuayProvider.sample_jwt) sample_operator sequential (PGitHub acme_github)
    basic_binding ready_token _ injected H) as (td & rest & Ht & _).
  exists td, rest. exact Ht.
Defined.
