(* ===== verification/Contracts.v ===== *)
(** * What the programs guarantee about tokens, and what they rely on

    A logic for programs that run beside others: [wp Q p] says that every call of
    [p] satisfies [G], and that [p] returns a value of [Q], as long as the
    answers satisfy [R].  Here [G] and [R] are about the tokens and the
    bindings: a program that only sees presentable tokens, and bindings that are
    linked to tokens of their namespace, only writes such objects, and asks for an
    injection only of the ready token that the binding is linked to.  The controllers and the OAuth service are verified against the
    interface of the providers; [Packages] verifies the packages against what
    that interface asks of them and combines the two. *)

From S2P Require Import Prelude GoStd GoUrl Api Externals SpErrors Effects SpConfig Lookup AccessTokenMapper BindingTarget Enqueue TokenController RequestControllers.
From S2P Require BindingController TokenUpload OtherControllers RemoteSecretOAuth.
From S2P Require Import OAuthState OAuthSync OAuthService.
Local Open Scope string_scope.
Local Open Scope list_scope.
Local Open Scope spi_scope.

(** ** The logic *)

Section wp.
Context (G : forall Y, Ev Y -> Prop) (R : forall Y, Ev Y -> Y -> Prop).

Fixpoint wp {A} (Q : A -> Prop) (p : prog A) : Prop :=
match p with
| Ret a => Q a
| Vis e k => G _ e /\ forall x, R _ e x -> wp Q (k x)
end.

Lemma wp_mono {A} (Q Q' : A -> Prop) p : wp Q p -> (forall a, Q a -> Q' a) -> wp Q' p.
Proof using. intros H HQ. induction p as [a|Y e k IH]; cbn in *; [by apply HQ|]. destruct H as [Hg Hk]. split; eauto. Qed.

Lemma wp_bind {A B} (Q : A -> Prop) (Q' : B -> Prop) (p : prog A) (f : A -> prog B) :
wp Q p -> (forall a, Q a -> wp Q' (f a)) -> wp Q' (bind p f).
Proof using.
intros H Hf. induction p as [a|Y e k IH]; cbn in *; [by apply Hf|]. destruct H as [Hg Hk]. split; [done|].
intros x Hx. by apply IH, Hk.
Qed.

(** What every run returns may be assumed. *)
Lemma wp_exec {A} (Q Q' : A -> Prop) p : wp Q p -> (forall tr a, exec p tr a -> Q' a) -> wp (fun a => Q a /\ Q' a) p.
Proof using.
revert Q'. induction p as [a|Y e k IH]; intros Q' H HQ; cbn in *.
- split; [done|]. by apply (HQ []).
- destruct H as [Hg Hk]. split; [done|]. intros x Hx. apply IH; [by apply Hk|]. intros tr a Ha.
  apply (HQ (Act e x :: tr)). cbn. by exists x, tr.
Qed.
End wp.

(** One step of a proof: the calls are made one after the other, every case of
    a match is taken. *)
Ltac wp_step :=
  lazymatch goal with
  | |- wp _ _ _ (Ret _) => cbn [wp]; try done
  | |- wp _ _ _ (Vis _ _) => cbn [wp]; split; [try done|let x := fresh "x" in let Hx := fresh "Hx" in intros x Hx; cbn beta]
  | |- wp _ _ _ (bind (call _) _) => unfold call at 1; cbn [bind]
  | |- wp _ _ _ (bind (kube _) _) => unfold kube at 1, call at 1; cbn [bind]
  | |- wp _ _ _ (call _) => unfold call at 1
  | |- wp _ _ _ (kube _) => unfold kube at 1, call at 1
  | |- wp _ _ _ (bind (Ret _) _) => cbn [bind]
  | |- wp _ _ _ (match ?x with _ => _ end) => destruct x
  | |- wp _ _ _ (bind (match ?x with _ => _ end) _) => destruct x
  | |- wp _ _ _ (let _ := _ in _) => cbv zeta
  end.
(** A sequence with no claim on the intermediate result *)
Ltac wp_seq := eapply (wp_bind _ _ (fun _ => True)); [|intros ? _].

Create HintDb contracts.
(** What every path of a program needs when nothing is claimed of its result *)
Ltac wp_calls :=
  repeat first
    [wp_step | solve [auto with contracts] | lazymatch goal with |- wp _ _ _ (bind _ _) => wp_seq end].

(** ** Presentable tokens *)

(** A status is of a new object, of a token without an error, or it explains
    its phase. *)
Definition presentable_status (st : SPIAccessTokenStatus) : Prop :=
  (In (atst_Phase st) [""; SPIAccessTokenPhaseReady; SPIAccessTokenPhaseAwaitingTokenData] /\
   atst_ErrorReason st = "" /\ atst_ErrorMessage st = "") \/
  (atst_Phase st = SPIAccessTokenPhaseInvalid /\
   In (atst_ErrorReason st) [SPIAccessTokenErrorReasonUnsupportedPermissions; SPIAccessTokenErrorReasonMetadataFailure]) \/
  (atst_Phase st = SPIAccessTokenPhaseError /\
   In (atst_ErrorReason st) [SPIAccessTokenErrorReasonUnknownServiceProvider;
     SPIAccessTokenErrorUnsupportedServiceProviderConfiguration; SPIAccessTokenErrorReasonMetadataFailure]).
Definition presentable (t : SPIAccessToken) : Prop := presentable_status (at_Status t).

Lemma with_error_presentable t phase reason err :
  (phase = SPIAccessTokenPhaseInvalid /\
   In reason [SPIAccessTokenErrorReasonUnsupportedPermissions; SPIAccessTokenErrorReasonMetadataFailure]) \/
  (phase = SPIAccessTokenPhaseError /\
   In reason [SPIAccessTokenErrorReasonUnknownServiceProvider;
     SPIAccessTokenErrorUnsupportedServiceProviderConfiguration; SPIAccessTokenErrorReasonMetadataFailure]) ->
  presentable (with_error t phase reason err).
Proof. intros H. by right. Qed.

(** ** Contracts

    [versions] are all the versions of tokens that the cluster ever has. *)

Definition b_Key (b : SPIAccessTokenBinding) : ObjectKey := ObjectKeyFromObject (b_Meta b).

Section contracts.
Context (versions : list SPIAccessToken).

(** There was a token with this key. *)
Definition existed (key : ObjectKey) : Prop := key_Name key <> "" /\ In key (map at_Key versions).

Definition good_token (t : SPIAccessToken) : Prop := presentable t /\ existed (at_Key t).

(** A binding is linked to a token that there was in its namespace; an
  injected one is linked. *)
Definition good_status (namespace : string) (st : SPIAccessTokenBindingStatus) : Prop :=
In (bst_Phase st) [""; SPIAccessTokenBindingPhaseAwaitingTokenData; SPIAccessTokenBindingPhaseInjected; SPIAccessTokenBindingPhaseError] /\
(bst_LinkedAccessTokenName st <> "" -> existed (mkKey namespace (bst_LinkedAccessTokenName st))) /\
(bst_Phase st = SPIAccessTokenBindingPhaseInjected -> bst_LinkedAccessTokenName st <> "").
Definition good_binding (b : SPIAccessTokenBinding) : Prop := b_Namespace b <> "" /\ good_status (b_Namespace b) (b_Status b).

Definition shows (k : kind) : obj k -> Prop :=
match k return obj k -> Prop with KToken => good_token | KBinding => good_binding | _ => fun _ => True end.
(** What identifies the objects that are followed; the namespace, which is empty in
  a listing of all of them; the status *)
Definition has_key {k} (key : ObjectKey) : obj k -> Prop :=
match k return obj k -> Prop with KToken => fun t => at_Key t = key | KBinding => fun b => b_Key b = key | _ => fun _ => True end.
Definition same_key {k} : obj k -> obj k -> Prop :=
match k return obj k -> obj k -> Prop with
| KToken => fun o t => at_Key t = at_Key o | KBinding => fun o b => b_Key b = b_Key o | _ => fun _ _ => True
end.
Definition within {k} (ns : string) : obj k -> Prop :=
match k return obj k -> Prop with
| KToken => fun t => ns = "" \/ at_Namespace t = ns | KBinding => fun b => ns = "" \/ b_Namespace b = ns | _ => fun _ => True
end.
Definition same_namespace {k} : obj k -> obj k -> Prop :=
match k return obj k -> obj k -> Prop with
| KToken => fun o t => at_Namespace t = at_Namespace o | KBinding => fun o b => b_Namespace b = b_Namespace o | _ => fun _ _ => True
end.
Definition same_status {k} : obj k -> obj k -> Prop :=
match k return obj k -> obj k -> Prop with
| KToken => fun o t => at_Status t = at_Status o | KBinding => fun o b => b_Status b = b_Status o | _ => fun _ _ => True
end.
Definition followed (k : kind) : bool := match k with KToken | KBinding => true | _ => false end.
Definition answered {A} (P : A -> Prop) (r : res A) : Prop := match r with Ok a => P a | Err _ => True end.

(** ** Guarantees and reliances *)

(** The status of an object is written by updates of the status only; the server
  ignores it in an update or a creation, and the status of the objects that are
  followed is never patched. *)
Definition kube_gives {Y} (e : KubeE Y) : Prop :=
match e with KStatusUpdate k o => shows k o | KStatusPatch k _ _ => followed k = false | _ => True end.
Definition kube_takes {Y} (e : KubeE Y) : Y -> Prop :=
match e in KubeE Y return Y -> Prop with
| KGet k key => answered (fun o => shows k o /\ has_key key o)
| KList k ns _ _ => answered (Forall (fun o => shows k o /\ within ns o))
| KListNotIn k ns _ _ => answered (Forall (fun o => shows k o /\ within ns o))
| KCreate k o => answered (fun o' => shows k o' /\ same_namespace o o')
| KUpdate k o => answered (fun o' => shows k o' /\ same_key o o')
| KStatusUpdate k o => answered (fun o' => shows k o' /\ same_key o o' /\ same_status o o')
| KPatch k o _ => answered (fun o' => shows k o' /\ same_key o o')
| KStatusPatch k o _ => fun _ => True
| KDelete _ _ => fun _ => True
end.

(** What a provider is given and gives back *)
Definition sp_gives {Y} (e : SpE Y) : Prop :=
match e with
| PersistMetadata _ t | MapToken _ _ t _ => good_token t
| _ => True
end.
Definition sp_takes {Y} (e : SpE Y) : Y -> Prop :=
match e in SpE Y return Y -> Prop with
| PersistMetadata _ t => fun r => good_token r.1 /\ at_Key r.1 = at_Key t
| LookupTokens _ b => answered (Forall (fun t => good_token t /\ within (k := KToken) (b_Namespace b) t))
| _ => fun _ => True
end.

(** What is injected: the data of a ready token of the binding's namespace, which
  the binding is linked to *)
Definition good_injection (b : SPIAccessTokenBinding) (t : SPIAccessToken) : Prop :=
good_binding b /\ good_token t /\ is_ready_phase t = true /\
at_Namespace t = b_Namespace b /\ at_Name t = bst_LinkedAccessTokenName (b_Status b).

(** The finalizers of the controllers leave the key and the status alone. *)
Definition finalize_takes {k} (o : obj k) (fin : FinalizeResult k) : Prop := shows k (fin_obj fin) /\ same_key o (fin_obj fin).

(** A controller: the calls of the providers' interface are answered by it. *)
Definition gives (Y : Type) (e : Ev Y) : Prop :=
match e with
| Kube e => kube_gives e | Sp e => sp_gives e | Finalize k o => shows k o
| Dep (DepSync b _ t) => good_injection b t
| _ => True
end.
Definition takes (Y : Type) (e : Ev Y) : Y -> Prop :=
match e in Ev Y return Y -> Prop with
| Kube e => kube_takes e | Sp e => sp_takes e | Finalize k o => finalize_takes o | _ => fun _ => True
end.

(** A program of the composition: no such call is left to answer. *)
Definition gives_all (Y : Type) (e : Ev Y) : Prop := match e with Sp _ => True | _ => gives Y e end.
Definition takes_all (Y : Type) (e : Ev Y) : Y -> Prop :=
match e in Ev Y return Y -> Prop with Sp _ => fun _ => False | e => takes _ e end.

Notation safe := (wp gives takes).

Lemma good_same t t' : good_token t -> at_Key t' = at_Key t -> presentable t' -> good_token t'.
Proof using. intros [_ H] E Hp. split; [done|by rewrite E]. Qed.
Lemma good_metadata m t : good_token t -> good_token (set_metadata m t).
Proof using. intros H. by apply (good_same _ _ H); [|apply H]. Qed.

(** The updates that a finalization asks for *)
Lemma update_if_safe k c (o : obj k) : shows k o -> safe (answered (fun o' => shows k o' /\ same_key o o')) (update_if c o).
Proof using.
intros Ho. unfold update_if. wp_step.
- by do 2 wp_step.
- wp_step. split; [done|]. by destruct k.
Qed.
Lemma status_update_if_safe k c (o : obj k) : shows k o -> safe (answered (fun o' => shows k o' /\ same_key o o')) (status_update_if c o).
Proof using.
intros Ho. unfold status_update_if. wp_step.
- do 2 wp_step. destruct x; cbn in *; [|done]. by destruct Hx as (? & ? & _).
- wp_step. split; [done|]. by destruct k.
Qed.

(** ** The token controller *)

Section token_controller.
Context {X : Externals} (cfg : OperatorConfiguration).

Lemma flip_safe t phase reason err text o : good_token (with_error t phase reason err) ->
safe (fun _ => True) (flip_and_stop t phase reason err text o).
Proof using. intros H. unfold flip_and_stop, flipToExceptionalPhase. wp_calls. Qed.

Lemma oAuthUrlFor_safe t : safe (fun _ => True) (oAuthUrlFor t).
Proof using. unfold oAuthUrlFor. wp_calls. Qed.

(** The status that is written on success is consistent, whatever the token was. *)
Definition filled (t : SPIAccessToken) (r : res SPIAccessToken) : Prop :=
answered (fun t' => at_Key t' = at_Key t /\
  In (atst_Phase (at_Status t')) [""; SPIAccessTokenPhaseReady; SPIAccessTokenPhaseAwaitingTokenData]) r.
Lemma fillInStatus_safe t : safe (filled t) (fillInStatus cfg t).
Proof using.
unfold fillInStatus. eapply (wp_bind _ _ (filled t)).
- destruct (negb (known_user t)); [|wp_step; cbn; tauto]. wp_seq; [apply oAuthUrlFor_safe|]. wp_calls. cbn. tauto.
- intros [t'|err] H; by wp_step.
Qed.
Lemma updateTokenStatusSuccess_safe t : existed (at_Key t) -> safe (fun _ => True) (updateTokenStatusSuccess cfg t).
Proof using.
intros Ht. unfold updateTokenStatusSuccess. eapply wp_bind; [apply fillInStatus_safe|]. intros [t'|err] H; wp_calls.
destruct H as [Hk H]. split; [by left|by rewrite <- Hk in Ht].
Qed.
Lemma refreshToken_safe t sp : safe (fun _ => True) (refreshToken cfg t sp).
Proof using. unfold refreshToken, SpConfigFromUserSecret, findUserServiceProviderConfigSecret. wp_calls. Qed.
Lemma Reconcile_refresh_safe t sp : safe (fun _ => True) (Reconcile_refresh cfg t sp).
Proof using. unfold Reconcile_refresh. wp_seq; wp_calls. apply refreshToken_safe. Qed.
Lemma ensureLabels_key t type : at_Key (ensureLabels t type).2 = at_Key t.
Proof using.
unfold ensureLabels. destruct (negb _); (destruct (0 <? _)%nat; [|done]); (destruct (Parse _) as [u|]; [|done]); by destruct (negb _).
Qed.
Lemma Reconcile_labels_safe t sp : existed (at_Key t) -> safe (fun _ => True) (Reconcile_labels cfg t sp).
Proof using.
intros Ht. unfold Reconcile_labels, update_if. pose proof (ensureLabels_key t (spt_Name (GetType sp))) as Hk.
destruct (ensureLabels t _) as [changed t']. cbn in Hk. rewrite <- Hk in Ht.
apply (wp_bind _ _ (answered (fun t'' => existed (at_Key t'')))).
- wp_step; [|by wp_step]. do 2 wp_step. destruct x as [t''|err]; cbn; [|done]. by destruct Hx as [[_ Hx] _].
- intros [t''|err] Hr; [|by wp_step]. wp_seq; [by apply updateTokenStatusSuccess_safe|]. wp_step; [|by wp_step].
  apply Reconcile_refresh_safe.
Qed.

Lemma Reconcile_provider_safe t sp : good_token t -> safe (fun _ => True) (Reconcile_provider cfg t sp).
Proof using.
intros Ht. unfold Reconcile_provider. do 2 wp_step. destruct x as [[|e es]|err]; [|apply flip_safe|by wp_step].
- do 2 wp_step. destruct x as [t' perr]. destruct Hx0 as [Ht' Hk]. cbn [fst] in *.
  destruct perr as [err|]; [|apply Reconcile_labels_safe; apply Ht'].
  wp_step; (apply flip_safe, (good_same _ _ Ht'); [done|apply with_error_presentable; cbn; tauto]).
- apply (good_same _ _ Ht); [done|]. apply with_error_presentable. cbn. tauto.
Qed.
Lemma Reconcile_data_safe req t : good_token t -> safe (fun _ => True) (Reconcile_data cfg req t).
Proof using.
intros Ht. unfold Reconcile_data. apply (wp_bind _ _ (answered good_token)).
- unfold reconcileTokenData. wp_step; [|by wp_step]. do 2 wp_step. destruct x as [[td|]|err]; wp_step.
- intros [t'|err] H; [|by wp_step]. do 2 wp_step. destruct x as [sp|err]; [by apply Reconcile_provider_safe|].
  apply flip_safe, (good_same _ _ H); [done|]. apply with_error_presentable. destruct (errors_As_validation err); cbn; tauto.
Qed.
Lemma Reconcile_live_safe req t : good_token t -> safe (fun _ => True) (Reconcile_live cfg req t).
Proof using.
intros Ht. unfold Reconcile_live. wp_step; [by wp_step|]. do 2 wp_step.
wp_seq; [unfold cleanup_obsolete, hasLinkedBindings; wp_calls|]. wp_step; [by wp_step|by apply Reconcile_data_safe].
Qed.

Lemma token_Reconcile_safe req : safe (fun _ => True) (TokenController.Reconcile cfg req).
Proof using.
unfold TokenController.Reconcile. apply (wp_bind _ _ (fun r => match r with inr t => good_token t | inl _ => True end)).
- unfold load_and_finalize. do 2 wp_step. destruct x as [t|err]; [|wp_calls].
  do 2 wp_step; [by destruct Hx|]. destruct x as [t' u st [e|]]; cbn [fin_err fin_obj fin_Updated fin_StatusUpdated]; [by wp_step|].
  eapply wp_bind; [apply update_if_safe; by destruct Hx0|].
  intros [t''|err] Ht; [|by wp_step]. eapply wp_bind; [apply status_update_if_safe; by destruct Ht|].
  intros [t3|err] H3; wp_step. by destruct H3.
- intros [o|t] H; [by wp_step|by apply Reconcile_live_safe].
Qed.
End token_controller.
(** ** The binding controller *)

Section binding_controller.
Import BindingController.
Context {X : Externals} (cfg : OperatorConfiguration).

(** A binding with the key of [b] *)
Definition good_like (b b' : SPIAccessTokenBinding) : Prop := good_binding b' /\ b_Key b' = b_Key b.
Lemma like_refl b : good_binding b -> good_like b b.
Proof using. by split. Qed.
Lemma like_trans b b' b'' : good_like b b' -> good_like b' b'' -> good_like b b''.
Proof using. intros [_ E] [H E']. split; [done|by rewrite E']. Qed.
Lemma like_namespace b b' : good_like b b' -> b_Namespace b' = b_Namespace b.
Proof using. intros [_ H]. by injection H. Qed.

(** A status that keeps the link and does not become injected *)
Lemma restatus_good b f : good_binding b ->
bst_LinkedAccessTokenName (f (b_Status b)) = bst_LinkedAccessTokenName (b_Status b) ->
bst_Phase (f (b_Status b)) = bst_Phase (b_Status b) \/
In (bst_Phase (f (b_Status b))) [SPIAccessTokenBindingPhaseAwaitingTokenData; SPIAccessTokenBindingPhaseError] ->
good_binding (with_status f b).
Proof using.
intros (Hn & Hp & Hl & Hi) Ef Hf. split; [exact Hn|]. unfold good_status. cbn [with_status b_Status set_b_Status].
change (b_Namespace (with_status f b)) with (b_Namespace b).
rewrite Ef. destruct Hf as [->|Hf]; [done|]. split_and!; [cbn in *; tauto|done|]. intros E. rewrite E in Hf. by destruct Hf as [|[|[]]].
Qed.
Lemma error_good b reason message : good_binding b ->
good_binding (with_status (fun st => set_bst_ErrorReason reason (set_bst_ErrorMessage message st)) b).
Proof using. intros H. apply restatus_good; [done|done|by left]. Qed.
Lemma phase_good phase b : good_binding b ->
In phase [SPIAccessTokenBindingPhaseAwaitingTokenData; SPIAccessTokenBindingPhaseError] -> good_binding (set_phase phase b).
Proof using. intros H Hp. apply restatus_good; [done|done|by right]. Qed.

Lemma status_error_safe b reason err : good_binding b -> safe (good_like b) (updateBindingStatusError b reason err).
Proof using.
intros H. apply (error_good b reason (Error err)) in H. unfold updateBindingStatusError. do 2 wp_step.
destruct x as [b'|e]; [by destruct Hx as (? & ? & _)|by split].
Qed.
Lemma fail_safe b reason err : good_binding b -> safe (good_like b) (fail_binding b reason err).
Proof using. intros H. apply (status_error_safe (set_phase _ b)), phase_good; [done|cbn; tauto]. Qed.
Lemma status_success_safe b : good_binding b ->
safe (fun r => good_like b r.1 /\ bst_LinkedAccessTokenName (b_Status r.1) = bst_LinkedAccessTokenName (b_Status b))
  (updateBindingStatusSuccess b).
Proof using.
intros H. apply (error_good b "" "") in H. unfold updateBindingStatusSuccess. do 2 wp_step.
destruct x as [b'|e]; wp_step. destruct Hx as (Hg & Hk & Hs). split; [by split|]. cbn. by rewrite Hs.
Qed.

(** Linking *)
Lemma linked_good b token : good_binding b -> good_token token -> at_Namespace token = b_Namespace b ->
good_binding (linked_status b token).
Proof using.
intros (Hn & Hp & _ & _) [_ [Hne He]] Hns. split; [exact Hn|].
change (b_Namespace (linked_status b token)) with (b_Namespace b).
assert (mkKey (b_Namespace b) (at_Name token) = at_Key token) as Ek by (rewrite <- Hns; done).
split_and!; [exact Hp| |]; cbn; [|done]. intros _. rewrite Ek. by split.
Qed.
Definition linked_with (b : SPIAccessTokenBinding) (token : SPIAccessToken) (r : SPIAccessTokenBinding * option goerr) : Prop :=
good_like b r.1 /\ (r.2 = None -> bst_LinkedAccessTokenName (b_Status r.1) = at_Name token).
Lemma persist_label_safe b token : good_binding b -> safe (fun r => good_like b r.1) (persist_label b token).
Proof using.
intros H. unfold persist_label. wp_step; [|wp_step; by split]. do 2 wp_step. destruct x as [b'|e].
- by wp_step.
- eapply wp_bind; [by apply (status_error_safe (linked_label b token))|]. intros b' Hb'. by wp_step.
Qed.
Lemma persist_status_safe b token : good_binding b -> good_token token -> at_Namespace token = b_Namespace b ->
safe (linked_with b token) (persist_status b token).
Proof using.
intros H Ht Hns. unfold persist_status. destruct (String.eqb_spec (bst_LinkedAccessTokenName (b_Status b)) (at_Name token)) as [E|E];
  cbn [negb]; [wp_step; by split|].
eapply wp_bind; [by apply status_success_safe, linked_good|]. intros [b' [e|]] [Hb' Hl]; cbn [fst] in *.
- eapply wp_bind; [apply status_error_safe, Hb'|]. intros b'' Hb''. wp_step. split; [|done].
  by eapply (like_trans b b' b'').
- by wp_step.
Qed.
Lemma persist_safe b token : good_binding b -> good_token token -> at_Namespace token = b_Namespace b ->
safe (linked_with b token) (persistWithMatchingLabels b token).
Proof using.
intros H Ht Hns. unfold persistWithMatchingLabels. eapply wp_bind; [by apply persist_label_safe|].
intros [b' [e|]] Hb'; cbn [fst] in *; [by wp_step|].
eapply wp_mono; [apply persist_status_safe; [apply Hb'|done|by rewrite (like_namespace _ _ Hb')]|].
intros r [Hr Hl]. split; [by eapply like_trans|done].
Qed.

Lemma getLinkedTokenFromList_in b tokens t : getLinkedTokenFromList b tokens = Some t -> In t tokens.
Proof using. by intros [Hin _]%List.find_some. Qed.

(** The chosen token was listed, read or created in the namespace of the
  binding. *)
Definition eligible (b : SPIAccessTokenBinding) (t : SPIAccessToken) : Prop := good_token t /\ at_Namespace t = b_Namespace b.
Definition chosen_for (b : SPIAccessTokenBinding) (r : SPIAccessTokenBinding * res choice) : Prop :=
good_like b r.1 /\ answered (fun c => eligible b (ch_token c)) r.2.
Lemma choose_safe sp b tokens : good_binding b -> Forall (eligible b) tokens -> safe (chosen_for b) (choose_token sp b tokens).
Proof using.
intros Hb Ht. unfold choose_token. destruct tokens as [|t0 tokens].
- destruct (negb _).
  + do 2 wp_step. destruct x as [t|e]; wp_step. destruct Hx as [Hg Hk]. split; [by split|]. split; [done|].
    by injection Hk.
  + destruct (validateServiceProviderUrl _).
    { eapply wp_bind; [by apply fail_safe|]. intros b' Hb'. by wp_step. }
    do 2 wp_step. destruct x as [t|err]; [by wp_step|].
    eapply wp_bind; [by apply status_error_safe|]. intros b' Hb'. by wp_step.
- wp_step. split; [by split|]. cbn [snd answered ch_token]. destruct (getLinkedTokenFromList b (t0 :: tokens)) as [t|] eqn:E.
  + apply getLinkedTokenFromList_in in E. by apply (proj1 (List.Forall_forall _ _) Ht).
  + by inversion Ht.
Qed.

Definition linked_token (b : SPIAccessTokenBinding) (r : SPIAccessTokenBinding * res (SPIAccessToken * bool)) : Prop :=
good_like b r.1 /\
answered (fun c => eligible r.1 c.1 /\ bst_LinkedAccessTokenName (b_Status r.1) = at_Name c.1) r.2.
Lemma linkToken_safe sp b : good_binding b -> safe (linked_token b) (linkToken sp b).
Proof using.
intros Hb. unfold linkToken. do 2 wp_step. destruct x as [tokens|err].
- eapply wp_bind; [apply choose_safe; [done|]|].
  { eapply List.Forall_impl; [|exact Hx]. intros t [Hg [Hw|Hw]]; [|by split]. by destruct Hb. }
  intros [b' [c|err]] [Hb' Hc]; cbn [fst snd answered] in *; [|by wp_step].
  destruct Hc as [Hg Hns]. rewrite <- (like_namespace _ _ Hb') in Hns.
  eapply wp_bind; [apply persist_safe; [apply Hb'|done|done]|]. intros [b'' [e|]] [Hb'' Hl]; cbn [fst snd] in *.
  + pose proof (like_trans _ _ _ Hb' Hb''). wp_calls. by split.
  + wp_step. split; [by eapply like_trans|]. cbn. split; [split; [done|by rewrite (like_namespace _ _ Hb'')]|by apply Hl].
- eapply wp_bind; [by apply status_error_safe|]. intros b' Hb'. by wp_step.
Qed.

(** The synchronization of the dependent objects *)
Lemma sync_safe sp b token n : good_binding b -> eligible b token -> bst_LinkedAccessTokenName (b_Status b) = at_Name token ->
safe (fun r => match r with inr b' => good_binding b' | inl _ => True end) (sync_dependents sp b token n).
Proof using.
intros Hb [Ht Hns] Hl. unfold sync_dependents.
assert (good_binding (awaiting_without_objects b)) as Ha by (apply restatus_good; [done|done|right; cbn; tauto]).
destruct (is_ready_phase token) eqn:Er; [|by wp_step]. do 2 wp_step.
destruct x as [deps|[reason err]].
- wp_step. destruct Hb as (Hn & Hp & Hlk & _). split; [done|]. split_and!; [cbn; tauto|done|]. intros _. cbn. rewrite Hl.
  by destruct Ht as [_ [Hne _]].
- wp_step; [by wp_step|]. wp_seq; [|wp_calls]. eapply wp_mono; [by apply fail_safe|done].
Qed.
Lemma Reconcile_sync_safe sp b token lifetime : good_binding b -> eligible b token ->
bst_LinkedAccessTokenName (b_Status b) = at_Name token -> safe (fun _ => True) (Reconcile_sync cfg sp b token lifetime).
Proof using.
intros Hb Ht Hl. unfold Reconcile_sync, requeue_after_lifetime. cbv zeta. set (b' := with_status _ b).
assert (good_binding b') as Hb' by (apply restatus_good; [done|done|by left]).
do 2 wp_step. destruct x as [n|err].
- eapply wp_bind; [by apply sync_safe|]. intros [o|b2] Hb2; [by wp_step|].
  eapply wp_bind; [by apply status_success_safe|]. intros [b3 [e|]] [Hb3 _]; cbn [fst] in Hb3; [wp_calls|].
  wp_step; [|wp_calls]. do 2 wp_step. wp_step; [|wp_calls].
  wp_seq; [eapply wp_mono; [apply status_error_safe, Hb3|done]|wp_calls].
- wp_seq; [|wp_calls]. eapply wp_mono; [by apply fail_safe|done].
Qed.
Lemma Reconcile_link_safe sp b lifetime : good_binding b -> safe (fun _ => True) (Reconcile_link cfg sp b lifetime).
Proof using.
intros Hb. unfold Reconcile_link. eapply wp_bind; [by apply linkToken_safe|]. intros [b' [[t m]|err]] [Hb' Hc];
  cbn [fst snd answered] in *; [|by wp_step]. destruct Hc as [Ht Hl]. destruct Hb' as [Hb' _].
wp_step; [|by apply Reconcile_sync_safe]. wp_seq; [|wp_calls].
eapply wp_mono; [apply status_error_safe, restatus_good; [apply phase_good; [done|cbn; tauto]|done|by left]|done].
Qed.

Lemma failing_safe b reason err (o : outcome) : good_binding b ->
safe (fun _ => True) (let! _ := fail_binding b reason err in Ret o).
Proof using. intros H. wp_seq; [eapply wp_mono; [by apply fail_safe|done]|by wp_step]. Qed.
Hint Resolve failing_safe : contracts.
Lemma Reconcile_validate_safe sp b lifetime : good_binding b -> safe (fun _ => True) (Reconcile_validate cfg sp b lifetime).
Proof using.
intros H. unfold Reconcile_validate. set (b' := if String.eqb (bst_Phase (b_Status b)) "" then set_phase SPIAccessTokenBindingPhaseAwaitingTokenData b else b).
assert (good_binding b') as Hb' by (unfold b'; case_match; [apply phase_good; [done|cbn; tauto]|done]).
wp_step; [|by apply failing_safe]. do 2 wp_step. destruct x as [[|e es]|err].
- by apply Reconcile_link_safe.
- by apply failing_safe.
- by wp_step.
Qed.
Lemma binding_live_safe sp b : good_binding b -> safe (fun _ => True) (BindingController.Reconcile_live cfg sp b).
Proof using.
intros H. unfold BindingController.Reconcile_live. wp_step; [by wp_step|].
wp_step; [|by apply failing_safe]. do 2 wp_step. wp_step; [wp_calls|by apply Reconcile_validate_safe].
Qed.
Lemma binding_finalize_safe sp b : good_binding b -> safe (fun _ => True) (Reconcile_finalize cfg sp b).
Proof using.
intros H. unfold Reconcile_finalize. do 2 wp_step. destruct x as [b' u st [e|]]; cbn [fin_err fin_obj fin_Updated fin_StatusUpdated];
  [by wp_step|].
eapply wp_bind; [apply update_if_safe; by destruct Hx|]. intros [b2|err] H2; [|by wp_step].
eapply wp_bind; [apply status_update_if_safe; by destruct H2|]. intros [b3|err] H3; [|by wp_step].
by apply binding_live_safe, H3.
Qed.
Lemma binding_provider_safe b : good_binding b -> safe (fun _ => True) (BindingController.Reconcile_provider cfg b).
Proof using.
intros H. unfold BindingController.Reconcile_provider. wp_seq.
- unfold getServiceProvider. do 2 wp_step. wp_step; [by wp_step|]. wp_step;
    (wp_seq; [eapply wp_mono; [by apply fail_safe|done]|by wp_step]).
- wp_step; [|by wp_step]. destruct (checkQuayPermissionAreasMigration b _) as [change b'] eqn:E.
  assert (good_binding b') as Hb' by (unfold checkQuayPermissionAreasMigration in E; case_match; by simplify_eq).
  wp_step; [wp_calls|by apply binding_finalize_safe].
Qed.
Lemma binding_Reconcile_safe req : safe (fun _ => True) (BindingController.Reconcile cfg req).
Proof using.
unfold BindingController.Reconcile. do 2 wp_step. destruct x as [b|err]; [|wp_calls]. destruct Hx as [Hb _].
apply (wp_bind _ _ (fun r => match r with inr b' => good_binding b' | inl _ => True end)).
- unfold assureProperValuesInBinding. wp_step.
  + wp_step; [|by wp_step]. by do 2 wp_step.
  + wp_seq; [eapply wp_mono; [by apply fail_safe|done]|by wp_step].
- intros [o|b'] Hb'; [by wp_step|]. apply (wp_bind _ _ (answered good_binding)).
  + unfold migrateFinalizers. cbv zeta. wp_step; [|by wp_step]. do 2 wp_step. destruct x as [b2|err]; wp_step. by destruct Hx.
  + intros [b2|err] H2; [by apply binding_provider_safe|by wp_step].
Qed.
End binding_controller.

(** ** The upload controller *)

Lemma upload_Reconcile_safe req : safe (fun _ => True) (TokenUpload.Reconcile req).
Proof using.
unfold TokenUpload.Reconcile, TokenUpload.Reconcile_deleted, TokenUpload.process, TokenUpload.reconcileToken,
  TokenUpload.find_or_create, TokenUpload.findSpiAccessToken, TokenUpload.createSpiAccessToken,
  TokenUpload.createErrorEvent, TokenUpload.tryDeleteEvent.
wp_calls.
Qed.

(** ** The data of a secret *)

Lemma GetData_safe b sp t : good_token t -> safe (fun _ => True) (GetData b sp t).
Proof using. intros Ht. unfold GetData. wp_calls. Qed.

(** ** The other controllers and the OAuth service *)

Lemma check_Reconcile_safe cfg req : safe (fun _ => True) (Check.Reconcile cfg req).
Proof using. unfold Check.Reconcile, Check.Reconcile_live, Check.examine. wp_calls. Qed.
Lemma file_Reconcile_safe cfg req : safe (fun _ => True) (File.Reconcile cfg req).
Proof using.
unfold File.Reconcile, File.Reconcile_live, File.Reconcile_download, File.requeueErrorWithStatusUpdate,
  File.updateFileRequestStatusError, File.update_status.
wp_calls.
Qed.
Lemma update_Reconcile_safe req : safe (fun _ => True) (DataUpdate_Reconcile req).
Proof using. unfold DataUpdate_Reconcile. wp_calls. Qed.
Lemma remote_secret_Reconcile_safe {C : RemoteSecretOAuth.Conditions} req : safe (fun _ => True) (RemoteSecretOAuth.Reconcile req).
Proof using.
unfold RemoteSecretOAuth.Reconcile, RemoteSecretOAuth.Reconcile_unlabelled, RemoteSecretOAuth.Reconcile_labelled,
  RemoteSecretOAuth.Reconcile_oauth, RemoteSecretOAuth.patch_status.
wp_calls.
Qed.
Lemma environment_Reconcile_safe req : safe (fun _ => True) (OtherControllers.Environment_Reconcile req).
Proof using. unfold OtherControllers.Environment_Reconcile, update_if. wp_calls. Qed.
Lemma application_Reconcile_safe req : safe (fun _ => True) (OtherControllers.Application_Reconcile req).
Proof using. unfold OtherControllers.Application_Reconcile, update_if. wp_calls. Qed.

Section oauth.
Context {X : Externals} {E : OAuthExternals} (cfg : OAuthServiceConfiguration).

Lemma random_safe n : safe (fun _ => True) (randStringBytes n).
Proof using. induction n as [|n IH]; cbn [randStringBytes]; wp_calls. Qed.
Lemma retry_safe n fn : safe (fun _ => True) fn -> safe (fun _ => True) (RetryOnConflict n fn).
Proof using.
intros H. induction n as [|[|n] IH]; cbn [RetryOnConflict]; (wp_seq; [exact H|wp_calls]).
Qed.
Hint Resolve random_safe retry_safe : contracts.
Lemma attempt_safe auth key data : safe (fun _ => True) (upload_attempt auth key data).
Proof using. unfold upload_attempt. wp_calls. Qed.
Hint Resolve attempt_safe : contracts.
Lemma find_safe controllers r veiled : safe (fun _ => True) (findController controllers r veiled).
Proof using. unfold findController, UnveilState, GetString. wp_calls. Qed.
Lemma obtain_safe spType state : safe (fun _ => True) (obtainOauthConfig cfg spType state).
Proof using. unfold obtainOauthConfig, SpConfigFromUserSecret, findUserServiceProviderConfigSecret. wp_calls. Qed.
Hint Resolve find_safe obtain_safe : contracts.
Lemma authenticate_safe controllers r : safe (fun _ => True) (Authenticate_ServeHTTP cfg controllers r).
Proof using.
unfold Authenticate_ServeHTTP, Authenticate, GetToken, GetString, checkIdentityHasAccess, spi_checkIdentityHasAccess,
rs_checkIdentityHasAccess, VeilRealState, render_redirect, set_scopes.
wp_calls.
Qed.
Lemma callback_safe controllers r : safe (fun _ => True) (Callback_ServeHTTP cfg controllers r).
Proof using.
unfold Callback_ServeHTTP, Callback, finishOAuthExchange, UnveilState, GetTokenFromSession, GetString, StateVeiledAt, GetInt64,
syncTokenData, spi_syncTokenData, rs_syncTokenData.
wp_calls.
Qed.
Lemma upload_safe name ns r : safe (fun _ => True) (HandleUpload name ns r).
Proof using. unfold HandleUpload, Upload. wp_calls. Qed.
End oauth.
End contracts.

Notation safe versions := (wp (gives versions) (takes versions)).
Notation safe_all versions := (wp (gives_all versions) (takes_all versions)).
