(* ===== verification/Schedules.v ===== *)
(** * The schedules of a lookup as programs

    [GenericLookup.Lookup] (lookup.go) starts a goroutine per token; [Lookup] is
    the relation of the calls that it may make.  [scheduled oracle] is the
    program in which the goroutines take their steps in the order that [oracle]
    names; every schedule is the one of some oracle. *)

From S2P Require Import Prelude GoStd GoUrl Api Externals SpErrors Effects Lookup System.
Local Open Scope string_scope.
Local Open Scope list_scope.
Local Open Scope spi_scope.

(** ** The goroutines in a given order *)

(** What is left to do, one goroutine after the other *)
Fixpoint drain (gs : list (SPIAccessToken * prog candidate)) (p : pool) : prog (go pool) :=
  match gs with
  | [] => Ret (Returns p)
  | (_, g) :: rest =>
      let! c := g in
      match c with
      | Crashed what => Ret (Panics what)
      | _ => drain rest (deliver c p)
      end
  end.

(** The goroutine in the place [i] takes a step, for each [i] of the oracle. *)
Fixpoint scheduled_pool (oracle : list nat) (p : pool) : prog (go pool) :=
  match oracle with
  | [] => drain (running p) (mkPool [] (result_ p) (errs_ p))
  | i :: oracle =>
      match running p !! i with
      | None => scheduled_pool oracle p
      | Some (t, Vis e k) =>
          Vis e (fun x => scheduled_pool oracle (mkPool (<[i := (t, k x)]> (running p)) (result_ p) (errs_ p)))
      | Some (_, Ret (Crashed what)) => Ret (Panics what)
      | Some (_, Ret c) =>
          scheduled_pool oracle (deliver c (mkPool (delete i (running p)) (result_ p) (errs_ p)))
      end
  end.

Definition scheduled {X : Externals} (oracle : list nat) : lookup_program := fun l m =>
  match gl_RepoUrlParser l (m_RepoUrl m) with
  | Err err => Ret (Err (Errorf_w ("error parsing the host from repo URL " +:+ m_RepoUrl m) err))
  | Ok u =>
      let! r := kube (KList KToken (m_ObjNamespace m) (lookup_labels l u) None) in
      match r with
      | Err err => Ret (Err (Errorf_w "failed to list the potentially matching tokens" err))
      | Ok tokens =>
          let! p := scheduled_pool oracle (spawn l m tokens) in
          Ret match p with Returns p => collect p | Panics _ => Err crashed_lookup end
      end
  end.

(** ** Every schedule, and nothing else *)

Lemma drain_run gs : forall p tr p', running p = [] -> exec (drain gs p) tr (Returns p') ->
  pool_run (mkPool gs (result_ p) (errs_ p)) tr p'.
Proof.
  induction gs as [|[t g] gs IH]; intros p tr p' Hp H; cbn [drain] in H.
  - destruct H as [-> [= ->]]. destruct p as [rs r es]. cbn in *. subst. constructor.
  - apply exec_bind in H as (c & tr1 & tr2 & -> & H1 & H2). eapply pool_run_one; [exact H1|by destruct c; [..|destruct H2]|].
    destruct c; cbn [deliver result_ errs_ running] in *; [by apply IH in H2..|by destruct H2].
Qed.

(** The place of a goroutine in the pool *)
Lemma pool_at i (gs : list (SPIAccessToken * prog candidate)) g : gs !! i = Some g ->
  exists pre post, gs = pre ++ g :: post /\ delete i gs = pre ++ post /\ forall g', <[i := g']> gs = pre ++ g' :: post.
Proof.
  intros H. exists (take i gs), (drop (S i) gs). split; [symmetry; by apply take_drop_middle|].
  split; [apply delete_take_drop|]. intros g'. apply insert_take_drop. by eapply lookup_lt_Some.
Qed.

Lemma scheduled_run oracle : forall p tr p', exec (scheduled_pool oracle p) tr (Returns p') -> pool_run p tr p'.
Proof.
  induction oracle as [|i oracle IH]; intros [gs r es] tr p' H; cbn [scheduled_pool running result_ errs_] in H.
  - by apply (drain_run gs (mkPool [] r es)).
  - destruct (gs !! i) as [[t g]|] eqn:Ei; [|by apply IH].
    apply pool_at in Ei as (pre & post & -> & Hd & Hi). destruct g as [c|Y e k].
    + rewrite Hd in H. destruct (crashed c) eqn:Hc; [by destruct c; [..|destruct H]|].
      apply (run_step _ [] (deliver c (mkPool (pre ++ post) r es))); [by apply step_done|].
      by destruct c; [apply IH..|].
    + destruct H as (x & tr' & -> & H). rewrite Hi in H. apply IH in H.
      eapply (run_step _ [Act e x]); [|exact H]. apply step_call.
Qed.

Lemma run_scheduled p tr p' : pool_run p tr p' -> exists oracle, exec (scheduled_pool oracle p) tr (Returns p').
Proof.
  induction 1 as [r es|p tr p' tr' p'' Hs _ [oracle IH]]; [by exists []|].
  destruct Hs as [pre post t Y e k x r es|pre post t c r es Hc];
    exists (length pre :: oracle); cbn [scheduled_pool running result_ errs_]; rewrite list_lookup_middle by done.
  - exists x, tr'. split; [done|]. by rewrite insert_app_r_alt, Nat.sub_diag by done.
  - rewrite delete_middle. by destruct c.
Qed.

(** The calls and the result of a lookup are those of the program with some
    oracle; in a run of the program that no lookup has, a goroutine panics. *)
Lemma scheduled_schedules {X : Externals} oracle : schedules (scheduled oracle).
Proof.
  intros l m tr r H. unfold scheduled in H. destruct (gl_RepoUrlParser l (m_RepoUrl m)) as [u|err] eqn:Eu.
  - exec_steps. destruct x as [tokens|err]; exec_steps; [|left; by eapply Lookup_list_failed].
    apply exec_bind_ret in H as ([p|w] & H & ->); [left|by right]. eapply Lookup_examined; [done|]. by eapply scheduled_run.
  - destruct H as [-> ->]. left. by apply Lookup_bad_url.
Qed.
Lemma every_schedule_scheduled {X : Externals} l m tr r : Lookup l m tr r -> exists oracle, exec (scheduled oracle l m) tr r.
Proof.
  unfold scheduled. intros [err Hu|u err Hu|u tokens tr' p Hu Hr]; rewrite ?Hu.
  - by exists [].
  - exists []. by exists (Err err), [].
  - apply run_scheduled in Hr as [oracle Hr]. exists oracle, (Ok tokens), tr'. split; [done|].
    cbn [bind]. apply exec_bind. exists (Returns p), tr', []. rewrite app_nil_r. by repeat split.
Qed.
