(* ===== verification/Packages.v ===== *)
(** * The packages of the providers keep the promises of their interface

    The lookups, the metadata cache and the four packages against [gives] and
    [takes] of [Contracts], the factory of the operator, and the rule
    [wp_with_providers]: a program that is safe against the interface is safe when
    it is composed with them. *)

From S2P Require Import Prelude GoStd GoUrl GoJson Api Externals SpErrors Effects SpConfig Factory Lookup AccessTokenMapper Contracts.
From S2P Require GitHub GitLab Quay QuayProvider HostCredentials.
From S2P Require Import Providers System Schedules.
Local Open Scope string_scope.
Local Open Scope list_scope.
Local Open Scope spi_scope.

Section packages.
Context (versions : list SPIAccessToken).
Notation safe := (safe versions).
Notation safe_all := (safe_all versions).
Notation good_token := (good_token versions).

(** ** The lookups *)

(** A good token with the key of [t] *)
Definition good_as (t t' : SPIAccessToken) : Prop := good_token t' /\ at_Key t' = at_Key t.
Lemma good_as_refl t : good_token t -> good_as t t.
Proof using. by split. Qed.
Lemma good_as_trans t t' t'' : good_as t t' -> good_as t' t'' -> good_as t t''.
Proof using. intros [_ E] [H E']. split; [done|by rewrite E']. Qed.

Record lawful_lookup (l : GenericLookup) : Prop := {
  ll_fetch : forall t st, safe_all (fun _ => True) (gl_Fetch l t st);
  ll_expired : forall t, safe_all (fun _ => True) (ExpirationPolicy (gl_MetadataCache l) t);
  ll_filter : forall m t, good_token t ->
    safe_all (fun r => match r with Returns (t', _) => good_as t t' | Panics _ => True end) (gl_TokenFilter l m t) }.

Lemma Persist_safe t : good_token t -> safe_all (fun r => good_as t r.1) (Persist t).
Proof using.
intros Ht. unfold Persist. eapply (wp_bind _ _ (good_as t)).
- destruct (atst_TokenMetadata _); [|wp_step; by apply good_as_refl]. do 2 wp_step. split; [by apply good_metadata|done].
- intros t' [Ht' Hk]. do 2 wp_step. destruct x as [t''|err]; wp_step. destruct Hx as (Hg & E & _). split; [done|]. cbn. by rewrite E.
Qed.
Lemma Ensure_safe l t : lawful_lookup l -> good_token t ->
safe_all (fun r => good_as t r.1) (Ensure (gl_MetadataCache l) (gl_Fetch l) t).
Proof using.
intros Hl Ht. unfold Ensure. eapply (wp_bind _ _ (good_as t)).
{ unfold refresh. destruct (atst_TokenMetadata _); [|wp_step; by apply good_as_refl].
  eapply wp_bind; [apply (ll_expired _ Hl)|]. intros expired _.
  by destruct expired; wp_step. }
intros t' Ht'. destruct (atst_TokenMetadata _); [by wp_step|]. eapply wp_bind; [apply (ll_fetch _ Hl)|].
intros [data|err] _; [|by wp_step].
assert (forall m, good_as t (set_metadata m t')) as Hm by (intros m; split; [apply good_metadata, Ht'|apply Ht']).
destruct (_ || _); [|wp_step; apply Hm].
eapply wp_mono; [apply Persist_safe, Hm|]. intros r Hr. eapply good_as_trans; [apply Hm|exact Hr].
Qed.

(** A token that a lookup may offer: it is in the namespace of what is matched. *)
Definition offerable (m : Matchable) (t : SPIAccessToken) : Prop := good_token t /\ within (k := KToken) (m_ObjNamespace m) t.
Lemma offerable_as m t t' : offerable m t -> good_as t t' -> offerable m t'.
Proof using. intros [_ Hw] [Hg Hk]. split; [done|]. injection Hk as Hn _. cbn in *. unfold at_Namespace in *. by rewrite Hn. Qed.
Definition lawful_candidate (m : Matchable) (c : candidate) : Prop := match c with Matched t => offerable m t | _ => True end.
Lemma examine_safe l m t : lawful_lookup l -> offerable m t -> safe_all (lawful_candidate m) (examine l m t).
Proof using.
intros Hl Ht. unfold examine. eapply wp_bind; [apply Ensure_safe; [done|apply Ht]|]. intros [t' [e|]] Ht'; [by wp_step|].
eapply wp_bind; [apply (ll_filter _ Hl), Ht'|]. intros [[t2 [[]|e]]|w] H; wp_step.
eapply offerable_as; [by eapply offerable_as|exact H].
Qed.

(** A pool of goroutines that keep the promises *)
Definition lawful_pool (m : Matchable) (p : pool) : Prop :=
Forall (fun g => safe_all (lawful_candidate m) g.2) (running p) /\ Forall (offerable m) (result_ p).
Lemma deliver_lawful m c p : lawful_candidate m c -> lawful_pool m p -> lawful_pool m (deliver c p).
Proof using. intros Hc [Hg Hp]. destruct c; cbn; split; try done. by apply Forall_app_2; [|constructor]. Qed.

Definition presents_pool (m : Matchable) (r : go pool) : Prop := match r with Returns p => Forall (offerable m) (result_ p) | Panics _ => True end.
Lemma drain_safe m gs p : lawful_pool m (mkPool gs (result_ p) (errs_ p)) -> safe_all (presents_pool m) (drain gs p).
Proof using.
revert p. induction gs as [|[t g] gs IH]; intros p [Hg Hp]; cbn [drain]; [by wp_step|].
apply List.Forall_cons_iff in Hg as [Hg Hgs]. eapply wp_bind; [exact Hg|]. intros c Hc.
apply (deliver_lawful _ _ (mkPool gs (result_ p) (errs_ p))) in Hc; [|by split].
destruct c; try by wp_step. all: by apply IH.
Qed.
Lemma scheduled_pool_safe m oracle p : lawful_pool m p -> safe_all (presents_pool m) (scheduled_pool oracle p).
Proof using.
revert p. induction oracle as [|i oracle IH]; intros p Hp; cbn [scheduled_pool]; [by apply drain_safe|].
destruct (running p !! i) as [[t g]|] eqn:Ei; [|by apply IH]. destruct Hp as [Hg Hp].
pose proof (Forall_lookup_1 _ _ _ _ Hg Ei) as Hi. destruct g as [c|Y e k].
- apply (deliver_lawful _ _ (mkPool (delete i (running p)) (result_ p) (errs_ p))) in Hi; [|split; [by apply Forall_delete|done]].
  destruct c; try by wp_step. all: by apply IH.
- destruct Hi as [He Hk]. split; [exact He|]. intros x Hx. apply IH. split; [|done]. apply Forall_insert; [done|by apply Hk].
Qed.

Definition presents (m : Matchable) (r : res (list SPIAccessToken)) : Prop := answered (Forall (offerable m)) r.
(** A program for the lookups of the packages *)
Definition lawful_lookups (lookup : lookup_program) : Prop :=
forall l m, lawful_lookup l -> safe_all (presents m) (lookup l m).
Lemma scheduled_lawful {X : Externals} oracle : lawful_lookups (scheduled oracle).
Proof using.
intros l m Hl. unfold scheduled. wp_step; [|by wp_step]. do 2 wp_step. destruct x as [tokens|err]; [|by wp_step].
eapply wp_bind; [apply (scheduled_pool_safe m); split; [|constructor]|].
- apply List.Forall_forall. intros g (t & <- & [Hin _]%List.filter_In)%in_map_iff. apply examine_safe; [done|].
  by apply (proj1 (List.Forall_forall _ _) Hx).
- intros [p|w] H; wp_step. unfold collect. by destruct (0 <? _)%nat.
Qed.

(** ** The packages of the providers *)

Lemma lawful_generic name filter rs fetch cfg policy parser :
  (forall t st, safe_all (fun _ => True) (fetch t st)) -> (forall t, safe_all (fun _ => True) (policy t)) ->
  (forall m t, good_token t -> safe_all (fun r => match r with Returns (t', _) => good_as t t' | Panics _ => True end) (filter m t)) ->
  lawful_lookup (mkGenericLookup name (NewFilter (opc_TokenMatchPolicy cfg) filter) rs fetch
    (NewCacheWithExpirationPolicy cfg policy) parser).
Proof using.
intros Hf Hp Ht. split; [done|done|]. intros m t H. cbn. unfold NewFilter.
destruct (String.eqb _ _); [by apply good_as_refl|by apply Ht].
Qed.

Section providers.
Context {X : Externals} {J : Quay.JwtParser} (cfg : OperatorConfiguration).

Definition lawful (p : provider) : Prop := lawful_lookup (lookup_of p).

Lemma fetchRepositoryRecord_safe repoUrl td info : safe_all (fun _ => True) (Quay.fetchRepositoryRecord repoUrl td info).
Proof using.
unfold Quay.fetchRepositoryRecord, Quay.oauthRepositoryRecord, Quay.hasRepoRead, Quay.hasRepoWrite, Quay.hasRepoCreate,
  Quay.hasRepoAdmin, Quay.isSuccessfulRequest, Quay.doQuayRequest, try.
wp_calls.
Qed.
Lemma fetchOrganizationRecord_safe o td info : safe_all (fun _ => True) (Quay.fetchOrganizationRecord o td info).
Proof using.
unfold Quay.fetchOrganizationRecord, Quay.hasOrgAdmin, Quay.isSuccessfulRequest, Quay.doQuayRequest, try. wp_calls.
Qed.
Hint Resolve fetchRepositoryRecord_safe fetchOrganizationRecord_safe : contracts.
Lemma getEntityRecord_safe p td repository key cache login fetchFn :
(forall info, safe_all (fun _ => True) (fetchFn key td info)) ->
safe_all (fun _ => True) (QuayProvider.getEntityRecord p td repository key cache login fetchFn).
Proof using.
intros H. unfold QuayProvider.getEntityRecord, QuayProvider.refetch, QuayProvider.getLoginTokenInfo, Quay.DockerLogin, try.
wp_calls.
Qed.
Hint Resolve getEntityRecord_safe : contracts.
Lemma FetchRepo_safe p repoUrl t : good_token t -> safe_all (fun r => good_as t r.1) (QuayProvider.FetchRepo p repoUrl t).
Proof using.
intros Ht. pose proof (good_as_refl t Ht) as Hr.
unfold QuayProvider.FetchRepo, QuayProvider.fetch_records, QuayProvider.persistTokenState.
do 2 (wp_step; [|by wp_step]). do 2 wp_step. destruct x as [[td|]|err]; [|by wp_step..].
do 3 wp_step; [by wp_step|].
wp_seq; [auto with contracts|]. wp_step; [|by wp_step]. wp_seq; [auto with contracts|]. wp_step; [|by wp_step].
eapply (wp_bind _ _ (fun r => good_as t r.1)); [|intros [t' [err|]] H'; by wp_step].
wp_step; [|by wp_step]. do 2 wp_step.
destruct x as [t'|err]; wp_step. destruct Hx0 as (Hg & Hk & _). by split.
Qed.

Lemma quay_lawful c q : QuayProvider.newQuay cfg c = Ok q -> lawful (PQuay q).
Proof using.
intros [= <-]. apply lawful_generic.
- intros t st. unfold QuayProvider.Fetch. wp_calls.
- done.
- intros m t Ht. pose proof (good_as_refl t Ht) as Hr. unfold QuayProvider.Matches. cbn [QuayProvider.tf_metadataProvider]. wp_calls.
Qed.
Lemma gitlab_lawful c g : GitLab.newGitlab cfg (Some c) = Returns (Ok g) -> lawful (PGitLab g).
Proof using.
unfold GitLab.newGitlab. destruct (GitLab.newRepoUrlMatcher _); [|done]. intros [= <-]. apply lawful_generic.
- intros t st. unfold GitLab.doFetch, GitLab.CreateAuthenticatedClient, GitLab.fetchUser, GitLab.fetchScopes,
    GitLab.fetchOAuthScopes, GitLab.fetchPATScopes, try. wp_calls.
- done.
- done.
Qed.
Lemma host_lawful c h : HostCredentials.newHostCredentialsProvider cfg (Some c) = Returns (Ok h) -> lawful (PHost h).
Proof using.
intros [= <-]. split.
- intros t st. cbn [lookup_of HostCredentials.h_lookup gl_Fetch].
  unfold HostCredentials.fetch_answer, HostCredentials.Fetch. wp_calls.
- done.
- done.
Qed.
Lemma github_lawful fetch c g : (forall t st, safe_all (fun _ => True) (fetch t st)) ->
GitHub.newGithub fetch cfg (Some c) = Returns (Ok g) -> lawful (PGitHub g).
Proof using.
intros Hf. unfold GitHub.newGithub. destruct (GitHub.NewDownloadFileCapability _); [|done]. intros [= <-].
apply lawful_generic; [done| |].
- intros t. unfold TtlMetadataExpirationPolicy. wp_calls.
- done.
Qed.
(** What GitHub's fetching does for any number of pages *)
Lemma github_fetch_safe fuel t st : safe_all (fun _ => True) (GitHub.doFetch fuel t st).
Proof using.
unfold GitHub.doFetch, GitHub.fetchUserAndScopes, GitHub.FetchAll.
assert (forall token page state, safe_all (fun _ => True) (GitHub.fetch_pages fuel token page state)) as Hp.
{ induction fuel as [|fuel IH]; intros token page state; cbn [GitHub.fetch_pages]; wp_calls. }
wp_calls.
Qed.
End providers.

(** ** The operator's providers *)

Section operator.
Context {X : Externals} {J : Quay.JwtParser} (cfg : OperatorConfiguration).
Context (fetch_github : SPIAccessToken -> bool -> prog (res (option TokenMetadata))).
Context (Hfetch : forall t st, safe_all (fun _ => True) (fetch_github t st)).
Let factory := operator_factory cfg fetch_github.

(** A factory that asks for nothing but configurations and makes lawful providers *)
Definition lawful_factory (f : Factory provider) : Prop :=
forall url ns, safe_all (fun o => match o with Val (Ok p) => lawful p | _ => True end) (Factory_FromRepoUrl f url ns).

Lemma constructed_lawful t c p : In t (ServiceProviderTypeHostCredentials :: SupportedServiceProviderTypes) ->
constructed_by factory t c p -> lawful p.
Proof using Hfetch.
intros Ht (init & ctor & Hi & Hc & Hs & _). cbn [fac_Initializers factory operator_factory] in Hi.
apply registered in Hi; [|done]. subst init. destruct Ht as [<-|[<-|[<-|[<-|[]]]]];
  cbn in Hc; injection Hc as <-; unfold constructor in Hs.
- destruct (HostCredentials.newHostCredentialsProvider cfg (Some c)) as [[h|]|] eqn:E; [|done..]. injection Hs as <-.
  by eapply host_lawful.
- destruct (GitHub.newGithub _ _ _) as [[g|]|] eqn:E; [|done..]. injection Hs as <-. by eapply github_lawful.
- destruct (GitLab.newGitlab _ _) as [[g|]|] eqn:E; [|done..]. injection Hs as <-. by eapply gitlab_lawful.
- destruct (QuayProvider.newQuay _ _) as [q|] eqn:E; [|done]. injection Hs as <-. by eapply quay_lawful.
Qed.

Lemma initializer_probes t init : In t SupportedServiceProviderTypes ->
GetInitializer (fac_Initializers factory) t = Ok init -> exists examine, Probe init = Some (probe examine).
Proof using.
unfold GetInitializer. destruct (_ !! _) as [i|] eqn:Hi; [|done]. intros Ht [= <-].
apply registered in Hi; [|by right]. subst i. destruct Ht as [<-|[<-|[<-|[]]]]; cbn; by eexists.
Qed.

Lemma try_types_quiet types url ns : (forall t, In t types -> In t SupportedServiceProviderTypes) ->
safe_all (fun _ => True) (try_types factory types ns url).
Proof using.
intros Hsup. induction types as [|t types IH]; cbn [try_types]; [by wp_step|].
wp_seq; [unfold SpConfigFromUserSecret, findUserServiceProviderConfigSecret; wp_calls|].
wp_step; [|by wp_step]. cbv zeta. wp_seq.
- unfold initializeServiceProvider. destruct (GetInitializer _ t) as [init|] eqn:Ei; [|by wp_step].
  apply initializer_probes in Ei as [examine ->]; [|by apply Hsup; left]. unfold probe. wp_calls.
- wp_step; [|by wp_step]. wp_step; [|by wp_step]. wp_step; [by wp_step|]. apply IH. intros t' Ht'. apply Hsup. by right.
Qed.
Lemma operator_lawful : lawful_factory factory.
Proof using Hfetch.
intros url ns. eapply wp_mono.
- apply (wp_exec _ _ (fun _ => True) (fun o => match o with Val (Ok p) => lawful p | _ => True end)).
  + unfold Factory_FromRepoUrl. wp_step; [|by wp_step]. by apply try_types_quiet.
  + intros tr [[p|]|] H; [|done..]. apply FromRepoUrl_provenance in H as (u & t & c & _ & Hc & Ho).
    eapply constructed_lawful; [|exact Hc]. by eapply origin_type.
- by intros o [_ H].
Qed.
End operator.

(** ** The composition *)

Section composition.
Context {X : Externals} {J : Quay.JwtParser} (f : Factory provider) (lookup : lookup_program).
Context (Hf : lawful_factory f) (Hlookup : lawful_lookups lookup).

Lemma generic_safe l t : lawful_lookup l -> good_token t ->
safe_all (fun r => good_as t r.1) (PersistMetadata_generic l t).
Proof using. apply Ensure_safe. Qed.

Lemma credentials_safe p m : lawful p -> safe_all (fun _ => True) (credentials_of lookup p m).
Proof using Hlookup.
intros Hp. unfold credentials_of, LookupCredentials_generic, lookupRemoteSecrets, lookupRemoteSecretSecret, lookupSCMSecret.
wp_seq; [eapply wp_mono; [by apply Hlookup|done]|wp_calls].
Qed.
Hint Resolve credentials_safe : contracts.
Lemma check_safe p c : lawful p -> safe_all (fun _ => True) (p_CheckRepositoryAccess lookup p c).
Proof using Hlookup.
intros Hp. destruct p; cbn [p_CheckRepositoryAccess];
  unfold GitHub.CheckRepositoryAccess, GitHub.checkPublicRepoAccess, GitHub.checkPrivateRepoAccess,
    GitLab.CheckRepositoryAccess, GitLab.checkPublicRepoAccess, GitLab.checkPrivateRepoAccess, GitLab.CreateAuthenticatedClient,
    QuayProvider.CheckRepositoryAccess, QuayProvider.requestRepoInfo, Quay.doQuayRequest, try; wp_calls.
Qed.
Lemma download_safe p spec c n : safe_all (fun _ => True) (p_DownloadFile p spec c n).
Proof using.
destruct p; cbn [p_DownloadFile]; unfold GitHub.DownloadFile, GitLab.DownloadFile, GitLab.CreateAuthenticatedClient; wp_calls.
Qed.
Lemma refresh_safe p t c : safe_all (fun _ => True) (p_RefreshToken p t c).
Proof using. destruct p; cbn [p_RefreshToken]; unfold GitLab.RefreshToken; wp_calls. Qed.
Lemma map_safe p b t td : good_token t -> safe_all (fun _ => True) (p_MapToken p b t td).
Proof using.
intros Ht. destruct p; cbn [p_MapToken]; try by wp_step. wp_seq; [|wp_calls]. unfold QuayProvider.MapToken.
wp_seq; [eapply wp_mono; [by apply FetchRepo_safe|done]|wp_calls].
Qed.

(** The methods of a provider keep the promises of their interface. *)
Lemma quiet_method {Y} (p : prog (go Y)) (Q : go Y -> Prop) : (forall r, Q r) -> safe_all (fun _ => True) p -> safe_all Q p.
Proof using. intros HQ H. eapply wp_mono; [exact H|]. intros r _. apply HQ. Qed.
Lemma provide_safe p {Y} (e : SpE Y) method : lawful p -> sp_gives versions e -> provide lookup p e = Some method ->
safe_all (fun r => match r with Returns x => sp_takes versions e x | Panics _ => True end) method.
Proof using Hlookup.
intros Hp Hg H.
destruct e; cbn [provide] in H; try discriminate H; injection H as <-; cbn [sp_takes sp_gives] in *;
  try (apply quiet_method; [by intros []|]).
- unfold returning, p_LookupTokens. eapply wp_bind; [|intros r Hr; wp_step; exact Hr].
  eapply wp_bind; [by apply Hlookup|]. intros r Hr. destruct p, r; by wp_step.
- unfold returning, p_LookupCredentials. wp_seq; [wp_calls|by wp_step].
- unfold returning. eapply (wp_bind _ _ (fun r => good_as t r.1)); [|intros r Hr; wp_step; exact Hr].
  destruct p; cbn [p_PersistMetadata]; (eapply wp_bind; [by apply generic_safe|]); intros [t' err] Ht'; by wp_step.
- by apply check_safe.
- unfold returning. wp_seq; [by apply map_safe|by wp_step].
- by wp_step.
- apply download_safe.
- apply refresh_safe.
Qed.

(** A program that is safe against the interface of the providers is safe when
  they are in its place. *)
Lemma wp_with_providers {A} (Q : A -> Prop) (p : prog A) : safe Q p ->
forall cur, (forall q, cur = Some q -> lawful q) ->
safe_all (fun r => match r with Returns a => Q a | Panics _ => True end) (with_providers f lookup cur p).
Proof using Hf Hlookup.
induction p as [a|Y e k IH]; intros H cur Hc; [exact H|]. destruct H as [Hg Hk].
assert (forall x, takes versions _ e x -> safe_all (fun r => match r with Returns a => Q a | Panics _ => True end)
          (with_providers f lookup cur (k x))) as Hplain by (intros x Hx; by apply IH; [apply Hk|]).
assert (forall se : SpE Y, e = Sp se -> forall method, method_of lookup cur se = Some method ->
  safe_all (fun r => match r with Returns a => Q a | Panics _ => True end)
    (let! r := method in match r with Returns x => with_providers f lookup cur (k x) | Panics what => Ret (Panics what) end)) as Hmethod.
{ intros se -> method Hm. destruct cur as [q|]; [|done].
  eapply wp_bind; [by eapply provide_safe; [apply Hc| |]|]. intros [x|w] Hx; [|by wp_step]. by apply Hplain. }
destruct e as [Y e|Y e|Y e|Y e|Y e|Y e|Y e|Y e|Y e|Y e|Y e|kd o|]; try by (split; [exact Hg|exact Hplain]).
destruct e as [url ns| | | | | | | | | |];
  try (destruct cur as [q|]; first [by eapply Hmethod|by split]).
cbn [with_providers]. eapply wp_bind; [apply Hf|]. intros [[q|err]|] Ho; [| |by wp_step].
- apply IH; [by apply Hk|]. by intros q' [= <-].
- by apply IH; [apply Hk|].
Qed.
End composition.
End packages.
