(* ===== verification/Delivery.v ===== *)
(** * From a request of a user to the controllers that wait for the token

    The handlers of oauth/ with their dependencies in place: the token storage that
    cmd/oauth builds (NotifyingTokenStorage over the storage of remote-secret)
    instead of the interface [UserStore], and the factory of the users' clients
    instead of [CreateUserClient] (in the storage as well: the announcement is
    created by a client of the user).  What reaches the secret storage and the
    cluster, and who is woken by it. *)

From S2P Require Import Prelude GoStd GoUrl GoPath Api Externals SpErrors Effects Samples SpConfig TokenStorage OAuthState OAuthSync OAuthService ClientFactory Enqueue Wiring.
Local Open Scope string_scope.
Local Open Scope list_scope.
Local Open Scope spi_scope.

(** ** Implementations in the place of calls *)

Section interp.
Context (h : forall Y, Ev Y -> option (prog Y)).

Fixpoint interp {A} (p : prog A) : prog A :=
match p with
| Ret a => Ret a
| Vis e k =>
    match h _ e with
    | Some q => bind q (fun x => interp (k x))
    | None => Vis e (fun x => interp (k x))
    end
end.

(** [tr] is [tr'] with a run of the implementation in place of each such call. *)
Fixpoint refines (tr tr' : list act) : Prop :=
match tr' with
| [] => tr = []
| Act e x :: rest' =>
    match h _ e with
    | Some q => exists seg rest, tr = seg ++ rest /\ exec q seg x /\ refines rest rest'
    | None => exists rest, tr = Act e x :: rest /\ refines rest rest'
    end
end.

Lemma interp_exec {A} (p : prog A) tr a : exec (interp p) tr a -> exists tr', exec p tr' a /\ refines tr tr'.
Proof using.
revert tr. induction p as [a'|Y e k IH]; intros tr H; cbn [interp] in H.
{ exists []. by destruct H. }
destruct (h Y e) as [q|] eqn:Eh.
- apply exec_bind in H as (x & tr1 & tr2 & -> & H1 & (tr' & H2 & Hr)%IH). exists (Act e x :: tr').
  split; [by apply exec_Vis|]. cbn [refines]. rewrite Eh. by exists tr1, tr2.
- destruct H as (x & tr2 & -> & (tr' & H2 & Hr)%IH). exists (Act e x :: tr').
  split; [by apply exec_Vis|]. cbn [refines]. rewrite Eh. by exists tr2.
Qed.

(** A call that has no implementation is still there. *)
Lemma refines_in tr tr' Y (e : Ev Y) x : refines tr tr' -> h _ e = None -> In (Act e x) tr' -> In (Act e x) tr.
Proof using.
revert tr. induction tr' as [|[Y' e' x'] tr' IH]; intros tr Hr He Hin; [done|]. cbn [refines] in Hr. destruct Hin as [Heq|Hin].
- assert (h Y' e' = None) as He'.
  { change (h (Act e' x').(act_ty) (Act e' x').(act_ev) = None). by rewrite Heq. }
  rewrite He' in Hr. destruct Hr as (rest & -> & _). left. exact Heq.
- destruct (h Y' e') as [q|].
  + destruct Hr as (seg & rest & -> & _ & Hr). apply in_app_iff. right. by apply IH.
  + destruct Hr as (rest & -> & Hr). right. by apply IH.
Qed.
End interp.

(** ** The storage of the OAuth service *)

(** What NotifyingTokenStorage delegates to, in the context of a user *)
Definition storage_call (auth namespace : string) (Y : Type) (e : Ev Y) : option (prog Y) :=
  match e in Ev Y return option (prog Y) with
  | Ts e => Some (DefaultTokenStorage.impl _ e)
  | Ss e => match e in SecretStorageE Y return option (prog Y) with
            | Effects.CreateClient => Some (call (Oa (CreateUserClient auth namespace)))
            | _ => None
            end
  | _ => None
  end.
Definition user_store (auth namespace : string) (owner : SPIAccessToken) (t : Token) : prog (option goerr) :=
  interp (storage_call auth namespace) (NotifyingTokenStorage.Store owner t).

(** The storage in NewRouter and in the uploader of cmd/oauth *)
Definition service_call (Y : Type) (e : Ev Y) : option (prog Y) :=
  match e in Ev Y return option (prog Y) with
  | Oa e => match e in OauthE Y return option (prog Y) with
            | UserStore auth namespace owner t => Some (user_store auth namespace owner t)
            | _ => None
            end
  | _ => None
  end.

(** A handler of the service *)
Definition in_service {W : WorkspaceApi} (f : K8sClientFactory) {A} (p : prog A) : prog A :=
  with_user_clients f (interp service_call p).

(** ** Effects

    What a run stores, and writes to the cluster with any client *)

Inductive effect :=
| Stores (owner : SPIAccessToken) (t : Token) (r : option goerr)
| Writes (w : kube_write)
| Updates (auth : string) (k : kind) (o : obj k) (r : res (obj k))
| Alters (** any other change of a storage *).

Definition obs_effect (a : act) : option effect :=
  match act_ev a in Ev Y return Y -> option effect with
  | Kube e => fun x => option_map Writes (kube_write_of e x)
  | Ss e => match e in SecretStorageE Y return Y -> option effect with
            | TypedStore owner t => fun r => Some (Stores owner t r)
            | TypedGet _ | RawGet _ | Effects.CreateClient => fun _ => None
            | _ => fun _ => Some Alters
            end
  | Oa e => match e in OauthE Y return Y -> option effect with
            | UserUpdate auth k o => fun r => Some (Updates auth k o r)
            | _ => fun _ => None
            end
  | _ => fun _ => None
  end (act_res a).
Definition effects (tr : list act) : list effect := omap obs_effect tr.
Lemma effects_app tr1 tr2 : effects (tr1 ++ tr2) = effects tr1 ++ effects tr2.
Proof. apply omap_app. Qed.

(** Calls without an effect, other than an update of a user *)
Definition calm (a : act) : Prop := obs_user a = None -> obs_effect a = None.

(** What storing the data for a token object comes to: it fails; or the data are
    stored, but a client for the announcement cannot be had, or the announcement
    cannot be created; or the data are stored and announced. *)
Definition announces (owner : SPIAccessToken) (r : res (obj KDataUpdate)) : effect :=
  Writes (WCreate KDataUpdate (NotifyingTokenStorage.data_update owner) r).
Inductive delivery (owner : SPIAccessToken) (t : Token) : option goerr -> list effect -> Prop :=
| not_stored err e : delivery owner t (Some e) [Stores owner t (Some err)]
| stored_silently e : delivery owner t (Some e) [Stores owner t None]
| not_announced err e : delivery owner t (Some e) [Stores owner t None; announces owner (Err err)]
| stored_announced u : delivery owner t None [Stores owner t None; announces owner (Ok u)].

Lemma user_store_exec auth ns owner t tr r : exec (user_store auth ns owner t) tr r -> delivery owner t r (effects tr).
Proof.
  unfold user_store, NotifyingTokenStorage.Store, NotifyingTokenStorage.createDataUpdate. intros H.
  cbn [interp bind call kube storage_call DefaultTokenStorage.impl DefaultTokenStorage.Store] in H.
  destruct H as ([err|] & tr1 & -> & H); cbn [interp bind] in H; [destruct H as [-> ->]; constructor|].
  destruct H as ([err|] & tr2 & -> & H); cbn [interp bind] in H; [destruct H as [-> ->]; constructor|].
  destruct H as ([u|err] & tr3 & -> & H); cbn [interp bind] in H; destruct H as [-> ->]; constructor.
Qed.

(** The effects of the writes that a handler makes on behalf of a user *)
Definition effects_of (w : user_write) (l : list effect) : Prop :=
  match w with
  | UwUpdate auth k o r => l = [Updates auth k o r]
  | UwStore _ _ owner t r => delivery owner t r l
  end.
Lemma service_effects tr' : forall tr, refines service_call tr tr' -> Forall calm tr' ->
  exists ls, Forall2 effects_of (user_writes tr') ls /\ effects tr = concat ls.
Proof.
  induction tr' as [|[Y e x] tr' IH]; intros tr Hr Hc.
  { rewrite Hr. exists []. split; [constructor|done]. }
  apply List.Forall_cons_iff in Hc as [Ha Hc]. cbn [refines] in Hr. destruct (service_call Y e) as [q|] eqn:Eq.
  - destruct Hr as (seg & rest & -> & Hq & (ls & Hls & Heff)%IH); [|done].
    destruct e as [Z e|Z e|Z e|Z e|Z e|Z e|Z e|Z e|Z e|Z e|Z e|kd o|]; try discriminate Eq.
    destruct e; try discriminate Eq. injection Eq as <-. apply user_store_exec in Hq.
    exists (effects seg :: ls). rewrite effects_app, Heff. split; [|done]. by constructor.
  - destruct Hr as (rest & -> & (ls & Hls & Heff)%IH); [|done]. rewrite user_writes_cons.
    unfold calm in Ha. destruct (obs_user (Act e x)) as [w|] eqn:Ew.
    + destruct e as [Z e|Z e|Z e|Z e|Z e|Z e|Z e|Z e|Z e|Z e|Z e|kd o|]; try discriminate Ew.
      destruct e; try discriminate Ew; try discriminate Eq. injection Ew as <-.
      exists ([Updates auth k o x] :: ls). split; [by constructor|]. exact (f_equal (cons (Updates auth k o x)) Heff).
    + exists ls. split; [done|]. rewrite <- Heff. unfold effects. cbn [omap list_omap]. by rewrite (Ha eq_refl).
Qed.

(** The factory of the clients has no effect. *)
Section clients.
Context {W : WorkspaceApi} (f : K8sClientFactory).

Definition quiet (a : act) : Prop := obs_effect a = None.
Lemma quiet_effects tr : Forall quiet tr -> effects tr = [].
Proof using. induction 1 as [|a tr Ha _ IH]; [done|]. unfold effects in *. cbn. by rewrite Ha. Qed.
Lemma user_client_quiet auth ns : every quiet (user_client f auth ns).
Proof using.
unfold user_client, CreateClient, doCreateClient, new_client, fetchWorkspaceName, fetchAllAvailableWorkspaces, every.
repeat (sat_step || sat_seq); done.
Qed.
Lemma clients_effects tr' : forall tr, implements f tr tr' -> effects tr = effects tr'.
Proof using.
induction tr' as [|a tr' IH]; intros tr H; cbn [implements] in H; [by rewrite H|].
destruct (asks_client a) as [[[auth ns] e]|] eqn:Ea.
- destruct H as (r & seg & rest & -> & Hs & _ & Hr). apply user_client_quiet in Hs as [Hs _].
  rewrite effects_app, (quiet_effects _ Hs), (IH _ Hr). destruct a as [Y e' x].
  destruct e' as [Z e'|Z e'|Z e'|Z e'|Z e'|Z e'|Z e'|Z e'|Z e'|Z e'|Z e'|kd o|]; try discriminate Ea. by destruct e'.
- destruct H as (rest & -> & Hr). unfold effects in *. cbn. by rewrite (IH _ Hr).
Qed.
Lemma implements_in tr tr' a : implements f tr tr' -> asks_client a = None -> In a tr' -> In a tr.
Proof using.
revert tr. induction tr' as [|b tr' IH]; intros tr H Ha Hin; [done|]. cbn [implements] in H. destruct Hin as [->|Hin].
- rewrite Ha in H. destruct H as (rest & -> & _). by left.
- destruct (asks_client b) as [[[auth ns] e]|].
  + destruct H as (r & seg & rest & -> & _ & _ & Hr). apply in_app_iff. right. by apply IH.
  + destruct H as (rest & -> & Hr). right. by apply IH.
Qed.

(** A call that stays in the service: it is made by a handler of the service
  whenever the handler makes it. *)
Definition stays {Y} (e : Ev Y) : bool :=
match e with Oa (CreateUserClient _ _) | Oa (UserStore _ _ _ _) => false | _ => true end.

(** The run of a handler in the service *)
Lemma in_service_exec {A} (p : prog A) tr a : every calm p -> exec (in_service f p) tr a ->
exists tr' ls, exec p tr' a /\ Forall2 effects_of (user_writes tr') ls /\ effects tr = concat ls /\
  forall Y (e : Ev Y) x, stays e = true -> In (Act e x) tr' -> In (Act e x) tr.
Proof using.
intros Hp (tr1 & H & Hc)%with_user_clients_exec. apply interp_exec in H as (tr' & H & Hr).
destruct (Hp _ _ H) as [Hcalm _]. destruct (service_effects tr' tr1 Hr Hcalm) as (ls & Hls & Heff).
exists tr', ls. split_and!; [done|done|by rewrite (clients_effects _ _ Hc)|].
intros Y e x He Hin. apply (implements_in _ _ _ Hc); [|eapply refines_in; [exact Hr| |exact Hin]];
  destruct e as [Z e|Z e|Z e|Z e|Z e|Z e|Z e|Z e|Z e|Z e|Z e|kd o|]; try done; by destruct e.
Qed.
End clients.

(** ** The handlers *)

Section handlers.
Context {X : Externals} {E : OAuthExternals}.

Lemma calm_attempt auth key data : every calm (upload_attempt auth key data).
Proof using. unfold upload_attempt, every. repeat (sat_step || sat_seq); done. Qed.
Lemma calm_retry n fn : every calm fn -> every calm (RetryOnConflict n fn).
Proof using.
intros H. unfold every in *. induction n as [|[|n] IH]; cbn [RetryOnConflict]; (sat_seq; [exact H|]); repeat sat_step; done.
Qed.
Lemma calm_upload name ns r : every calm (HandleUpload name ns r).
Proof using. unfold HandleUpload, Upload, every. repeat (sat_step || sat_seq); done. Qed.
Lemma calm_callback cfg controllers r : every calm (Callback_ServeHTTP cfg controllers r).
Proof using.
unfold Callback_ServeHTTP, Callback, findController, finishOAuthExchange, UnveilState, GetTokenFromSession, GetString, StateVeiledAt,
  GetInt64, syncTokenData, spi_syncTokenData, rs_syncTokenData, obtainOauthConfig, SpConfigFromUserSecret,
  findUserServiceProviderConfigSecret, every.
repeat (sat_step || sat_seq || apply calm_retry || apply calm_attempt); done.
Qed.

(** What the strategies save *)
Lemma spi_sync_exec x tr e : exec (spi_syncTokenData x) tr e ->
(user_writes tr = [] /\ e <> None) \/
exists owner r, user_writes tr = [UwStore (ex_authorizationHeader x) (ex_ObjectNamespace x) owner (api_token (ex_token x)) r] /\
  In (Act (Oa (UserGet (ex_authorizationHeader x) KToken (mkKey (ex_ObjectNamespace x) (ex_ObjectName x)))) (Ok owner)) tr /\
  (e = None <-> r = None).
Proof using.
intros H. unfold spi_syncTokenData in H. exec_steps. destruct x0 as [err|]; exec_steps; [by left|].
destruct x0 as [owner|err]; exec_steps; [|by left]. right. exists owner, x0.
destruct x0; exec_steps; (split; [done|]); (split; [cbn; tauto|done]).
Qed.
(** Updates of the remote secret with the data of the exchange: all failed but the
  last one when success is reported *)
Definition rs_update (x : Exchange) (rs : RemoteSecret) (r : res RemoteSecret) : user_write :=
UwUpdate (ex_authorizationHeader x) KRemoteSecret (set_rs_StringUploadData (upload_data (ex_token x)) rs) r.
Lemma rs_sync_writes x tr e : exec (rs_syncTokenData x) tr e ->
exists failed final, user_writes tr = failed ++ final /\
  Forall (fun w => exists rs err, w = rs_update x rs (Err err)) failed /\
  match e with None => exists rs rs', final = [rs_update x rs (Ok rs')] | Some _ => final = [] end.
Proof using.
intros (failed & final & -> & _ & Hf & Hfin)%rs_sync_exec.
assert (Forall (fun w => exists rs err, w = rs_update x rs (Err err)) failed) as Hfailed.
{ eapply List.Forall_impl; [|exact Hf]. intros w (rs & err & _ & [-> _]). by exists rs, err. }
destruct e as [err0|].
- exists (failed ++ final), []. split; [by rewrite app_nil_r|]. split; [|done]. apply Forall_app_2; [done|].
  destruct Hfin as [->|(rs & err & w & -> & [-> _])]; [constructor|]. constructor; [by exists rs, err|constructor].
- destruct Hfin as (rs & rs' & w & -> & [-> _]). exists failed, [rs_update x rs (Ok rs')]. split_and!; [done..|by exists rs, rs'].
Qed.
End handlers.

Section callback.
Context {X : Externals} {E : OAuthExternals} (cfg : OAuthServiceConfiguration).

(** The page that says the flow is complete *)
Definition success : response := RedirectTo (TrimSuffix (sc_BaseUrl (osc_Shared cfg)) "/" +:+ "/" +:+ "callback_success") StatusFound.

(** The exchange of a request, made for the object that a state of its session
  names, with the Kubernetes token of the session *)
Definition exchanged (r : Request) (x : Exchange) (tr : list act) : Prop :=
(exists stateString first info, In (Act (Oa (SessGet (Query_Get r "state"))) (Some (SessString stateString))) tr /\
   ParseInto stateString first = Ok info /\ ex_ObjectName x = oi_ObjectName info /\ ex_ObjectNamespace x = oi_ObjectNamespace info) /\
In (Act (Oa (SessGet k8sTokenParameterKey)) (Some (SessString (ex_authorizationHeader x)))) tr /\
exists c, In (Act (Oa (ExchangeCode c (redirectUrl cfg) (FormValue r "code") (FormValue r "scope"))) (Ok (ex_token x))) tr.

(** What the callback of a controller comes to *)
Definition called_back (spType : ServiceProviderType) (r : Request) (tr : list act) (out : list response) : Prop :=
(user_writes tr = [] /\ ~ In success out) \/
exists x strategy seg e, exchanged r x tr /\ In (Act (Oa (GetSyncStrategy (spt_Name spType))) strategy) tr /\
  exec (syncTokenData strategy x) seg e /\ incl seg tr /\ user_writes tr = user_writes seg /\ (In success out <-> e = None).
Lemma Callback_called spType r state tr out : exec (Callback cfg spType r state) tr out -> called_back spType r tr out.
Proof using.
intros ([er err] & tr1 & tr2 & -> & H1 & H)%exec_bind. apply finish_exec in H1. destruct err as [err|].
{ left. destruct H as [-> ->]. rewrite app_nil_r. split; [done|]. by intros [[=]|[]]. }
destruct H1 as (s & info & auth & token & c & -> & Hw & Hs & Hp & Hne & Ha & Hx). right.
cbn [er_result er_exchange] in H. unfold call at 1 in H. cbn [bind] in H. destruct H as (strategy & tr3 & -> & H).
apply exec_bind in H as (e & tr4 & tr5 & -> & H1 & H).
assert (tr5 = [] /\ (In success out <-> e = None)) as [-> Hout].
{ destruct e; destruct H as [-> ->]; (split; [done|]); split; try done; [by intros [[=]|[]]|by left]. }
rewrite app_nil_r. eexists _, strategy, tr4, e. split; [split; [|split]|split; [|split; [exact H1|split; [|split; [|exact Hout]]]]].
- exists s, state, info. split_and!; try done. apply in_app_iff. by left.
- apply in_app_iff. by left.
- exists c. apply in_app_iff. by left.
- apply in_app_iff. right. by left.
- intros a Hin. apply in_app_iff. right. by right.
- by rewrite user_writes_app, Hw.
Qed.

Lemma called_back_longer spType r tr tr1 tr2 out out' : user_writes tr1 = [] -> user_writes tr2 = [] ->
(In success out' <-> In success out) -> called_back spType r tr out -> called_back spType r (tr1 ++ tr ++ tr2) out'.
Proof using.
intros H1 H2 Ho Hc. unfold called_back. rewrite !user_writes_app, H1, H2, app_nil_r, Ho.
destruct Hc as [Hc|(x & strategy & seg & e & Hx & Hg & He & Hi & Hw)]; [by left|right].
assert (incl tr (tr1 ++ tr ++ tr2)) as Hm by (intros a Ha; rewrite !in_app_iff; tauto).
exists x, strategy, seg, e. split_and!; try (by apply Hw); try done; [|by apply Hm|intros a Ha; by apply Hm, Hi|by rewrite Ho; apply Hw].
destruct Hx as ((s & first & info & Hx1 & Hx2) & Hx3 & c & Hx4).
split; [exists s, first, info; split; [by apply Hm|done]|]. split; [by apply Hm|]. exists c. by apply Hm.
Qed.
Lemma Callback_ServeHTTP_called controllers r tr out : exec (Callback_ServeHTTP cfg controllers r) tr out ->
(user_writes tr = [] /\ ~ In success out) \/ exists spType, In spType controllers /\ called_back spType r tr out.
Proof using.
intros (found & tr1 & tr2 & -> & H1 & H)%exec_bind. pose proof H1 as [Hq%harmless_user_writes _]%findController_harmless.
destruct found as [[ctrl state]|err].
2: { left. destruct H as [-> ->]. rewrite app_nil_r. split; [done|]. by intros [[=]|[]]. }
right. exists ctrl. apply findController_exec in H1 as (s & strategy & _ & Hin & _). split; [done|].
apply exec_bind in H as (written & tr3 & tr4 & -> & Hc%Callback_called & H).
assert (user_writes tr4 = [] /\ (In success out <-> In success written)) as [H4 Ho].
{ apply exec_bind in H as (v & tr5 & tr6 & -> & Hv & H).
  assert (every harmless (StateVeiledAt r)) as Hs by (unfold StateVeiledAt, GetInt64, every; repeat (sat_step || sat_seq); done).
  apply Hs in Hv as [Hv%harmless_user_writes _]. rewrite user_writes_app, Hv.
  destruct v; destruct H as [-> ->]; (split; [done|]); [tauto|]. rewrite in_app_iff. split; [|by left]. intros [|[[=]|[]]]; done. }
by eapply called_back_longer.
Qed.
End callback.

(** ** What success means *)

Section delivered.
Context {X : Externals} {G : Generations}.

(** The events of the announcement [u], which the server keeps as it was sent, wake
  the owner of the data and the bindings that are linked to it. *)
Definition wakes (owner : SPIAccessToken) (u : SPIAccessTokenDataUpdate) : Prop :=
kept (NotifyingTokenStorage.data_update owner) u -> forall c : change (obj KDataUpdate), c = Created u \/ c = Deleted u ->
forall name ctl tr reqs, In (name, ctl) wiring -> exec (requests ctl (Changed KDataUpdate c)) tr reqs -> woken owner u name tr reqs.
Lemma announcement_wakes owner u : wakes owner u.
Proof using. intros [Hs Hn] c Hc name ctl tr reqs. by apply change_of_update_wakes. Qed.

(** The data reached the storage of the token object, and what depends on it, if
  this is reported. *)
Definition delivered (owner : SPIAccessToken) (data : Token) (reported : Prop) (tr : list act) : Prop :=
exists result, delivery owner data result (effects tr) /\ (reported <-> result = None) /\
  (reported -> exists u, effects tr = [Stores owner data None; announces owner (Ok u)] /\ wakes owner u).
Lemma delivery_delivered owner data result (reported : Prop) tr : delivery owner data result (effects tr) ->
(reported <-> result = None) -> delivered owner data reported tr.
Proof using.
intros Hd Hr. exists result. split_and!; [done..|]. intros ->%Hr. inversion Hd as [| | |u Hu Heff].
exists u. split; [done|apply announcement_wakes].
Qed.

(** The effects of no writes, and of one storing *)
Lemma no_effects ws ls : ws = [] -> Forall2 effects_of ws ls -> concat ls = [].
Proof using. intros -> H. by inversion H. Qed.
Lemma stored_effects auth ns owner data r ls : Forall2 effects_of [UwStore auth ns owner data r] ls -> delivery owner data r (concat ls).
Proof using. intros H. inversion H as [|w l ws ls' Hw Hnil]; subst. inversion Hnil; subst. cbn. by rewrite app_nil_r. Qed.
Definition rs_updated (x : Exchange) (rs : RemoteSecret) (r : res RemoteSecret) : effect :=
Updates (ex_authorizationHeader x) KRemoteSecret (set_rs_StringUploadData (upload_data (ex_token x)) rs) r.
Lemma exchanged_in {E : OAuthExternals} cfg r x tr tr' : (forall Y (e : Ev Y) y, stays e = true -> In (Act e y) tr' -> In (Act e y) tr) ->
exchanged cfg r x tr' -> exchanged cfg r x tr.
Proof using.
intros H ((s & first & info & H1 & H2) & H3 & c & H4). split; [exists s, first, info; split; [by apply H|done]|].
split; [by apply H|]. exists c. by apply H.
Qed.
Lemma failed_effects x ws ls : Forall (fun w => exists rs err, w = rs_update x rs (Err err)) ws -> Forall2 effects_of ws ls ->
Forall (fun e => exists rs err, e = rs_updated x rs (Err err)) (concat ls).
Proof using.
intros Hw H. induction H as [|w l ws ls Hl _ IH]; [constructor|]. apply List.Forall_cons_iff in Hw as [(rs & err & ->) Hw].
cbn in Hl. subst l. constructor; [by exists rs, err|by apply IH].
Qed.
End delivered.

(** C11 A finished OAuth flow has delivered the token.  The callback composed with the
    storage and the clients of the service: either nothing is stored or written
    anywhere and success is not shown; or a code was exchanged for a token, for
    the object that a state of the session names and with the Kubernetes token of
    the session, and, by the strategy of the moment, the token is stored for the
    token object that was read for that user and announced, or it is written into the
    remote secret.  The redirect to the page of success is among the responses
    exactly when the data were stored and one announcement of them was
    created, whose events wake the controllers of what depends on the token (or when
    the last update of the remote secret succeeded); when a step fails the effects
    end there. *)
Theorem callback_delivers {X : Externals} {E : OAuthExternals} {W : WorkspaceApi} {G : Generations}
    cfg f controllers r tr out :
  exec (in_service f (Callback_ServeHTTP cfg controllers r)) tr out ->
  (effects tr = [] /\ ~ In (success cfg) out) \/
  exists x spType strategy, exchanged cfg r x tr /\ In spType controllers /\
    In (Act (Oa (GetSyncStrategy (spt_Name spType))) strategy) tr /\
    match strategy with
    | SpiSync => exists owner,
        In (Act (Oa (UserGet (ex_authorizationHeader x) KToken (mkKey (ex_ObjectNamespace x) (ex_ObjectName x)))) (Ok owner)) tr /\
        delivered owner (api_token (ex_token x)) (In (success cfg) out) tr
    | RsSync => exists failed final, effects tr = failed ++ final /\
        Forall (fun e => exists rs err, e = rs_updated x rs (Err err)) failed /\
        ((final = [] /\ ~ In (success cfg) out) \/ (exists rs rs', final = [rs_updated x rs (Ok rs')]) /\ In (success cfg) out)
    end.
Proof.
  intros (tr' & ls & H & Hls & Heff & Hin)%in_service_exec; [|apply calm_callback].
  apply Callback_ServeHTTP_called in H as [[Hw Hn]|(spType & Hsp & [[Hw Hn]|(x & strategy & seg & e & Hx & Hg & He & Hi & Hw & Hs)])].
  1, 2: left; split; [|done]; by rewrite Heff, (no_effects _ _ Hw Hls).
  rewrite Hw in Hls. destruct strategy; cbn [syncTokenData] in He.
  - apply spi_sync_exec in He as [[Hnone Hfail]|(owner & result & Hst & Hget & Hr)].
    { left. split; [by rewrite Heff, (no_effects _ _ Hnone Hls)|]. by rewrite Hs. }
    right. exists x, spType, SpiSync. rewrite Hst in Hls. apply stored_effects in Hls. rewrite <- Heff in Hls.
    split_and!; [by apply (exchanged_in _ _ _ _ _ Hin)|done|by apply Hin|]. exists owner. split; [by apply Hin, Hi|].
    eapply delivery_delivered; [exact Hls|]. by rewrite Hs.
  - right. exists x, spType, RsSync. split_and!; [by apply (exchanged_in _ _ _ _ _ Hin)|done|by apply Hin|].
    apply rs_sync_writes in He as (failed & final & Hwr & Hf & Hfin). rewrite Hwr in Hls.
    apply Forall2_app_inv_l in Hls as (ls1 & ls2 & Hl1 & Hl2 & ->). exists (concat ls1), (concat ls2).
    rewrite Heff, concat_app. split_and!; [done|by eapply failed_effects|]. destruct e as [err|].
    + left. rewrite Hs. split; [|done]. by apply (no_effects _ _ Hfin Hl2).
    + right. rewrite Hs. split; [|done]. destruct Hfin as (rs & rs' & ->). exists rs, rs'.
      inversion Hl2 as [|w l ws ls' Hl Hnil]; subst. inversion Hnil; subst. cbn in *. by rewrite Hl.
Qed.

(** C12 An upload that is answered with 204 has delivered the token.  The upload
    over HTTP composed with the storage and the clients of the service: every
    request gets exactly one response; data are stored at most once, for the token
    object that was read under the name and namespace of the route on behalf of
    the bearer of the request's token, when both are well-formed and the body
    decodes to the data with a non-empty access token; the answer is 204 exactly
    when the data were stored and one announcement of them was created, whose
    events wake the controllers of what depends on the token.  A request without a
    bearer token makes no call at all and gets 401. *)
Theorem upload_delivers {X : Externals} {E : OAuthExternals} {W : WorkspaceApi} {G : Generations} f name namespace r tr out :
  exec (in_service f (HandleUpload name namespace r)) tr out ->
  exists st body, out = [Respond st body] /\
  ((effects tr = [] /\ st <> StatusNoContent) \/
   exists auth owner data, AuthFromRequest r = Ok auth /\ name <> "" /\ namespace <> "" /\
     IsValidLabelValue name = [] /\ IsDNS1123Label namespace = [] /\
     DecodeToken (rq_Body r) = Ok data /\ td_AccessToken data <> "" /\
     In (Act (Oa (UserGet auth KToken (mkKey namespace name))) (Ok owner)) tr /\
     delivered owner data (st = StatusNoContent) tr) /\
  (is_ok (AuthFromRequest r) = false -> tr = [] /\ st = StatusUnauthorized).
Proof.
  destruct (AuthFromRequest r) as [auth|err] eqn:Ea.
  2: { unfold HandleUpload. rewrite Ea. intros [-> ->]. eexists _, _. split; [reflexivity|]. split; [by left|done]. }
  intros (tr' & ls & H & Hls & Heff & Hin)%in_service_exec; [|apply calm_upload].
  apply upload_handler_guarded in H as (st & body & -> & Hcases & _). exists st, body. split; [done|]. split; [|done].
  destruct Hcases as [[Hw Hst]|(auth' & owner & data & stored & Hw & Ha & Hn & Hns & Hl & Hd & Hdec & Hne & Hget & Hs)].
  - left. split; [|done]. by rewrite Heff, (no_effects _ _ Hw Hls).
  - right. rewrite Hw in Hls. apply stored_effects in Hls. rewrite <- Heff in Hls. exists auth', owner, data.
    rewrite Ea in Ha. split_and!; try done; [by apply Hin|]. by eapply delivery_delivered.
Qed.

(** ** Concrete runs *)

Definition callback_in_service : prog (list response) :=
  in_service sample_factory (Callback_ServeHTTP service_config controllers (callback_request "veil")).
Definition callback_run : list act * list response := (run_trace with_workspaces callback_in_service veiled_session).1.
Definition upload_in_service : prog (list response) :=
  in_service sample_factory (HandleUpload "obj" "ns" (mkRequest [] [] "Bearer t0ken" "d4ta")).
Definition upload_run : list act * list response := (run_trace with_workspaces upload_in_service (∅, ∅)).1.
Definition strategies_of (tr : list act) : list SyncStrategy :=
  omap (fun a => match act_ev a in Ev Y return Y -> option SyncStrategy with
                 | Oa e => match e in OauthE Y return Y -> option SyncStrategy with GetSyncStrategy _ => Some | _ => fun _ => None end
                 | _ => fun _ => None
                 end (act_res a)) tr.
Lemma strategies_in spType s tr : In (Act (Oa (GetSyncStrategy spType)) s) tr -> In s (strategies_of tr).
Proof. intros H. apply list_elem_of_In, list_elem_of_omap. eexists. by split; [apply list_elem_of_In|]. Qed.

Lemma callback_delivers_witness :
  callback_run.2 = [success service_config] /\
  exists owner data u, effects callback_run.1 = [Stores owner data None; announces owner (Ok u)] /\ wakes owner u.
Proof.
  assert (callback_run.2 = [success service_config]) as Hout by (vm_compute; reflexivity).
  assert (strategies_of callback_run.1 = [SpiSync]) as Hst by (vm_compute; reflexivity).
  split; [exact Hout|].
  destruct (callback_delivers service_config sample_factory controllers (callback_request "veil") callback_run.1 callback_run.2
    (run_trace_exec with_workspaces callback_in_service veiled_session)) as [[_ H]|(x & spType & strategy & _ & _ & Hs & H)].
  - destruct H. rewrite Hout. left. reflexivity.
  - apply strategies_in in Hs. rewrite Hst in Hs. destruct Hs as [<-|[]].
    destruct H as (owner & _ & result & _ & _ & Hu). rewrite Hout in Hu. destruct (Hu (or_introl eq_refl)) as (u & Heff & Hw).
    exists owner, (api_token (ex_token x)), u. split; [exact Heff|exact Hw].
Defined.

Lemma upload_delivers_witness :
  upload_run.2 = [Respond StatusNoContent ""] /\
  exists owner data u, effects upload_run.1 = [Stores owner data None; announces owner (Ok u)] /\ wakes owner u.
Proof.
  assert (upload_run.2 = [Respond StatusNoContent ""]) as Hout by (vm_compute; reflexivity).
  split; [exact Hout|].
  destruct (upload_delivers sample_factory "obj" "ns" (mkRequest [] [] "Bearer t0ken" "d4ta") upload_run.1 upload_run.2
    (run_trace_exec with_workspaces upload_in_service (∅, ∅))) as (st & body & Ho & H & _).
  rewrite Hout in Ho. injection Ho as <- <-.
  destruct H as [[_ H]|(auth & owner & data & _ & _ & _ & _ & _ & _ & _ & _ & result & _ & _ & Hu)]; [destruct (H eq_refl)|].
  destruct (Hu eq_refl) as (u & Heff & Hw). exists owner, data, u. split; [exact Heff|exact Hw].
Defined.
