(* ===== verification/Cluster.v ===== *)
(** * The operator, the OAuth service and the users around one cluster

    The controllers of controllers/, composed with the provider packages, and the
    handlers of oauth/, composed with their storage and the clients of their users
    ([Delivery]), as threads beside each other, the API server that stores
    the SPIAccessToken and SPIAccessTokenBinding objects between them, and the users.  A step is one call of
    one thread: the calls of different reconciliations and requests interleave
    arbitrarily, those of the goroutines of a lookup included, a read may come from a
    cache that is behind, a write may fail after it was done, and a thread may
    end at any moment. *)

From S2P Require Import Prelude GoStd GoUrl Api Externals SpErrors Effects Samples SpConfig Factory Lookup AccessTokenMapper Enqueue Contracts.
From S2P Require TokenController BindingController RequestControllers TokenUpload RemoteSecretOAuth OtherControllers.
From S2P Require GitHub Quay QuayProvider.
From S2P Require Import OAuthState OAuthSync OAuthService Providers System Schedules Packages.
From S2P Require ClientFactory TokenStorage Delivery.
Local Open Scope string_scope.
Local Open Scope list_scope.
Local Open Scope spi_scope.
#[local] Hint Resolve incl_refl : core.

(** ** The API server *)

(** What the server knows of a kind: the key, the specification and the status
    of an object; the status is a subresource (config/crd). *)
Class Resource (A : Type) := mkResource {
  r_Spec_type : Type;
  r_Status_type : Type;
  r_Key : A -> ObjectKey;
  r_Spec : A -> r_Spec_type;
  r_Status : A -> r_Status_type;
  no_status : r_Status_type;
  restatus : r_Status_type -> A -> A;
  restatus_key st o : r_Key (restatus st o) = r_Key o;
  restatus_spec st o : r_Spec (restatus st o) = r_Spec o;
  restatus_status st o : r_Status (restatus st o) = st }.
#[export] Instance token_resource : Resource SPIAccessToken :=
  mkResource SPIAccessToken SPIAccessTokenSpec SPIAccessTokenStatus at_Key at_Spec at_Status
    (mkTokenStatus "" "" "" "" "" None) set_at_Status
    (fun _ _ => eq_refl) (fun _ _ => eq_refl) (fun _ _ => eq_refl).
#[export] Instance binding_resource : Resource SPIAccessTokenBinding :=
  mkResource SPIAccessTokenBinding SPIAccessTokenBindingSpec SPIAccessTokenBindingStatus b_Key b_Spec b_Status
    (mkBindingStatus "" "" "" "" "" "" (mkTargetObjectRef "" "" "") []) set_b_Status
    (fun _ _ => eq_refl) (fun _ _ => eq_refl) (fun _ _ => eq_refl).

(** The objects of a kind, and every version that the cluster ever had of one *)
Record shelf (A : Type) := mkShelf { now : gmap ObjectKey A; past : list A }.
Arguments mkShelf {A}.
Arguments now {A}.
Arguments past {A}.
Definition empty_shelf {A} : shelf A := mkShelf ∅ [].

Section shelves.
Context {A : Type} {resource : Resource A}.

Definition put (t : A) (s : shelf A) : shelf A := mkShelf (<[r_Key t := t]> (now s)) (t :: past s).
Definition drop_key (key : ObjectKey) (s : shelf A) : shelf A := mkShelf (delete key (now s)) (past s).

(** The version [t] that the server makes of the object [o] that is written: a
  creation drops the status and names an object without a name, an update keeps
  the stored status, and an update of the status keeps the rest. *)
Definition created (s : shelf A) (o t : A) : Prop :=
now s !! r_Key t = None /\ r_Spec t = r_Spec o /\ r_Status t = no_status /\
key_Namespace (r_Key t) = key_Namespace (r_Key o) /\ (key_Name (r_Key o) <> "" -> key_Name (r_Key t) = key_Name (r_Key o)) /\
key_Namespace (r_Key t) <> "" /\ key_Name (r_Key t) <> "".
Definition updated (s : shelf A) (o t : A) : Prop :=
exists cur, now s !! r_Key o = Some cur /\ r_Key t = r_Key o /\ r_Spec t = r_Spec o /\ r_Status t = r_Status cur.
Definition status_updated (s : shelf A) (o t : A) : Prop :=
exists cur, now s !! r_Key o = Some cur /\ r_Key t = r_Key o /\ r_Spec t = r_Spec cur /\ r_Status t = r_Status o.
(** Also what a deletion makes of an object with finalizers *)
Definition kept (s : shelf A) (o t : A) : Prop :=
exists cur, now s !! r_Key o = Some cur /\ r_Key t = r_Key o /\ r_Status t = r_Status cur.

(** A write that makes a version as [R] says; an error may come before or after
  it is made. *)
Definition written_on (R : shelf A -> A -> A -> Prop) (o : A) (s : shelf A) (x : res A) (s' : shelf A) : Prop :=
match x with
| Ok t => R s o t /\ s' = put t s
| Err _ => s' = s \/ exists t, R s o t /\ s' = put t s
end.
Definition removed_from (o : A) (s s' : shelf A) : Prop :=
s' = s \/ s' = drop_key (r_Key o) s \/ exists t, kept s o t /\ s' = put t s.

(** Every stored object, and every version, is as [P] says. *)
Definition on_shelf (P : A -> Prop) (s : shelf A) : Prop :=
map_Forall (fun key t => r_Key t = key /\ P t) (now s) /\ Forall P (past s).

Lemma put_on P t s : P t -> on_shelf P s -> on_shelf P (put t s).
Proof using. intros Ht [H1 H2]. split; [by apply map_Forall_insert_2|by constructor]. Qed.
Lemma drop_on P key s : on_shelf P s -> on_shelf P (drop_key key s).
Proof using. intros [H1 H2]. split; [by apply map_Forall_delete|done]. Qed.
Lemma written_past R o s x s' : written_on R o s x s' -> incl (past s) (past s').
Proof using.
destruct x as [t|err]; [intros [_ ->]|intros [->|(t & _ & ->)]]; [by apply incl_tl|done|by apply incl_tl].
Qed.
Lemma removed_past o s s' : removed_from o s s' -> incl (past s) (past s').
Proof using. intros [->|[->|(t & _ & ->)]]; [done..|]. by apply incl_tl. Qed.
(** A write keeps what holds of the version that it makes. *)
Lemma written_sound P Q R o s x s' : on_shelf P s ->
(forall t, R s o t -> In t (past s') -> P t /\ Q t) -> written_on R o s x s' -> on_shelf P s' /\ answered (fun t => P t /\ Q t) x.
Proof using.
intros Hs HR. destruct x as [t|err].
- intros [Ht ->]. apply HR in Ht; [|by left]. split; [apply put_on; [apply Ht|done]|done].
- intros [->|(t & Ht & ->)]; (split; [|done]); [done|]. apply HR in Ht; [|by left]. apply put_on; [apply Ht|done].
Qed.
Lemma removed_sound P o s s' : on_shelf P s -> (forall t, kept s o t -> P t) -> removed_from o s s' -> on_shelf P s'.
Proof using. intros Hs HR [->|[->|(t & Ht & ->)]]; [done|by apply drop_on|]. apply put_on; [by apply HR|done]. Qed.
(** What the stored object with the key and the status of a new version tells of it *)
Definition of_status (P : A -> Prop) : Prop := forall t t', P t -> r_Key t' = r_Key t -> r_Status t' = r_Status t -> P t'.
Lemma kept_on P s o t : of_status P -> on_shelf P s -> kept s o t -> P t.
Proof using.
intros HP [Hs _] (cur & Hc & Hk & Est). destruct (Hs _ _ Hc) as [Ek H]. apply (HP _ _ H); [|done]. by rewrite Hk, Ek.
Qed.
Lemma updated_kept s o t : updated s o t -> kept s o t.
Proof using. intros (cur & ? & ? & _ & ?). by exists cur. Qed.
End shelves.

(** ** The store *)

Record store := mkStore { st_tokens : shelf SPIAccessToken; st_bindings : shelf SPIAccessTokenBinding }.

(** What a write makes of an object of any kind *)
Definition rule : Type := forall A, Resource A -> shelf A -> A -> A -> Prop.
Definition write (R : rule) {k} : obj k -> store -> res (obj k) -> store -> Prop :=
  match k return obj k -> store -> res (obj k) -> store -> Prop with
  | KToken => fun o s x s' => written_on (R _ _) o (st_tokens s) x (st_tokens s') /\ st_bindings s' = st_bindings s
  | KBinding => fun o s x s' => written_on (R _ _) o (st_bindings s) x (st_bindings s') /\ st_tokens s' = st_tokens s
  | _ => fun _ s _ s' => s' = s
  end.
Definition remove {k} : obj k -> store -> store -> Prop :=
  match k return obj k -> store -> store -> Prop with
  | KToken => fun o s s' => removed_from o (st_tokens s) (st_tokens s') /\ st_bindings s' = st_bindings s
  | KBinding => fun o s s' => removed_from o (st_bindings s) (st_bindings s') /\ st_tokens s' = st_tokens s
  | _ => fun _ s s' => s' = s
  end.

(** A read answers versions that there were. *)
Definition version {k} (s : store) : obj k -> Prop :=
  match k return obj k -> Prop with
  | KToken => fun t => In t (past (st_tokens s)) | KBinding => fun b => In b (past (st_bindings s)) | _ => fun _ => True
  end.

Definition serve_kube {Y} (e : KubeE Y) (s : store) : Y -> store -> Prop :=
  match e in KubeE Y return Y -> store -> Prop with
  | KGet k key => fun x s' => s' = s /\ answered (fun o => version s o /\ has_key key o) x
  | KList k ns _ _ => fun x s' => s' = s /\ answered (Forall (fun o => version s o /\ within ns o)) x
  | KListNotIn k ns _ _ => fun x s' => s' = s /\ answered (Forall (fun o => version s o /\ within ns o)) x
  | KCreate k o => fun x s' => write (@created) o s x s'
  | KUpdate k o => fun x s' => write (@updated) o s x s'
  | KStatusUpdate k o => fun x s' => write (@status_updated) o s x s'
  | KPatch k o _ => fun x s' => write (@kept) o s x s'
  | KStatusPatch k o _ => fun x s' => write (fun _ _ _ _ _ => True) o s x s'
  | KDelete k o => fun _ s' => remove o s s'
  end.

(** The finalizers (tokenStorageFinalizer, linkedBindingsFinalizer,
    linkedObjectsFinalizer) change nothing but the list of finalizers.  No call of
    the interface of the providers is left in a composed program.  Everything else
    may answer anything. *)
Definition finalized {k} (o o' : obj k) : Prop := same_key o o' /\ same_status o o'.
Definition serve {Y} (e : Ev Y) (s : store) : Y -> store -> Prop :=
  match e in Ev Y return Y -> store -> Prop with
  | Kube e => serve_kube e s
  | Sp _ => fun _ _ => False
  | Finalize k o => fun x s' => s' = s /\ finalized o (fin_obj x)
  | Oa e => match e in OauthE Y return Y -> store -> Prop with
            | UserUpdate _ k o => fun x s' => write (@updated) o s x s'
            | _ => fun _ s' => s' = s
            end
  | _ => fun _ s' => s' = s
  end.
Definition served (s : store) (a : act) (s' : store) : Prop := serve (act_ev a) s (act_res a) s'.

(** What users may do with tokens and bindings: the verbs of
    config/rbac/spiaccesstoken_editor_role.yaml and
    config/rbac/spiaccesstokenbinding_editor_role.yaml, which give them no right to
    write a status *)
Inductive user_call : forall Y, KubeE Y -> Prop :=
| user_creates k o : followed k = true -> user_call _ (KCreate k o)
| user_updates k o : followed k = true -> user_call _ (KUpdate k o)
| user_patches k o base : followed k = true -> user_call _ (KPatch k o base)
| user_deletes k o : followed k = true -> user_call _ (KDelete k o).

(** ** The programs *)

Section cluster.
Context {X : Externals} {J : Quay.JwtParser} {C : RemoteSecretOAuth.Conditions} {E : OAuthExternals}
{W : ClientFactory.WorkspaceApi}.
Context (cfg : OperatorConfiguration) (ocfg : OAuthServiceConfiguration).

(** GitHub's metadata, read in at most [fuel] pages.  What is done with the answer
  of a run that ends in a panic or needs more pages does not happen; another
  [fuel] stands for longer runs. *)
Definition github_metadata (fuel : nat) (t : SPIAccessToken) (includeState : bool) : prog (res (option TokenMetadata)) :=
let! r := GitHub.doFetch fuel t includeState in
Ret match r with Some (Returns r) => r | _ => Err crashed_lookup end.
Definition providers_of (fuel : nat) : Factory provider := operator_factory cfg (github_metadata fuel).

(** A program with the packages in place of the interface of the providers, and
  the goroutines of its lookups in the order of [oracle] *)
Definition composed {A} (fuel : nat) (oracle : list nat) (cur : option provider) (p : prog A) : prog unit :=
let! _ := with_providers (providers_of fuel) (scheduled oracle) cur p in Ret tt.

(** A handler of the OAuth service, with its storage and the clients of its users *)
Definition handled (f : ClientFactory.K8sClientFactory) (p : prog (list response)) : prog unit :=
let! _ := Delivery.in_service f p in Ret tt.

(** The reconciliations of the operator and the requests of the OAuth service *)
Inductive starts : prog unit -> Prop :=
| starts_token fuel oracle req : starts (composed fuel oracle None (TokenController.Reconcile cfg req))
| starts_binding fuel oracle req : starts (composed fuel oracle None (BindingController.Reconcile cfg req))
| starts_upload fuel oracle req : starts (composed fuel oracle None (TokenUpload.Reconcile req))
| starts_check fuel oracle req : starts (composed fuel oracle None (RequestControllers.Check.Reconcile cfg req))
| starts_file fuel oracle req : starts (composed fuel oracle None (RequestControllers.File.Reconcile cfg req))
| starts_update fuel oracle req : starts (composed fuel oracle None (DataUpdate_Reconcile req))
| starts_remote_secret fuel oracle req : starts (composed fuel oracle None (RemoteSecretOAuth.Reconcile req))
| starts_environment fuel oracle req : starts (composed fuel oracle None (OtherControllers.Environment_Reconcile req))
| starts_application fuel oracle req : starts (composed fuel oracle None (OtherControllers.Application_Reconcile req))
| starts_authenticate f controllers r : starts (handled f (Authenticate_ServeHTTP ocfg controllers r))
| starts_callback f controllers r : starts (handled f (Callback_ServeHTTP ocfg controllers r))
| starts_http_upload f name ns r : starts (handled f (HandleUpload name ns r)).

(** ** The steps *)

Record cluster := mkCluster { cl_store : store; cl_threads : list (prog unit) }.

(** An object whose finalizers are gone disappears ([step_gone],
  [step_unbound]).  remote-secret's
  handler asks for the data of the secret while a thread is in the call of it, of
  the provider that the binding was given ([step_inject]). *)
Inductive step : cluster -> cluster -> Prop :=
| step_user s ths Y (e : KubeE Y) x s' :
  user_call Y e -> serve_kube e s x s' -> step (mkCluster s ths) (mkCluster s' ths)
| step_gone s ths key : step (mkCluster s ths) (mkCluster (mkStore (drop_key key (st_tokens s)) (st_bindings s)) ths)
| step_unbound s ths key : step (mkCluster s ths) (mkCluster (mkStore (st_tokens s) (drop_key key (st_bindings s))) ths)
| step_start s ths p : starts p -> step (mkCluster s ths) (mkCluster s (p :: ths))
| step_call s pre post Y (e : Ev Y) k x s' :
  serve e s x s' -> step (mkCluster s (pre ++ Vis e k :: post)) (mkCluster s' (pre ++ k x :: post))
| step_inject s ths fuel oracle b q t k type conf :
  In (Vis (Dep (DepSync b (view q) t)) k) ths ->
  In type (ServiceProviderTypeHostCredentials :: SupportedServiceProviderTypes) ->
  constructed_by (providers_of fuel) type conf q ->
  step (mkCluster s ths) (mkCluster s (composed fuel oracle (Some q) (GetData b (view q) t) :: ths))
| step_end s pre post p : step (mkCluster s (pre ++ p :: post)) (mkCluster s (pre ++ post)).

Definition started : cluster := mkCluster (mkStore empty_shelf empty_shelf) [].
Definition reachable : cluster -> Prop := rtc step started.

(** ** The invariant

  Seen from a state of the cluster: [versions] are the versions of tokens that
  there are until then. *)

Section invariant.
Context (versions : list SPIAccessToken).

Definition sound (s : store) : Prop :=
  on_shelf (good_token versions) (st_tokens s) /\ on_shelf (good_binding versions) (st_bindings s).
Definition keeps (p : prog unit) : Prop := safe_all versions (fun _ => True) p.

Lemma token_of_status : of_status (good_token versions).
Proof using. intros t t' H Hk Hs. apply (good_same _ _ _ H); [done|]. unfold presentable. rewrite (Hs : at_Status t' = at_Status t). apply H. Qed.
Lemma binding_of_status : of_status (good_binding versions).
Proof using.
intros b b' [Hn H] Hk Hs. injection Hk as Hns _. unfold good_binding, b_Namespace in *.
rewrite Hns, (Hs : b_Status b' = b_Status b). by split.
Qed.

(** The versions that a write makes are good ones. *)
Definition makes (R : rule) (s : store) {k} : obj k -> (obj k -> Prop) -> Prop :=
match k return obj k -> (obj k -> Prop) -> Prop with
| KToken => fun o Q => forall t, R _ _ (st_tokens s) o t -> In t versions -> good_token versions t /\ Q t
| KBinding => fun o Q => forall b, R _ _ (st_bindings s) o b -> good_binding versions b /\ Q b
| _ => fun _ Q => forall o', Q o'
end.
Lemma write_sound R {k} (o : obj k) Q s x s' : sound s -> incl (past (st_tokens s')) versions -> makes R s o Q ->
write R o s x s' -> sound s' /\ answered (fun o' => shows versions k o' /\ Q o') x.
Proof using.
intros [Ht Hb] Hin. destruct k; cbn [makes write]; try (intros HQ ->; split; [done|by destruct x]); intros HR [Hw Heq].
- eapply written_sound in Hw as [H1 H2]; [|done|intros t Hr Hp; apply HR; [exact Hr|by apply Hin]]. split; [|done]. split; [done|by rewrite Heq].
- eapply written_sound in Hw as [H1 H2]; [|done|intros t Hr _; by apply HR]. split; [|done]. split; [by rewrite Heq|done].
Qed.
Lemma created_makes s k (o : obj k) : makes (@created) s o (same_namespace o).
Proof using.
destruct k; try done.
- intros t (_ & _ & Est & Hns & _ & _ & Hn) Hin. split; [|done]. split; [|split; [done|by apply in_map]].
  unfold presentable. rewrite (Est : at_Status t = _). left. cbn. tauto.
- intros b (_ & _ & Est & Hns & _ & Hne & _). split; [|done]. split; [done|]. rewrite (Est : b_Status b = _). by split_and!; [left| |].
Qed.
Lemma kept_makes s k (o : obj k) : sound s -> makes (@kept) s o (same_key o).
Proof using.
intros [Ht Hb]. destruct k; try done; intros o' H; intros; (split; [|by destruct H as (? & _ & ? & _)]).
- exact (kept_on _ _ _ _ token_of_status Ht H).
- exact (kept_on _ _ _ _ binding_of_status Hb H).
Qed.
Lemma updated_makes s k (o : obj k) : sound s -> makes (@updated) s o (same_key o).
Proof using.
intros Hs. pose proof (kept_makes s k o Hs) as H. destruct k; try done; intros o' Hu; intros; apply H; try done; by apply updated_kept.
Qed.
Lemma status_updated_makes s k (o : obj k) : shows versions k o -> makes (@status_updated) s o (fun o' => same_key o o' /\ same_status o o').
Proof using.
destruct k; try done; intros Ho o' (cur & _ & Hk & _ & Hst); intros; (split; [|done]).
- exact (token_of_status _ _ Ho Hk Hst).
- exact (binding_of_status _ _ Ho Hk Hst).
Qed.
Lemma remove_sound k (o : obj k) s s' : sound s -> remove o s s' -> sound s'.
Proof using.
intros [Ht Hb]. destruct k; try (by intros ->); intros [H E'].
- split; [|by rewrite E']. eapply removed_sound; [exact Ht| |exact H]. intros t. by apply kept_on, Ht; apply token_of_status.
- split; [by rewrite E'|]. eapply removed_sound; [exact Hb| |exact H]. intros t. by apply kept_on, Hb; apply binding_of_status.
Qed.

Lemma version_shows s k (o : obj k) : sound s -> version s o -> shows versions k o.
Proof using.
intros [[_ Ht] [_ Hb]]. destruct k; try done; intros Hin; [by apply (proj1 (List.Forall_forall _ _) Ht)|by apply (proj1 (List.Forall_forall _ _) Hb)].
Qed.

(** The API server keeps sound what was sound, and answers with good objects. *)
Lemma serve_kube_sound {Y} (e : KubeE Y) s x s' : sound s -> incl (past (st_tokens s')) versions -> kube_gives versions e ->
serve_kube e s x s' -> sound s' /\ kube_takes versions e x.
Proof using.
intros Hs Hin Hg. destruct e; cbn [serve_kube kube_takes kube_gives] in *.
- intros [-> H]. split; [done|]. destruct x; [|done]. destruct H as [H Hk]. split; [by eapply version_shows|done].
- intros [-> H]. split; [done|]. destruct x; [|done]. eapply List.Forall_impl; [|exact H]. intros o [Ho Hw]. split; [by eapply version_shows|done].
- intros [-> H]. split; [done|]. destruct x; [|done]. eapply List.Forall_impl; [|exact H]. intros o [Ho Hw]. split; [by eapply version_shows|done].
- apply write_sound; [done..|apply created_makes].
- apply write_sound; [done..|by apply updated_makes].
- apply write_sound; [done..|by apply status_updated_makes].
- apply write_sound; [done..|by apply kept_makes].
- intros H. split; [|done]. destruct k; try done; by rewrite H.
- intros H. split; [by eapply remove_sound|done].
Qed.
Lemma serve_sound {Y} (e : Ev Y) s x s' : sound s -> incl (past (st_tokens s')) versions -> gives_all versions Y e ->
serve e s x s' -> sound s' /\ takes_all versions Y e x.
Proof using.
intros Hs Hin Hg. destruct e as [Y e|Y e|Y e|Y e|Y e|Y e|Y e|Y e|Y e|Y e|Y e|kd o|]; cbn [serve]; try by intros ->.
- by apply serve_kube_sound.
- done.
- destruct e; try by intros ->. intros H. eapply write_sound in H as [H _]; [by split|done..|by apply updated_makes].
- intros [-> [Hk Hst]]. split; [done|]. split; [|done].
  destruct kd; try done; [exact (token_of_status _ _ Hg Hk Hst)|exact (binding_of_status _ _ Hg Hk Hst)].
Qed.

(** Every program of the system keeps the promises. *)
Lemma github_metadata_safe fuel t st : safe_all versions (fun _ => True) (github_metadata fuel t st).
Proof using. unfold github_metadata. wp_seq; [apply github_fetch_safe|by wp_step]. Qed.
Lemma composed_keeps {A} fuel oracle cur (p : prog A) : safe versions (fun _ => True) p ->
(forall q, cur = Some q -> lawful versions q) -> keeps (composed fuel oracle cur p).
Proof using.
intros Hp Hc. unfold keeps, composed. eapply (wp_bind _ _ (fun _ => True)); [|intros r _; by wp_step].
eapply wp_mono; [apply wp_with_providers; [|apply scheduled_lawful|exact Hp|exact Hc]|done].
exact (operator_lawful versions cfg (github_metadata fuel) (github_metadata_safe fuel)).
Qed.
(** The implementations that are put in the place of calls *)
Lemma wp_interp h {A} (Q : A -> Prop) p : (forall Y (e : Ev Y) q, h Y e = Some q -> gives_all versions Y e -> safe_all versions (takes_all versions Y e) q) ->
safe_all versions Q p -> safe_all versions Q (Delivery.interp h p).
Proof using.
intros Hh. induction p as [a|Y e k IH]; intros H; [exact H|]. destruct H as [Hg Hk]. cbn [Delivery.interp].
destruct (h Y e) as [q|] eqn:Eq.
- eapply wp_bind; [by eapply Hh|]. intros x Hx. by apply IH, Hk.
- split; [exact Hg|]. intros x Hx. by apply IH, Hk.
Qed.
Lemma wp_with_user_clients f {A} (Q : A -> Prop) p : safe_all versions Q p -> safe_all versions Q (ClientFactory.with_user_clients f p).
Proof using.
induction p as [a|Y e k IH]; intros H; [exact H|]. destruct H as [Hg Hk].
assert (forall x, takes_all versions Y e x -> safe_all versions Q (ClientFactory.with_user_clients f (k x))) as Hrest
  by (intros x Hx; by apply IH, Hk).
destruct e as [Y e|Y e|Y e|Y e|Y e|Y e|Y e|Y e|Y e|Y e|Y e|kd o|]; try by split.
destruct e; try by split. cbn [ClientFactory.with_user_clients]. wp_seq; [|by apply Hrest].
unfold ClientFactory.user_client, ClientFactory.CreateClient, ClientFactory.doCreateClient, ClientFactory.new_client,
  ClientFactory.fetchWorkspaceName, ClientFactory.fetchAllAvailableWorkspaces.
wp_calls.
Qed.
Lemma user_store_safe auth ns owner t : safe_all versions (fun _ => True) (Delivery.user_store auth ns owner t).
Proof using.
unfold Delivery.user_store. apply wp_interp.
- intros Y e q Hq _. destruct e as [Y e|Y e|Y e|Y e|Y e|Y e|Y e|Y e|Y e|Y e|Y e|kd o|]; try discriminate Hq; cbn [takes_all takes].
  + destruct e; injection Hq as <-; cbn [TokenStorage.DefaultTokenStorage.impl];
      unfold TokenStorage.DefaultTokenStorage.Initialize, TokenStorage.DefaultTokenStorage.Store,
        TokenStorage.DefaultTokenStorage.Get, TokenStorage.DefaultTokenStorage.Delete; wp_calls.
  + destruct e; try discriminate Hq. injection Hq as <-. wp_calls.
- unfold TokenStorage.NotifyingTokenStorage.Store, TokenStorage.NotifyingTokenStorage.createDataUpdate. wp_calls.
Qed.
(** A composed program that asks no provider *)
Lemma safe_alone {A} (Q : A -> Prop) p : safe versions Q p -> safe_all versions Q p.
Proof using.
induction p as [a|Y e k IH]; intros H; [exact H|]. destruct H as [Hg Hk].
destruct e; (split; [done || exact Hg|]); intros x Hx; first [done|by apply IH, Hk].
Qed.
Lemma handled_keeps f p : safe versions (fun _ => True) p -> keeps (handled f p).
Proof using.
intros Hp. unfold keeps, handled. wp_seq; [|by wp_step]. apply wp_with_user_clients, wp_interp; [|by apply safe_alone].
intros Y e q Hq _. destruct e as [Y e|Y e|Y e|Y e|Y e|Y e|Y e|Y e|Y e|Y e|Y e|kd o|]; try discriminate Hq.
destruct e; try discriminate Hq. injection Hq as <-. apply user_store_safe.
Qed.
Lemma starts_keeps p : starts p -> keeps p.
Proof using.
intros []; first [apply composed_keeps; [|by intros q [=]]|apply handled_keeps];
  [apply token_Reconcile_safe|apply binding_Reconcile_safe|apply upload_Reconcile_safe|apply check_Reconcile_safe
  |apply file_Reconcile_safe|apply update_Reconcile_safe|apply remote_secret_Reconcile_safe
  |apply environment_Reconcile_safe|apply application_Reconcile_safe|apply authenticate_safe|apply callback_safe|apply upload_safe].
Qed.

Definition steady (c : cluster) : Prop := sound (cl_store c) /\ Forall keeps (cl_threads c).
Definition seen (c : cluster) : list SPIAccessToken := past (st_tokens (cl_store c)).
Lemma step_steady c c' : step c c' -> incl (seen c') versions -> steady c -> steady c'.
Proof using.
intros H Hin [Hs Ht]. destruct H as [s ths Y e x s' Hu Hsv|s ths key|s ths key|s ths p Hp|s pre post Y e k x s' Hsv|s ths fuel oracle b q t k type conf Hth Hty Hq|s pre post p];
  unfold seen in Hin; cbn [cl_store cl_threads] in *.
- split; [|done]. eapply serve_kube_sound; [exact Hs|exact Hin| |exact Hsv]. by destruct Hu.
- split; [|done]. destruct Hs as [H1 H2]. split; [by apply drop_on|done].
- split; [|done]. destruct Hs as [H1 H2]. split; [done|by apply drop_on].
- split; [done|]. constructor; [by apply starts_keeps|done].
- apply Forall_app in Ht as [Hpre [[Hg Hk] Hpost]%List.Forall_cons_iff].
  apply serve_sound in Hsv as [Hs' Hx]; [|done..]. split; [done|]. apply Forall_app_2; [done|]. constructor; [by apply Hk|done].
- split; [done|]. constructor; [|done]. pose proof (proj1 (List.Forall_forall _ _) Ht _ Hth) as [Hg _].
  apply composed_keeps; [by apply GetData_safe, Hg|]. intros q' [= <-].
  eapply constructed_lawful; [|exact Hty|exact Hq]. apply github_metadata_safe.
- split; [done|]. apply Forall_app in Ht as [Hpre [_ Hpost]%List.Forall_cons_iff]. by apply Forall_app_2.
Qed.
End invariant.

(** The versions only become more. *)
Lemma write_past R k (o : obj k) s x s' : write R o s x s' -> incl (past (st_tokens s)) (past (st_tokens s')).
Proof using. destruct k; try (by intros ->); intros [H E']; [by eapply written_past|by rewrite E']. Qed.
Lemma serve_kube_past {Y} (e : KubeE Y) s x s' : serve_kube e s x s' -> incl (past (st_tokens s)) (past (st_tokens s')).
Proof using.
destruct e; cbn [serve_kube]; try (by intros [-> _]); try apply write_past.
destruct k; try (by intros ->); intros [H E']; [by eapply removed_past|by rewrite E'].
Qed.
Lemma step_seen c c' : step c c' -> incl (seen c) (seen c').
Proof using.
intros []; unfold seen; cbn; try done; [by eapply serve_kube_past|].
destruct e as [Y e|Y e|Y e|Y e|Y e|Y e|Y e|Y e|Y e|Y e|Y e|kd o|]; cbn [serve] in *; try (by subst); [by eapply serve_kube_past| |by destruct_and!; subst].
destruct e; try (by subst). by eapply write_past.
Qed.
Lemma reachable_steady c : reachable c -> steady (seen c) c.
Proof using.
intros H. enough (forall versions, incl (seen c) versions -> steady versions c) as Hall by by apply Hall.
unfold reachable in H. revert H. apply (rtc_ind_r (fun c => forall versions, incl (seen c) versions -> steady versions c)).
- intros versions _. split; [|constructor]. by repeat split.
- intros c1 c2 _ Hst IH versions Hin. eapply step_steady; [exact Hst|exact Hin|]. apply IH.
  intros t Ht. by apply Hin, (step_seen _ _ Hst).
Qed.
End cluster.

Lemma existed_version versions key : existed versions key -> exists t, In t versions /\ at_Key t = key.
Proof. intros [_ (t & <- & Hin)%in_map_iff]. by exists t. Qed.
Lemma ready_without_error t : presentable t -> atst_Phase (at_Status t) = SPIAccessTokenPhaseReady -> atst_ErrorReason (at_Status t) = "".
Proof. intros [(_ & H & _)|[[H _]|[H _]]] E; [exact H|rewrite H in E; discriminate E..]. Qed.

(** C3 The status of a token is always presentable.  However the reconciliations of
    all the controllers, the goroutines of their lookups, the requests of the OAuth
    service, the injections of remote-secret and the users interleave, with
    reads from caches that are behind and writes that fail before or after they
    are done: in every state that the cluster reaches, the status of each token
    is of one phase of the API; without an error reason and message
    when the token is new, awaits its data or is ready; with a reason of its phase
    when it is invalid or in error. *)
Theorem tokens_always_presentable {X : Externals} {J : Quay.JwtParser} {C : RemoteSecretOAuth.Conditions}
    {E : OAuthExternals} {W : ClientFactory.WorkspaceApi} cfg ocfg c key t :
  reachable cfg ocfg c -> now (st_tokens (cl_store c)) !! key = Some t -> presentable t.
Proof. intros [[[H _] _] _]%reachable_steady Ht. by destruct (H key t Ht) as (_ & Hp & _). Qed.

(** C4 Injections are confined to the namespace and the link of the binding.
    However the reconciliations, requests, injections and users interleave: the
    status of each stored binding is of a phase of the API, the token that it is
    linked to was one of the binding's own namespace, and the binding is linked when
    it is injected; and whenever a reconciliation is about to synchronize the objects
    of a binding with the data of a token, that token is ready, without an error,
    and it is a token of the namespace of the binding that the binding is linked to. *)
Theorem injections_confined {X : Externals} {J : Quay.JwtParser} {C : RemoteSecretOAuth.Conditions}
    {E : OAuthExternals} {W : ClientFactory.WorkspaceApi} cfg ocfg c :
  reachable cfg ocfg c ->
  (forall key b, now (st_bindings (cl_store c)) !! key = Some b ->
     let linked := bst_LinkedAccessTokenName (b_Status b) in
     In (bst_Phase (b_Status b)) [""; SPIAccessTokenBindingPhaseAwaitingTokenData; SPIAccessTokenBindingPhaseInjected; SPIAccessTokenBindingPhaseError] /\
     (linked <> "" -> exists t, In t (seen c) /\ at_Key t = mkKey (key_Namespace key) linked) /\
     (bst_Phase (b_Status b) = SPIAccessTokenBindingPhaseInjected -> linked <> "")) /\
  (forall b sp t k, In (Vis (Dep (DepSync b sp t)) k) (cl_threads c) ->
     atst_Phase (at_Status t) = SPIAccessTokenPhaseReady /\ atst_ErrorReason (at_Status t) = "" /\
     at_Key t = mkKey (b_Namespace b) (bst_LinkedAccessTokenName (b_Status b)) /\
     exists v, In v (seen c) /\ at_Key v = at_Key t).
Proof.
  intros [[_ [Hb _]] Ht]%reachable_steady. split.
  - intros key b Hs. destruct (Hb key b Hs) as [<- (_ & Hp & Hl & Hi)]. split_and!; [exact Hp| |exact Hi].
    intros Hn. by apply existed_version, Hl.
  - intros b sp t k Hin. destruct (proj1 (List.Forall_forall _ _) Ht _ Hin) as [(_ & [Hp He] & Hr & Hns & Hn) _].
    apply String.eqb_eq in Hr. split_and!; [exact Hr|by apply ready_without_error|by rewrite <- Hns, <- Hn|by apply existed_version].
Qed.

(** ** A server that does as the model says *)

Section one_shelf.
Context {A : Type} {resource : Resource A}.

Definition get_from (key : ObjectKey) (s : shelf A) : res A :=
match now s !! key with Some o => Ok o | None => Err not_found end.
Definition list_from (ns : string) (s : shelf A) : list A :=
List.filter (fun o => String.eqb ns "" || String.eqb (key_Namespace (r_Key o)) ns) (map snd (map_to_list (now s))).
Definition create_on (s : shelf A) (o : A) : option A :=
match now s !! r_Key o with
| Some _ => None
| None => if String.eqb (key_Namespace (r_Key o)) "" || String.eqb (key_Name (r_Key o)) "" then None else Some (restatus no_status o)
end.
Definition update_on (s : shelf A) (o : A) : option A :=
option_map (fun cur => restatus (r_Status cur) o) (now s !! r_Key o).
Definition status_update_on (s : shelf A) (o : A) : option A :=
option_map (restatus (r_Status o)) (now s !! r_Key o).
Definition write_on (f : shelf A -> A -> option A) (o : A) (s : shelf A) : shelf A * res A :=
match f s o with Some t => (put t s, Ok t) | None => (s, Err not_found) end.

(** Every stored object is among the versions. *)
Definition recorded_on (s : shelf A) : Prop := map_Forall (fun key o => r_Key o = key /\ In o (past s)) (now s).
Lemma put_recorded o s : recorded_on s -> recorded_on (put o s).
Proof using.
intros H. apply map_Forall_insert_2; [by split; [|left]|]. eapply map_Forall_impl; [exact H|].
intros key o' [<- Hin]. split; [done|by right].
Qed.
Lemma write_recorded f o s : recorded_on s -> recorded_on (write_on f o s).1.
Proof using. intros H. unfold write_on. destruct (f s o); [by apply put_recorded|done]. Qed.
Lemma write_written f (R : shelf A -> A -> A -> Prop) o s : (forall t, f s o = Some t -> R s o t) ->
written_on R o s (write_on f o s).2 (write_on f o s).1.
Proof using. intros H. unfold write_on. destruct (f s o) as [t|] eqn:Et; cbn; [|by left]. split; [by apply H|done]. Qed.
Lemma create_created s o t : create_on s o = Some t -> created s o t.
Proof using.
unfold create_on. destruct (_ !! _) eqn:Ek; [done|]. destruct (String.eqb_spec (key_Namespace (r_Key o)) "") as [|Hns]; [done|].
destruct (String.eqb_spec (key_Name (r_Key o)) "") as [|Hn]; [done|]. intros [= <-]. unfold created.
rewrite restatus_key, restatus_spec, restatus_status. by split_and!.
Qed.
Lemma update_updated s o t : update_on s o = Some t -> updated s o t.
Proof using.
unfold update_on. destruct (_ !! _) as [cur|] eqn:Ek; [|done]. intros [= <-]. exists cur.
by rewrite restatus_key, restatus_spec, restatus_status.
Qed.
Lemma status_update_updated s o t : recorded_on s -> status_update_on s o = Some t -> status_updated s o t.
Proof using.
intros H. unfold status_update_on. destruct (_ !! _) as [cur|] eqn:Ek; [|done]. intros [= <-]. exists cur.
rewrite restatus_key, restatus_spec, restatus_status. by destruct (H _ _ Ek).
Qed.
Lemma list_past ns s : recorded_on s ->
Forall (fun o => In o (past s) /\ (ns = "" \/ key_Namespace (r_Key o) = ns)) (list_from ns s).
Proof using.
intros H. apply List.Forall_forall. intros o [([key o'] & <- & Hin)%in_map_iff Hns]%List.filter_In.
apply list_elem_of_In, elem_of_map_to_list in Hin. destruct (H _ _ Hin) as [_ Hp]. split; [done|].
apply orb_true_iff in Hns as [Hns|Hns]; apply String.eqb_eq in Hns; tauto.
Qed.
Lemma get_past key s : recorded_on s -> answered (fun o => In o (past s) /\ r_Key o = key) (get_from key s).
Proof using. intros H. unfold get_from. destruct (_ !! _) as [o|] eqn:Ek; [|done]. by destruct (H _ _ Ek). Qed.
End one_shelf.

Section server.
Context (script : script).

Definition recorded (s : store) : Prop := recorded_on (st_tokens s) /\ recorded_on (st_bindings s).
Definition making : Type := forall A, Resource A -> shelf A -> A -> option A.
Definition written (f : making) {k} : obj k -> store -> store * res (obj k) :=
match k return obj k -> store -> store * res (obj k) with
| KToken => fun o s => let r := write_on (f _ _) o (st_tokens s) in (mkStore r.1 (st_bindings s), r.2)
| KBinding => fun o s => let r := write_on (f _ _) o (st_bindings s) in (mkStore (st_tokens s) r.1, r.2)
| _ => fun o s => (s, Ok o)
end.
Definition get_object {k} (key : ObjectKey) (s : store) : res (obj k) :=
match k return res (obj k) with
| KToken => get_from key (st_tokens s) | KBinding => get_from key (st_bindings s) | k' => get_answer script k'
end.
Definition list_objects {k} (ns : string) (s : store) : res (list (obj k)) :=
match k return res (list (obj k)) with
| KToken => Ok (list_from ns (st_tokens s)) | KBinding => Ok (list_from ns (st_bindings s)) | k' => list_answer script k'
end.
Definition delete_object {k} : obj k -> store -> store :=
match k return obj k -> store -> store with
| KToken => fun t s => mkStore (drop_key (r_Key t) (st_tokens s)) (st_bindings s)
| KBinding => fun b s => mkStore (st_tokens s) (drop_key (r_Key b) (st_bindings s))
| _ => fun _ s => s
end.

Definition kube_server {Y} (e : KubeE Y) (s : store) : store * Y :=
match e in KubeE Y return store * Y with
| KGet k key => (s, get_object key s)
| KList k ns _ _ | KListNotIn k ns _ _ => (s, list_objects ns s)
| KCreate k o => written (@create_on) o s
| KUpdate k o | KPatch k o _ => written (@update_on) o s
| KStatusUpdate k o | KStatusPatch k o _ => written (@status_update_on) o s
| KDelete k o => (delete_object o s, None)
end.
Definition oauth_server {Y} (e : OauthE Y) (s : store) : store * Y :=
match e in OauthE Y return store * Y with
| UserUpdate _ k o => written (@update_on) o s
| other => (s, oauth_answer script other)
end.
Definition server : handler store := fun Y e s =>
match e in Ev Y return store * Y with
| Kube e => kube_server e s
| Oa e => oauth_server e s
| other => (s, (scripted script _ other tt).2)
end.

Lemma written_recorded f k (o : obj k) s : recorded s -> recorded (written f o s).1.
Proof using. intros [H1 H2]. destruct k; try done; split; try done; by apply write_recorded. Qed.
Lemma written_write (f : making) (R : rule) k (o : obj k) s :
(forall A r sh (o t : A), recorded_on sh -> f A r sh o = Some t -> R A r sh o t) -> recorded s ->
write R o s (written f o s).2 (written f o s).1.
Proof using. intros H [H1 H2]. destruct k; try done; (split; [|done]); apply write_written; intros; by apply H. Qed.
Lemma delete_recorded k (o : obj k) s : recorded s -> recorded (delete_object o s) /\ remove o s (delete_object o s).
Proof using.
intros [H1 H2]. destruct k; try done; (split; [|by split; [right; left|]]).
- split; [by apply map_Forall_delete|done].
- split; [done|by apply map_Forall_delete].
Qed.
Lemma get_served k key s : recorded s -> answered (fun o : obj k => version s o /\ has_key key o) (get_object key s).
Proof using.
intros [H1 H2]. destruct k; [exact (get_past _ _ H1)|exact (get_past _ _ H2)|..]; cbn; unfold answered; try case_match; done.
Qed.
Lemma list_served k ns s : recorded s -> answered (Forall (fun o : obj k => version s o /\ within ns o)) (list_objects ns s).
Proof using.
intros [H1 H2]. destruct k; [exact (list_past _ _ H1)|exact (list_past _ _ H2)|..]; cbn; try done;
  by apply List.Forall_forall.
Qed.
Lemma kube_server_serves {Y} (e : KubeE Y) s : recorded s ->
serve_kube e s (kube_server e s).2 (kube_server e s).1 /\ recorded (kube_server e s).1.
Proof using.
intros H. destruct e; cbn [serve_kube kube_server].
- split; [|done]. split; [done|by apply get_served].
- split; [|done]. split; [done|by apply list_served].
- split; [|done]. split; [done|by apply list_served].
- split; [apply written_write; [intros; by apply create_created|done]|by apply written_recorded].
- split; [apply written_write; [intros; by apply update_updated|done]|by apply written_recorded].
- split; [apply written_write; [intros; by apply status_update_updated|done]|by apply written_recorded].
- split; [apply written_write; [intros; by apply updated_kept, update_updated|done]|by apply written_recorded].
- split; [by apply written_write|by apply written_recorded].
- cbn. by apply and_comm, delete_recorded.
Qed.

(** [server] serves every call of a composed program. *)
Definition provided {Y} (e : Ev Y) : bool := match e with Sp _ => true | _ => false end.
Lemma server_serves {Y} (e : Ev Y) s : recorded s -> provided e = false ->
serve e s (server Y e s).2 (server Y e s).1 /\ recorded (server Y e s).1.
Proof using.
intros H Hsp. destruct e as [Y e|Y e|Y e|Y e|Y e|Y e|Y e|Y e|Y e|Y e|Y e|kd o|]; try done.
- by apply kube_server_serves.
- destruct e; try done. split; [apply written_write; [intros; by apply update_updated|done]|by apply written_recorded].
- split; [|done]. split; [done|]. by destruct kd.
Qed.

(** A program runs until a call where it [stop]s or its end; no call of the
  interface of the providers may be left. *)
Fixpoint advance {A} (stop : forall Y, Ev Y -> bool) (p : prog A) (s : store) : option (prog A * store) :=
match p with
| Ret a => Some (Ret a, s)
| Vis e k =>
    if stop _ e then Some (Vis e k, s) else
    if provided e then None else let '(s1, x) := server _ e s in advance stop (k x) s1
end.
Lemma advance_steps {X : Externals} {J : Quay.JwtParser} {C : RemoteSecretOAuth.Conditions} {E : OAuthExternals}
{W : ClientFactory.WorkspaceApi} cfg ocfg ths stop p q :
forall s s', recorded s -> advance stop p s = Some (q, s') ->
rtc (step cfg ocfg) (mkCluster s (p :: ths)) (mkCluster s' (q :: ths)) /\ recorded s'.
Proof using.
induction p as [a|Y e k IH]; intros s s' Hs H; cbn [advance] in H; [by injection H as <- <-|].
destruct (stop Y e); [by injection H as <- <-|]. destruct (provided e) eqn:Ep; [done|].
destruct (server_serves e s Hs Ep) as [Hv Hr]. destruct (server Y e s) as [s1 x].
destruct (IH x s1 s' Hr H) as [Hsteps Hr']. split; [|done]. eapply rtc_l; [|exact Hsteps].
exact (step_call cfg ocfg s [] ths Y e k x s1 Hv).
Qed.
End server.

(** ** A user creates a token and a binding, the controllers reconcile them *)

Definition user_token : SPIAccessToken :=
  mkSPIAccessToken "SPIAccessToken" (sample_meta "tok") (mkTokenSpec no_permissions "https://git.acme.org/acme/tool")
    (mkTokenStatus "Ready" "Forged" "by the user" "" "" None).
Definition user_binding : SPIAccessTokenBinding :=
  mkBinding (sample_meta "bind") (mkBindingSpec "https://git.acme.org/acme/tool" no_permissions sample_secret_spec "")
    (b_Status (sample_binding "bind" "" "forged")).
Definition with_user_token : store := mkStore (put (restatus no_status user_token) empty_shelf) empty_shelf.
Definition with_user_binding : store :=
  mkStore (st_tokens with_user_token) (put (restatus no_status user_binding) empty_shelf).
Definition sample_service : OAuthServiceConfiguration := mkServiceConfig (mkSharedConfig [] "https://spi") "".
(** The data of the token is in the storage. *)
Definition uploaded_script : script :=
  mkScript (Err not_found) (Err not_found) (Err not_found) (Err not_found) (Err not_found)
    (Err not_found) (Err not_found) (Err not_found) [] [] [] [] None None None
    (Ok sample_sp) (Ok []) (Ok []) None (Ok (Some (mkToken "alois" "secret" "" "" 0))) (Ok None) (Ok None) (Ok "")
    (Ok (mkDependents (sample_secret "dep" ∅ ∅) [])) None 0.
Definition never (Y : Type) (e : Ev Y) : bool := false.
Definition at_injection (Y : Type) (e : Ev Y) : bool := match e with Dep (DepSync _ _ _) => true | _ => false end.
Definition state_after {A} (r : option (prog A * store)) : store :=
  match r with Some (_, s) => s | None => mkStore empty_shelf empty_shelf end.
Definition rest_after (r : option (prog unit * store)) : prog unit := match r with Some (p, _) => p | None => Ret tt end.

Definition reconciling_token : prog unit :=
  composed (J := QuayProvider.sample_jwt) sample_config 3 [0; 1] None (TokenController.Reconcile sample_config (at_Key user_token)).
Definition reconciling_binding : prog unit :=
  composed (J := QuayProvider.sample_jwt) sample_config 3 [0; 1] None (BindingController.Reconcile sample_config (b_Key user_binding)).
Definition token_run : option (prog unit * store) := advance uploaded_script never reconciling_token with_user_binding.
Definition injecting_run : option (prog unit * store) := advance uploaded_script at_injection reconciling_binding (state_after token_run).
Definition binding_run : option (prog unit * store) :=
  advance uploaded_script never (rest_after injecting_run) (state_after injecting_run).
Definition token_state (s : store) : option (string * string) :=
  option_map (fun t => (atst_Phase (at_Status t), atst_ErrorReason (at_Status t))) (now (st_tokens s) !! at_Key user_token).
Definition binding_state (s : store) : option (string * string) :=
  option_map (fun b => (bst_Phase (b_Status b), bst_LinkedAccessTokenName (b_Status b))) (now (st_bindings s) !! b_Key user_binding).

Section sample_run.
Let reached := reachable (J := QuayProvider.sample_jwt) (C := RemoteSecretOAuth.sample_conditions)
  (E := OAuthSync.sample_oauth_externals) (W := ClientFactory.one_workspace) sample_config sample_service.

(** A thread that runs while nobody else does anything *)
Lemma advances stop p ths s r : reached (mkCluster s (p :: ths)) -> recorded s -> advance uploaded_script stop p s = r ->
is_Some r -> reached (mkCluster (state_after r) (rest_after r :: ths)) /\ recorded (state_after r).
Proof using.
intros Hp Hs Er [[q s'] ->]. cbn [state_after rest_after].
eapply advance_steps in Er as [H Hr]; [|exact Hs]. split; [|exact Hr]. unfold reached, reachable in *. by etransitivity.
Qed.

Lemma some_run {A} (o : option A) : (match o with Some _ => true | None => false end) = true -> is_Some o.
Proof using. destruct o; [by eexists|done]. Qed.
Lemma user_objects_stored : reached (mkCluster with_user_binding []) /\ recorded with_user_binding.
Proof using.
split; [|split; apply put_recorded, map_Forall_empty].
eapply rtc_l; [|apply rtc_once].
- apply (step_user _ _ _ _ _ (KCreate KToken user_token) (Ok (restatus no_status user_token)) with_user_token); [by constructor|by repeat split].
- apply (step_user _ _ _ _ _ (KCreate KBinding user_binding) (Ok (restatus no_status user_binding)) with_user_binding); [by constructor|by repeat split].
Qed.
Lemma token_reconciled : reached (mkCluster (state_after token_run) [rest_after token_run]) /\ recorded (state_after token_run).
Proof using.
destruct user_objects_stored as [H Hr].
apply (advances never reconciling_token [] with_user_binding); [|exact Hr|by unfold token_run|apply some_run; vm_compute; reflexivity].
eapply rtc_r; [exact H|]. apply step_start, starts_token.
Qed.
Lemma binding_injecting : reached (mkCluster (state_after injecting_run) [rest_after injecting_run; rest_after token_run]) /\
recorded (state_after injecting_run).
Proof using.
destruct token_reconciled as [H Hr].
apply (advances at_injection reconciling_binding [rest_after token_run] (state_after token_run));
  [|exact Hr|by unfold injecting_run|apply some_run; vm_compute; reflexivity].
eapply rtc_r; [exact H|]. apply step_start, starts_binding.
Qed.
Lemma binding_reconciled : reached (mkCluster (state_after binding_run) [rest_after binding_run; rest_after token_run]).
Proof using.
destruct binding_injecting as [H Hr].
apply (advances never (rest_after injecting_run) [rest_after token_run] (state_after injecting_run));
  [exact H|exact Hr|by unfold binding_run|apply some_run; vm_compute; reflexivity].
Qed.
End sample_run.

Lemma tokens_always_presentable_witness :
  token_state (state_after token_run) = Some (SPIAccessTokenPhaseReady, "") /\
  exists t, now (st_tokens (state_after token_run)) !! at_Key user_token = Some t /\ presentable t.
Proof.
  assert (token_state (state_after token_run) = Some (SPIAccessTokenPhaseReady, "")) as H by (vm_compute; reflexivity).
  split; [exact H|]. unfold token_state in H. destruct (now (st_tokens (state_after token_run)) !! at_Key user_token) as [t|] eqn:E; [|discriminate H].
  exists t. split; [reflexivity|]. exact (tokens_always_presentable _ _ _ _ _ (proj1 token_reconciled) E).
Defined.

Lemma injections_confined_witness :
  binding_state (state_after binding_run) = Some (SPIAccessTokenBindingPhaseInjected, "tok") /\
  (exists b, now (st_bindings (state_after binding_run)) !! b_Key user_binding = Some b /\ bst_LinkedAccessTokenName (b_Status b) = "tok" /\
     exists t, In t (past (st_tokens (state_after binding_run))) /\ at_Key t = mkKey "ns" "tok") /\
  exists b sp t k, rest_after injecting_run = Vis (Dep (DepSync b sp t)) k /\ at_Key t = mkKey "ns" "tok".
Proof.
  assert (binding_state (state_after binding_run) = Some (SPIAccessTokenBindingPhaseInjected, "tok")) as Hs by (vm_compute; reflexivity).
  split; [exact Hs|]. split.
  - unfold binding_state in Hs. destruct (now (st_bindings (state_after binding_run)) !! b_Key user_binding) as [b|] eqn:E; [|discriminate Hs].
    injection Hs as Hp Hl. exists b. split; [reflexivity|]. split; [exact Hl|].
    destruct (proj1 (injections_confined _ _ _ binding_reconciled) _ _ E) as (_ & Hlinked & _). rewrite Hl in Hlinked.
    exact (Hlinked ltac:(discriminate)).
  - assert (match rest_after injecting_run with
            | Vis (Dep (DepSync b sp t)) k => b_Namespace b = "ns" /\ bst_LinkedAccessTokenName (b_Status b) = "tok"
            | _ => False
            end) as H by (vm_compute; split; reflexivity).
    pose proof (proj2 (injections_confined _ _ _ (proj1 binding_injecting))) as Hi. cbn [cl_threads] in Hi.
    destruct (rest_after injecting_run) as [a|Y e k]; [destruct H|].
    destruct e as [Y e|Y e|Y e|Y e|Y e|Y e|Y e|Y e|Y e|Y e|Y e|kd o|]; try destruct H.
    destruct e as [|b sp t| |]; try destruct H. exists b, sp, t, k. split; [reflexivity|].
    destruct (Hi b sp t k ltac:(left; reflexivity)) as (_ & _ & -> & _). congruence.
Defined.
