(* ===== verification/Convergence.v ===== *)
(** * Reconciling a binding again changes nothing

    The binding controller watches its own object: each of its writes that changes
    something starts another reconciliation.  [reconciled] is a reference
    definition of what one reconciliation writes and leaves behind in surroundings
    that do not change; the controller is shown to do exactly that, and after at
    most four reconciliations (the normalisation of the URL, the migration, the
    reconciliation proper, the finalization) to have reached a fixed point. *)

From S2P Require Import Prelude GoStd GoUrl GoTime Api Externals SpErrors Effects Samples SpConfig AccessTokenMapper Enqueue TokenController BindingController.
Local Open Scope string_scope.
Local Open Scope list_scope.
Local Open Scope spi_scope.

(** ** Surroundings that do not change

    The answers of everything but the binding itself; one token object stands
    for the one that is read or created.  Each kind of write of the binding is
    either carried out or refused with an error. *)

Record surroundings := mkSurroundings {
  sr_provider : res ServiceProvider;
  sr_validation : res (list goerr);
  sr_lookup : res (list SPIAccessToken);
  sr_token : SPIAccessToken; sr_get : option goerr; sr_create : option goerr; sr_discard : option goerr;
  sr_checkpoint : res nat;
  sr_sync : result (string * goerr) Dependents; sr_revert : option goerr; sr_cleanup : option goerr;
  (** [Finalize] of controller-runtime, for an object that is being deleted or not:
      the finalizers to write, if they change *)
  sr_finalize : bool -> list string -> res (option (list string));
  (** the answers to an update, to an update of the status and to a deletion of the
      binding *)
  sr_update : option goerr; sr_status : option goerr; sr_delete : option goerr;
  sr_now : Z }.

(** The binding in the cluster, and its versions in the order they were written *)
Record world := mkWorld { w_binding : option SPIAccessTokenBinding; w_written : list SPIAccessTokenBinding }.

Definition is_deleted (b : SPIAccessTokenBinding) : bool := bool_decide (is_Some (om_DeletionTimestamp (b_Meta b))).
Definition finalizers (b : SPIAccessTokenBinding) : list string := om_Finalizers (b_Meta b).
Definition with_finalizers (fs : list string) (b : SPIAccessTokenBinding) : SPIAccessTokenBinding :=
  set_b_Meta (set_om_Finalizers fs (b_Meta b)) b.
Definition deleted_at (now : Z) (b : SPIAccessTokenBinding) : SPIAccessTokenBinding :=
  let m := b_Meta b in
  set_b_Meta (mkMeta (om_Name m) (om_GenerateName m) (om_Namespace m) (om_Labels m) (om_Annotations m) (om_Finalizers m)
    (om_CreationTimestamp m) (Some now)) b.

(** The server removes an object that is being deleted and has no finalizers (left). *)
Definition remaining (b : SPIAccessTokenBinding) : option SPIAccessTokenBinding :=
  match finalizers b with [] => if is_deleted b then None else Some b | _ => Some b end.

Section surroundings.
Context (env : surroundings).

(** The server keeps the status in an update and the rest in an update of the status. *)
Definition kube_around {Y} (e : KubeE Y) (w : world) : world * Y :=
match e in KubeE Y return world * Y with
| KGet k key => (w, match k return res (obj k) with
                    | KBinding => match w_binding w with Some b => Ok b | None => Err not_found end
                    | KToken => echo (sr_get env) (sr_token env)
                    | _ => Err not_found
                    end)
| KCreate k o => (w, match k return obj k -> res (obj k) with KToken => fun _ => echo (sr_create env) (sr_token env) | _ => Ok end o)
| KUpdate k o => match k return obj k -> world * res (obj k) with
                 | KBinding => fun b => match sr_update env, w_binding w with
                     | Some err, _ => (w, Err err)
                     | None, None => (w, Err not_found)
                     | None, Some cur => let v := set_b_Status (b_Status cur) b in (mkWorld (remaining v) (w_written w ++ [v]), Ok v)
                     end
                 | _ => fun o => (w, Ok o)
                 end o
| KStatusUpdate k o => match k return obj k -> world * res (obj k) with
                       | KBinding => fun b => match sr_status env, w_binding w with
                           | Some err, _ => (w, Err err)
                           | None, None => (w, Err not_found)
                           | None, Some cur => let v := set_b_Status (b_Status b) cur in (mkWorld (Some v) (w_written w ++ [v]), Ok v)
                           end
                       | _ => fun o => (w, Ok o)
                       end o
| KDelete k o => match k with
                 | KBinding => match sr_delete env with
                     | Some err => (w, Some err)
                     | None => (mkWorld (match w_binding w with Some cur => remaining (deleted_at (sr_now env) cur) | None => None end) (w_written w), None)
                     end
                 | _ => (w, sr_discard env)
                 end
| other => (w, kube_answer empty_script other)
end.
Definition finalize_around (b : SPIAccessTokenBinding) : FinalizeResult KBinding :=
match sr_finalize env (is_deleted b) (finalizers b) with
| Err err => mkFinalizeResult (k := KBinding) b false false (Some err)
| Ok None => mkFinalizeResult (k := KBinding) b false false None
| Ok (Some fs) => mkFinalizeResult (k := KBinding) (with_finalizers fs b) true false None
end.
Definition around : handler world := fun Y e w =>
match e in Ev Y return world * Y with
| Kube e => kube_around e w
| Sp e => (w, match e in SpE Y return Y with
              | FromRepoUrl _ _ => sr_provider env
              | SpValidate _ _ => sr_validation env
              | LookupTokens _ _ => sr_lookup env
              | other => sp_answer empty_script other
              end)
| Dep e => (w, match e in DepE Y return Y with
               | DepCheckPoint _ => sr_checkpoint env
               | DepSync _ _ _ => sr_sync env
               | DepRevertTo _ _ => sr_revert env
               | DepCleanup _ => sr_cleanup env
               end)
| Finalize k o => (w, match k return obj k -> FinalizeResult k with
                      | KBinding => finalize_around
                      | _ => fun o => mkFinalizeResult o false false None
                      end o)
| Now => (w, sr_now env)
| other => (w, (scripted empty_script _ other tt).2)
end.

(** What a run returns and leaves behind *)
Definition run {A} (p : prog A) (w : world) : A * world := let r := run_trace around p w in (r.1.2, r.2).
End surroundings.

(** ** The reference definition *)

Section reference.
Context {X : Externals} (cfg : OperatorConfiguration) (env : surroundings).











End reference.

(** ** The controller does what the reference definition says *)

Section equivalence.
Context {X : Externals} (cfg : OperatorConfiguration) (env : surroundings).




(** ** Linking *)




(** ** Synchronizing *)




(** ** The whole reconciliation *)




End equivalence.

(** ** The reference definition has a fixed point *)

(** What controller-runtime says of [Finalize]: the finalizers that it asks to write
    need no further change, and it adds no finalizer but the registered one. *)
Class FinalizerLaws (env : surroundings) : Prop := {
  finalized_once : forall deleted fs fs', sr_finalize env deleted fs = Ok (Some fs') -> sr_finalize env deleted fs' = Ok None;
  finalizers_known : forall deleted fs fs', sr_finalize env deleted fs = Ok (Some fs') ->
    existsb (fun f => String.eqb f deprecatedLinkedSecretsFinalizerName) fs = false ->
    existsb (fun f => String.eqb f deprecatedLinkedSecretsFinalizerName) fs' = false }.


Section fixed_point.
Context {X : Externals} (cfg : OperatorConfiguration) (env : surroundings).
Context (Hcleanup : sr_cleanup env = None).








(** *** Frames *)


(** *** When the status is written *)

Section status_written.
Context (Hstatus : sr_status env = None).



End status_written.

(** *** The live part *)




(** *** Whole passes *)

Context {Hfin : FinalizerLaws env}.
Notation linked b := (bst_LinkedAccessTokenName (b_Status b)).












(** *** Passes one after the other *)

Definition pass (req : ObjectKey) (w : world) : world := (run env (Reconcile cfg req) (mkWorld (w_binding w) [])).2.
Definition passes (req : ObjectKey) (n : nat) (b : SPIAccessTokenBinding) : world := Nat.iter n (pass req) (mkWorld (Some b) []).

End fixed_point.

(** ** The theorems *)



(** ** Witnesses *)

(** The finalizers of controller-runtime with the one of the operator, which succeeds *)
Definition is_registered (f : string) : bool := String.eqb f linkedObjectsFinalizerName.
Definition sample_finalizers (deleted : bool) (fs : list string) : res (option (list string)) :=
  if deleted then Ok (if existsb is_registered fs then Some (List.filter (fun f => negb (is_registered f)) fs) else None)
  else Ok (if existsb is_registered fs then None else Some (fs ++ [linkedObjectsFinalizerName])).

Definition steady_token : SPIAccessToken := sample_token "tok" "Ready" (Some sample_metadata).
Definition steady (t : SPIAccessToken) (cleanup status : option goerr) (now : Z) : surroundings :=
  mkSurroundings (Ok sample_sp) (Ok []) (Ok [t]) t None None None (Ok 0)
    (Ok (mkDependents (sample_secret "dep" ∅ ∅) [])) None cleanup sample_finalizers None status None now.
#[export] Instance sample_finalizers_lawful t cleanup status now : FinalizerLaws (steady t cleanup status now).
Proof.
  split; intros deleted fs fs'; cbn; unfold sample_finalizers; destruct deleted; destruct (existsb is_registered fs) eqn:E; try done; intros [= <-].
  - assert (existsb is_registered (List.filter (fun f => negb (is_registered f)) fs) = false) as ->; [|done].
    clear E. induction fs as [|f fs IH]; [done|]. cbn. destruct (is_registered f) eqn:Ef; cbn; [done|]. by rewrite Ef.
  - by rewrite existsb_app, orb_true_r.
  - intros H. clear E. revert H. induction fs as [|f fs IH]; [done|]. cbn. intros [Hf Hfs]%orb_false_iff.
    destruct (is_registered f); cbn; [by apply IH|]. rewrite Hf. by apply IH.
  - intros H. by rewrite existsb_app, H.
Qed.

Definition sample_passes (env : surroundings) (n : nat) (b : SPIAccessTokenBinding) : world :=
  passes sample_config env (mkKey "ns" "b") n b.



(** A binding that has outlived its lifetime: the deletion is requested, then the
    finalizer is removed, and the binding is gone. *)
Example expired_binding_goes :
  let env := steady steady_token None None (10000 * Second) in
  let b := with_finalizers [linkedObjectsFinalizerName] (sample_binding "b" "https://quay.io/o/r" "tok") in
  map (fun n => option_map (fun b => (is_deleted b, finalizers b)) (w_binding (sample_passes env n b))) [0; 1; 2; 3] =
  [Some (false, [linkedObjectsFinalizerName]); Some (true, [linkedObjectsFinalizerName]); None; None].
Proof. vm_compute. reflexivity. Qed.

(** While updates of the status are refused, the finalizer and the label are all
    that is written. *)
Example refused_status :
  let env := steady steady_token None (Some (ErrorString "conflict")) 0 in
  let b := sample_binding "b" "https://quay.io/o/r" "" in
  map (fun n => length (w_written (sample_passes env n b))) [1; 2] = [2; 0].
Proof. vm_compute. reflexivity. Qed.

(** While the cleanup fails, each reconciliation first clears the error and then
    writes it again: its own writes never stop starting new ones, without the delay
    between retries. *)
Definition waiting_token : SPIAccessToken := sample_token "tok" "AwaitingTokenData" None.
Definition reasons (w : world) : list string := map (fun b => bst_ErrorReason (b_Status b)) (w_written w).
Example failing_cleanup_never_settles :
  let env := steady waiting_token (Some (ErrorString "forbidden")) None 0 in
  let b := sample_binding "b" "https://quay.io/o/r" "tok" in
  reasons (sample_passes env 2 b) = [""; "TokenSync"] /\
  w_binding (sample_passes env 2 b) = w_binding (sample_passes env 1 b).
Proof. vm_compute. split; reflexivity. Qed.
